(* ===== verification/_CoqProject ===== *)
-Q . S2P
Prelude.v
Bytesx.v
Packet.v
GoStrings.v
GoFloat.v
Session.v
SessionLock.v
Sender.v
Receiver.v
Sorting.v
Transport.v
ControlChannel.v
Config.v
Hashes.v
Aes.v
Crypto.v
DataChannel.v
DataChannelSpec.v
Muxer.v
Stack.v
Workers.v
NetworkIO.v
ControlMsg.v
ReadBuffer.v
TLSSession.v
Establish.v
Tun.v
Tracex.v
Tracing.v
EndToEnd.v
Delivery.v
Client.v
ClientSession.v
DataPath.v
Setup.v
Lifecycle.v
Ping.v
GoFmt.v
Logging.v
PingReport.v
VpnTest.v
Certs.v
Mocks.v
Extras.v
Parrot.v
Command.v
Flags.v
Optional.v
