(* ===== verification/Prelude.v ===== *)
(** * minivpn: a verification library

    minivpn is an OpenVPN client in Go.  It is a stack of services that talk
    over Go channels, each with an up-worker (towards the application) and a
    down-worker (towards the network):

<<
      tun            internal/tun              the application's net.Conn
      datachannel    internal/datachannel      encryption of tunnel payloads
      tlssession     internal/tlssession       TLS, key exchange, push reply
      controlchannel internal/controlchannel   routing of control packets
      reliable       internal/reliabletransport  ordering, ACKs, retransmission
      packetmuxer    internal/packetmuxer      parsing, hard reset, routing
      networkio      internal/networkio        framing on TCP and UDP
>>

    Shared by all of them are the session manager (internal/session: packet
    counters, session identifiers, keys, negotiation state), the packet type
    (internal/model), the byte helpers (internal/bytesx) and the workers'
    lifecycle (internal/workers).  pkg/config reads the configuration,
    pkg/tracex records the handshake, and pkg/tunnel starts it all: it dials,
    internal/tun/setup.go connects the services and starts their twelve
    workers, and StartTUN waits for the session.

    ** Files

    - [Prelude]: errors, the result type [outcome] (a value, an error or a panic),
      machine integers, byte lists, tactics, hint databases, generic lemmas;
      [Assert] and [PanicOnError] of internal/runtimex.
    - [Bytesx]: internal/bytesx/bytesx.go.  [GoStrings]: what the program uses
      of Go's strings and strconv.
    - [Packet]: internal/model/packet.go, session.go, tunnelinfo.go,
      notification.go.  [ParsePacket] and [Packet_Bytes] work on bytes.
    - [Session]: internal/session.  The record [Manager]; each method, atomic
      under the manager's mutex, is a function on it.  [SessionLock]: the
      mutex, and the signal that is sent while it is held.
    - [Sender], [Receiver]: internal/reliabletransport (packets.go, sender.go,
      receiver.go).  One function per iteration of a worker.  [Sorting]: the
      sort.Interface of the queues and the routine of the standard library
      that sorts them.  [Transport]: the interfaces of model.go as classes of
      operations, with classes of laws, more than its comments promise, that
      the sender and the receiver are proved to meet; and what becomes of a
      packet that the sender is told of.
    - [ControlChannel]: internal/controlchannel, and the pipeline receiver to
      control channel.
    - [Config]: pkg/config, with the file system as a parameter.
    - [Crypto]: internal/datachannel/crypto.go over the interface [Crypto] of
      the primitives and its laws [CryptoLaws].  [Hashes] and [Aes] define
      MD5, SHA-1, SHA-2, HMAC, AES, CBC and GCM as the standards do;
      [goCrypto] is the instance made of them, so that every definition
      evaluates on the vectors of the repository's tests.
    - [DataChannel] (model) and [DataChannelSpec] (theorems):
      internal/datachannel state.go, read.go, write.go, controller.go,
      service.go.
    - [Muxer]: internal/packetmuxer/service.go.  [Stack]: muxer and data
      channel together.
    - [Workers]: internal/workers.  [NetworkIO]: internal/networkio, with the
      workers written against the class [FramingConn], of which the stream and
      the datagram framing are instances; the class [FramingLaws] is how the
      proofs share what holds of both, and the theorems are stated of each.
    - [ControlMsg], [TLSSession]: internal/tlssession.  [ReadBuffer]: the read
      loop that tlsbio.go and tun.go share.  [Establish]: negotiation, key worker
      and data channel against a server that follows key method 2.
    - [Tun]: internal/tun tun.go and tundeadline.go.
    - [Tracex]: pkg/tracex/trace.go and the accessors of internal/optional;
      [Optional]: its constructors and JSON methods.  [Tracing]: the
      interface of the tracer and the calls the components make to it.
    - [EndToEnd]: muxer, reliable transport and control channel of two peers,
      composed into one transition system with an unreliable network between
      them.  [Delivery]: what reaches the other side.  [DataPath]: the data
      channel, muxer and framing of two tunnels, from TUN to TUN.
    - [Client]: the client from [startWorkers] on as one transition system: the
      endpoint of [EndToEnd] with the TLS worker, the key worker and the data
      channel on the same session, its steps the packets, records, writes and
      clock ticks of a run.  [ClientSession]: what holds in every run.
    - [Setup]: internal/tun/setup.go and the [StartWorkers] methods, with the
      heap of channels.  [Lifecycle]: where the twelve workers block, and the
      shutdown.
    - [Extras]: extras/memoryless, obfs4 and pkg/tunnel with the body of
      [StartTUN].  [Parrot]: the TLS factory and the imitated ClientHello.
    - [GoFloat], [GoFmt]: what the program uses of float64, of fmt, strings and
      time.  [Logging]: the loggers of internal/model and cmd/minivpn/log.go.
      [Ping]: extras/ping; [PingReport]: its callbacks and output.
      [VpnTest]: the packet sequences, relay and echo server of
      internal/vpntest; [Certs]: its certificates and what is in them;
      [Mocks]: the mockable dialer, connection and address, with the dialer of
      internal/networkio over the interfaces.  [Command]: cmd/minivpn and
      [NetMask]; [Flags]: its command line, with Go's flag and strconv.

    ** What is shown

    - Codecs: packets, option strings, PKCS#7, key-method-2 messages and push
      replies survive encoding and decoding; the verdict of [ParsePacket] on
      every input is characterised and it never panics; what a peer framed is
      what the framing reader returns.
    - Reliable transport: packets are delivered in order, without gaps or
      repetition, whatever the network does; a complete prefix is delivered
      while the queue does not overflow; packets of other sessions have no
      effect.  The identifiers that the sender is told of are acknowledged by its
      next two packets, and every acknowledgement is accounted for.  The library's insertion by swaps computes the stable sort
      that the queues are described with.  The eviction loop of the sender,
      which swaps in place, refines a filter; a tick sends exactly the due packets; ACKs are the lowest
      pending identifiers; retransmission intervals follow the backoff up to
      the retry count at which the 64-bit product overflows.
    - End to end: in every run without a crash two peers refine two reliable
      first-in first-out channels of TLS records, whatever the network loses,
      duplicates and reorders, whatever the timers and the other users of the
      session do in between, and whichever packets without the session's
      identifiers third parties add; who knows an identifier, which travels in
      clear, can have any bytes delivered as the next record, since below TLS
      nothing is authenticated.  While no queue overflows, one transmission
      that gets through delivers everything written.  In the AEAD modes the
      payloads written to one TUN reach the other in order, followed by
      padding that is not removed, except those of sixteen bytes with their
      padding, which are taken for keepalives; over a network that loses,
      repeats and reorders, the non-AEAD modes without a compression byte
      deliver each payload at most once and in order, the AEAD modes every
      packet as often as it arrives.
    - From nothing to a tunnel: a negotiation with a server that follows key
      method 2 leaves a data channel that mirrors the one the server derives
      from the message it received, in both directions and every mode;
      payloads cross in the AEAD modes and in the others without a
      compression byte.
    - The whole client, from its start and over every sequence of steps: it
      refines the first-in first-out channels of control records under the
      conditions above, negotiates at most once, has a data channel only after the keys of that
      negotiation, derives the keys that the server of that negotiation
      derives, and never repeats a nonce.
    - Set-up and lifecycle: the wiring is the one that ARCHITECTURE.md draws
      and two connections it does not draw, four channels are buffered, every
      channel has one receiver and no assertion trips; a requested shutdown
      is complete after at most two steps of each worker, in every order, and
      nobody gets stuck unless one is in one of four sends outside a select;
      after the negotiation the third control packet stops the way up in every
      run.
    - Session: the manager's invariant under every operation, consecutive
      packet identifiers over any interleaving of operations, and when the
      signal sent under the mutex locks the session.
    - Data channel: the key derivation is the PRF of RFC 2246 and fills the
      four key slots; a payload written by one end is read by the other in
      both cipher families (with a compression byte, only in the AEAD modes);
      the bytes are those of the repository's test vectors; non-AEAD packets are accepted at most once; AEAD nonces are not
      repeated; in the AEAD modes only a packet that was sealed under the key
      makes [readPacket] return a payload or panic.
    - Muxer, control channel, TLS session: the opening handshake, no data
      before there are keys, the negotiation from client message to tunnel
      information, exactly the in-order control payloads reach TLS, and the
      handshake log of an opening session.
    - Configuration: accepted lines give supported options; inline blocks are
      stored exactly.
    - Around the tunnel: Start closes the connection of a failed handshake
      exactly once; the pinger's counters and statistics, and the callbacks
      that follow them; the notation, relay and witnesses the tests rely on;
      the routes the command adds and the packets it copies, and what each
      command line makes it do; one line per log entry; the ClientHello is one
      well-formed record; the test certificates load, the key belongs to the
      certificate and the certificate names the authority as its issuer; a
      socket behind a mock reads, dials and closes as the socket itself.
    - Defects of the code are theorems about what it does: crashes on a wrong
      HMAC, on an unknown opcode and on a late hard-reset tick, a full receive queue that
      stalls, missing replay protection in the AEAD modes, the misplaced
      compression byte in the non-AEAD modes, the discarded key of a second
      negotiation, a ticker reset with a zero interval, a record written while
      six are in flight that stalls the stream, a Close that hangs, control
      packets after the negotiation that block the data path, and the races
      and overflows of the pinger.

    ** Modelling choices and bounds

    - Integers are [Z] with the wrap-around of their width written out ([u8],
      [u16], [u32] and signed 64 bits); packet counters are [uint32].
    - A blocking channel operation is an effect of a step or an event given to
      it; where a [select] may choose shutdown, an argument says at which
      send it does.  An interleaving is a list of events.
    - A [time.Time] is a number of nanoseconds and every operation that reads
      the clock takes it as an argument.
    - Random bytes are arguments.
    - [sort.Sort] is called on the queues of the reliable transport, which
      hold at most twelve packets, where it is an insertion sort; the
      components use [sort_by], and [Sorting] shows that this is its result.
    - Fuel: [pHashLoop] runs with the requested length as fuel, enough because
      each iteration produces at least one byte; [moveUpWorker_run] of
      [NetworkIO] reads until its connection ends and its fuel counts packets.
      [Itoa] has one unit per bit, more than there are digits, and
      [durationLoop] one per character, each item consuming one at least;
      [extensions] of [Parrot] has one per byte.  All other loops recurse on
      their data or on a list of events.
    - In [EndToEnd] a packet on its way up passes muxer, receiver and control
      channel in one step: the channels between them are unbuffered and have
      one reader each.  The network is the set of packets ever sent.
    - A step of [Client] runs the handler of one message, write, record or
      tick to its end, the key worker with the message that wakes it; that no
      channel of one slot is ever found full is part of what is proved.
      Shutdown is in [Lifecycle], where a worker stops between its sends.
    - [io_ReadFull] of [Mocks] needs one unit of fuel more than there are
      chunks; [Parse] of [Flags] recurses on the arguments; DER elements are
      split with the length of the input as fuel.
    - In [Lifecycle] the contents of messages are abstracted: an event chooses
      among the ways the code may take; the mutex that the session holds while
      it signals Ready is followed in [SessionLock] only.
    - In [Hashes] and [Aes] the split into blocks has the length of the input
      as fuel, each block taking one byte at least.  On a partial block, where
      the library panics, [decrypt] panics and [encrypt] has returned before.
    - A [float64] is the binary64 of the Standard Library's specification
      floats; a conversion to an integer out of range gives the smallest one,
      as on amd64.
    - Text is ASCII and paths are Unix paths.

    ** Not modelled

    The text of errors, encoding/json (of the trace too), the TLS handshake
    and X.509 verification, gopacket, the obfs4 client and the parsing of URLs
    and of IPv6 addresses: libraries, and parameters of the model where the
    code uses their results.  The signatures of the test certificates.
    Accessors and deadline methods that return a constant or a field.  The
    examples, which import a package [vpn] that the repository does not have,
    and the integration driver, which runs the client against a container
    through Docker's interface.  [Client] has no shutdown and [Lifecycle] no
    message contents: the two describe the same workers, each one side of them. *)

From stdpp Require Export base list gmap sorting strings.
From Stdlib Require Export ZArith Lia.
From Stdlib Require Import Strings.Byte.

#[global] Open Scope Z_scope.

(** ** Errors

    The sentinel errors of the packages.  [fmt.Errorf] with a [%w] verb wraps
    one sentinel and adds text: the model keeps the sentinel that
    [errors.Is] finds and drops the text. *)
Inductive error : Type :=
  (* internal/bytesx *)
  | ErrEncodeOption | ErrDecodeOption | ErrPaddingPKCS7 | ErrUnpaddingPKCS7
  (* internal/model *)
  | ErrPacketTooShort | ErrEmptyPayload | ErrParsePacket | ErrMarshalPacket
  | ErrUnknownOpcode
  (* internal/session *)
  | ErrSessionExpiredKey | ErrNoRemoteSessionID | ErrSessionDataChannelKey
  | ErrRandomBytes | ErrStrconv
  (* internal/datachannel *)
  | ErrDataChannelKey | ErrBadCompression | ErrReplayAttack | ErrBadHMAC
  | ErrInitError | ErrExpiredKey | ErrInvalidKeySize | ErrUnsupportedCipher
  | ErrUnsupportedMode | ErrBadInput | ErrCannotEncrypt | ErrCannotDecrypt
  | ErrTooShort | ErrBadRemoteHMAC | ErrCannotDecode | ErrPadding
  | ErrBadPacketID
  (* internal/workers, internal/packetmuxer *)
  | ErrShutdown | ErrNotReadyForData | ErrMalformedInput
  (* internal/networkio *)
  | ErrPacketTooLarge
  (* internal/tlssession *)
  | ErrMissingHeader | ErrInvalidHeader | ErrBadControlMessage
  | ErrBadKeyMethod | ErrBadAuth | ErrBadServerReply | ErrBadCA
  | ErrBadKeypair | ErrCannotVerifyCertChain | ErrBadTLSHandshake | ErrBadParrot
  (* internal/tun *)
  | ErrCannotHandshake
  (* pkg/config *)
  | ErrBadConfig
  (* extras/ping, extras/memoryless, obfs4 *)
  | ErrPingSize | ErrPingData | ErrBadPingPacket | ErrCannotWrite | ErrCannotRead | ErrCannotSetReadDeadline
  | ErrBadRate | ErrObfs4 | ErrURL
  (* the standard library: io, net, os *)
  | ErrEOF | ErrUnexpectedEOF | ErrClosed | ErrDeadlineExceeded | ErrOS
  (* an error of code outside the repository *)
  | ErrExternal.

#[export] Instance error_eq_dec : EqDecision error.
Proof. solve_decision. Defined.

(** ** Outcomes

    A Go call returns a value, returns an error, or panics (a failed
    [runtimex.Assert], an index or slice expression out of range). *)
Inductive outcome (A : Type) : Type :=
  | Ok (a : A)
  | Err (e : error)
  | Panic.
Arguments Ok {A} a.
Arguments Err {A} e.
Arguments Panic {A}.

#[export] Instance outcome_eq_dec `{EqDecision A} : EqDecision (outcome A).
Proof. solve_decision. Defined.

#[export] Instance outcome_ret : MRet outcome := fun A a => Ok a.
#[export] Instance outcome_bind : MBind outcome := fun A B f m =>
  match m with Ok a => f a | Err e => Err e | Panic => Panic end.
#[export] Instance outcome_fmap : FMap outcome := fun A B f m =>
  match m with Ok a => Ok (f a) | Err e => Err e | Panic => Panic end.

(** [rewrap e m] is [if err != nil { return fmt.Errorf("%w: ...", e, err) }]. *)
Definition rewrap {A} (e : error) (m : outcome A) : outcome A :=
  match m with Err _ => Err e | _ => m end.

(** [runtimex.Assert] (and [PanicIfFalse]). *)
Definition Assert (b : bool) : outcome unit := if b then Ok tt else Panic.

Definition is_ok {A} (m : outcome A) : bool :=
  match m with Ok _ => true | _ => false end.

Definition panics {A} (m : outcome A) : bool :=
  match m with Panic => true | _ => false end.

Lemma bind_Ok {A B} (m : outcome A) (f : A -> outcome B) b :
  (m ≫= f) = Ok b <-> exists a, m = Ok a /\ f a = Ok b.
Proof. destruct m; cbn; naive_solver. Qed.

Lemma bind_Panic {A B} (m : outcome A) (f : A -> outcome B) :
  (m ≫= f) = Panic <-> m = Panic \/ exists a, m = Ok a /\ f a = Panic.
Proof. destruct m; cbn; naive_solver. Qed.

Lemma bind_Err {A B} (m : outcome A) (f : A -> outcome B) e :
  (m ≫= f) = Err e <-> m = Err e \/ exists a, m = Ok a /\ f a = Err e.
Proof. destruct m; cbn; naive_solver. Qed.

Lemma rewrap_Ok {A} e (m : outcome A) a : rewrap e m = Ok a <-> m = Ok a.
Proof. destruct m; cbn; naive_solver. Qed.

Lemma rewrap_Panic {A} e (m : outcome A) : rewrap e m = Panic <-> m = Panic.
Proof. destruct m; cbn; naive_solver. Qed.

(** [go_step] runs the outcome monad without touching arithmetic. *)
Ltac go_step :=
  cbn [rewrap mbind outcome_bind fmap outcome_fmap mret outcome_ret Assert negb andb orb].
Tactic Notation "go_step" "in" hyp(H) :=
  cbn [rewrap mbind outcome_bind fmap outcome_fmap mret outcome_ret Assert negb andb orb] in H.

(** [go_inv H] inverts a computation that returned: every bind in [H] is
    split into the intermediate results. *)
Ltac go_inv H :=
  lazymatch type of H with
  | (_ ≫= _) = Ok _ =>
      let x := fresh "x" in let H1 := fresh H in
      apply bind_Ok in H as (x & H1 & H); try go_inv H1; try go_inv H
  | rewrap _ _ = Ok _ => apply rewrap_Ok in H; try go_inv H
  | Ok _ = Ok _ => injection H as H; subst
  | Err _ = Ok _ => discriminate H
  | Panic = Ok _ => discriminate H
  end.

(** [zcase] splits on one integer comparison of the goal; [zcases] on all. *)
Ltac zcase :=
  match goal with
  | |- context [?a <=? ?b] => destruct (Z.leb_spec a b)
  | |- context [?a <? ?b] => destruct (Z.ltb_spec a b)
  | |- context [?a =? ?b] => destruct (Z.eqb_spec a b)
  end.
Ltac zcases := repeat (zcase; go_step; try done; try lia).

(** ** Bytes *)

Abbreviation byte := Byte.byte.

Definition b2z (b : byte) : Z := Z.of_N (Byte.to_N b).

(** [byte(z)]: conversion to an unsigned byte truncates. *)
Definition z2b (z : Z) : byte :=
  match Byte.of_N (Z.to_N (z mod 256)) with Some b => b | None => Byte.x00 end.

#[export] Instance byte_eq_dec : EqDecision byte := Byte.byte_eq_dec.

Declare Scope go_scope.
Delimit Scope go_scope with go.
Notation "'#' z" := (z2b z) (at level 9, z at level 9, format "# z") : go_scope.

Lemma b2z_range b : 0 <= b2z b < 256.
Proof.
  unfold b2z. pose proof (Byte.to_N_bounded b). lia.
Qed.

Lemma b2z_z2b z : b2z (z2b z) = z mod 256.
Proof.
  unfold b2z, z2b. pose proof (Z.mod_pos_bound z 256 eq_refl).
  destruct (Byte.of_N (Z.to_N (z mod 256))) as [b|] eqn:E.
  - apply Byte.to_of_N in E. rewrite E. lia.
  - apply Byte.of_N_None_iff in E. lia.
Qed.

Lemma b2z_inj b c : b2z b = b2z c -> b = c.
Proof.
  unfold b2z. intros H. apply N2Z.inj in H.
  pose proof (Byte.of_to_N b) as Hb. pose proof (Byte.of_to_N c) as Hc. congruence.
Qed.

Lemma z2b_b2z b : z2b (b2z b) = b.
Proof.
  apply b2z_inj. rewrite b2z_z2b. apply Z.mod_small, b2z_range.
Qed.

Lemma b2z_z2b_small z : 0 <= z < 256 -> b2z (z2b z) = z.
Proof. intros. rewrite b2z_z2b. now apply Z.mod_small. Qed.

Lemma b2z_inj_iff b c : b2z b = b2z c <-> b = c.
Proof. split; [apply b2z_inj | congruence]. Qed.

Lemma b2z_eqb b z : 0 <= z < 256 -> (b2z b =? z) = true <-> b = z2b z.
Proof.
  intros Hz. rewrite Z.eqb_eq. split; intros H.
  - apply b2z_inj. rewrite b2z_z2b_small; lia.
  - subst. now apply b2z_z2b_small.
Qed.

(** Equality of byte slices, [bytes.Equal]. *)
Definition bytes_equal (a b : list byte) : bool := bool_decide (a = b).

(** Conversions [[]byte(s)] and [string(b)]. *)
Definition bytes_of_string (s : string) : list byte := String.list_byte_of_string s.
Definition string_of_bytes (b : list byte) : string := String.string_of_list_byte b.

Lemma string_of_bytes_of_string s : string_of_bytes (bytes_of_string s) = s.
Proof. apply String.string_of_list_byte_of_string. Qed.

Lemma bytes_of_string_of_bytes b : bytes_of_string (string_of_bytes b) = b.
Proof. apply String.list_byte_of_string_of_list_byte. Qed.

(** ** Machine integers *)

Definition MaxUint8 : Z := 255.
Definition MaxUint16 : Z := 65535.
Definition MaxUint32 : Z := 4294967295.
Definition MaxInt64 : Z := 9223372036854775807.

Definition u8 (z : Z) : Z := z mod 2^8.
Definition u16 (z : Z) : Z := z mod 2^16.
Definition u32 (z : Z) : Z := z mod 2^32.
(** Two's complement wrap-around of a signed 64-bit integer. *)
Definition s64 (z : Z) : Z := (z + 2^63) mod 2^64 - 2^63.

Definition is_u32 (z : Z) : Prop := 0 <= z < 2^32.
#[export] Instance is_u32_dec z : Decision (is_u32 z).
Proof. unfold is_u32. apply _. Defined.

Lemma u32_range z : is_u32 (u32 z).
Proof. unfold is_u32, u32. now apply Z.mod_pos_bound. Qed.

Lemma u32_small z : is_u32 z -> u32 z = z.
Proof. unfold is_u32, u32. intros. now apply Z.mod_small. Qed.

Lemma s64_small z : -2^63 <= z < 2^63 -> s64 z = z.
Proof. unfold s64. intros. rewrite Z.mod_small; lia. Qed.

Create HintDb golia.
Create Rewrite HintDb golen.
#[export] Hint Resolve b2z_range u32_range : golia.

(** ** Lengths as Go [int]s *)

Definition len {A} (l : list A) : Z := Z.of_nat (length l).

Lemma len_nonneg {A} (l : list A) : 0 <= len l.
Proof. unfold len. lia. Qed.
Lemma len_nil {A} : len (@nil A) = 0.
Proof. reflexivity. Qed.
Lemma len_cons {A} (x : A) l : len (x :: l) = len l + 1.
Proof. unfold len. cbn [length]. lia. Qed.
Lemma len_app {A} (l k : list A) : len (l ++ k) = len l + len k.
Proof. unfold len. rewrite length_app. lia. Qed.
Lemma len_replicate {A} n (x : A) : len (replicate n x) = Z.of_nat n.
Proof. unfold len. now rewrite length_replicate. Qed.
Lemma len_zero_iff {A} (l : list A) : len l = 0 <-> l = [].
Proof. unfold len. destruct l; cbn [length]; split; (done || lia). Qed.

Lemma to_nat_len {A} (l : list A) : Z.to_nat (len l) = length l.
Proof. unfold len. lia. Qed.

#[export] Hint Rewrite @len_nil @len_cons @len_app @len_replicate : golen.
#[export] Hint Rewrite @length_app @length_take @length_drop @length_replicate
  @length_fmap @length_cons : golen.
#[export] Hint Resolve len_nonneg : golia.

(** ** Index and slice expressions

    [go_index b i] is [b[i]], [go_from b i] is [b[i:]] and [go_upto b j] is
    [b[:j]] on a slice whose capacity is its length; each panics out of
    range. *)
Definition go_index {A} (b : list A) (i : Z) : outcome A :=
  if (i <? 0) then Panic
  else match b !! Z.to_nat i with Some x => Ok x | None => Panic end.

Definition go_from {A} (b : list A) (i : Z) : outcome (list A) :=
  if (0 <=? i) && (i <=? len b) then Ok (drop (Z.to_nat i) b) else Panic.

Definition go_upto {A} (b : list A) (j : Z) : outcome (list A) :=
  if (0 <=? j) && (j <=? len b) then Ok (take (Z.to_nat j) b) else Panic.

Lemma go_index_Panic {A} (b : list A) i :
  go_index b i = Panic <-> i < 0 \/ len b <= i.
Proof.
  unfold go_index, len. destruct (Z.ltb_spec i 0).
  - split; [lia | done].
  - destruct (b !! Z.to_nat i) eqn:E.
    + apply lookup_lt_Some in E. split; [done | lia].
    + apply lookup_ge_None in E. split; [lia | done].
Qed.

Lemma go_from_Ok {A} (b : list A) i :
  0 <= i <= len b -> go_from b i = Ok (drop (Z.to_nat i) b).
Proof.
  intros. unfold go_from.
  destruct (Z.leb_spec 0 i), (Z.leb_spec i (len b)); cbn; (done || lia).
Qed.

Lemma go_upto_Ok {A} (b : list A) i :
  0 <= i <= len b -> go_upto b i = Ok (take (Z.to_nat i) b).
Proof.
  intros. unfold go_upto.
  destruct (Z.leb_spec 0 i), (Z.leb_spec i (len b)); cbn; (done || lia).
Qed.

(** [copy(dst, src)] into an array of [n] zeroed bytes. *)
Definition copy_zeroed (n : nat) (src : list byte) : list byte :=
  take n src ++ replicate (n - length src) Byte.x00.

Lemma length_copy_zeroed n src : length (copy_zeroed n src) = n.
Proof. unfold copy_zeroed. autorewrite with golen. lia. Qed.

Lemma copy_zeroed_exact n src : length src = n -> copy_zeroed n src = src.
Proof.
  intros <-. unfold copy_zeroed. rewrite Nat.sub_diag, firstn_all. apply app_nil_r.
Qed.

(** ** Big-endian encodings, [encoding/binary.BigEndian]

    [be_bytes n z] writes the [n] low bytes of [z], most significant first
    ([PutUint16] is [be_bytes 2], [PutUint32] is [be_bytes 4]); [be_val]
    reads a slice back ([Uint16], [Uint32]). *)
Fixpoint be_bytes (n : nat) (z : Z) : list byte :=
  match n with
  | O => []
  | S n' => z2b (Z.shiftr z (8 * Z.of_nat n')) :: be_bytes n' z
  end.

Definition be_acc (acc : Z) (l : list byte) : Z :=
  fold_left (fun a b => a * 256 + b2z b) l acc.

Definition be_val (l : list byte) : Z := be_acc 0 l.

Lemma length_be_bytes n z : length (be_bytes n z) = n.
Proof. induction n; cbn [be_bytes length]; congruence. Qed.

Lemma be_acc_app acc l : be_acc acc l = acc * 256 ^ len l + be_acc 0 l.
Proof.
  revert acc. induction l as [|b l IH]; intros acc.
  - rewrite len_nil, Z.pow_0_r. unfold be_acc. cbn [fold_left]. lia.
  - unfold be_acc in *. cbn [fold_left]. rewrite IH, (IH (0 * 256 + b2z b)).
    rewrite len_cons, Z.pow_add_r, Z.pow_1_r by (auto with golia; lia). lia.
Qed.

Lemma be_val_cons b l : be_val (b :: l) = b2z b * 256 ^ len l + be_val l.
Proof.
  unfold be_val. change (be_acc 0 (b :: l)) with (be_acc (0 * 256 + b2z b) l).
  rewrite be_acc_app. lia.
Qed.

Lemma be_val_range l : 0 <= be_val l < 256 ^ len l.
Proof.
  induction l as [|b l IH]; [vm_compute; split; congruence|].
  rewrite be_val_cons, len_cons, Z.pow_add_r, Z.pow_1_r by (auto with golia; lia).
  pose proof (b2z_range b). set (p := 256 ^ len l) in *.
  assert (b2z b * p <= 255 * p) by (apply Z.mul_le_mono_nonneg_r; lia). nia.
Qed.

Lemma be_val_bytes n z : be_val (be_bytes n z) = z mod 256 ^ Z.of_nat n.
Proof.
  induction n as [|n IH].
  - cbn. now rewrite Z.mod_1_r.
  - cbn [be_bytes]. rewrite be_val_cons, IH, b2z_z2b.
    unfold len. rewrite length_be_bytes, Z.shiftr_div_pow2 by lia.
    rewrite Z.pow_mul_r by lia. change (2 ^ 8) with 256.
    rewrite Nat2Z.inj_succ, Z.pow_succ_r, (Z.mul_comm 256) by lia.
    rewrite Z.rem_mul_r by (try apply Z.pow_nonzero; lia). lia.
Qed.

Lemma be_val_inj l k : length l = length k -> be_val l = be_val k -> l = k.
Proof.
  revert k. induction l as [|b l IH]; intros [|c k]; cbn [length]; try done.
  intros [= Hlen]. rewrite !be_val_cons. unfold len. rewrite <- Hlen. intros H.
  pose proof (be_val_range l) as Hl. pose proof (be_val_range k) as Hk.
  unfold len in Hl, Hk. rewrite <- Hlen in Hk.
  set (p := 256 ^ Z.of_nat (length l)) in *.
  assert (b2z b = b2z c) as E.
  { rewrite !(Z.mul_comm _ p) in H. apply Z.div_mod_unique in H; [tauto | lia | lia]. }
  f_equal; [now apply b2z_inj | apply IH; [done|]]. rewrite E in H. lia.
Qed.

Lemma be_bytes_mod n z : be_bytes n z = be_bytes n (z mod 256 ^ Z.of_nat n).
Proof.
  apply be_val_inj; [now rewrite !length_be_bytes|].
  now rewrite !be_val_bytes, Z.mod_mod by (apply Z.pow_nonzero; lia).
Qed.

Lemma be_bytes_val l : be_bytes (length l) (be_val l) = l.
Proof.
  apply be_val_inj; [apply length_be_bytes|].
  rewrite be_val_bytes. apply Z.mod_small, be_val_range.
Qed.

Lemma be_bytes_val' n l : length l = n -> be_bytes n (be_val l) = l.
Proof. intros <-. apply be_bytes_val. Qed.

Lemma be_val_u32 l : length l = 4%nat -> is_u32 (be_val l).
Proof. intros H. pose proof (be_val_range l) as R. unfold len in R. rewrite H in R. exact R. Qed.

#[global] Arguments be_bytes : simpl never.
#[global] Arguments z2b : simpl never.
#[global] Arguments b2z : simpl never.

#[export] Hint Rewrite @length_be_bytes : golen.
#[export] Hint Resolve be_val_u32 : golia.

(** ** Sorting by a key, [sort.Sort]

    For at most twelve elements [sort.Sort] runs an insertion sort: the
    element at index [i] moves left while it is [Less] than its neighbour.
    The queues the program sorts hold at most twelve packets. *)
Section sort_by.
Context {A : Type} (key : A -> Z).

Fixpoint insert_by (x : A) (l : list A) : list A :=
  match l with
  | [] => [x]
  | y :: t => if key x <? key y then x :: y :: t else y :: insert_by x t
  end.

Definition sort_by (l : list A) : list A := fold_left (fun acc x => insert_by x acc) l [].

Definition key_le (x y : A) : Prop := key x <= key y.
Definition key_lt (x y : A) : Prop := key x < key y.

Lemma insert_by_perm x l : insert_by x l ≡ₚ x :: l.
Proof.
  induction l as [|y l IH]; cbn; [done|].
  destruct (key x <? key y); [done|]. rewrite IH. apply Permutation_swap.
Qed.

Lemma fold_insert_perm l acc : fold_left (fun acc x => insert_by x acc) l acc ≡ₚ acc ++ l.
Proof.
  revert acc. induction l as [|x l IH]; intros acc; cbn.
  - now rewrite app_nil_r.
  - rewrite IH, insert_by_perm. cbn. apply Permutation_middle.
Qed.

Lemma sort_by_perm l : sort_by l ≡ₚ l.
Proof. unfold sort_by. now rewrite fold_insert_perm. Qed.

Lemma insert_by_sorted x l :
  StronglySorted key_le l -> StronglySorted key_le (insert_by x l).
Proof.
  induction 1 as [|y l Hs IH Hall]; cbn; [repeat constructor|].
  destruct (Z.ltb_spec (key x) (key y)).
  - repeat (constructor; try done); unfold key_le; [lia|].
    eapply Forall_impl; [exact Hall|]. unfold key_le. intros; lia.
  - constructor; [done|]. rewrite insert_by_perm. constructor; [unfold key_le; lia | done].
Qed.

Lemma sort_by_sorted l : StronglySorted key_le (sort_by l).
Proof.
  unfold sort_by. assert (StronglySorted key_le (@nil A)) as H by constructor.
  revert H. generalize (@nil A) as acc. induction l as [|x l IH]; cbn; [done|].
  intros acc H. apply IH, insert_by_sorted, H.
Qed.

Lemma insert_by_last x l : Forall (fun y => key y <= key x) l -> insert_by x l = l ++ [x].
Proof.
  induction 1 as [|y l Hy _ IH]; cbn; [done|].
  destruct (Z.ltb_spec (key x) (key y)); [lia|]. now rewrite IH.
Qed.

Lemma sort_by_id l : StronglySorted key_le l -> sort_by l = l.
Proof.
  unfold sort_by. change l with ([] ++ l) at 1 3. generalize (@nil A) as acc.
  induction l as [|x l IH]; cbn; intros acc Hs; [now rewrite app_nil_r|].
  rewrite insert_by_last.
  - rewrite IH; rewrite <- app_assoc; done.
  - apply Forall_forall. intros y Hy.
    eapply (StronglySorted_app_1_elem_of key_le acc (x :: l)); [exact Hs | exact Hy | left].
Qed.

Lemma length_sort_by l : length (sort_by l) = length l.
Proof. now rewrite sort_by_perm. Qed.

Lemma Sorted_lt_le l : StronglySorted key_lt l -> StronglySorted key_le l.
Proof.
  induction 1; constructor; try done.
  eapply Forall_impl; [eassumption|]. unfold key_lt, key_le. intros; lia.
Qed.

Lemma Sorted_lt_nodup l : StronglySorted key_lt l -> NoDup (key <$> l).
Proof.
  induction 1 as [|x l Hs IH Hall]; cbn; constructor; [|done].
  intros (y & Hk & Hy)%list_elem_of_fmap. rewrite Forall_forall in Hall.
  specialize (Hall y Hy). unfold key_lt in Hall. lia.
Qed.

Lemma Sorted_le_nodup_lt l :
  StronglySorted key_le l -> NoDup (key <$> l) -> StronglySorted key_lt l.
Proof.
  induction 1 as [|x l Hs IH Hall]; cbn; intros Hnd; constructor.
  - apply IH. now apply NoDup_cons in Hnd as [_ ?].
  - apply NoDup_cons in Hnd as [Hx _]. rewrite Forall_forall in Hall |- *.
    intros y Hy. specialize (Hall y Hy). unfold key_le, key_lt in *.
    assert (key x <> key y); [|lia]. intros E. apply Hx. rewrite E.
    apply list_elem_of_fmap. eauto.
Qed.
End sort_by.

(** Two strictly sorted lists with the same elements are equal. *)
Lemma Sorted_lt_unique {A} (key : A -> Z) l k :
  StronglySorted (key_lt key) l -> StronglySorted (key_lt key) k -> l ≡ₚ k -> l = k.
Proof.
  intros Hl. revert k. induction Hl as [|x l Hl IH Hx]; intros k Hk Hp.
  - symmetry in Hp. now apply Permutation_nil_r in Hp.
  - destruct Hk as [|y k Hk Hy]; [now apply Permutation_nil_r in Hp|].
    assert (x = y) as ->.
    { rewrite Forall_forall in Hx, Hy. unfold key_lt in *.
      assert (x ∈ y :: k) as [|Hxk]%elem_of_cons by (rewrite <- Hp; left); [done|].
      assert (y ∈ x :: l) as [|Hyl]%elem_of_cons by (rewrite Hp; left); [done|].
      specialize (Hx _ Hyl). specialize (Hy _ Hxk). lia. }
    f_equal. apply IH; [done|]. now apply Permutation_cons_inv in Hp.
Qed.

(** ** Boolean filters *)

Lemma filter_all {A} (f : A -> bool) l : Forall (fun x => f x = true) l -> List.filter f l = l.
Proof. induction 1 as [|x l Hx _ IH]; cbn; [done|]. now rewrite Hx, IH. Qed.

Lemma filter_perm {A} (f : A -> bool) l k : l ≡ₚ k -> List.filter f l ≡ₚ List.filter f k.
Proof.
  induction 1 as [|x l k _ IH|x y l|l1 l2 l3 _ IH1 _ IH2]; cbn.
  - done.
  - destruct (f x); [now rewrite IH | done].
  - destruct (f x), (f y); try done. apply Permutation_swap.
  - now rewrite IH1.
Qed.
