(* ===== verification/Bytesx.v ===== *)
(** * internal/bytesx

    Option strings, PKCS#7 padding and the big-endian buffer helpers of
    [internal/bytesx/bytesx.go].  A [bytes.Buffer] is the list of its unread
    bytes; a string is its byte sequence. *)

From S2P Require Import Prelude.

(** [io.ReadFull(buf, p)] on a buffer, with [len p = n]: it fills [p] or
    fails with [EOF] (nothing read) or [ErrUnexpectedEOF]. *)
Definition ReadFull (buf : list byte) (n : nat) : outcome (list byte * list byte) :=
  if (n <=? length buf)%nat then Ok (take n buf, drop n buf)
  else if (length buf =? 0)%nat then Err ErrEOF else Err ErrUnexpectedEOF.

(** [buf.ReadByte()] *)
Definition ReadByte (buf : list byte) : outcome (byte * list byte) :=
  match buf with b :: rest => Ok (b, rest) | [] => Err ErrEOF end.

Definition ReadUint32 (buf : list byte) : outcome (Z * list byte) :=
  '(numBuf, rest) ← ReadFull buf 4;
  Ok (be_val numBuf, rest).

Definition WriteUint32 (buf : list byte) (val : Z) : list byte :=
  buf ++ be_bytes 4 (u32 val).

Definition WriteUint24 (buf : list byte) (val : Z) : list byte :=
  let b := WriteUint32 [] val in
  buf ++ drop 1 b.

Definition EncodeOptionStringToBytes (s : string) : outcome (list byte) :=
  let b := bytes_of_string s in
  if MaxUint16 <=? len b then Err ErrEncodeOption
  else
    let data := be_bytes 2 (u16 (u16 (len b) + 1)) in
    Ok (data ++ b ++ [z2b 0]).

Definition DecodeOptionStringFromBytes (b : list byte) : outcome string :=
  if len b <? 2 then Err ErrDecodeOption
  else
    let length := be_val (take 2 b) in
    let b := drop 2 b in
    if len b <? length then Err ErrDecodeOption
    else if (len b <=? 0) || (length =? 0) then Err ErrDecodeOption
    else
      last ← go_index b (length - 1);
      if negb (b2z last =? 0) then Err ErrDecodeOption
      else r ← go_upto b (len b - 1); Ok (string_of_bytes r).

Definition BytesUnpadPKCS7 (b : list byte) (blockSize : Z) : outcome (list byte) :=
  if MaxUint8 <? blockSize then Err ErrUnpaddingPKCS7
  else if len b <=? 0 then Err ErrUnpaddingPKCS7
  else
    last ← go_index b (len b - 1);
    let psiz := b2z last in
    if psiz <=? 0 then Err ErrUnpaddingPKCS7
    else if blockSize <? psiz then Err ErrUnpaddingPKCS7
    else
      let off := len b - psiz in
      _ ← Assert ((0 <=? off) && (off <=? len b));
      go_upto b off.

Definition BytesPadPKCS7 (b : list byte) (blockSize : Z) : outcome (list byte) :=
  _ ← Assert (negb (blockSize <=? 0));
  if MaxUint8 <? blockSize then Err ErrPaddingPKCS7
  else
    let psiz := blockSize - len b mod blockSize in
    let padding := replicate (Z.to_nat psiz) (z2b psiz) in
    Ok (b ++ padding).

(** ** Buffer helpers *)

Lemma ReadFull_app n (l rest : list byte) :
  length l = n -> ReadFull (l ++ rest) n = Ok (l, rest).
Proof.
  intros <-. unfold ReadFull. rewrite length_app.
  rewrite (proj2 (Nat.leb_le _ _)) by lia.
  now rewrite take_app_length, drop_app_length.
Qed.

Lemma ReadFull_Ok n buf l rest :
  ReadFull buf n = Ok (l, rest) -> buf = l ++ rest /\ length l = n.
Proof.
  unfold ReadFull. destruct (Nat.leb_spec n (length buf)).
  - intros [= <- <-]. rewrite take_drop, length_take. split; [done | lia].
  - destruct (_ =? _)%nat; done.
Qed.

Lemma ReadFull_no_panic n buf : ReadFull buf n <> Panic.
Proof. unfold ReadFull. repeat case_match; done. Qed.

Lemma ReadUint32_app v rest : is_u32 v -> ReadUint32 (be_bytes 4 v ++ rest) = Ok (v, rest).
Proof.
  intros H. unfold ReadUint32. rewrite ReadFull_app by apply length_be_bytes. cbn [mbind outcome_bind].
  rewrite be_val_bytes. change (256 ^ Z.of_nat 4) with (2 ^ 32).
  now rewrite Z.mod_small.
Qed.

Lemma ReadUint32_Ok buf v rest :
  ReadUint32 buf = Ok (v, rest) -> buf = be_bytes 4 v ++ rest /\ is_u32 v.
Proof.
  unfold ReadUint32. intros ((l & r) & H & [= <- <-])%bind_Ok.
  apply ReadFull_Ok in H as [-> Hlen].
  rewrite be_bytes_val' by done. split; [done | auto with golia].
Qed.

Lemma ReadUint32_no_panic buf : ReadUint32 buf <> Panic.
Proof.
  unfold ReadUint32. intros [H|((?&?) & _ & H)]%bind_Panic; [now apply ReadFull_no_panic in H | done].
Qed.

Lemma WriteUint32_app buf v : is_u32 v -> WriteUint32 buf v = buf ++ be_bytes 4 v.
Proof. intros. unfold WriteUint32. now rewrite u32_small. Qed.

Lemma WriteUint24_length buf v : length (WriteUint24 buf v) = (length buf + 3)%nat.
Proof. unfold WriteUint24, WriteUint32. autorewrite with golen. cbn. lia. Qed.

(** Reading back what [WriteUint24] wrote gives the low 24 bits. *)
Lemma WriteUint24_val v : be_val (WriteUint24 [] v) = v mod 2 ^ 24.
Proof.
  unfold WriteUint24, WriteUint32. cbn [app].
  change (drop 1 (be_bytes 4 (u32 v))) with (be_bytes 3 (u32 v)).
  rewrite be_val_bytes. change (256 ^ Z.of_nat 3) with (2 ^ 24). unfold u32.
  change (2 ^ 32) with (2 ^ 24 * 256). rewrite Z.rem_mul_r by lia.
  rewrite Z.mul_comm, Z.mod_add, Z.mod_mod by lia. done.
Qed.

#[export] Hint Resolve ReadFull_no_panic ReadUint32_no_panic : golia.

(** ** Option strings *)

Lemma Encode_Ok s data :
  EncodeOptionStringToBytes s = Ok data ->
  len (bytes_of_string s) < MaxUint16 /\
  data = be_bytes 2 (len (bytes_of_string s) + 1) ++ bytes_of_string s ++ [z2b 0].
Proof.
  unfold EncodeOptionStringToBytes, u16, MaxUint16.
  destruct (Z.leb_spec 65535 (len (bytes_of_string s))); [done|]. intros [= <-].
  pose proof (len_nonneg (bytes_of_string s)).
  rewrite !Z.mod_small by (rewrite ?Z.mod_small by lia; lia). done.
Qed.

(** What [Decode] computes on an encoded string followed by [tail]. *)
Lemma Decode_encoded (body tail : list byte) :
  len body < MaxUint16 ->
  DecodeOptionStringFromBytes (be_bytes 2 (len body + 1) ++ (body ++ [z2b 0]) ++ tail)
  = Ok (string_of_bytes (take (length body + length tail) (body ++ [z2b 0] ++ tail))).
Proof.
  intros Hlen. unfold MaxUint16 in Hlen. pose proof (len_nonneg body). pose proof (len_nonneg tail).
  unfold DecodeOptionStringFromBytes.
  set (rest := (body ++ [z2b 0]) ++ tail).
  assert (len rest = len body + 1 + len tail) as Hrest by (subst rest; now rewrite !len_app).
  rewrite take_app_length', drop_app_length' by now rewrite length_be_bytes.
  rewrite be_val_bytes, Z.mod_small by (change (256 ^ Z.of_nat 2) with 65536; lia).
  rewrite len_app. unfold len at 1. rewrite length_be_bytes.
  destruct (Z.ltb_spec (Z.of_nat 2 + len rest) 2); [lia|].
  destruct (Z.ltb_spec (len rest) (len body + 1)); [lia|].
  destruct (Z.leb_spec (len rest) 0); [lia|].
  destruct (Z.eqb_spec (len body + 1) 0); [lia|]. cbn [orb].
  replace (len body + 1 - 1) with (len body) by lia.
  unfold go_index. destruct (Z.ltb_spec (len body) 0); [lia|].
  rewrite to_nat_len. subst rest. rewrite <- app_assoc.
  rewrite lookup_app_r, Nat.sub_diag by lia. cbn [app lookup list_lookup mbind outcome_bind].
  rewrite go_upto_Ok by (rewrite !len_app, len_cons; lia). cbn. f_equal. f_equal. f_equal.
  autorewrite with golen. unfold len in *. lia.
Qed.

(** Every option string that [EncodeOptionStringToBytes] accepts is
    recovered exactly by [DecodeOptionStringFromBytes], the encoding is three
    bytes longer than the string, and the only failure is a string of
    [MaxUint16] bytes or more. *)
Theorem option_string_roundtrip s :
  match EncodeOptionStringToBytes s with
  | Ok data => DecodeOptionStringFromBytes data = Ok s /\
               len data = len (bytes_of_string s) + 3
  | Err e => e = ErrEncodeOption /\ MaxUint16 <= len (bytes_of_string s)
  | Panic => False
  end.
Proof.
  destruct (EncodeOptionStringToBytes s) as [data|e|] eqn:E.
  - apply Encode_Ok in E as [Hlen ->]. split.
    + rewrite <- (app_nil_r (bytes_of_string s ++ _)), Decode_encoded by done.
      rewrite app_nil_r, Nat.add_0_r, take_app_length. now rewrite string_of_bytes_of_string.
    + autorewrite with golen. unfold len at 1. rewrite length_be_bytes. lia.
  - unfold EncodeOptionStringToBytes in E. case_match eqn:H; simplify_eq.
    split; [done|]. now apply Z.leb_le in H.
  - unfold EncodeOptionStringToBytes in E. case_match; done.
Qed.

(** When the encoded option is followed by padding, as the comment in the
    decoder says servers send, the decoded value is not the string: it keeps
    the terminating zero and all of the padding but its last byte. *)
Theorem option_string_padding s data pad x :
  EncodeOptionStringToBytes s = Ok data ->
  DecodeOptionStringFromBytes (data ++ pad ++ [x])
  = Ok (string_of_bytes (bytes_of_string s ++ [z2b 0] ++ pad)).
Proof.
  intros [Hlen ->]%Encode_Ok. rewrite <- app_assoc, Decode_encoded by done.
  do 2 f_equal. change ([z2b 0] ++ pad ++ [x]) with (([z2b 0] ++ pad) ++ [x]).
  rewrite app_assoc. apply take_app_length'. rewrite !length_app. cbn [length]. lia.
Qed.

Lemma option_string_padding_witness :
  EncodeOptionStringToBytes "V4" = Ok [z2b 0; z2b 3; z2b 86; z2b 52; z2b 0] /\
  DecodeOptionStringFromBytes ([z2b 0; z2b 3; z2b 86; z2b 52; z2b 0] ++ [z2b 7] ++ [z2b 8])
  = Ok (string_of_bytes (bytes_of_string "V4" ++ [z2b 0] ++ [z2b 7])).
Proof. split; [reflexivity | apply option_string_padding; reflexivity]. Defined.

(** ** PKCS#7 *)

Lemma go_index_last (b : list byte) x : go_index (b ++ [x]) (len (b ++ [x]) - 1) = Ok x.
Proof.
  unfold go_index, len. rewrite length_app. cbn [length].
  replace (Z.of_nat (length b + 1) - 1) with (Z.of_nat (length b)) by lia.
  rewrite Nat2Z.id, lookup_app_r, Nat.sub_diag by lia.
  destruct (Z.ltb_spec (Z.of_nat (length b)) 0); [lia | done].
Qed.

Lemma BytesPadPKCS7_Ok b bs :
  1 <= bs <= 255 ->
  exists psiz, 1 <= psiz <= bs /\ (len b + psiz) mod bs = 0 /\
    BytesPadPKCS7 b bs = Ok (b ++ replicate (Z.to_nat psiz) (z2b psiz)).
Proof.
  intros Hbs. exists (bs - len b mod bs). pose proof (Z.mod_pos_bound (len b) bs ltac:(lia)).
  repeat split; [lia|lia| |].
  - replace (len b + (bs - len b mod bs)) with ((len b - len b mod bs) + 1 * bs) by lia.
    rewrite Z.mod_add, Zminus_mod_idemp_r, Z.sub_diag by lia. apply Z.mod_0_l. lia.
  - unfold BytesPadPKCS7, MaxUint8.
    destruct (Z.leb_spec bs 0); [lia|]. cbn. destruct (Z.ltb_spec 255 bs); [lia | done].
Qed.

Lemma BytesUnpadPKCS7_pad b psiz bs :
  1 <= psiz <= bs -> bs <= 255 ->
  BytesUnpadPKCS7 (b ++ replicate (Z.to_nat psiz) (z2b psiz)) bs = Ok b.
Proof.
  intros Hp Hbs. unfold BytesUnpadPKCS7, MaxUint8.
  destruct (Z.ltb_spec 255 bs); [lia|].
  assert (exists n, Z.to_nat psiz = S n) as [n Hn] by (exists (Z.to_nat psiz - 1)%nat; lia).
  set (p := b ++ _). assert (len p = len b + psiz) as Hlen.
  { subst p. rewrite len_app, len_replicate. lia. }
  pose proof (len_nonneg b). destruct (Z.leb_spec (len p) 0); [lia|].
  assert (go_index p (len p - 1) = Ok (z2b psiz)) as ->.
  { subst p. rewrite Hn. cbn [replicate]. rewrite replicate_cons_app, app_assoc. apply go_index_last. }
  cbn [mbind outcome_bind]. rewrite b2z_z2b_small by lia.
  destruct (Z.leb_spec psiz 0); [lia|]. destruct (Z.ltb_spec bs psiz); [lia|].
  rewrite Hlen. replace (len b + psiz - psiz) with (len b) by lia.
  destruct (Z.leb_spec 0 (len b)), (Z.leb_spec (len b) (len b + psiz)); try lia. cbn.
  rewrite go_upto_Ok by lia. unfold len. subst p. rewrite Nat2Z.id, take_app_length. done.
Qed.

(** For every block size from 1 to 255, [BytesPadPKCS7] succeeds, adds
    between 1 and [blockSize] bytes, reaches a multiple of the block size, and
    [BytesUnpadPKCS7] recovers the input. *)
Theorem pkcs7_roundtrip b blockSize :
  1 <= blockSize <= 255 ->
  exists padded, BytesPadPKCS7 b blockSize = Ok padded /\
    len padded mod blockSize = 0 /\
    1 <= len padded - len b <= blockSize /\
    BytesUnpadPKCS7 padded blockSize = Ok b.
Proof.
  intros Hbs. destruct (BytesPadPKCS7_Ok b blockSize Hbs) as (psiz & Hp & Hmod & E).
  eexists; split; [exact E|]. rewrite len_app, len_replicate, Z2Nat.id by lia.
  repeat split; [done | lia | lia | apply BytesUnpadPKCS7_pad; lia].
Qed.

Lemma pkcs7_roundtrip_witness :
  exists padded, BytesPadPKCS7 [z2b 1; z2b 2] 16 = Ok padded /\
    len padded mod 16 = 0 /\ 1 <= len padded - len [z2b 1; z2b 2] <= 16 /\
    BytesUnpadPKCS7 padded 16 = Ok [z2b 1; z2b 2].
Proof. apply (pkcs7_roundtrip [z2b 1; z2b 2] 16). lia. Defined.

Lemma last_decompose (b : list byte) : b <> [] -> exists l x, b = l ++ [x].
Proof. intros H. destruct (exists_last H) as (l & x & ->). eauto. Qed.

(** [BytesUnpadPKCS7] panics on its internal assertion exactly when the
    last byte claims more padding than the buffer holds while still fitting
    the block size; so on buffers of at least one block, which is all that
    CBC decryption produces, it never panics. *)
Theorem pkcs7_unpad_panics_iff b blockSize :
  BytesUnpadPKCS7 b blockSize = Panic <->
  exists l x, b = l ++ [x] /\ len b < b2z x <= blockSize /\ blockSize <= MaxUint8.
Proof.
  unfold BytesUnpadPKCS7, MaxUint8. destruct (decide (b = [])) as [->|Hne].
  { cbn. destruct (_ <? _); (split; [done|]); intros (l & x & E & _); now destruct l. }
  apply last_decompose in Hne as (l & x & ->).
  set (p := l ++ [x]). assert (0 < len p) by (subst p; autorewrite with golen; pose proof (len_nonneg l); lia).
  assert (go_index p (len p - 1) = Ok x) as -> by apply go_index_last.
  cbn [mbind outcome_bind]. split.
  - destruct (Z.ltb_spec 255 blockSize), (Z.leb_spec (len p) 0), (Z.leb_spec (b2z x) 0),
      (Z.ltb_spec blockSize (b2z x)); try done.
    destruct (Z.leb_spec 0 (len p - b2z x)), (Z.leb_spec (len p - b2z x) (len p)); cbn; try lia.
    + rewrite go_upto_Ok by lia. done.
    + intros _. exists l, x. repeat split; (done || lia).
  - intros (l' & x' & E & Hx & Hbs). apply app_inj_tail in E as [<- <-].
    pose proof (b2z_range x).
    destruct (Z.ltb_spec 255 blockSize), (Z.leb_spec (len p) 0), (Z.leb_spec (b2z x) 0),
      (Z.ltb_spec blockSize (b2z x)); try lia.
    destruct (Z.leb_spec 0 (len p - b2z x)); [lia | done].
Qed.

Lemma BytesUnpadPKCS7_no_panic b blockSize :
  blockSize <= len b -> BytesUnpadPKCS7 b blockSize <> Panic.
Proof.
  unfold BytesUnpadPKCS7, MaxUint8. intros Hlen.
  destruct (Z.ltb_spec 255 blockSize), (Z.leb_spec (len b) 0); try done.
  destruct (go_index b (len b - 1)) as [x|?|] eqn:E; cbn; [|done|apply go_index_Panic in E; lia].
  destruct (Z.leb_spec (b2z x) 0), (Z.ltb_spec blockSize (b2z x)); try done.
  destruct (Z.leb_spec 0 (len b - b2z x)), (Z.leb_spec (len b - b2z x) (len b)); cbn; try lia.
  rewrite go_upto_Ok by lia. done.
Qed.

(** The padding [BytesPadPKCS7] appends. *)
Definition padBytes (b : list byte) (blockSize : Z) : list byte :=
  replicate (Z.to_nat (blockSize - len b mod blockSize)) (z2b (blockSize - len b mod blockSize)).

Lemma BytesPadPKCS7_eq b bs : 1 <= bs <= 255 -> BytesPadPKCS7 b bs = Ok (b ++ padBytes b bs).
Proof.
  intros Hbs. unfold BytesPadPKCS7, MaxUint8.
  destruct (Z.leb_spec bs 0); [lia|]. cbn. destruct (Z.ltb_spec 255 bs); [lia | done].
Qed.

Lemma padBytes_unpad b bs : 1 <= bs <= 255 -> BytesUnpadPKCS7 (b ++ padBytes b bs) bs = Ok b.
Proof.
  intros Hbs. pose proof (Z.mod_pos_bound (len b) bs ltac:(lia)). apply BytesUnpadPKCS7_pad; lia.
Qed.

Lemma padBytes_len b bs :
  1 <= bs <= 255 -> 1 <= len (padBytes b bs) <= bs /\ (len b + len (padBytes b bs)) mod bs = 0.
Proof.
  intros Hbs. destruct (BytesPadPKCS7_Ok b bs Hbs) as (psiz & Hp & Hmod & E).
  rewrite BytesPadPKCS7_eq in E by done. injection E as E. apply app_inv_head in E.
  rewrite E, len_replicate, Z2Nat.id by lia. done.
Qed.

(** ** Random bytes *)

(** [randRead n] is what [rand.Read] does to a buffer of [n] bytes: its
    contents, or an error.  A negative size panics in [make]. *)
Definition GenRandomBytes (randRead : nat -> outcome (list byte)) (size : Z) : outcome (list byte) :=
  if size <? 0 then Panic else randRead (Z.to_nat size).

(** crypto/rand fills the whole buffer. *)
Definition fills (randRead : nat -> outcome (list byte)) : Prop :=
  forall n, exists b, randRead n = Ok b /\ length b = n.

Lemma GenRandomBytes_length randRead size :
  fills randRead -> 0 <= size -> exists b, GenRandomBytes randRead size = Ok b /\ len b = size.
Proof.
  intros Hf Hs. unfold GenRandomBytes. destruct (Z.ltb_spec size 0); [lia|].
  destruct (Hf (Z.to_nat size)) as (b & -> & Hb). exists b. split; [done|]. unfold len. lia.
Qed.
