(* ===== verification/Packet.v ===== *)
(** * internal/model: packets

    Opcodes, packets, parsing and serialisation of
    [internal/model/packet.go], and the negotiation states of
    [internal/model/session.go].  An [Opcode] and a [KeyID] are bytes, a
    [PacketID] is a [uint32], both kept as [Z]; session and peer identifiers
    are byte arrays of lengths 8 and 3. *)

From S2P Require Import Prelude Bytesx.

(** ** Opcodes *)

Definition P_CONTROL_HARD_RESET_CLIENT_V1 : Z := 1.
Definition P_CONTROL_HARD_RESET_SERVER_V1 : Z := 2.
Definition P_CONTROL_SOFT_RESET_V1 : Z := 3.
Definition P_CONTROL_V1 : Z := 4.
Definition P_ACK_V1 : Z := 5.
Definition P_DATA_V1 : Z := 6.
Definition P_CONTROL_HARD_RESET_CLIENT_V2 : Z := 7.
Definition P_CONTROL_HARD_RESET_SERVER_V2 : Z := 8.
Definition P_DATA_V2 : Z := 9.

Definition NewOpcodeFromString (s : string) : outcome Z :=
  if String.eqb s "CONTROL_HARD_RESET_CLIENT_V1" then Ok P_CONTROL_HARD_RESET_CLIENT_V1
  else if String.eqb s "CONTROL_HARD_RESET_SERVER_V1" then Ok P_CONTROL_HARD_RESET_SERVER_V1
  else if String.eqb s "CONTROL_SOFT_RESET_V1" then Ok P_CONTROL_SOFT_RESET_V1
  else if String.eqb s "CONTROL_V1" then Ok P_CONTROL_V1
  else if String.eqb s "ACK_V1" then Ok P_ACK_V1
  else if String.eqb s "DATA_V1" then Ok P_DATA_V1
  else if String.eqb s "CONTROL_HARD_RESET_CLIENT_V2" then Ok P_CONTROL_HARD_RESET_CLIENT_V2
  else if String.eqb s "CONTROL_HARD_RESET_SERVER_V2" then Ok P_CONTROL_HARD_RESET_SERVER_V2
  else if String.eqb s "DATA_V2" then Ok P_DATA_V2
  else Err ErrUnknownOpcode.

Definition Opcode_String (op : Z) : string :=
  if op =? P_CONTROL_HARD_RESET_CLIENT_V1 then "P_CONTROL_HARD_RESET_CLIENT_V1"
  else if op =? P_CONTROL_HARD_RESET_SERVER_V1 then "P_CONTROL_HARD_RESET_SERVER_V1"
  else if op =? P_CONTROL_SOFT_RESET_V1 then "P_CONTROL_SOFT_RESET_V1"
  else if op =? P_CONTROL_V1 then "P_CONTROL_V1"
  else if op =? P_ACK_V1 then "P_ACK_V1"
  else if op =? P_DATA_V1 then "P_DATA_V1"
  else if op =? P_CONTROL_HARD_RESET_CLIENT_V2 then "P_CONTROL_HARD_RESET_CLIENT_V2"
  else if op =? P_CONTROL_HARD_RESET_SERVER_V2 then "P_CONTROL_HARD_RESET_SERVER_V2"
  else if op =? P_DATA_V2 then "P_DATA_V2"
  else "P_UNKNOWN".

Definition Opcode_IsControl (op : Z) : bool :=
  (op =? P_CONTROL_HARD_RESET_CLIENT_V1) || (op =? P_CONTROL_HARD_RESET_SERVER_V1) ||
  (op =? P_CONTROL_SOFT_RESET_V1) || (op =? P_CONTROL_V1) ||
  (op =? P_CONTROL_HARD_RESET_CLIENT_V2) || (op =? P_CONTROL_HARD_RESET_SERVER_V2).

Definition Opcode_IsData (op : Z) : bool := (op =? P_DATA_V1) || (op =? P_DATA_V2).

(** ** Packets *)

Record Packet : Type := mkPacket {
  Opcode : Z;
  KeyID : Z;
  PeerID : list byte;
  LocalSessionID : list byte;
  ACKs : list Z;
  RemoteSessionID : list byte;
  ID : Z;
  Payload : list byte
}.

#[export] Instance Packet_eq_dec : EqDecision Packet.
Proof. solve_decision. Defined.

(** The zero values [PeerID{}] and [SessionID{}]. *)
Definition zeroPeerID : list byte := replicate 3 (z2b 0).
Definition zeroSessionID : list byte := replicate 8 (z2b 0).

Definition NewPacket (opcode keyID : Z) (payload : list byte) : Packet :=
  mkPacket opcode keyID zeroPeerID zeroSessionID [] zeroSessionID 0 payload.

Definition set_LocalSessionID (s : list byte) (p : Packet) : Packet :=
  mkPacket (Opcode p) (KeyID p) (PeerID p) s (ACKs p) (RemoteSessionID p) (ID p) (Payload p).
Definition set_RemoteSessionID (s : list byte) (p : Packet) : Packet :=
  mkPacket (Opcode p) (KeyID p) (PeerID p) (LocalSessionID p) (ACKs p) s (ID p) (Payload p).
Definition set_ACKs (a : list Z) (p : Packet) : Packet :=
  mkPacket (Opcode p) (KeyID p) (PeerID p) (LocalSessionID p) a (RemoteSessionID p) (ID p) (Payload p).
Definition set_ID (i : Z) (p : Packet) : Packet :=
  mkPacket (Opcode p) (KeyID p) (PeerID p) (LocalSessionID p) (ACKs p) (RemoteSessionID p) i (Payload p).
Definition set_PeerID (s : list byte) (p : Packet) : Packet :=
  mkPacket (Opcode p) (KeyID p) s (LocalSessionID p) (ACKs p) (RemoteSessionID p) (ID p) (Payload p).

(** The loop that fills the ACK array. *)
Fixpoint readACKs (n : nat) (buf : list byte) : outcome (list Z * list byte) :=
  match n with
  | O => Ok ([], buf)
  | S n' =>
      '(val, buf) ← ReadUint32 buf;
      '(acks, buf) ← readACKs n' buf;
      Ok (val :: acks, buf)
  end.

(** The partial packet that accompanies an error in the source is dropped by
    every caller and is not part of the model. *)
Definition parseControlOrACKPacket (opcode keyID : Z) (payload : list byte) : outcome Packet :=
  if len payload <=? 0 then Err ErrEmptyPayload
  else if negb (Opcode_IsControl opcode) && negb (opcode =? P_ACK_V1) then Err ErrParsePacket
  else
    '(localSessionID, buf) ← rewrap ErrParsePacket (ReadFull payload 8);
    '(ackArrayLenByte, buf) ← rewrap ErrParsePacket (ReadByte buf);
    let ackArrayLen := b2z ackArrayLenByte in
    '(acks, buf) ← rewrap ErrParsePacket (readACKs (Z.to_nat ackArrayLen) buf);
    '(remoteSessionID, buf) ←
      (if 0 <? ackArrayLen then rewrap ErrParsePacket (ReadFull buf 8)
       else Ok (zeroSessionID, buf));
    '(id, buf) ←
      (if negb (opcode =? P_ACK_V1) then rewrap ErrParsePacket (ReadUint32 buf)
       else Ok (0, buf));
    Ok (mkPacket opcode keyID zeroPeerID localSessionID acks remoteSessionID id buf).

Definition ParsePacket (buf : list byte) : outcome Packet :=
  match buf with
  | b0 :: (_ :: _) as rest =>
      let opcode := Z.shiftr (b2z b0) 3 in
      let keyID := Z.land (b2z b0) 7 in
      '(peerID, payload) ←
        (if opcode =? P_DATA_V2 then
           if len buf <? 4 then Err ErrPacketTooShort
           else Ok (take 3 rest, drop 3 rest)
         else Ok (zeroPeerID, rest));
      if Opcode_IsControl opcode || (opcode =? P_ACK_V1)
      then parseControlOrACKPacket opcode keyID payload
      else Ok (mkPacket opcode keyID peerID zeroSessionID [] zeroSessionID 0 payload)
  | _ => Err ErrPacketTooShort
  end.

Definition Packet_Bytes (p : Packet) : outcome (list byte) :=
  if Opcode p =? P_DATA_V2 then Ok (Payload p)
  else
    let header := [z2b (Z.lor (u8 (Z.shiftl (Opcode p) 3)) (Z.land (KeyID p) 7))] ++ LocalSessionID p in
    let nAcks := len (ACKs p) in
    if MaxUint8 <? nAcks then Err ErrMarshalPacket
    else
      let buf := header ++ [z2b nAcks] in
      let buf := fold_left (fun b a => WriteUint32 b a) (ACKs p) buf in
      let buf := if 0 <? len (ACKs p) then buf ++ RemoteSessionID p else buf in
      let buf := if negb (Opcode p =? P_ACK_V1) then WriteUint32 buf (ID p) else buf in
      Ok (buf ++ Payload p).

Definition Packet_IsControl (p : Packet) : bool := Opcode_IsControl (Opcode p).
Definition Packet_IsData (p : Packet) : bool := Opcode_IsData (Opcode p).

Definition pingPayload : list byte :=
  map z2b [0x2A; 0x18; 0x7B; 0xF3; 0x64; 0x1E; 0xB4; 0xCB; 0x07; 0xED; 0x2D; 0x0A; 0x98; 0x1F; 0xC7; 0x48].

Definition Packet_IsPing (p : Packet) : bool := bytes_equal pingPayload (Payload p).

(** ** Negotiation states, [internal/model/session.go]

    [NegotiationState] is an [int] and the code compares states with [<]. *)
Definition S_ERROR : Z := -1.
Definition S_UNDEF : Z := 0.
Definition S_INITIAL : Z := 1.
Definition S_PRE_START : Z := 2.
Definition S_START : Z := 3.
Definition S_SENT_KEY : Z := 4.
Definition S_GOT_KEY : Z := 5.
Definition S_ACTIVE : Z := 6.
Definition S_GENERATED_KEYS : Z := 7.

Definition NegotiationState_String (sns : Z) : string :=
  if sns =? S_UNDEF then "S_UNDEF"
  else if sns =? S_INITIAL then "S_INITIAL"
  else if sns =? S_PRE_START then "S_PRE_START"
  else if sns =? S_START then "S_START"
  else if sns =? S_SENT_KEY then "S_SENT_KEY"
  else if sns =? S_GOT_KEY then "S_GOT_KEY"
  else if sns =? S_ACTIVE then "S_ACTIVE"
  else if sns =? S_GENERATED_KEYS then "S_GENERATED_KEYS"
  else if sns =? S_ERROR then "S_ERROR"
  else "S_INVALID".

(** [model.TunnelInfo]; [MTU] and [PeerID] are Go [int]s. *)
Record TunnelInfo : Type := mkTunnelInfo {
  GW : string;
  IP : string;
  MTU : Z;
  NetMask : string;
  TIPeerID : Z
}.

Definition zeroTunnelInfo : TunnelInfo := mkTunnelInfo "" "" 0 "" 0.

(** Notifications to the TLS layer, [internal/model/notification.go]. *)
Definition NotificationReset : Z := 1.
Record Notification : Type := mkNotification { Flags : Z }.

(** ** The wire format *)

Definition ackBytes (acks : list Z) : list byte := concat (map (be_bytes 4) acks).

(** The layout of a control or ACK packet after the first byte. *)
Definition wireBody (p : Packet) : list byte :=
  LocalSessionID p ++ [z2b (len (ACKs p))] ++ ackBytes (ACKs p) ++
  (if 0 <? len (ACKs p) then RemoteSessionID p else []) ++
  (if negb (Opcode p =? P_ACK_V1) then be_bytes 4 (ID p) else []) ++ Payload p.

Definition headerByte (opcode keyID : Z) : byte :=
  z2b (Z.lor (u8 (Z.shiftl opcode 3)) (Z.land keyID 7)).

(** Control and ACK packets whose every field is on the wire: the others
    have their zero value. *)
Record canonical (p : Packet) : Prop := {
  can_op : Opcode_IsControl (Opcode p) || (Opcode p =? P_ACK_V1) = true;
  can_key : 0 <= KeyID p < 8;
  can_peer : PeerID p = zeroPeerID;
  can_local : length (LocalSessionID p) = 8%nat;
  can_remote : length (RemoteSessionID p) = 8%nat;
  can_noacks : ACKs p = [] -> RemoteSessionID p = zeroSessionID;
  can_acks : Forall is_u32 (ACKs p);
  can_nacks : len (ACKs p) <= MaxUint8;
  can_id : is_u32 (ID p);
  can_ackid : Opcode p = P_ACK_V1 -> ID p = 0
}.

Lemma control_or_ack op :
  Opcode_IsControl op || (op =? P_ACK_V1) = true ->
  op = 1 \/ op = 2 \/ op = 3 \/ op = 4 \/ op = 5 \/ op = 7 \/ op = 8.
Proof.
  unfold Opcode_IsControl, P_CONTROL_HARD_RESET_CLIENT_V1, P_CONTROL_HARD_RESET_SERVER_V1,
    P_CONTROL_SOFT_RESET_V1, P_CONTROL_V1, P_ACK_V1, P_CONTROL_HARD_RESET_CLIENT_V2,
    P_CONTROL_HARD_RESET_SERVER_V2. lia.
Qed.

Lemma headerByte_fields op k :
  0 <= op < 32 -> 0 <= k < 8 ->
  Z.shiftr (b2z (headerByte op k)) 3 = op /\ Z.land (b2z (headerByte op k)) 7 = k.
Proof.
  intros Hop Hk.
  assert (forallb (fun o => forallb (fun j =>
     (Z.shiftr (b2z (headerByte o j)) 3 =? o) && (Z.land (b2z (headerByte o j)) 7 =? j))
     (seqZ 0 8)) (seqZ 0 32) = true) as H by (vm_compute; reflexivity).
  rewrite forallb_forall in H.
  specialize (H op ltac:(apply list_elem_of_In, elem_of_seqZ; lia)).
  rewrite forallb_forall in H.
  specialize (H k ltac:(apply list_elem_of_In, elem_of_seqZ; lia)). lia.
Qed.

Lemma headerByte_of_byte b : headerByte (Z.shiftr (b2z b) 3) (Z.land (b2z b) 7) = b.
Proof. now destruct b. Qed.

Lemma header_fields_range b :
  0 <= Z.shiftr (b2z b) 3 < 32 /\ 0 <= Z.land (b2z b) 7 < 8.
Proof.
  rewrite Z.shiftr_div_pow2 by lia. change 7 with (Z.ones 3). rewrite Z.land_ones by lia.
  change (2 ^ 3) with 8. pose proof (b2z_range b).
  pose proof (Z.mod_pos_bound (b2z b) 8 eq_refl).
  pose proof (Z.div_pos (b2z b) 8). pose proof (Z.div_lt_upper_bound (b2z b) 8 32). lia.
Qed.

Lemma fold_WriteUint32 acks buf :
  Forall is_u32 acks -> fold_left (fun b a => WriteUint32 b a) acks buf = buf ++ ackBytes acks.
Proof.
  intros H. revert buf. induction H as [|a acks Ha _ IH]; intros buf; cbn.
  - now rewrite app_nil_r.
  - rewrite IH, WriteUint32_app by done. rewrite <- app_assoc. done.
Qed.

Lemma readACKs_app acks rest :
  Forall is_u32 acks -> readACKs (length acks) (ackBytes acks ++ rest) = Ok (acks, rest).
Proof.
  induction 1 as [|a acks Ha _ IH]; [done|]. cbn [length readACKs ackBytes map concat].
  rewrite <- app_assoc, ReadUint32_app by done. cbn [mbind outcome_bind].
  unfold ackBytes in IH. now rewrite IH.
Qed.

Lemma readACKs_Ok n buf acks rest :
  readACKs n buf = Ok (acks, rest) ->
  buf = ackBytes acks ++ rest /\ length acks = n /\ Forall is_u32 acks.
Proof.
  revert buf acks. induction n as [|n IH]; intros buf acks; cbn.
  - now intros [= <- <-].
  - intros ((v & b1) & H1 & ((l & b2) & H2 & [= <- <-])%bind_Ok)%bind_Ok.
    apply ReadUint32_Ok in H1 as [-> Hv]. apply IH in H2 as (-> & <- & Hl).
    cbn. rewrite <- app_assoc. repeat split; auto.
Qed.

Lemma readACKs_no_panic n buf : readACKs n buf <> Panic.
Proof.
  revert buf. induction n as [|n IH]; intros buf; cbn; [done|].
  intros [H|((v & b1) & _ & [H|((l & b2) & _ & H)]%bind_Panic)]%bind_Panic;
    [now apply ReadUint32_no_panic in H | now apply IH in H | done].
Qed.

Lemma Packet_Bytes_wire p :
  Opcode p <> P_DATA_V2 -> len (ACKs p) <= MaxUint8 -> Forall is_u32 (ACKs p) -> is_u32 (ID p) ->
  Packet_Bytes p = Ok (headerByte (Opcode p) (KeyID p) :: wireBody p).
Proof.
  intros Hop Hn Hacks Hid. unfold Packet_Bytes.
  destruct (Z.eqb_spec (Opcode p) P_DATA_V2); [done|].
  destruct (Z.ltb_spec MaxUint8 (len (ACKs p))); [lia|].
  rewrite fold_WriteUint32 by done. unfold wireBody, headerByte. f_equal.
  destruct (0 <? len (ACKs p)), (negb (Opcode p =? P_ACK_V1));
    rewrite ?WriteUint32_app by done; now simplify_list_eq.
Qed.

Lemma parse_wireBody p :
  canonical p -> parseControlOrACKPacket (Opcode p) (KeyID p) (wireBody p) = Ok p.
Proof.
  intros [Hop Hkey Hpeer Hloc Hrem Hnoacks Hacks Hn Hid Hackid].
  unfold parseControlOrACKPacket, wireBody. pose proof (len_nonneg (ACKs p)).
  destruct (Z.leb_spec (len (LocalSessionID p ++ [z2b (len (ACKs p))] ++ ackBytes (ACKs p) ++
    (if 0 <? len (ACKs p) then RemoteSessionID p else []) ++
    (if negb (Opcode p =? P_ACK_V1) then be_bytes 4 (ID p) else []) ++ Payload p)) 0) as [Hl|_].
  { rewrite len_app in Hl. unfold len at 1 in Hl. rewrite Hloc in Hl. 
    pose proof (len_nonneg ([z2b (len (ACKs p))] ++ ackBytes (ACKs p) ++
    (if 0 <? len (ACKs p) then RemoteSessionID p else []) ++
    (if negb (Opcode p =? P_ACK_V1) then be_bytes 4 (ID p) else []) ++ Payload p)). lia. }
  destruct (negb (Opcode_IsControl (Opcode p)) && negb (Opcode p =? P_ACK_V1)) eqn:E.
  { destruct (Opcode_IsControl (Opcode p)), (Opcode p =? P_ACK_V1); done. }
  rewrite ReadFull_app by done. cbn [rewrap mbind outcome_bind app ReadByte].
  unfold MaxUint8 in Hn. rewrite b2z_z2b_small, to_nat_len, readACKs_app by (done || lia).
  cbn [rewrap mbind outcome_bind].
  assert (forall rest, (if 0 <? len (ACKs p)
    then rewrap ErrParsePacket (ReadFull ((if 0 <? len (ACKs p) then RemoteSessionID p else []) ++ rest) 8)
    else Ok (zeroSessionID, (if 0 <? len (ACKs p) then RemoteSessionID p else []) ++ rest))
    = Ok (RemoteSessionID p, rest)) as Hremote.
  { intros rest. destruct (Z.ltb_spec 0 (len (ACKs p))).
    - now rewrite ReadFull_app.
    - rewrite Hnoacks by (apply len_zero_iff; lia). done. }
  rewrite Hremote. cbn [mbind outcome_bind].
  destruct (Z.eqb_spec (Opcode p) P_ACK_V1) as [Ha|Ha]; cbn [negb].
  - rewrite (app_nil_l (Payload p)). specialize (Hackid Ha).
    clear -Hpeer Hackid. destruct p; cbn in *; congruence.
  - rewrite ReadUint32_app by done. clear -Hpeer. destruct p; cbn in *; congruence.
Qed.

Lemma parse_control_Ok op k payload p :
  Opcode_IsControl op || (op =? P_ACK_V1) = true -> 0 <= k < 8 ->
  parseControlOrACKPacket op k payload = Ok p ->
  canonical p /\ Opcode p = op /\ KeyID p = k /\ payload = wireBody p.
Proof.
  intros Hop Hk. unfold parseControlOrACKPacket.
  destruct (len payload <=? 0); [done|]. destruct (negb _ && negb _); [done|].
  intros ((loc & b1) & H1%rewrap_Ok & H)%bind_Ok. apply ReadFull_Ok in H1 as [-> Hloc].
  apply bind_Ok in H as ((nb & b2) & H2%rewrap_Ok & H). destruct b1 as [|x b1]; [done|].
  cbn in H2. simplify_eq. pose proof (b2z_range nb) as Hnb.
  apply bind_Ok in H as ((acks & b3) & H3%rewrap_Ok & H).
  apply readACKs_Ok in H3 as (-> & Hacklen & Hacks).
  assert (len acks = b2z nb) as Hlen by (unfold len; lia).
  apply bind_Ok in H as ((rem & b4) & H4 & H). apply bind_Ok in H as ((i & b5) & H5 & [= <-]).
  assert (b3 = (if 0 <? len acks then rem else []) ++ b4 /\ length rem = 8%nat /\
    (acks = [] -> rem = zeroSessionID)) as (-> & Hrem & Hno).
  { rewrite Hlen. destruct (Z.ltb_spec 0 (b2z nb)).
    - apply rewrap_Ok, ReadFull_Ok in H4 as [-> ?]. repeat split; try done.
      intros ->. rewrite len_nil in Hlen. lia.
    - simplify_eq. repeat split; done. }
  assert (b4 = (if negb (op =? P_ACK_V1) then be_bytes 4 i else []) ++ b5 /\ is_u32 i /\
    (op = P_ACK_V1 -> i = 0)) as (-> & Hi & Hi0).
  { destruct (Z.eqb_spec op P_ACK_V1); cbn [negb] in *.
    - simplify_eq. repeat split; (done || lia).
    - apply rewrap_Ok, ReadUint32_Ok in H5 as [-> ?]. split; [done | split; done]. }
  split; [|split; [done|split; [done|]]].
  - constructor; cbn; try done. unfold MaxUint8. lia.
  - unfold wireBody. cbn. rewrite Hlen, z2b_b2z. done.
Qed.

Lemma ParsePacket_unfold b0 b1 rest :
  ParsePacket (b0 :: b1 :: rest) =
  let opcode := Z.shiftr (b2z b0) 3 in
  let keyID := Z.land (b2z b0) 7 in
  if Opcode_IsControl opcode || (opcode =? P_ACK_V1)
  then parseControlOrACKPacket opcode keyID (b1 :: rest)
  else if opcode =? P_DATA_V2 then
    if len rest <? 2 then Err ErrPacketTooShort
    else Ok (mkPacket opcode keyID (take 3 (b1 :: rest)) zeroSessionID [] zeroSessionID 0 (drop 3 (b1 :: rest)))
  else Ok (mkPacket opcode keyID zeroPeerID zeroSessionID [] zeroSessionID 0 (b1 :: rest)).
Proof.
  unfold ParsePacket. cbv zeta. rewrite !len_cons.
  destruct (Opcode_IsControl _ || _) eqn:E.
  - destruct (Z.eqb_spec (Z.shiftr (b2z b0) 3) P_DATA_V2) as [H|]; [|done].
    rewrite H in E. done.
  - destruct (_ =? P_DATA_V2); [|done].
    destruct (Z.ltb_spec (len rest + 1 + 1) 4), (Z.ltb_spec (len rest) 2); try lia; done.
Qed.

Lemma canonical_roundtrip p :
  canonical p -> exists raw, Packet_Bytes p = Ok raw /\ ParsePacket raw = Ok p.
Proof.
  intros Hc. pose proof Hc as [Hop Hkey _ Hloc _ _ Hacks Hn Hid _].
  pose proof (control_or_ack _ Hop) as Hops.
  eexists. split; [apply Packet_Bytes_wire; try done; unfold P_DATA_V2; lia|].
  destruct (wireBody p) as [|b1 rest] eqn:E.
  { exfalso. unfold wireBody in E. apply app_nil in E as [E _]. rewrite E in Hloc. done. }
  rewrite ParsePacket_unfold. destruct (headerByte_fields (Opcode p) (KeyID p)) as [-> ->]; [lia|done|].
  cbv zeta. rewrite Hop, <- E. now apply parse_wireBody.
Qed.


(** Whatever parses is in the form in which it is serialised. *)
Lemma parse_exact raw p :
  ParsePacket raw = Ok p ->
  Opcode_IsControl (Opcode p) || (Opcode p =? P_ACK_V1) = true ->
  canonical p /\ Packet_Bytes p = Ok raw.
Proof.
  intros H Hop. destruct raw as [|b0 [|b1 rest]]; [done|done|].
  rewrite ParsePacket_unfold in H. cbv zeta in H.
  pose proof (header_fields_range b0) as [_ Hk].
  destruct (Opcode_IsControl (Z.shiftr (b2z b0) 3) || (Z.shiftr (b2z b0) 3 =? P_ACK_V1)) eqn:E.
  - apply parse_control_Ok in H as (Hc & Ho & Hkk & Hw); [|done|done]. split; [done|].
    pose proof (control_or_ack _ E) as Hops. destruct Hc as [? ? ? ? ? ? ? ? ? ?].
    rewrite Packet_Bytes_wire by (try done; unfold P_DATA_V2; lia).
    now rewrite Ho, Hkk, headerByte_of_byte, Hw.
  - exfalso. destruct (_ =? P_DATA_V2), (len rest <? 2); simplify_eq; cbn in Hop; congruence.
Qed.

(** C21: conversely every byte string that parses as a control or ACK packet
    is exactly the serialisation of the packet it parses to, and that packet
    is canonical: no two wire forms are confused. *)
Theorem parse_serialise_exact raw p :
  ParsePacket raw = Ok p ->
  Opcode_IsControl (Opcode p) || (Opcode p =? P_ACK_V1) = true ->
  canonical p /\ Packet_Bytes p = Ok raw.
Proof. apply parse_exact. Qed.

(** The number of bytes a control or ACK packet with [n] ACKs needs. *)
Definition minControlLen (op n : Z) : Z :=
  1 + 8 + 1 + 4 * n + (if 0 <? n then 8 else 0) + (if op =? P_ACK_V1 then 0 else 4).

(** The verdict of the parser as a function of the lengths alone. *)
Definition parseVerdict (raw : list byte) : outcome unit :=
  match raw with
  | b0 :: _ :: _ =>
      let op := Z.shiftr (b2z b0) 3 in
      if Opcode_IsControl op || (op =? P_ACK_V1) then
        match raw !! 9%nat with
        | Some n => if minControlLen op (b2z n) <=? len raw then Ok tt else Err ErrParsePacket
        | None => Err ErrParsePacket
        end
      else if (op =? P_DATA_V2) && (len raw <? 4) then Err ErrPacketTooShort
      else Ok tt
  | _ => Err ErrPacketTooShort
  end.

Lemma ReadFull_len buf n :
  match ReadFull buf n with
  | Ok (l, rest) => len buf = Z.of_nat n + len rest
  | Err _ => len buf < Z.of_nat n
  | Panic => False
  end.
Proof.
  unfold ReadFull, len. destruct (Nat.leb_spec n (length buf)).
  - rewrite length_drop. lia.
  - destruct (length buf =? 0)%nat; lia.
Qed.

Lemma ReadUint32_len buf :
  match ReadUint32 buf with
  | Ok (_, rest) => len buf = 4 + len rest
  | Err _ => len buf < 4
  | Panic => False
  end.
Proof.
  unfold ReadUint32. pose proof (ReadFull_len buf 4) as H.
  destruct (ReadFull buf 4) as [[l r]|e|]; cbn in *; lia.
Qed.

Lemma readACKs_len n buf :
  match readACKs n buf with
  | Ok (_, rest) => len buf = 4 * Z.of_nat n + len rest
  | Err _ => len buf < 4 * Z.of_nat n
  | Panic => False
  end.
Proof.
  revert buf. induction n as [|n IH]; intros buf; cbn [readACKs]; [lia|].
  pose proof (ReadUint32_len buf) as H1. destruct (ReadUint32 buf) as [[v b1]|e|]; cbn [mbind outcome_bind]; [|lia|done].
  specialize (IH b1). destruct (readACKs n b1) as [[l b2]|e|]; cbn; (lia || done).
Qed.

Lemma ParsePacket_verdict raw : (fun _ => tt) <$> ParsePacket raw = parseVerdict raw.
Proof.
  destruct raw as [|b0 [|b1 rest]]; [done|done|].
  rewrite ParsePacket_unfold. unfold parseVerdict. cbv zeta.
  set (op := Z.shiftr (b2z b0) 3). set (raw := b1 :: rest).
  change ((b0 :: raw) !! 9%nat) with (raw !! 8%nat).
  assert (len (b0 :: raw) = len raw + 1) as Hraw by apply len_cons.
  destruct (Opcode_IsControl op || (op =? P_ACK_V1)) eqn:Hop.
  2:{ subst raw. rewrite !len_cons in *. destruct (op =? P_DATA_V2); cbn [andb]; [|done].
      destruct (Z.ltb_spec (len rest) 2), (Z.ltb_spec (len rest + 1 + 1) 4); (done || lia). }
  unfold parseControlOrACKPacket, minControlLen. rewrite Hraw.
  destruct (Z.leb_spec (len raw) 0); [subst raw; rewrite len_cons in *; pose proof (len_nonneg rest); lia|].
  destruct (negb (Opcode_IsControl op) && negb (op =? P_ACK_V1)) eqn:Hno.
  { destruct (Opcode_IsControl op), (op =? P_ACK_V1); done. }
  clear Hno. clearbody raw. pose proof (ReadFull_len raw 8) as HL1.
  destruct (ReadFull raw 8) as [[loc buf]|e|] eqn:E1; go_step; [| |done].
  2:{ rewrite lookup_ge_None_2 by (unfold len in HL1; lia). done. }
  apply ReadFull_Ok in E1 as [-> Hloc]. rewrite lookup_app_r, Hloc by lia. cbn [Nat.sub].
  destruct buf as [|nb buf]; cbn [ReadByte rewrap mbind outcome_bind lookup list_lookup]; [done|].
  pose proof (b2z_range nb). rewrite len_cons in HL1.
  pose proof (readACKs_len (Z.to_nat (b2z nb)) buf) as HL2. rewrite Z2Nat.id in HL2 by lia.
  pose proof (len_nonneg buf).
  destruct (readACKs _ buf) as [[acks b3]|e|]; go_step; [| |done].
  2:{ zcase; [|done].
      destruct (0 <? b2z nb), (op =? P_ACK_V1); lia. }
  pose proof (ReadFull_len b3 8) as HL3. pose proof (len_nonneg b3).
  destruct (0 <? b2z nb); [destruct (ReadFull b3 8) as [[rem b4]|e|]|];
    go_step; try done.
  - pose proof (ReadUint32_len b4) as HL4. pose proof (len_nonneg b4). destruct (op =? P_ACK_V1); cbn [negb];
      [|destruct (ReadUint32 b4) as [[i b5]|e|]; [pose proof (len_nonneg b5)| |]];
      go_step; zcase; (done || lia).
  - zcase; [|done]. destruct (op =? P_ACK_V1); lia.
  - pose proof (ReadUint32_len b3) as HL4. destruct (op =? P_ACK_V1); cbn [negb];
      [|destruct (ReadUint32 b3) as [[i b5]|e|]; [pose proof (len_nonneg b5)| |]];
      go_step; zcase; (done || lia).
Qed.

Lemma ParsePacket_no_panic raw : ParsePacket raw <> Panic.
Proof.
  intros H. pose proof (ParsePacket_verdict raw) as V. rewrite H in V. cbn in V. symmetry in V. revert V.
  unfold parseVerdict. destruct raw as [|b0 [|b1 rest]]; [done|done|]. cbv zeta. repeat case_match; done.
Qed.

(** C22: [ParsePacket] never panics, and on every input, malformed ones
    included, it accepts or fails with exactly the error that the length
    conditions of the format determine. *)
Theorem parse_verdict raw : (fun _ => tt) <$> ParsePacket raw = parseVerdict raw.
Proof. apply ParsePacket_verdict. Qed.

(** A control packet that acknowledges two packets, used by the witnesses. *)
Definition samplePacket : Packet :=
  mkPacket P_CONTROL_V1 1 zeroPeerID (replicate 8 (z2b 7)) [1; 2] (replicate 8 (z2b 9)) 3
    [z2b 170; z2b 187].

Lemma samplePacket_canonical : canonical samplePacket.
Proof.
  constructor; cbn [samplePacket Opcode KeyID PeerID LocalSessionID ACKs RemoteSessionID ID];
    try reflexivity; try discriminate.
  - lia.
  - repeat constructor; lia.
  - unfold is_u32. lia.
Qed.


Definition sampleRaw : list byte :=
  match Packet_Bytes samplePacket with Ok raw => raw | _ => [] end.

Lemma parse_serialise_exact_witness :
  canonical samplePacket /\ Packet_Bytes samplePacket = Ok sampleRaw.
Proof. apply (parse_serialise_exact sampleRaw samplePacket); vm_compute; reflexivity. Defined.
