(* ===== verification/GoStrings.v ===== *)
(** * The parts of [strings] and [strconv] the program uses

    A Go string is its byte sequence, here a [string].  [Split] is
    [strings.Split] with a one-byte separator, [Atoi] is [strconv.Atoi] on a
    64-bit platform. *)

From Stdlib Require Export Ascii.
From S2P Require Import Prelude.

Abbreviation ascii := Ascii.ascii.
#[global] Open Scope string_scope.
#[global] Open Scope list_scope.
#[global] Open Scope Z_scope.
#[global] Arguments Ascii.eqb : simpl never.

(** [strings.Split(s, sep)]: the maximal separator-free pieces, never empty. *)
Fixpoint Split (sep : ascii) (s : string) : list string :=
  match s with
  | EmptyString => [""]
  | String c s' =>
      if Ascii.eqb c sep then "" :: Split sep s'
      else match Split sep s' with
           | [] => [String c ""]
           | w :: ws => String c w :: ws
           end
  end.

Fixpoint Join (sep : ascii) (l : list string) : string :=
  match l with
  | [] => ""
  | [w] => w
  | w :: ws => w +:+ String sep (Join sep ws)
  end.

(** [strings.HasPrefix(s, p)] *)
Definition HasPrefix (s p : string) : bool := String.prefix p s.

Definition is_digit (c : ascii) : bool :=
  (48 <=? Z.of_nat (nat_of_ascii c)) && (Z.of_nat (nat_of_ascii c) <=? 57).

Definition digit_val (c : ascii) : Z := Z.of_nat (nat_of_ascii c) - 48.

(** The value of a digit string read from the left. *)
Fixpoint digits_val (acc : Z) (s : string) : option Z :=
  match s with
  | EmptyString => Some acc
  | String c s' => if is_digit c then digits_val (acc * 10 + digit_val c) s' else None
  end.

(** [strconv.Atoi]: an optional sign, at least one decimal digit, the value
    within [int64]. *)
Definition Atoi (s : string) : outcome Z :=
  let '(neg, body) :=
    match s with
    | String c s' =>
        if Ascii.eqb c "-" then (true, s')
        else if Ascii.eqb c "+" then (false, s')
        else (false, s)
    | EmptyString => (false, s)
    end in
  match body with
  | EmptyString => Err ErrStrconv
  | _ =>
      match digits_val 0 body with
      | None => Err ErrStrconv
      | Some v =>
          let v := if neg : bool then - v else v in
          if (- 2 ^ 63 <=? v) && (v <? 2 ^ 63) then Ok v else Err ErrStrconv
      end
  end.

Definition map_string (f : ascii -> ascii) : string -> string :=
  fix go s := match s with EmptyString => EmptyString | String c s' => String (f c) (go s') end.

(** [strings.ToLower] and [strings.ToUpper] on ASCII strings. *)
Definition lower_ascii (c : ascii) : ascii :=
  let n := nat_of_ascii c in
  if (65 <=? n)%nat && (n <=? 90)%nat then ascii_of_nat (n + 32) else c.
Definition upper_ascii (c : ascii) : ascii :=
  let n := nat_of_ascii c in
  if (97 <=? n)%nat && (n <=? 122)%nat then ascii_of_nat (n - 32) else c.
Definition ToLower : string -> string := map_string lower_ascii.
Definition ToUpper : string -> string := map_string upper_ascii.

Lemma Split_not_nil sep s : Split sep s <> [].
Proof. destruct s; cbn; [done|]. case_match; [done|]. case_match; done. Qed.

(** [strings.Join] undoes [strings.Split]. *)
Lemma Join_Split sep s : Join sep (Split sep s) = s.
Proof.
  induction s as [|c s IH]; [done|]. cbn. destruct (Ascii.eqb_spec c sep) as [->|].
  - destruct (Split sep s) eqn:E; [now apply Split_not_nil in E|].
    rewrite <- IH. done.
  - destruct (Split sep s) as [|w ws] eqn:E; [now apply Split_not_nil in E|].
    rewrite <- IH. cbn. destruct ws; done.
Qed.

Fixpoint no_char (sep : ascii) (s : string) : bool :=
  match s with
  | EmptyString => true
  | String c s' => negb (Ascii.eqb c sep) && no_char sep s'
  end.

Lemma Split_no_char sep s : no_char sep s = true -> Split sep s = [s].
Proof.
  induction s as [|c s IH]; [done|]. cbn. destruct (Ascii.eqb c sep); [done|].
  cbn. intros H. now rewrite IH.
Qed.

Lemma Split_app sep s t :
  no_char sep s = true -> Split sep (s +:+ String sep t) = s :: Split sep t.
Proof.
  induction s as [|c s IH].
  - intros _. change ("" +:+ String sep t) with (String sep t). cbn. now rewrite Ascii.eqb_refl.
  - change (String c s +:+ String sep t) with (String c (s +:+ String sep t)). cbn.
    destruct (Ascii.eqb c sep); [done|]. cbn. intros H. now rewrite IH.
Qed.

Lemma Split_pieces sep s : Forall (fun w => no_char sep w = true) (Split sep s).
Proof.
  induction s as [|c s IH]; cbn; [repeat constructor|].
  destruct (Ascii.eqb c sep) eqn:E; [constructor; done|].
  destruct IH as [|w ws Hw Hws]; repeat constructor; cbn; rewrite ?E; done.
Qed.

Lemma Atoi_no_panic s : Atoi s <> Panic.
Proof. unfold Atoi. repeat case_match; done. Qed.

Example Atoi_1500 : Atoi "1500" = Ok 1500.
Proof. reflexivity. Qed.
Example Atoi_bad : Atoi "15a" = Err ErrStrconv.
Proof. reflexivity. Qed.

Lemma no_char_app sep s t : no_char sep (s +:+ t) = no_char sep s && no_char sep t.
Proof.
  induction s as [|c s IH]; [done|]. change (String c s +:+ t) with (String c (s +:+ t)). cbn.
  rewrite IH. now rewrite andb_assoc.
Qed.

Lemma str_assoc s t u : s +:+ (t +:+ u) = (s +:+ t) +:+ u.
Proof.
  induction s as [|x s IH]; [done|].
  change (String x s +:+ (t +:+ u)) with (String x (s +:+ (t +:+ u))). rewrite IH. done.
Qed.
