(* ===== verification/GoFloat.v ===== *)
(** * Go's [float64]

    What extras/ping uses of floating point: conversions, division,
    subtraction, multiplication, [math.Sqrt] and [math.Round].  A [float64] is
    an IEEE 754 binary64 number, the specification floats of the Standard
    Library with precision 53 and exponent bound 1024. *)

From Stdlib Require Export SpecFloat.
From S2P Require Import Prelude.

Definition float64 : Type := spec_float.

(** [float64(z)] rounds to nearest, ties to even. *)
Definition float64_of_int (z : Z) : float64 := binary_normalize 53 1024 z 0 false.

Definition f_div (x y : float64) : float64 := SFdiv 53 1024 x y.
Definition f_mul (x y : float64) : float64 := SFmul 53 1024 x y.
Definition f_add (x y : float64) : float64 := SFadd 53 1024 x y.
Definition f_sub (x y : float64) : float64 := SFsub 53 1024 x y.
Definition math_Sqrt (x : float64) : float64 := SFsqrt 53 1024 x.

Definition signed (s : bool) (z : Z) : Z := if s then - z else z.

(** The integer part, towards zero. *)
Definition float_trunc (f : float64) : option Z :=
  match f with
  | S754_zero _ => Some 0
  | S754_finite s m e => Some (signed s (if 0 <=? e then Z.pos m * 2 ^ e else Z.pos m / 2 ^ (- e)))
  | S754_infinity _ | S754_nan => None
  end.

(** [int(f)], [time.Duration(f)]: a value that does not fit is
    implementation-dependent in Go; amd64 gives the smallest integer. *)
Definition int64_of_float (f : float64) : Z :=
  match float_trunc f with
  | Some z => if (- 2 ^ 63 <=? z) && (z <? 2 ^ 63) then z else - 2 ^ 63
  | None => - 2 ^ 63
  end.

(** [math.Round]: half away from zero. *)
Definition math_Round (f : float64) : float64 :=
  match f with
  | S754_finite s m e =>
      if 0 <=? e then f
      else float64_of_int (signed s ((2 * Z.pos m + 2 ^ (- e)) / (2 * 2 ^ (- e))))
  | _ => f
  end.

Lemma int64_of_float_range f : - 2 ^ 63 <= int64_of_float f < 2 ^ 63.
Proof.
  unfold int64_of_float. destruct (float_trunc f) as [z|]; [|lia].
  destruct (Z.leb_spec (- 2 ^ 63) z), (Z.ltb_spec z (2 ^ 63)); cbn; lia.
Qed.

Lemma int64_of_nan : int64_of_float S754_nan = - 2 ^ 63.
Proof. reflexivity. Qed.

(** Square roots of negative numbers are not numbers. *)
Lemma sqrt_negative m e : math_Sqrt (S754_finite true m e) = S754_nan.
Proof. reflexivity. Qed.

(** [time.Duration.Seconds]: whole seconds and the remaining nanoseconds,
    added as floating-point numbers. *)
Definition Duration_Seconds (d : Z) : float64 :=
  f_add (float64_of_int (Z.quot d 1000000000))
    (f_div (float64_of_int (Z.rem d 1000000000)) (float64_of_int 1000000000)).

Example Duration_Seconds_half : Duration_Seconds (-1500000000) = f_div (float64_of_int (-3)) (float64_of_int 2).
Proof. vm_compute. reflexivity. Qed.
