(* ===== verification/Session.v ===== *)
(** * internal/session

    The session manager ([manager.go]), the key sources ([keysource.go]) and
    the data-channel key slots ([datachannelkey.go]).  The manager is guarded
    by a mutex: each method is one atomic function on [Manager].  Loggers and
    tracers are not part of the state. *)

From S2P Require Import Prelude Bytesx Packet GoStrings.

(** ** Key sources *)

Record KeySource : Type := mkKeySource {
  R1 : list byte;
  R2 : list byte;
  PreMaster : list byte
}.

#[export] Instance KeySource_eq_dec : EqDecision KeySource.
Proof. solve_decision. Defined.

Definition KeySource_Bytes (k : KeySource) : list byte := PreMaster k ++ R1 k ++ R2 k.

(** [randomFn n] of the call number [i]; the generator is outside the
    repository ([crypto/rand] behind [bytesx.GenRandomBytes]). *)
Definition RandomFn : Type := nat -> Z -> outcome (list byte).

(** [copy(dst[:], src)] into zeroed arrays of 32, 32 and 48 bytes.  [c] is the
    number of calls of [randomFn] made so far. *)
Definition NewKeySource (randomFn : RandomFn) (c : nat) : outcome KeySource :=
  random1 ← rewrap ErrRandomBytes (randomFn c 32);
  let r1 := copy_zeroed 32 random1 in
  random2 ← rewrap ErrRandomBytes (randomFn (c + 1)%nat 32);
  let r2 := copy_zeroed 32 random2 in
  random3 ← rewrap ErrRandomBytes (randomFn (c + 2)%nat 48);
  let preMaster := copy_zeroed 48 random3 in
  Ok (mkKeySource r1 r2 preMaster).

(** ** Data channel keys *)

Record DataChannelKey : Type := mkDataChannelKey {
  key_index : Z;
  key_ready : bool;
  key_local : option KeySource;
  key_remote : option KeySource
}.

#[export] Instance DataChannelKey_eq_dec : EqDecision DataChannelKey.
Proof. solve_decision. Defined.

Definition zeroDataChannelKey : DataChannelKey := mkDataChannelKey 0 false None None.

Definition AddRemoteKey (dck : DataChannelKey) (k : KeySource) : outcome DataChannelKey :=
  if key_ready dck then Err ErrSessionDataChannelKey
  else Ok (mkDataChannelKey (key_index dck) true (key_local dck) (Some k)).

Definition AddLocalKey (dck : DataChannelKey) (k : KeySource) : DataChannelKey :=
  mkDataChannelKey (key_index dck) (key_ready dck) (Some k) (key_remote dck).

Definition Ready (dck : DataChannelKey) : bool := key_ready dck.

(** ** The manager *)

Record Manager : Type := mkManager {
  keyID : Z;
  keys : list DataChannelKey;
  localControlPacketID : Z;
  localDataPacketID : Z;
  localSessionID : list byte;
  negState : Z;
  remoteSessionID : option (list byte);
  tunnelInfo : TunnelInfo
}.

Definition set_keys (v : list DataChannelKey) (m : Manager) : Manager :=
  mkManager (keyID m) v (localControlPacketID m) (localDataPacketID m) (localSessionID m)
    (negState m) (remoteSessionID m) (tunnelInfo m).
Definition set_localControlPacketID (v : Z) (m : Manager) : Manager :=
  mkManager (keyID m) (keys m) v (localDataPacketID m) (localSessionID m)
    (negState m) (remoteSessionID m) (tunnelInfo m).
Definition set_localDataPacketID (v : Z) (m : Manager) : Manager :=
  mkManager (keyID m) (keys m) (localControlPacketID m) v (localSessionID m)
    (negState m) (remoteSessionID m) (tunnelInfo m).
Definition set_localSessionID (v : list byte) (m : Manager) : Manager :=
  mkManager (keyID m) (keys m) (localControlPacketID m) (localDataPacketID m) v
    (negState m) (remoteSessionID m) (tunnelInfo m).
Definition set_negState (v : Z) (m : Manager) : Manager :=
  mkManager (keyID m) (keys m) (localControlPacketID m) (localDataPacketID m) (localSessionID m)
    v (remoteSessionID m) (tunnelInfo m).
Definition set_remoteSessionID (v : option (list byte)) (m : Manager) : Manager :=
  mkManager (keyID m) (keys m) (localControlPacketID m) (localDataPacketID m) (localSessionID m)
    (negState m) v (tunnelInfo m).
Definition set_tunnelInfo (v : TunnelInfo) (m : Manager) : Manager :=
  mkManager (keyID m) (keys m) (localControlPacketID m) (localDataPacketID m) (localSessionID m)
    (negState m) (remoteSessionID m) v.

(** [ActiveKey] hands out a pointer into [keys]; the model returns its index
    and [modifyKey] is a write through that pointer. *)
Definition ActiveKey (m : Manager) : outcome (nat * DataChannelKey) :=
  if (MaxUint8 <? len (keys m)) || (u8 (len (keys m)) <=? keyID m) then Err ErrSessionDataChannelKey
  else dck ← go_index (keys m) (keyID m); Ok (Z.to_nat (keyID m), dck).

Definition modifyKey (i : nat) (dck : DataChannelKey) (m : Manager) : Manager :=
  set_keys (<[i := dck]> (keys m)) m.

Definition NewManager (randomFn : RandomFn) : outcome Manager :=
  let m := mkManager 0 [zeroDataChannelKey] 1 1 zeroSessionID 0 None zeroTunnelInfo in
  randomBytes ← randomFn 0%nat 8;
  sid ← go_upto randomBytes 8;
  let m := set_localSessionID sid m in
  localKey ← NewKeySource randomFn 1;
  '(i, k) ← ActiveKey m;
  Ok (modifyKey i (AddLocalKey k localKey) m).

Definition GetLocalSessionID (m : Manager) : list byte := localSessionID m.

(** A [nil] slice when the remote session is not known. *)
Definition GetRemoteSessionID (m : Manager) : list byte :=
  match remoteSessionID m with Some v => v | None => [] end.

Definition IsRemoteSessionIDSet (m : Manager) : bool :=
  match remoteSessionID m with Some _ => true | None => false end.

Definition NewACKForPacketIDs (m : Manager) (ids : list Z) : outcome Packet :=
  match remoteSessionID m with
  | None => Err ErrNoRemoteSessionID
  | Some rs =>
      Ok (mkPacket P_ACK_V1 (keyID m) zeroPeerID (localSessionID m) ids rs 0 [])
  end.

Definition localDataPacketIDLocked (m : Manager) : outcome Z * Manager :=
  let pid := localDataPacketID m in
  if pid =? MaxUint32 then (Err ErrSessionExpiredKey, m)
  else (Ok pid, set_localDataPacketID (u32 (localDataPacketID m + 1)) m).

Definition localControlPacketIDLocked (m : Manager) : outcome Z * Manager :=
  let pid := localControlPacketID m in
  if pid =? MaxUint32 then (Err ErrSessionExpiredKey, m)
  else (Ok pid, set_localControlPacketID (u32 (localControlPacketID m + 1)) m).

Definition LocalDataPacketID (m : Manager) : outcome Z * Manager := localDataPacketIDLocked m.

Definition Manager_NewPacket (m : Manager) (opcode : Z) (payload : list byte) : outcome Packet * Manager :=
  let packet := NewPacket opcode (keyID m) payload in
  let packet := set_LocalSessionID (copy_zeroed 8 (localSessionID m)) packet in
  let '(pid, m') :=
    if Opcode_IsControl opcode then localControlPacketIDLocked m else localDataPacketIDLocked m in
  match pid with
  | Ok pid =>
      let packet := set_ID pid packet in
      let packet :=
        match remoteSessionID m' with
        | Some rs => set_RemoteSessionID rs packet
        | None => packet
        end in
      (Ok packet, m')
  | Err e => (Err e, m')
  | Panic => (Panic, m')
  end.

Definition NewHardResetPacket (m : Manager) : Packet :=
  let packet := NewPacket P_CONTROL_HARD_RESET_CLIENT_V2 (keyID m) [] in
  let packet := set_ID 0 packet in
  set_LocalSessionID (copy_zeroed 8 (localSessionID m)) packet.

(** The boolean says that the call sends on [Ready] before it releases the
    mutex: it blocks until [StartTUN] receives. *)
Definition SetNegotiationState (m : Manager) (sns : Z) : Manager * bool :=
  (set_negState sns m, sns =? S_GENERATED_KEYS).

Definition SetRemoteSessionID (m : Manager) (rs : list byte) : outcome Manager :=
  _ ← Assert (negb (IsRemoteSessionIDSet m));
  Ok (set_remoteSessionID (Some rs) m).

Definition CurrentKeyID (m : Manager) : Z := keyID m.

Definition set_MTU (v : Z) (t : TunnelInfo) : TunnelInfo :=
  mkTunnelInfo (GW t) (IP t) v (NetMask t) (TIPeerID t).

(** The loop over the comma-separated options. *)
Fixpoint tunnelInfoLoop (opts : list string) (t : TunnelInfo) : outcome TunnelInfo :=
  match opts with
  | [] => Ok t
  | opt :: opts' =>
      match Split " "%char opt with
      | k :: v :: _ =>
          if String.eqb k "tun-mtu" then
            mtu ← Atoi v;
            tunnelInfoLoop opts' (set_MTU mtu t)
          else tunnelInfoLoop opts' t
      | _ => tunnelInfoLoop opts' t
      end
  end.

Definition newTunnelInfoFromRemoteOptionsString (remoteOpts : string) : outcome TunnelInfo :=
  tunnelInfoLoop (Split ","%char remoteOpts) zeroTunnelInfo.

Definition InitTunnelInfo (m : Manager) (remoteOption : string) : outcome Manager :=
  ti ← newTunnelInfoFromRemoteOptionsString remoteOption;
  Ok (set_tunnelInfo ti m).

Definition UpdateTunnelInfo (m : Manager) (ti : TunnelInfo) : Manager :=
  set_tunnelInfo (mkTunnelInfo (GW ti) (IP ti) (MTU (tunnelInfo m)) (NetMask ti) (TIPeerID ti)) m.

Definition GetTunnelInfo (m : Manager) : TunnelInfo :=
  mkTunnelInfo (GW (tunnelInfo m)) (IP (tunnelInfo m)) (MTU (tunnelInfo m))
    (NetMask (tunnelInfo m)) (TIPeerID (tunnelInfo m)).

(** ** Runs of the manager

    The operations that change a manager, in any order, as the workers
    interleave them; each records the packet identifiers it hands out. *)
Inductive session_op : Type :=
  | OpNewPacket (opcode : Z) (payload : list byte)
  | OpDataPacketID
  | OpSetNegotiationState (s : Z)
  | OpSetRemoteSessionID (rs : list byte)
  | OpInitTunnelInfo (s : string)
  | OpUpdateTunnelInfo (ti : TunnelInfo)
  | OpAddRemoteKey (k : KeySource).

Inductive issued : Type := ControlID (i : Z) | DataID (i : Z).

(** A failed or panicking operation leaves the manager as it was. *)
Definition session_exec (op : session_op) (m : Manager) : Manager * list issued :=
  match op with
  | OpNewPacket opcode payload =>
      let '(r, m') := Manager_NewPacket m opcode payload in
      (m', match r with
           | Ok p => [if Opcode_IsControl opcode then ControlID (ID p) else DataID (ID p)]
           | _ => []
           end)
  | OpDataPacketID =>
      let '(r, m') := LocalDataPacketID m in
      (m', match r with Ok i => [DataID i] | _ => [] end)
  | OpSetNegotiationState s => (fst (SetNegotiationState m s), [])
  | OpSetRemoteSessionID rs =>
      (match SetRemoteSessionID m rs with Ok m' => m' | _ => m end, [])
  | OpInitTunnelInfo s => (match InitTunnelInfo m s with Ok m' => m' | _ => m end, [])
  | OpUpdateTunnelInfo ti => (UpdateTunnelInfo m ti, [])
  | OpAddRemoteKey k =>
      (match ActiveKey m with
       | Ok (i, dck) => match AddRemoteKey dck k with Ok dck' => modifyKey i dck' m | _ => m end
       | _ => m
       end, [])
  end.

Fixpoint session_run (ops : list session_op) (m : Manager) : Manager * list issued :=
  match ops with
  | [] => (m, [])
  | op :: ops' =>
      let '(m1, ev1) := session_exec op m in
      let '(m2, ev2) := session_run ops' m1 in
      (m2, ev1 ++ ev2)
  end.

Definition controlIDs (ev : list issued) : list Z :=
  omap (fun e => match e with ControlID i => Some i | DataID _ => None end) ev.
Definition dataIDs (ev : list issued) : list Z :=
  omap (fun e => match e with DataID i => Some i | ControlID _ => None end) ev.

(** The invariant of a manager built by [NewManager]. *)
Record manager_inv (m : Manager) : Prop := {
  inv_keyID : keyID m = 0;
  inv_keys : length (keys m) = 1%nat;
  inv_local_key : Forall (fun k => key_local k <> None) (keys m);
  inv_ready_key : Forall (fun k => key_ready k = true -> key_remote k <> None) (keys m);
  inv_control : 1 <= localControlPacketID m <= MaxUint32;
  inv_data : 1 <= localDataPacketID m <= MaxUint32;
  inv_local : length (localSessionID m) = 8%nat
}.

Lemma seqZ_0 z : seqZ z (z - z) = [].
Proof. now rewrite Z.sub_diag. Qed.

Lemma seqZ_1 z : seqZ z (z + 1 - z) = [z].
Proof. replace (z + 1 - z) with 1 by lia. unfold seqZ. cbn. done. Qed.

(** The counters of [m'] are those of [m] advanced past the identifiers in
    [ev], and a remote session identifier that is set stays. *)
Definition advances (m m' : Manager) (ev : list issued) : Prop :=
  controlIDs ev = seqZ (localControlPacketID m) (localControlPacketID m' - localControlPacketID m) /\
  dataIDs ev = seqZ (localDataPacketID m) (localDataPacketID m' - localDataPacketID m) /\
  localControlPacketID m <= localControlPacketID m' /\ localDataPacketID m <= localDataPacketID m' /\
  (forall rs, remoteSessionID m = Some rs -> remoteSessionID m' = Some rs).

Lemma advances_id m m' :
  localControlPacketID m' = localControlPacketID m -> localDataPacketID m' = localDataPacketID m ->
  (forall rs, remoteSessionID m = Some rs -> remoteSessionID m' = Some rs) -> advances m m' [].
Proof. intros Hc Hd Hr. unfold advances. rewrite Hc, Hd, !seqZ_0. repeat split; (done || lia). Qed.

Lemma seqZ_app_range a b c : a <= b <= c -> seqZ a (b - a) ++ seqZ b (c - b) = seqZ a (c - a).
Proof. intros. replace (c - a) with ((b - a) + (c - b)) by lia. rewrite seqZ_app by lia. do 2 f_equal. lia. Qed.

Lemma advances_trans m1 m2 m3 ev1 ev2 :
  advances m1 m2 ev1 -> advances m2 m3 ev2 -> advances m1 m3 (ev1 ++ ev2).
Proof.
  intros (Hc & Hd & Hcl & Hdl & Hr) (Hc' & Hd' & Hcl' & Hdl' & Hr').
  unfold advances, controlIDs, dataIDs in *.
  rewrite !omap_app, Hc, Hc', Hd, Hd', !seqZ_app_range by lia. repeat split; auto; lia.
Qed.

Lemma localDataPacketIDLocked_spec m :
  manager_inv m ->
  (localDataPacketID m = MaxUint32 /\
   localDataPacketIDLocked m = (Err ErrSessionExpiredKey, m)) \/
  (localDataPacketID m < MaxUint32 /\
   localDataPacketIDLocked m
   = (Ok (localDataPacketID m), set_localDataPacketID (localDataPacketID m + 1) m)).
Proof.
  intros [_ _ _ _ _ Hd _]. unfold localDataPacketIDLocked. unfold MaxUint32 in *.
  zcase; [left; done | right]. rewrite u32_small by (unfold is_u32; lia). split; [lia | done].
Qed.

Lemma localControlPacketIDLocked_spec m :
  manager_inv m ->
  (localControlPacketID m = MaxUint32 /\
   localControlPacketIDLocked m = (Err ErrSessionExpiredKey, m)) \/
  (localControlPacketID m < MaxUint32 /\
   localControlPacketIDLocked m
   = (Ok (localControlPacketID m), set_localControlPacketID (localControlPacketID m + 1) m)).
Proof.
  intros [_ _ _ _ Hc _ _]. unfold localControlPacketIDLocked. unfold MaxUint32 in *.
  zcase; [left; done | right]. rewrite u32_small by (unfold is_u32; lia). split; [lia | done].
Qed.

Lemma ActiveKey_Ok m : manager_inv m -> exists k, keys m = [k] /\ ActiveKey m = Ok (0%nat, k).
Proof.
  intros [Hid Hlen _ _ _ _ _]. destruct (keys m) as [|k [|? ?]] eqn:E; try done.
  exists k. split; [done|]. unfold ActiveKey. rewrite E, Hid. reflexivity.
Qed.

Lemma manager_inv_set_data m i :
  manager_inv m -> 1 <= i <= MaxUint32 -> manager_inv (set_localDataPacketID i m).
Proof. intros [] ?. constructor; done. Qed.

Lemma manager_inv_set_control m i :
  manager_inv m -> 1 <= i <= MaxUint32 -> manager_inv (set_localControlPacketID i m).
Proof. intros [] ?. constructor; done. Qed.

Lemma advances_data m :
  advances m (set_localDataPacketID (localDataPacketID m + 1) m) [DataID (localDataPacketID m)].
Proof. unfold advances; cbn. rewrite seqZ_0, seqZ_1. repeat split; (done || lia). Qed.

Lemma advances_control m :
  advances m (set_localControlPacketID (localControlPacketID m + 1) m) [ControlID (localControlPacketID m)].
Proof. unfold advances; cbn. rewrite seqZ_0, seqZ_1. repeat split; (done || lia). Qed.

Lemma Manager_NewPacket_ID m op payload p m' :
  Manager_NewPacket m op payload = (Ok p, m') ->
  (if Opcode_IsControl op then localControlPacketIDLocked m else localDataPacketIDLocked m)
  = (Ok (ID p), m').
Proof.
  unfold Manager_NewPacket.
  destruct (if Opcode_IsControl op then _ else _) as [[i|e|] m1]; intros [= <- <-].
  now destruct (remoteSessionID m1).
Qed.

Lemma Manager_NewPacket_Err m op payload r m' :
  (forall p, r <> Ok p) -> Manager_NewPacket m op payload = (r, m') ->
  exists r', (if Opcode_IsControl op then localControlPacketIDLocked m else localDataPacketIDLocked m)
  = (r', m') /\ forall i, r' <> Ok i.
Proof.
  intros Hr. unfold Manager_NewPacket.
  destruct (if Opcode_IsControl op then _ else _) as [[i|e|] m1]; intros [= <- <-]; [naive_solver|eauto|eauto].
Qed.

(** What one operation does to the counters and to the invariant. *)
Lemma session_exec_spec op m m' ev :
  manager_inv m -> session_exec op m = (m', ev) -> manager_inv m' /\ advances m m' ev.
Proof.
  intros Hinv. pose proof Hinv as [Hid Hlen Hloc Hrdy Hc Hd Hs].
  unfold session_exec.
  destruct op as [op payload| |s|rs|s|ti|k]; cbn [SetNegotiationState fst].
  - destruct (Manager_NewPacket m op payload) as [r m1] eqn:E.
    pose proof (localDataPacketIDLocked_spec m Hinv). pose proof (localControlPacketIDLocked_spec m Hinv).
    destruct r as [p|e|]; intros [= <- <-].
    + apply Manager_NewPacket_ID in E. destruct (Opcode_IsControl op); rewrite E in *.
      * destruct H0 as [[_ ?]|[? [= -> ->]]]; [done|].
        split; [apply manager_inv_set_control; [done | lia] | apply advances_control].
      * destruct H as [[_ ?]|[? [= -> ->]]]; [done|].
        split; [apply manager_inv_set_data; [done | lia] | apply advances_data].
    + apply Manager_NewPacket_Err in E as (r' & E & Hr'); [|done].
      destruct (Opcode_IsControl op); rewrite E in *;
        [destruct H0 as [[_ [= ? ->]]|[? [= ? _]]]|destruct H as [[_ [= ? ->]]|[? [= ? _]]]]; subst;
        try (now edestruct Hr'); (split; [done | now apply advances_id]).
    + apply Manager_NewPacket_Err in E as (r' & E & Hr'); [|done].
      destruct (Opcode_IsControl op); rewrite E in *;
        [destruct H0 as [[_ [= ? ->]]|[? [= ? _]]]|destruct H as [[_ [= ? ->]]|[? [= ? _]]]]; subst;
        try (now edestruct Hr'); (split; [done | now apply advances_id]).
  - unfold LocalDataPacketID. destruct (localDataPacketIDLocked_spec m Hinv) as [[_ ->]|[? ->]]; intros [= <- <-].
    + split; [done | now apply advances_id].
    + split; [apply manager_inv_set_data; [done | lia] | apply advances_data].
  - intros [= <- <-]. split; [constructor; done | now apply advances_id].
  - unfold SetRemoteSessionID, IsRemoteSessionIDSet.
    destruct (remoteSessionID m) eqn:E; cbn; intros [= <- <-]; (split; [constructor; done|]);
      apply advances_id; cbn; congruence.
  - unfold InitTunnelInfo. destruct (newTunnelInfoFromRemoteOptionsString s); cbn; intros [= <- <-];
      (split; [constructor; done | now apply advances_id]).
  - intros [= <- <-]. split; [constructor; done | now apply advances_id].
  - destruct (ActiveKey_Ok m Hinv) as (dck & Hk & ->). unfold AddRemoteKey.
    rewrite Hk in Hloc, Hrdy. rewrite Forall_singleton in Hloc, Hrdy.
    destruct (key_ready dck) eqn:Er; intros [= <- <-]; (split; [|now apply advances_id]).
    + done.
    + constructor; cbn; rewrite ?Hk; cbn; try done; apply Forall_singleton; cbn; done.
Qed.

Lemma session_run_spec ops m m' ev :
  manager_inv m -> session_run ops m = (m', ev) -> manager_inv m' /\ advances m m' ev.
Proof.
  revert m m' ev. induction ops as [|op ops IH]; intros m m' ev Hinv; cbn.
  - intros [= <- <-]. split; [done | now apply advances_id].
  - destruct (session_exec op m) as [m1 ev1] eqn:E1. destruct (session_run ops m1) as [m2 ev2] eqn:E2.
    intros [= <- <-]. apply session_exec_spec in E1 as [Hinv1 Ha1]; [|done].
    apply IH in E2 as [Hinv2 Ha2]; [|done]. split; [done | eapply advances_trans; eassumption].
Qed.

Lemma NewManager_inv randomFn m :
  NewManager randomFn = Ok m -> manager_inv m /\ localControlPacketID m = 1 /\
  localDataPacketID m = 1 /\ remoteSessionID m = None /\ negState m = S_UNDEF.
Proof.
  unfold NewManager. intros (rb & _ & H)%bind_Ok. apply bind_Ok in H as (sid & Hsid & H).
  apply bind_Ok in H as (lk & _ & [= <-]).
  unfold go_upto in Hsid. destruct (Z.leb_spec 8 (len rb)) as [Hl|]; [|done]. injection Hsid as <-.
  repeat split; cbn; try done; try (unfold MaxUint32; lia).
  - apply Forall_singleton. done.
  - apply Forall_singleton. done.
  - rewrite length_take. unfold len in Hl. lia.
Qed.

(** Over any interleaving of the operations on a manager the control
    packet identifiers handed out are the consecutive integers from the
    current counter, and so are the data packet identifiers; neither counter
    wraps around, so no identifier is ever issued twice.  (The counters start
    at 1, see [NewManager].) *)
Theorem packet_ids_consecutive ops m m' ev :
  manager_inv m -> session_run ops m = (m', ev) ->
  controlIDs ev = seqZ (localControlPacketID m) (len (controlIDs ev)) /\
  dataIDs ev = seqZ (localDataPacketID m) (len (dataIDs ev)) /\
  NoDup (controlIDs ev) /\ NoDup (dataIDs ev) /\
  Forall (fun i => 1 <= i < MaxUint32) (controlIDs ev ++ dataIDs ev).
Proof.
  intros Hinv Hrun. destruct (session_run_spec _ _ _ _ Hinv Hrun) as [[_ _ _ _ Hc' Hd' _] (Hc & Hd & Hcl & Hdl & _)].
  destruct Hinv as [_ _ _ _ Hc0 Hd0 _].
  rewrite Hc, Hd. unfold len. rewrite !length_seqZ, !Z2Nat.id by lia.
  repeat split; try apply NoDup_seqZ. apply Forall_app.
  split; apply Forall_forall; intros i Hi%elem_of_seqZ; lia.
Qed.

(** With a working random generator the manager is built, with the identifier
    and the secrets that were drawn. *)
Lemma NewManager_succeeds (randRead : nat -> nat -> outcome (list byte)) :
  (forall c, fills (randRead c)) -> exists m, NewManager (fun c => GenRandomBytes (randRead c)) = Ok m.
Proof.
  intros Hf. unfold NewManager, NewKeySource.
  destruct (GenRandomBytes_length _ 8 (Hf 0%nat) ltac:(lia)) as (b & -> & Hb). cbn [mbind outcome_bind].
  rewrite go_upto_Ok by lia. cbn [mbind outcome_bind].
  destruct (GenRandomBytes_length _ 32 (Hf 1%nat) ltac:(lia)) as (r1 & -> & _).
  destruct (GenRandomBytes_length _ 32 (Hf (1 + 1)%nat) ltac:(lia)) as (r2 & -> & _).
  destruct (GenRandomBytes_length _ 48 (Hf (1 + 2)%nat) ltac:(lia)) as (r3 & -> & _).
  eexists. reflexivity.
Qed.

(** A random source for the witnesses: byte [i] of call [c] is [c]. *)
Definition sampleRandom : RandomFn := fun c n => Ok (replicate (Z.to_nat n) (z2b (Z.of_nat c))).

Definition sampleManager : Manager :=
  match NewManager sampleRandom with Ok m => m | _ => mkManager 0 [] 0 0 [] 0 None zeroTunnelInfo end.

Lemma sampleManager_inv : manager_inv sampleManager.
Proof. apply (NewManager_inv sampleRandom). reflexivity. Qed.

Lemma packet_ids_consecutive_witness :
  let '(m', ev) := session_run
    [OpNewPacket P_CONTROL_V1 []; OpDataPacketID; OpSetRemoteSessionID zeroSessionID;
     OpNewPacket P_CONTROL_V1 [z2b 1]; OpDataPacketID] sampleManager in
  controlIDs ev = seqZ 1 2 /\ dataIDs ev = seqZ 1 2 /\
  NoDup (controlIDs ev) /\ NoDup (dataIDs ev) /\
  Forall (fun i => 1 <= i < MaxUint32) (controlIDs ev ++ dataIDs ev).
Proof.
  destruct (session_run _ sampleManager) as [m' ev] eqn:E.
  pose proof (packet_ids_consecutive _ _ _ _ sampleManager_inv E) as (H1 & H2 & H3 & H4 & H5).
  vm_compute in E. injection E as <- <-. repeat split; try assumption; reflexivity.
Defined.

(** From a manager that [NewManager] returned, every sequence of
    operations keeps exactly one key slot, whose local key source is set and
    which is ready only with a remote key source; so [ActiveKey] never fails,
    and a remote session identifier, once set, never changes. *)
Lemma manager_invariant randomFn m ops m' ev :
  NewManager randomFn = Ok m -> session_run ops m = (m', ev) ->
  (exists k, ActiveKey m' = Ok (0%nat, k) /\ key_local k <> None /\
             (key_ready k = true -> key_remote k <> None)) /\
  (forall rs ops2 m2 ev2, remoteSessionID m' = Some rs -> session_run ops2 m' = (m2, ev2) ->
     remoteSessionID m2 = Some rs).
Proof.
  intros Hnew Hrun. apply NewManager_inv in Hnew as [Hinv _].
  apply session_run_spec in Hrun as [Hinv' _]; [|done]. split.
  - destruct (ActiveKey_Ok m' Hinv') as (k & Hk & HA). exists k. split; [done|].
    destruct Hinv' as [_ _ Hl Hr _ _ _]. rewrite Hk in Hl, Hr.
    rewrite Forall_singleton in Hl, Hr. done.
  - intros rs ops2 m2 ev2 Hrs Hrun2. apply session_run_spec in Hrun2 as [_ (_ & _ & _ & _ & H)]; [|done].
    auto.
Qed.

Lemma manager_invariant_sample :
  let '(m', ev) := session_run [OpSetRemoteSessionID zeroSessionID] sampleManager in
  (exists k, ActiveKey m' = Ok (0%nat, k) /\ key_local k <> None /\
             (key_ready k = true -> key_remote k <> None)) /\
  (forall rs ops2 m2 ev2, remoteSessionID m' = Some rs -> session_run ops2 m' = (m2, ev2) ->
     remoteSessionID m2 = Some rs).
Proof.
  destruct (session_run _ sampleManager) as [m' ev] eqn:E.
  apply (manager_invariant sampleRandom sampleManager [OpSetRemoteSessionID zeroSessionID] m' ev);
    [reflexivity | exact E].
Defined.
