(* ===== verification/SessionLock.v ===== *)
(** * internal/session: the manager under its mutex

    The methods of [Manager] run between [mu.Lock] and the deferred
    [mu.Unlock], so the model of [Session] takes them as atomic.  One of them
    waits inside: [SetNegotiationState] sends on the unbuffered channel [Ready]
    when the keys are there, and the one receiver is the select of [StartTUN]
    (internal/tun/tun.go), which takes one message at most and gives up at a
    timeout, a failure or the end of its context.  Here the goroutines share
    the manager, its mutex and that channel. *)

From S2P Require Import Prelude Packet Session.

(** [signalling]: a goroutine is in the send, and has the mutex.
    [awaited]: [StartTUN] is in its select. *)
Record sharedSession : Type := mkShared { shared : Manager; signalling : bool; awaited : bool }.

Definition fresh (m : Manager) : sharedSession := mkShared m false true.

(** A method that changes the manager, one that only reads it, the receipt of
    the signal by [StartTUN], and [StartTUN] giving up. *)
Inductive lockLabel : Type := Called (op : session_op) | Inspected | ReadyReceived | GaveUp.

(** [AddRemoteKey] is a method of the key, which has a mutex of its own. *)
Definition takesMutex (op : session_op) : bool := match op with OpAddRemoteKey _ => false | _ => true end.

Definition signals (op : session_op) : bool :=
  match op with OpSetNegotiationState s => s =? S_GENERATED_KEYS | _ => false end.

Lemma signals_SetNegotiationState m s : signals (OpSetNegotiationState s) = snd (SetNegotiationState m s).
Proof. reflexivity. Qed.

(** A method of the manager is one step: it holds the mutex from its first
    access to the fields to its last, so no other method runs in between, and
    the one place where it can wait with the mutex held, the send on [Ready],
    is the state [signalling], which the receipt by [StartTUN] ends. *)
Inductive lockStep : sharedSession -> lockLabel -> sharedSession -> Prop :=
  | StepCalled s op :
      signalling s && takesMutex op = false ->
      lockStep s (Called op) (mkShared (fst (session_exec op (shared s))) (signalling s || signals op) (awaited s))
  | StepInspected s :
      signalling s = false -> lockStep s Inspected s
  | StepReceived s :
      signalling s = true -> awaited s = true -> lockStep s ReadyReceived (mkShared (shared s) false false)
  | StepGaveUp s :
      awaited s = true -> lockStep s GaveUp (mkShared (shared s) (signalling s) false).

Inductive lockRun : sharedSession -> list lockLabel -> sharedSession -> Prop :=
  | RunNil s : lockRun s [] s
  | RunSnoc s tr s1 l s2 : lockRun s tr s1 -> lockStep s1 l s2 -> lockRun s (tr ++ [l]) s2.

Definition calls (tr : list lockLabel) : list session_op :=
  omap (fun l => match l with Called op => Some op | _ => None end) tr.
Definition signalled (tr : list lockLabel) : nat := length (List.filter signals (calls tr)).

(** Somebody waits in the send and nobody will receive. *)
Definition deadlocked (s : sharedSession) : Prop := signalling s = true /\ awaited s = false.

Lemma calls_app tr tr' : calls (tr ++ tr') = calls tr ++ calls tr'.
Proof. apply omap_app. Qed.

Lemma signalled_snoc tr l :
  signalled (tr ++ [l]) = (signalled tr + match l with Called op => if signals op then 1 else 0 | _ => 0 end)%nat.
Proof.
  unfold signalled. rewrite calls_app, List.filter_app, length_app. f_equal.
  destruct l; try done. cbn. by destruct (signals op).
Qed.

Lemma session_run_snoc ops op m :
  fst (session_run (ops ++ [op]) m) = fst (session_exec op (fst (session_run ops m))).
Proof.
  revert m. induction ops as [|o ops IH]; intros m; cbn [app session_run].
  - cbn [fst]. by destruct (session_exec op m).
  - destruct (session_exec o m) as [m1 ev1]. specialize (IH m1).
    destruct (session_run (ops ++ [op]) m1), (session_run ops m1). exact IH.
Qed.

(** ** The mutex serialises *)

Lemma lockRun_sequential m tr s :
  lockRun (fresh m) tr s -> shared s = fst (session_run (calls tr) m).
Proof.
  intros Hr. remember (fresh m) as s0 eqn:E0. induction Hr as [|s tr s1 l s2 Hr IH Hs]; [by subst|].
  specialize (IH E0). rewrite calls_app.
  destruct Hs as [s1 op Hl|s1 Hl|s1 Hl Ha|s1 Ha]; cbn [calls omap list_omap shared] in *; rewrite ?app_nil_r; try done.
  by rewrite session_run_snoc, <- IH.
Qed.

(** ** One signal is received *)

(** Where a run can be, by the signals given and how [StartTUN] ended. *)
Definition lock_inv (tr : list lockLabel) (s : sharedSession) : Prop :=
  let early := GaveUp ∈ tr /\ ReadyReceived ∉ tr in
  match signalling s, awaited s with
  | false, true => signalled tr = 0%nat /\ GaveUp ∉ tr /\ ReadyReceived ∉ tr
  | true, true => signalled tr = 1%nat /\ GaveUp ∉ tr /\ ReadyReceived ∉ tr
  | false, false => signalled tr = 0%nat /\ early \/ signalled tr = 1%nat /\ ReadyReceived ∈ tr
  | true, false => signalled tr = 1%nat /\ early \/ signalled tr = 2%nat /\ ReadyReceived ∈ tr
  end.

Lemma lock_inv_quiet tr s l :
  (forall op, l = Called op -> signals op = false) -> l <> GaveUp -> l <> ReadyReceived ->
  lock_inv tr s -> lock_inv (tr ++ [l]) s.
Proof.
  intros Hs Hg Hr. unfold lock_inv. rewrite signalled_snoc.
  assert (match l with Called op => if signals op then 1 else 0 | _ => 0 end = 0)%nat as ->.
  { destruct l; try done. by rewrite Hs. }
  rewrite Nat.add_0_r. destruct (signalling s), (awaited s); cbv zeta; rewrite ?elem_of_app, ?list_elem_of_singleton; naive_solver.
Qed.

Lemma lockStep_inv tr s l s' : lock_inv tr s -> lockStep s l s' -> lock_inv (tr ++ [l]) s'.
Proof.
  intros Hi Hs. destruct Hs as [s op Hl|s Hl|s Hl Ha|s Ha]; [|by apply lock_inv_quiet|..].
  - destruct (signals op) eqn:Eo.
    + unfold lock_inv in *. rewrite signalled_snoc, Eo. cbn [signalling awaited].
      destruct (signalling s); [by destruct op|]. cbn [orb].
      destruct (awaited s); cbv zeta in *; rewrite !elem_of_app, !list_elem_of_singleton; naive_solver lia.
    + apply lock_inv_quiet; [by intros ? [= <-]|done..|]. unfold lock_inv in *. cbn [signalling awaited].
      by rewrite orb_false_r.
  - unfold lock_inv in *. rewrite signalled_snoc. cbn [signalling awaited].
    rewrite Hl, Ha in Hi. rewrite !elem_of_app, !list_elem_of_singleton. naive_solver lia.
  - unfold lock_inv in *. rewrite signalled_snoc. cbn [signalling awaited].
    rewrite Ha in Hi. destruct (signalling s); cbv zeta in *; rewrite !elem_of_app, !list_elem_of_singleton; naive_solver lia.
Qed.

Lemma lockRun_inv m tr s : lockRun (fresh m) tr s -> lock_inv tr s.
Proof.
  intros Hr. remember (fresh m) as s0 eqn:E0. induction Hr as [|s tr s1 l s2 Hr IH Hs].
  - subst. split; [done|]. split; apply not_elem_of_nil.
  - eapply lockStep_inv; [by apply IH|done].
Qed.

(** A deadlocked session stays so: only [AddRemoteKey], which does not touch
    the manager's mutex, returns. *)
Lemma deadlocked_forever s tr s' :
  deadlocked s -> lockRun s tr s' ->
  deadlocked s' /\ Forall (fun l => exists k, l = Called (OpAddRemoteKey k)) tr.
Proof.
  intros Hd Hr. induction Hr as [|s tr s1 l s2 Hr IH Hs]; [done|].
  destruct (IH Hd) as [[H1 H2] Hall]. destruct Hs as [s1 op Hl|s1 Hl|s1 Hl Ha|s1 Ha]; [|congruence..].
  rewrite H1 in *. destruct op; try done. split; [by split|]. apply Forall_app. split; [done|]. constructor; eauto.
Qed.

(** C27: the goroutines that share a manager built by [NewManager] see it as if
    the methods ran one after the other: one key slot with its local part, ready
    only with a remote part, so that [ActiveKey] never fails.  But the send on
    [Ready] under the mutex makes the session a trap: it is locked exactly when
    the keys were announced twice, or once after [StartTUN] gave up; from then on
    no method that takes the mutex returns, in whatever order the goroutines
    run. *)
Theorem session_serialised_until_locked randomFn m tr s :
  NewManager randomFn = Ok m -> lockRun (fresh m) tr s ->
  shared s = fst (session_run (calls tr) m) /\
  (exists k, ActiveKey (shared s) = Ok (0%nat, k) /\ key_local k <> None /\ (key_ready k = true -> key_remote k <> None)) /\
  (deadlocked s <->
     signalled tr = 2%nat \/ signalled tr = 1%nat /\ GaveUp ∈ tr /\ ReadyReceived ∉ tr) /\
  (signalled tr <= 2)%nat /\
  (deadlocked s -> forall tr' s', lockRun s tr' s' -> Forall (fun l => exists k, l = Called (OpAddRemoteKey k)) tr').
Proof.
  intros Hm Hr. pose proof (lockRun_sequential _ _ _ Hr) as Hseq. split; [exact Hseq|].
  split; [|split; [|split]].
  - destruct (session_run (calls tr) m) as [m' ev] eqn:E. rewrite Hseq.
    by destruct (manager_invariant _ _ _ _ _ Hm E) as [HA _].
  - pose proof (lockRun_inv _ _ _ Hr) as Hi. unfold lock_inv, deadlocked in *.
    destruct (signalling s), (awaited s); naive_solver lia.
  - pose proof (lockRun_inv _ _ _ Hr) as Hi. unfold lock_inv in Hi. destruct (signalling s), (awaited s); naive_solver lia.
  - intros Hd tr' s' Hr'. by apply (deadlocked_forever s tr' s').
Qed.

(** ** Two runs *)

(** [StartTUN] has given up when the keys are announced. *)
Definition lateKeys : list lockLabel := [GaveUp; Called (OpSetNegotiationState S_GENERATED_KEYS)].

Lemma lateKeys_run :
  lockRun (fresh sampleManager) lateKeys (mkShared (set_negState S_GENERATED_KEYS sampleManager) true false).
Proof.
  apply (RunSnoc _ [GaveUp] (mkShared sampleManager false false)); [|by apply StepCalled].
  apply (RunSnoc _ [] (fresh sampleManager)); [constructor|]. by apply StepGaveUp.
Qed.

Lemma session_serialised_until_locked_witness :
  let s := mkShared (set_negState S_GENERATED_KEYS sampleManager) true false in
  lockRun (fresh sampleManager) lateKeys s /\ deadlocked s /\
  forall tr' s', lockRun s tr' s' -> Forall (fun l => exists k, l = Called (OpAddRemoteKey k)) tr'.
Proof.
  cbv zeta. split; [apply lateKeys_run|].
  destruct (session_serialised_until_locked sampleRandom sampleManager lateKeys _ eq_refl lateKeys_run)
    as (_ & _ & [_ Hd] & _ & Hstuck).
  assert (deadlocked (mkShared (set_negState S_GENERATED_KEYS sampleManager) true false)) as Hdead.
  { apply Hd. right. split; [reflexivity|]. unfold lateKeys. split; set_solver. }
  split; [exact Hdead|exact (Hstuck Hdead)].
Defined.
