(* ===== verification/Sender.v ===== *)
(** * internal/reliabletransport: the sender

    In-flight packets ([packets.go]), the set of identifiers to acknowledge
    and the reliable sender ([sender.go]).  A [time.Time] is the number of
    nanoseconds since the zero time, a [time.Duration] a signed 64-bit number
    of nanoseconds.  The pointers in the [inFlight] slice are pairwise
    distinct: a write through one of them is an update of that element of the
    list.  A packet in the output is its content when it was offered on the
    channel to the muxer; the source shares the pointer with the queue. *)

From S2P Require Import Prelude Packet Session.

(** ** Constants, [constants.go] *)

Definition RELIABLE_SEND_BUFFER_SIZE : Z := 6.
Definition RELIABLE_RECV_BUFFER_SIZE : Z := 12.
Definition MAX_ACKS_PER_OUTGOING_PACKET : Z := 4.
Definition ACK_SET_CAPACITY : Z := 8.
Definition MAX_BACKOFF_SECONDS : Z := 60.
Definition SENDER_TICKER_MS : Z := 1000 * 60.

Definition Nanosecond : Z := 1.
Definition Millisecond : Z := 1000000.
Definition Second : Z := 1000000000.
Definition Minute : Z := 60 * Second.

Definition gracePeriodForOutgoingACKs : Z := Millisecond * 20.

(** [time.Time{}]; [t.Add(d)]; [t.Sub(u)], which saturates. *)
Definition zeroTime : Z := 0.
Definition time_Add (t d : Z) : Z := t + d.
Definition time_Sub (t u : Z) : Z := Z.max (- 2 ^ 63) (Z.min (2 ^ 63 - 1) (t - u)).

(** ** In-flight packets *)

Record inFlightPacket : Type := mkInFlightPacket {
  deadline : Z;
  higherACKs : Z;
  packet : Packet;
  retries : Z
}.

Definition newInFlightPacket (p : Packet) : inFlightPacket := mkInFlightPacket zeroTime 0 p 0.

Definition ACKForHigherPacket (p : inFlightPacket) : inFlightPacket :=
  mkInFlightPacket (deadline p) (higherACKs p + 1) (packet p) (retries p).

(** [1 << n] on an [int64]: the count may be larger than the width. *)
Definition shl1_int64 (n : Z) : Z := if n <? 64 then s64 (Z.shiftl 1 n) else 0.

Definition backoff (p : inFlightPacket) : Z :=
  let backoff := s64 (shl1_int64 (retries p) * Second) in
  let maxBackoff := MAX_BACKOFF_SECONDS * Second in
  if maxBackoff <? backoff then maxBackoff else backoff.

Definition ScheduleForRetransmission (p : inFlightPacket) (t : Z) : inFlightPacket :=
  let p := mkInFlightPacket (deadline p) (higherACKs p) (packet p) (retries p + 1) in
  mkInFlightPacket (time_Add t (backoff p)) (higherACKs p) (packet p) (retries p).

Definition nearestDeadlineTo (seq : list inFlightPacket) (t : Z) : Z :=
  let timeout := time_Add t (SENDER_TICKER_MS * Millisecond) in
  let timeout :=
    fold_left (fun timeout p => if deadline p <? timeout then deadline p else timeout) seq timeout in
  if timeout <? t then time_Add t Nanosecond else timeout.

(** The two conditions of the loop of [readyToSend]. *)
Definition isReady (t : Z) (p : inFlightPacket) : bool :=
  if 3 <=? higherACKs p then true else deadline p <? t.

Definition readyToSend (seq : list inFlightPacket) (t : Z) : list inFlightPacket :=
  fold_left (fun expired p => if isReady t p then expired ++ [p] else expired) seq [].

(** [Less] of [inflightSequence] compares the packet identifiers. *)
Definition inflight_key (p : inFlightPacket) : Z := ID (packet p).

(** [pkts[i], pkts[j] = pkts[j], pkts[i]] *)
Definition swap_at {A} (i j : nat) (l : list A) : list A :=
  match l !! i, l !! j with
  | Some x, Some y => <[i := y]> (<[j := x]> l)
  | _, _ => l
  end.

(** ** The set of identifiers to acknowledge *)

Definition newACKSet (ids : list Z) : gset Z := list_to_set ids.

Definition ackSet_Len (m : gset Z) : Z := Z.of_nat (size m).

Definition maybeAdd (m : gset Z) (id : option Z) : gset Z :=
  if ACK_SET_CAPACITY <=? ackSet_Len m then m
  else match id with Some i => {[i]} ∪ m | None => m end.

Definition ackSet_sorted (m : gset Z) : list Z :=
  if ackSet_Len m =? 0 then [] else sort_by id (elements m).

Definition nextToACK (m : gset Z) : list Z * gset Z :=
  let ids := ackSet_sorted m in
  let next :=
    if len ids <=? MAX_ACKS_PER_OUTGOING_PACKET then ids
    else take (Z.to_nat MAX_ACKS_PER_OUTGOING_PACKET) ids in
  (next, fold_left (fun m i => m ∖ {[i]}) next m).

(** ** The reliable sender *)

Record incomingPacketSeen : Type := mkIncomingPacketSeen {
  seen_id : option Z;
  seen_acks : option (list Z)
}.

Record reliableSender : Type := mkReliableSender {
  inFlight : list inFlightPacket;
  pendingACKsToSend : gset Z
}.

Definition newReliableSender : reliableSender := mkReliableSender [] (newACKSet []).

Definition TryInsertOutgoingPacket (r : reliableSender) (p : Packet) : bool * reliableSender :=
  if RELIABLE_SEND_BUFFER_SIZE <=? len (inFlight r) then (false, r)
  else (true, mkReliableSender (inFlight r ++ [newInFlightPacket p]) (pendingACKsToSend r)).

(** The loop of [maybeEvictOrMarkWithHigherACK].  [pkts] is the backing array
    of the queue, which the loop reads and swaps in place while it ranges over
    the indices of the original slice; [m] is the length of the slice
    [r.inFlight], which shares that array. *)
Fixpoint evictLoop (acked : Z) (todo i : nat) (pkts : list inFlightPacket) (m : nat)
  : list inFlightPacket * nat :=
  match todo with
  | O => (pkts, m)
  | S todo' =>
      match pkts !! i with
      | None => (pkts, m)
      | Some p =>
          if ID (packet p) <? acked then
            evictLoop acked todo' (S i) (<[i := ACKForHigherPacket p]> pkts) m
          else if acked =? ID (packet p) then
            let last := (length pkts - 1)%nat in
            evictLoop acked todo' (S i) (swap_at i last pkts) last
          else evictLoop acked todo' (S i) pkts m
      end
  end.

Definition maybeEvictOrMarkWithHigherACK (r : reliableSender) (acked : Z) : reliableSender :=
  let pkts := inFlight r in
  let '(pkts', m) := evictLoop acked (length pkts) 0 pkts (length pkts) in
  mkReliableSender (sort_by inflight_key (take m pkts')) (pendingACKsToSend r).

Definition OnIncomingPacketSeen (r : reliableSender) (seen : incomingPacketSeen) : reliableSender :=
  let r := mkReliableSender (inFlight r) (maybeAdd (pendingACKsToSend r) (seen_id seen)) in
  match seen_acks seen with
  | None => r
  | Some acks => fold_left maybeEvictOrMarkWithHigherACK acks r
  end.

Definition shouldWakeupAfterACK (r : reliableSender) (t : Z) : bool * Z :=
  if ackSet_Len (pendingACKsToSend r) <=? 0 then (false, Minute)
  else if 2 <=? ackSet_Len (pendingACKsToSend r) then (true, Nanosecond)
  else
    let timeout := nearestDeadlineTo (inFlight r) t in
    if gracePeriodForOutgoingACKs <? time_Sub timeout t
    then (true, gracePeriodForOutgoingACKs)
    else (true, time_Sub timeout t).

Definition hasPendingACKs (r : reliableSender) : bool :=
  negb (ackSet_Len (pendingACKsToSend r) =? 0).

Definition NextPacketIDsToACK (r : reliableSender) : list Z * reliableSender :=
  let '(ids, m) := nextToACK (pendingACKsToSend r) in (ids, mkReliableSender (inFlight r) m).

(** [time.Ticker.Reset(d)] panics unless [d] is positive. *)
Definition ticker_Reset (d : Z) : outcome Z := if d <=? 0 then Panic else Ok d.

(** The loop of [blockOnTryingToSend] over the packets that are ready: it
    visits the in-flight queue in order and updates the ready ones in place.
    [budget] is [None] while no shutdown is signalled, and [Some n] when the
    shutdown wins the select after [n] more packets. *)
Fixpoint flush (now : Z) (budget : option nat) (l : list inFlightPacket) (acks : gset Z)
  : list inFlightPacket * gset Z * list Packet :=
  match l with
  | [] => ([], acks, [])
  | p :: t =>
      if isReady now p then
        let p := ScheduleForRetransmission p now in
        let '(next, acks) := nextToACK acks in
        let p := mkInFlightPacket (deadline p) (higherACKs p) (set_ACKs next (packet p)) (retries p) in
        match budget with
        | Some O => (p :: t, acks, [])
        | _ =>
            let '(t', acks', out) := flush now (pred <$> budget) t acks in
            (p :: t', acks', packet p :: out)
        end
      else
        let '(t', acks', out) := flush now budget t acks in
        (p :: t', acks', out)
  end.

(** The outcome is the interval the ticker was reset to, the new sender and
    the packets written to [dataOrControlToMuxer], in order. *)
Definition blockOnTryingToSend (mgr : Manager) (r : reliableSender) (now : Z) (budget : option nat)
  : outcome (Z * reliableSender * list Packet) :=
  let timeout := nearestDeadlineTo (inFlight r) now in
  d ← ticker_Reset (time_Sub timeout now);
  let scheduledNow := readyToSend (inFlight r) now in
  if 0 <? len scheduledNow then
    let '(l, acks, out) := flush now budget (inFlight r) (pendingACKsToSend r) in
    Ok (d, mkReliableSender l acks, out)
  else if negb (hasPendingACKs r) then Ok (d, r, [])
  else
    let '(ids, r) := NextPacketIDsToACK r in
    match NewACKForPacketIDs mgr ids with
    | Ok ack => Ok (d, r, match budget with Some O => [] | _ => [ack] end)
    | Err _ => Ok (d, r, [])
    | Panic => Panic
    end.

(** One iteration of the select loop of [moveDownWorker].  The state is the
    sender and the current ticker interval. *)
Inductive senderEvent : Type :=
  | FromControl (p : Packet)
  | SeenPacket (seen : incomingPacketSeen) (now : Z)
  | Tick (now : Z) (budget : option nat).

Definition moveDownWorker_step (mgr : Manager) (st : reliableSender * Z) (ev : senderEvent)
  : outcome ((reliableSender * Z) * list Packet) :=
  let '(r, ticker) := st in
  match ev with
  | FromControl p =>
      let '(inserted, r) := TryInsertOutgoingPacket r p in
      if inserted : bool then d ← ticker_Reset Nanosecond; Ok ((r, d), [])
      else Ok ((r, ticker), [])
  | SeenPacket seen now =>
      let r := OnIncomingPacketSeen r seen in
      let '(shouldWakeup, when) := shouldWakeupAfterACK r now in
      if shouldWakeup : bool then d ← ticker_Reset when; Ok ((r, d), [])
      else Ok ((r, ticker), [])
  | Tick now budget =>
      '(d, r, out) ← blockOnTryingToSend mgr r now budget;
      Ok ((r, d), out)
  end.

(** ** Eviction

    The specification of an acknowledgement: the acknowledged packet leaves
    the queue, packets with a lower identifier count one more higher ACK. *)
Definition evictSpec (acked : Z) (l : list inFlightPacket) : list inFlightPacket :=
  omap (fun p => if ID (packet p) =? acked then None
                 else if ID (packet p) <? acked then Some (ACKForHigherPacket p) else Some p) l.

(** The queue invariant: strictly increasing packet identifiers. *)
Definition idSorted (l : list inFlightPacket) : Prop := StronglySorted (key_lt inflight_key) l.

Lemma swap_at_split {A} (pre mid : list A) x y :
  swap_at (length pre) (length pre + S (length mid)) (pre ++ x :: mid ++ [y]) = pre ++ y :: mid ++ [x].
Proof.
  unfold swap_at. rewrite list_lookup_middle by done.
  rewrite lookup_app_r by lia. replace (length pre + S (length mid) - length pre)%nat with (S (length mid)) by lia.
  change ((x :: mid ++ [y]) !! S (length mid)) with ((mid ++ [y]) !! length mid).
  rewrite list_lookup_middle, insert_app_r by done.
  change (<[S (length mid) := x]> (x :: mid ++ [y])) with (x :: <[length mid := x]> (mid ++ [y])).
  rewrite <- (Nat.add_0_r (length mid)), insert_app_r.
  rewrite <- (Nat.add_0_r (length pre)), insert_app_r. done.
Qed.

Lemma swap_at_self {A} i (l : list A) : swap_at i i l = l.
Proof.
  unfold swap_at. destruct (l !! i) eqn:E; [|done].
  rewrite list_insert_insert_eq. now apply list_insert_id.
Qed.

Lemma evictLoop_low acked lo todo pre rest m :
  Forall (fun p => ID (packet p) < acked) lo ->
  evictLoop acked (length lo + todo) (length pre) (pre ++ lo ++ rest) m
  = evictLoop acked todo (length (pre ++ map ACKForHigherPacket lo))
      (pre ++ map ACKForHigherPacket lo ++ rest) m.
Proof.
  intros H. revert pre. induction H as [|p lo Hp _ IH]; intros pre; cbn; [now rewrite app_nil_r|].
  rewrite list_lookup_middle by done. destruct (Z.ltb_spec (ID (packet p)) acked); [|lia].
  replace (length pre) with (length pre + 0)%nat at 2 by lia. rewrite insert_app_r. cbn.
  specialize (IH (pre ++ [ACKForHigherPacket p])). rewrite length_app in IH. cbn in IH.
  rewrite <- !app_assoc in IH. cbn in IH. rewrite Nat.add_1_r in IH. rewrite IH.
  rewrite !length_app. cbn. reflexivity.
Qed.

Lemma evictLoop_high acked hi todo pre rest m :
  Forall (fun p => acked < ID (packet p)) hi ->
  evictLoop acked (length hi + todo) (length pre) (pre ++ hi ++ rest) m
  = evictLoop acked todo (length (pre ++ hi)) (pre ++ hi ++ rest) m.
Proof.
  intros H. revert pre. induction H as [|p hi Hp _ IH]; intros pre; cbn; [now rewrite app_nil_r|].
  rewrite list_lookup_middle by done.
  destruct (Z.ltb_spec (ID (packet p)) acked), (Z.eqb_spec acked (ID (packet p))); try lia.
  specialize (IH (pre ++ [p])). rewrite length_app in IH. cbn in IH.
  rewrite <- !app_assoc in IH. cbn in IH. rewrite Nat.add_1_r in IH. rewrite IH. done.
Qed.

(** A strictly sorted queue splits around the acknowledged identifier. *)
Lemma idSorted_split acked l :
  idSorted l -> exists lo mid hi, l = lo ++ mid ++ hi /\
    Forall (fun p => ID (packet p) < acked) lo /\
    (mid = [] \/ exists p, mid = [p] /\ ID (packet p) = acked) /\
    Forall (fun p => acked < ID (packet p)) hi.
Proof.
  induction 1 as [|p l Hs (lo & mid & hi & -> & Hlo & Hmid & Hhi) Hall].
  - exists [], [], []. repeat split; auto.
  - unfold key_lt, inflight_key in Hall. destruct (Z.lt_trichotomy (ID (packet p)) acked) as [?|[?|?]].
    + exists (p :: lo), mid, hi. repeat split; auto.
    + exists [], [p], (lo ++ mid ++ hi). repeat split; eauto.
      eapply Forall_impl; [exact Hall|]. cbn. intros; lia.
    + exists [], [], (p :: lo ++ mid ++ hi). repeat split; auto. constructor; [done|].
      eapply Forall_impl; [exact Hall|]. cbn. intros; lia.
Qed.

Lemma evictSpec_app acked l k : evictSpec acked (l ++ k) = evictSpec acked l ++ evictSpec acked k.
Proof. apply omap_app. Qed.

Lemma evictSpec_low acked l :
  Forall (fun p => ID (packet p) < acked) l -> evictSpec acked l = map ACKForHigherPacket l.
Proof.
  induction 1 as [|p l Hp _ IH]; [done|]. unfold evictSpec in *. cbn. rewrite IH.
  destruct (Z.eqb_spec (ID (packet p)) acked), (Z.ltb_spec (ID (packet p)) acked); (done || lia).
Qed.

Lemma evictSpec_high acked l :
  Forall (fun p => acked < ID (packet p)) l -> evictSpec acked l = l.
Proof.
  induction 1 as [|p l Hp _ IH]; [done|]. unfold evictSpec in *. cbn. rewrite IH.
  destruct (Z.eqb_spec (ID (packet p)) acked), (Z.ltb_spec (ID (packet p)) acked); (done || lia).
Qed.

Lemma evictSpec_sorted acked l : idSorted l -> idSorted (evictSpec acked l).
Proof.
  unfold idSorted. induction 1 as [|p l Hs IH Hall]; [constructor|].
  assert (forall q, ID (packet q) = ID (packet p) ->
    Forall (key_lt inflight_key q) (evictSpec acked l)) as Hq.
  { intros q Hq. apply Forall_forall. intros r Hr. unfold evictSpec in Hr.
    apply list_elem_of_omap in Hr as (y & Hy & Hey). rewrite Forall_forall in Hall.
    specialize (Hall y Hy). unfold key_lt, inflight_key in *. rewrite Hq.
    destruct (_ =? acked); [done|]. destruct (_ <? acked); injection Hey as <-; done. }
  change (evictSpec acked (p :: l)) with (evictSpec acked ([p] ++ l)).
  rewrite evictSpec_app. unfold evictSpec at 1. cbn.
  destruct (_ =? acked); [done|]. destruct (_ <? acked); cbn; constructor; auto.
Qed.

Lemma maybeEvict_spec r acked :
  idSorted (inFlight r) ->
  maybeEvictOrMarkWithHigherACK r acked
  = mkReliableSender (evictSpec acked (inFlight r)) (pendingACKsToSend r).
Proof.
  intros Hs. unfold maybeEvictOrMarkWithHigherACK.
  pose proof (evictSpec_sorted acked _ Hs) as Hspec.
  destruct (idSorted_split acked _ Hs) as (lo & mid & hi & Hl & Hlo & Hmid & Hhi).
  rewrite Hl in *. rewrite !evictSpec_app, (evictSpec_low _ _ Hlo), (evictSpec_high _ _ Hhi) in *.
  set (lo' := map ACKForHigherPacket lo) in *.
  assert (length lo' = length lo) as Hlen by apply length_map.
  replace (length (lo ++ mid ++ hi)) with (length lo + (length mid + length hi))%nat at 1
    by (rewrite !length_app; lia).
  rewrite (evictLoop_low acked lo _ [] (mid ++ hi)) by done. cbn [app]. fold lo'.
  destruct Hmid as [->|(x & -> & Hx)].
  - replace (length [] + length hi)%nat with (length hi + 0)%nat by (cbn; lia). cbn [app].
    rewrite <- (app_nil_r hi) at 2. rewrite evictLoop_high by done. cbn [evictLoop].
    rewrite app_nil_r, take_ge by (rewrite !length_app; lia).
    rewrite sort_by_id; [done | apply Sorted_lt_le, Hspec].
  - assert (evictSpec acked [x] = []) as Hx0 by (unfold evictSpec; cbn; rewrite (proj2 (Z.eqb_eq _ _) Hx); done).
    rewrite Hx0 in Hspec |- *. cbn [app length Nat.add evictLoop] in *.
    rewrite list_lookup_middle by done. rewrite Hx, Z.ltb_irrefl, Z.eqb_refl.
    destruct hi as [|y hi _] using rev_ind.
    + cbn [length evictLoop]. rewrite length_app. cbn [length].
      replace (length lo' + 1 - 1)%nat with (length lo') by lia.
      rewrite swap_at_self, take_app_length, app_nil_r in *.
      rewrite sort_by_id; [done | apply Sorted_lt_le, Hspec].
    + apply Forall_app in Hhi as [Hhi Hy].
      replace (length (lo' ++ x :: hi ++ [y]) - 1)%nat with (length lo' + S (length hi))%nat
        by (rewrite !length_app; cbn; rewrite length_app; cbn; lia).
      rewrite swap_at_split.
      replace (length (hi ++ [y])) with (length hi + 1)%nat by (rewrite length_app; done).
      replace (S (length lo')) with (length (lo' ++ [y])) by (rewrite length_app; cbn; lia).
      replace (lo' ++ y :: hi ++ [x]) with ((lo' ++ [y]) ++ hi ++ [x]) by (now rewrite <- app_assoc).
      rewrite evictLoop_high by done. cbn [evictLoop].
      replace ((lo' ++ [y]) ++ hi ++ [x]) with (((lo' ++ [y]) ++ hi) ++ [x]) by (now rewrite <- !app_assoc).
      rewrite list_lookup_middle by done. rewrite Hx, Z.ltb_irrefl, Z.eqb_refl.
      replace (length (((lo' ++ [y]) ++ hi) ++ [x]) - 1)%nat with (length ((lo' ++ [y]) ++ hi))
        by (rewrite !length_app; cbn; lia).
      rewrite swap_at_self, take_app_length. f_equal.
      apply (Sorted_lt_unique inflight_key); [|done|].
      * apply Sorted_le_nodup_lt; [apply sort_by_sorted|]. rewrite sort_by_perm.
        rewrite <- app_assoc. apply Sorted_lt_nodup in Hspec.
        eapply NoDup_Permutation_proper; [|exact Hspec]. apply fmap_Permutation.
        f_equiv. cbn. apply Permutation_cons_append.
      * rewrite sort_by_perm, <- app_assoc. f_equiv. cbn. apply Permutation_cons_append.
Qed.

(** C23: [maybeEvictOrMarkWithHigherACK], which swaps the acknowledged packet
    to the end of the array while ranging over it, shortens the slice and sorts
    it again, implements the specification: on a queue sorted by identifier it
    removes exactly the acknowledged packet, bumps the higher-ACK counter of
    exactly the packets with a lower identifier, and keeps the others and the
    order. *)
Theorem evict_refines_spec r acked :
  idSorted (inFlight r) ->
  maybeEvictOrMarkWithHigherACK r acked
  = mkReliableSender (evictSpec acked (inFlight r)) (pendingACKsToSend r).
Proof. apply maybeEvict_spec. Qed.

(** A queue with packets 1 to 4 in flight, used by the witnesses. *)
Definition samplePkt (i : Z) : Packet := set_ID i (NewPacket P_CONTROL_V1 0 [z2b i]).
Definition sampleSender : reliableSender :=
  mkReliableSender (map (fun i => newInFlightPacket (samplePkt i)) [1; 2; 3; 4]) ∅.

Lemma sampleSender_sorted : idSorted (inFlight sampleSender).
Proof.
  unfold idSorted, key_lt, inflight_key. cbn.
  repeat (constructor; [|repeat constructor; cbn; lia]). constructor.
Qed.

Lemma evict_refines_spec_witness :
  maybeEvictOrMarkWithHigherACK sampleSender 2
  = mkReliableSender (evictSpec 2 (inFlight sampleSender)) (pendingACKsToSend sampleSender).
Proof. apply (evict_refines_spec sampleSender 2). exact sampleSender_sorted. Defined.

(** ** Acknowledgements to send *)

Lemma fold_delete (l : list Z) (m : gset Z) :
  fold_left (fun m i => m ∖ {[i]}) l m = m ∖ list_to_set l.
Proof.
  revert m. induction l as [|x l IH]; intros m; cbn; [set_solver|]. rewrite IH. set_solver.
Qed.

Lemma ackSet_sorted_perm m : ackSet_sorted m ≡ₚ elements m.
Proof.
  unfold ackSet_sorted, ackSet_Len. zcase; [|apply sort_by_perm].
  assert (size m = 0)%nat as ->%size_empty_inv%leibniz_equiv by lia. now rewrite elements_empty.
Qed.

Lemma ackSet_sorted_lt m : StronglySorted (key_lt id) (ackSet_sorted m).
Proof.
  apply Sorted_le_nodup_lt.
  - unfold ackSet_sorted. case_match; [constructor | apply sort_by_sorted].
  - rewrite list_fmap_id, ackSet_sorted_perm. apply NoDup_elements.
Qed.

Lemma length_ackSet_sorted m : len (ackSet_sorted m) = ackSet_Len m.
Proof. unfold len. now rewrite ackSet_sorted_perm. Qed.

Lemma elem_of_ackSet_sorted m i : i ∈ ackSet_sorted m <-> i ∈ m.
Proof. rewrite ackSet_sorted_perm. apply elem_of_elements. Qed.

(** [nextToACK] takes the first four of the sorted identifiers. *)
Lemma nextToACK_take m :
  nextToACK m = (take 4 (ackSet_sorted m), m ∖ list_to_set (take 4 (ackSet_sorted m))).
Proof.
  unfold nextToACK, MAX_ACKS_PER_OUTGOING_PACKET. rewrite fold_delete.
  zcase; [|done]. rewrite take_ge by (unfold len in *; lia). done.
Qed.

Lemma nextToACK_rest m i :
  i ∈ snd (nextToACK m) <-> i ∈ drop 4 (ackSet_sorted m).
Proof.
  rewrite nextToACK_take. cbn [snd]. rewrite elem_of_difference, elem_of_list_to_set.
  rewrite <- (elem_of_ackSet_sorted m).
  assert (NoDup (ackSet_sorted m)) as Hnd
    by (rewrite ackSet_sorted_perm; apply NoDup_elements).
  rewrite <- (take_drop 4 (ackSet_sorted m)) in Hnd. apply NoDup_app in Hnd as (_ & Hdis & _).
  rewrite <- (take_drop 4 (ackSet_sorted m)) at 1. rewrite elem_of_app. naive_solver.
Qed.

Lemma nextToACK_Len m :
  len (fst (nextToACK m)) = Z.min 4 (ackSet_Len m) /\
  ackSet_Len (snd (nextToACK m)) = Z.max 0 (ackSet_Len m - 4).
Proof.
  pose proof (length_ackSet_sorted m) as Hl. unfold len in Hl. split.
  - rewrite nextToACK_take. cbn [fst]. unfold len. rewrite length_take. lia.
  - assert (snd (nextToACK m) = list_to_set (drop 4 (ackSet_sorted m))) as ->.
    { apply set_eq. intros i. rewrite nextToACK_rest, elem_of_list_to_set. done. }
    unfold ackSet_Len at 1. rewrite size_list_to_set.
    + rewrite length_drop. lia.
    + eapply sublist_NoDup; [|apply sublist_drop]. rewrite ackSet_sorted_perm. apply NoDup_elements.
Qed.

Lemma nextToACK_sorted m next rest :
  nextToACK m = (next, rest) ->
  StronglySorted Z.lt next /\ len next <= 4 /\ m = list_to_set next ∪ rest /\
  (forall i j, i ∈ next -> j ∈ rest -> i < j) /\
  ackSet_Len rest = Z.max 0 (ackSet_Len m - 4).
Proof.
  intros E. pose proof (nextToACK_Len m) as [Hlen Hr]. pose proof (nextToACK_rest m) as Hrest.
  rewrite E in *. cbn [fst snd] in *. rewrite nextToACK_take in E. injection E as <- <-.
  pose proof (ackSet_sorted_lt m) as Hs. rewrite <- (take_drop 4 (ackSet_sorted m)) in Hs.
  split; [now apply StronglySorted_app_1_l in Hs|]. split; [lia|]. split; [|split; [|done]].
  - apply set_eq. intros i. rewrite elem_of_union, elem_of_difference, elem_of_list_to_set.
    split; [|intros [H|[? _]]; [|done]].
    + intros Hi. destruct (decide (i ∈ take 4 (ackSet_sorted m))); auto.
    + apply elem_of_ackSet_sorted. revert i H. apply sublist_subseteq, sublist_take.
  - intros i j Hi Hj. apply Hrest in Hj.
    exact (StronglySorted_app_1_elem_of _ _ _ _ _ Hs Hi Hj).
Qed.

(** [nextToACK] returns the [min 4 n] smallest of the [n] pending
    identifiers in ascending order and removes exactly these from the set. *)
Theorem nextToACK_spec m next rest :
  nextToACK m = (next, rest) ->
  StronglySorted Z.lt next /\
  len next = Z.min MAX_ACKS_PER_OUTGOING_PACKET (ackSet_Len m) /\
  m = list_to_set next ∪ rest /\ (forall i j, i ∈ next -> j ∈ rest -> i < j).
Proof.
  intros E. destruct (nextToACK_sorted _ _ _ E) as (Hs & _ & Hm & Hlt & _).
  pose proof (nextToACK_Len m) as [Hlen _]. rewrite E in Hlen. done.
Qed.

Lemma nextToACK_spec_witness :
  StronglySorted Z.lt [2; 3; 5; 7] /\
  len [2; 3; 5; 7] = Z.min MAX_ACKS_PER_OUTGOING_PACKET (ackSet_Len (newACKSet [11; 2; 7; 3; 5])) /\
  newACKSet [11; 2; 7; 3; 5] = list_to_set [2; 3; 5; 7] ∪ newACKSet [11] /\
  (forall i j, i ∈ [2; 3; 5; 7] -> j ∈ newACKSet [11] -> i < j).
Proof. apply nextToACK_spec. vm_compute. reflexivity. Defined.

Lemma maybeAdd_Len m i : ackSet_Len m <= 8 -> ackSet_Len (maybeAdd m i) <= 8.
Proof.
  unfold maybeAdd, ACK_SET_CAPACITY, ackSet_Len. zcase; [done|].
  destruct i as [i|]; [|lia]. pose proof (size_union_alt {[i]} m).
  rewrite size_singleton in *. intros _. rewrite H0.
  assert (size (m ∖ {[i]}) <= size m)%nat by (apply subseteq_size; set_solver). lia.
Qed.

(** ** Retransmission times *)

Lemma pow2_small r : 0 <= r <= 33 -> 1 <= 2 ^ r <= 2 ^ 33.
Proof.
  intros Hr. split; [|apply Z.pow_le_mono_r; lia].
  pose proof (Z.pow_pos_nonneg 2 r). lia.
Qed.

Lemma backoff_exact p :
  0 <= retries p <= 33 -> backoff p = Z.min (2 ^ retries p) MAX_BACKOFF_SECONDS * Second.
Proof.
  intros Hr. pose proof (pow2_small _ Hr) as Hp. change (2 ^ 33) with 8589934592 in Hp.
  unfold backoff, shl1_int64, MAX_BACKOFF_SECONDS, Second. rewrite Z.shiftl_1_l.
  destruct (Z.ltb_spec (retries p) 64); [|lia]. rewrite (s64_small (2 ^ retries p)) by lia.
  rewrite s64_small by lia. zcase; lia.
Qed.

(** C24: a transmission schedules the next one at [now] plus two to the
    number of transmissions seconds, capped at one minute, as long as the
    packet was transmitted at most 33 times: the deadline is then two seconds
    to one minute ahead, and the packet is not due again before it. *)
Theorem retransmission_schedule p t :
  0 <= retries p < 33 ->
  let p' := ScheduleForRetransmission p t in
  retries p' = retries p + 1 /\
  deadline p' = t + Z.min (2 ^ (retries p + 1)) 60 * Second /\
  t + 2 * Second <= deadline p' <= t + Minute /\
  (higherACKs p < 3 -> forall now, isReady now p' = true <-> deadline p' < now).
Proof.
  intros Hr. cbv zeta. unfold ScheduleForRetransmission, time_Add.
  rewrite backoff_exact by (cbn; lia). cbn [deadline retries higherACKs packet].
  assert (2 ^ 1 <= 2 ^ (retries p + 1)) by (apply Z.pow_le_mono_r; lia).
  change (2 ^ 1) with 2 in *. unfold MAX_BACKOFF_SECONDS, Minute, Second.
  repeat split; try lia.
  - unfold isReady. cbn. zcase; [lia|]. now intros ?%Z.ltb_lt.
  - unfold isReady. cbn. intros. zcase; [done|]. now apply Z.ltb_lt.
Qed.

Lemma retransmission_schedule_witness :
  let p := newInFlightPacket (samplePkt 1) in
  let p' := ScheduleForRetransmission p (5 * Minute) in
  retries p' = retries p + 1 /\
  deadline p' = 5 * Minute + Z.min (2 ^ (retries p + 1)) 60 * Second /\
  5 * Minute + 2 * Second <= deadline p' <= 5 * Minute + Minute /\
  (higherACKs p < 3 -> forall now, isReady now p' = true <-> deadline p' < now).
Proof. apply (retransmission_schedule (newInFlightPacket (samplePkt 1)) (5 * Minute)). cbn. lia. Defined.

(** The 34th transmission overflows: [1 << 34] seconds do not fit a
    [time.Duration], the product wraps to a negative value that the cap does
    not catch, and the packet is due again at the very instant of its
    transmission, whatever acknowledgements it counted. *)
Theorem backoff_overflow p t :
  retries p = 33 ->
  backoff (ScheduleForRetransmission p t) < 0 /\
  deadline (ScheduleForRetransmission p t) < t /\
  isReady t (ScheduleForRetransmission p t) = true.
Proof.
  intros Hr.
  assert (ScheduleForRetransmission p t
    = mkInFlightPacket (t + -1266874889709551616) (higherACKs p) (packet p) 34) as ->.
  { unfold ScheduleForRetransmission. rewrite Hr. reflexivity. }
  split; [reflexivity|]. unfold isReady. cbn [deadline higherACKs].
  split; [lia|]. zcase; [done | apply Z.ltb_lt; lia].
Qed.

Lemma backoff_overflow_witness :
  let p := mkInFlightPacket 0 0 (samplePkt 1) 33 in
  backoff (ScheduleForRetransmission p Minute) < 0 /\
  deadline (ScheduleForRetransmission p Minute) < Minute /\
  isReady Minute (ScheduleForRetransmission p Minute) = true.
Proof. apply (backoff_overflow (mkInFlightPacket 0 0 (samplePkt 1) 33) Minute). reflexivity. Defined.

Definition minDeadline (seq : list inFlightPacket) (t0 : Z) : Z :=
  fold_left (fun timeout p => if deadline p <? timeout then deadline p else timeout) seq t0.

Lemma minDeadline_spec seq t0 :
  minDeadline seq t0 <= t0 /\
  Forall (fun p => minDeadline seq t0 <= deadline p) seq /\
  (minDeadline seq t0 = t0 \/ exists p, p ∈ seq /\ minDeadline seq t0 = deadline p).
Proof.
  unfold minDeadline. revert t0. induction seq as [|p seq IH]; intros t0; cbn.
  - repeat split; [lia | constructor | auto].
  - destruct (IH (if deadline p <? t0 then deadline p else t0)) as (H1 & H2 & H3).
    destruct (Z.ltb_spec (deadline p) t0); repeat split; try lia; try (constructor; [lia | done]);
      destruct H3 as [H3|(q & Hq & H3)]; eauto using list_elem_of_here, list_elem_of_further.
Qed.

Lemma nearestDeadlineTo_min seq t :
  nearestDeadlineTo seq t
  = let m := minDeadline seq (t + Minute) in if m <? t then t + 1 else m.
Proof. reflexivity. Qed.

Lemma nearestDeadlineTo_bounds seq now :
  now <= nearestDeadlineTo seq now <= now + Minute /\
  ((exists p, p ∈ seq /\ deadline p < now) -> nearestDeadlineTo seq now = now + 1) /\
  (Forall (fun p => now <= deadline p) seq ->
   Forall (fun p => nearestDeadlineTo seq now <= deadline p) seq).
Proof.
  rewrite nearestDeadlineTo_min. cbv zeta.
  destruct (minDeadline_spec seq (now + Minute)) as (H1 & H2 & H3).
  set (m := minDeadline seq (now + Minute)) in *. rewrite Forall_forall in H2.
  unfold Minute, Second in *.
  destruct (Z.ltb_spec m now); repeat split; try lia.
  - intros H0. rewrite Forall_forall in H0. destruct H3 as [?|(p & Hp & E)]; [lia|].
    specialize (H0 _ Hp). lia.
  - intros (p & Hp & Hd). specialize (H2 _ Hp). cbn in H2. lia.
  - intros _. now apply Forall_forall.
Qed.

(** The wakeup time computed by [nearestDeadlineTo] is never before
    [now] and at most a minute ahead, is one nanosecond ahead when some
    deadline has passed, and otherwise is not later than any deadline. *)
Theorem nearestDeadlineTo_spec seq now :
  now <= nearestDeadlineTo seq now <= now + Minute /\
  ((exists p, p ∈ seq /\ deadline p < now) -> nearestDeadlineTo seq now = now + 1) /\
  (Forall (fun p => now <= deadline p) seq ->
   Forall (fun p => nearestDeadlineTo seq now <= deadline p) seq).
Proof. apply nearestDeadlineTo_bounds. Qed.

Lemma ticker_Reset_Panic d : ticker_Reset d = Panic <-> d <= 0.
Proof. unfold ticker_Reset. zcase; (split; [done || lia|done || lia]). Qed.

Lemma NewACKForPacketIDs_no_panic mgr ids : NewACKForPacketIDs mgr ids <> Panic.
Proof. unfold NewACKForPacketIDs. case_match; done. Qed.

(** Although a comment says the wakeup time is safe for the ticker, the
    worker panics in [ticker.Reset] exactly when the earliest deadline in the
    queue equals the current time: [nearestDeadlineTo] only moves deadlines
    strictly in the past, and [Reset] rejects a zero interval. *)
Theorem blockOnTryingToSend_panics_iff mgr r now budget :
  blockOnTryingToSend mgr r now budget = Panic <->
  (exists p, p ∈ inFlight r /\ deadline p = now) /\
  Forall (fun p => now <= deadline p) (inFlight r).
Proof.
  unfold blockOnTryingToSend. rewrite bind_Panic, ticker_Reset_Panic.
  destruct (nearestDeadlineTo_bounds (inFlight r) now) as (Hr & Hpast & Hle).
  assert (time_Sub (nearestDeadlineTo (inFlight r) now) now
          = nearestDeadlineTo (inFlight r) now - now) as ->.
  { unfold time_Sub, Minute, Second in *. lia. }
  split.
  - intros [H|(d & _ & H)].
    + revert H. rewrite nearestDeadlineTo_min in *. cbv zeta in *.
      destruct (minDeadline_spec (inFlight r) (now + Minute)) as (H1 & H2 & H3).
      destruct (Z.ltb_spec (minDeadline (inFlight r) (now + Minute)) now); [lia|]. intros H0.
      assert (minDeadline (inFlight r) (now + Minute) = now) as E by lia. rewrite E in *.
      destruct H3 as [?|(p & Hp & E')]; [unfold Minute, Second in *; lia|]. split; [eauto | done].
    + exfalso. revert H. destruct (0 <? _); [destruct (flush _ _ _ _) as [[? ?] ?]; done|].
      destruct (hasPendingACKs r); cbn [negb]; [|done].
      destruct (NextPacketIDsToACK r) as [ids r']. pose proof (NewACKForPacketIDs_no_panic mgr ids).
      destruct (NewACKForPacketIDs mgr ids); done.
  - intros [(p & Hp & Hd) Hall]. left. specialize (Hle Hall). rewrite Forall_forall in Hle.
    specialize (Hle _ Hp). cbn in Hle. lia.
Qed.

(** ** Transmission *)

Lemma readyToSend_filter seq t : readyToSend seq t = List.filter (isReady t) seq.
Proof.
  unfold readyToSend.
  assert (forall acc, fold_left (fun expired p => if isReady t p then expired ++ [p] else expired) seq acc
    = acc ++ List.filter (isReady t) seq) as H; [|apply H].
  induction seq as [|p seq IH]; intros acc; cbn; [now rewrite app_nil_r|].
  rewrite IH. destruct (isReady t p); [now rewrite <- app_assoc | done].
Qed.

(** What transmission does to one queue entry. *)
Definition transmitted (now : Z) (p p' : inFlightPacket) : Prop :=
  if isReady now p then
    exists acks, p' = mkInFlightPacket (deadline (ScheduleForRetransmission p now)) (higherACKs p)
                        (set_ACKs acks (packet p)) (retries p + 1)
  else p' = p.

Lemma transmitted_ID now p p' : transmitted now p p' -> ID (packet p') = ID (packet p).
Proof. unfold transmitted. destruct (isReady now p); [intros (a & ->) | intros ->]; done. Qed.

(** The identifiers acknowledged by a list of packets, in order. *)
Definition ackedBy (out : list Packet) : list Z := concat (map ACKs out).

(** No acknowledgement is lost or sent twice, the lowest go first, and each
    packet carries at most four. *)
Definition acksConserved (acks acks' : gset Z) (out : list Packet) : Prop :=
  StronglySorted Z.lt (ackedBy out) /\
  acks = list_to_set (ackedBy out) ∪ acks' /\
  (forall i j, i ∈ ackedBy out -> j ∈ acks' -> i < j) /\
  Forall (fun p => len (ACKs p) <= MAX_ACKS_PER_OUTGOING_PACKET) out /\
  ackSet_Len acks' = Z.max 0 (ackSet_Len acks - 4 * len out).

Lemma ackSet_Len_nonneg m : 0 <= ackSet_Len m.
Proof. unfold ackSet_Len. lia. Qed.

Lemma acksConserved_nil acks : acksConserved acks acks [].
Proof.
  unfold acksConserved. pose proof (ackSet_Len_nonneg acks). change (ackedBy []) with (@nil Z).
  split; [constructor|]. split; [symmetry; apply union_empty_l_L|].
  split; [intros i j Hi%elem_of_nil; done|]. split; [constructor|].
  change (len (@nil Packet)) with 0. lia.
Qed.

Lemma acksConserved_cons acks next rest acks' p out :
  nextToACK acks = (next, rest) -> ACKs p = next ->
  acksConserved rest acks' out -> acksConserved acks acks' (p :: out).
Proof.
  intros E Hp (Hs & -> & Hlt & Hall & Hl).
  destruct (nextToACK_sorted _ _ _ E) as (Hns & Hnl & -> & Hnlt & Hrl).
  unfold acksConserved, ackedBy in *. cbn [map concat]. rewrite Hp.
  split; [|split; [|split; [|split]]].
  - apply StronglySorted_app_2; [|done|done]. intros i j Hi Hj. apply Hnlt; set_solver.
  - set_solver.
  - intros i j [Hi|Hi]%elem_of_app Hj; [apply Hnlt; set_solver | auto].
  - constructor; [unfold MAX_ACKS_PER_OUTGOING_PACKET; now rewrite Hp | done].
  - rewrite Hl, Hrl, len_cons. pose proof (len_nonneg out). lia.
Qed.

(** The packets written to the channel: the new contents of the ready
    entries, in queue order. *)
Definition sentFrom (now : Z) (l l' : list inFlightPacket) : list Packet :=
  omap (fun pp => if isReady now pp.1 then Some (packet pp.2) else None) (zip l l').

Lemma flush_spec now l acks l' acks' out :
  flush now None l acks = (l', acks', out) ->
  Forall2 (transmitted now) l l' /\ acksConserved acks acks' out /\ out = sentFrom now l l'.
Proof.
  revert acks l' acks' out. induction l as [|p l IH]; intros acks l' acks' out; cbn [flush].
  - intros [= <- <- <-]. split; [constructor|]. split; [apply acksConserved_nil | done].
  - destruct (isReady now p) eqn:Hr.
    + destruct (nextToACK acks) as [next rest] eqn:En. cbn.
      destruct (flush now None l rest) as [[t' a'] o'] eqn:Ef. intros [= <- <- <-].
      destruct (IH _ _ _ _ Ef) as (H1 & H2 & ->).
      split; [constructor; [|done]|split].
      * unfold transmitted. rewrite Hr. eexists. reflexivity.
      * eapply acksConserved_cons; [exact En | reflexivity | done].
      * unfold sentFrom. cbn. now rewrite Hr.
    + destruct (flush now None l acks) as [[t' a'] o'] eqn:Ef. intros [= <- <- <-].
      destruct (IH _ _ _ _ Ef) as (H1 & H2 & ->).
      split; [constructor; [|done]|split; [done|]].
      * unfold transmitted. now rewrite Hr.
      * unfold sentFrom. cbn. now rewrite Hr.
Qed.

Lemma sentFrom_IDs now l l' :
  Forall2 (transmitted now) l l' ->
  map ID (sentFrom now l l') = map inflight_key (readyToSend l now).
Proof.
  rewrite readyToSend_filter. unfold sentFrom.
  induction 1 as [|p p' l l' Hp _ IH]; [done|]. cbn.
  apply transmitted_ID in Hp. destruct (isReady now p); cbn; [|done]. now rewrite IH, Hp.
Qed.

(** C25: a tick at time [now] transmits every packet that is due, once each
    and in queue order, updates exactly these queue entries, and piggybacks
    the pending acknowledgements lowest first without losing or repeating one
    and with at most four per packet; when no packet is due but
    acknowledgements are pending it sends one ACK packet; otherwise it sends
    nothing and keeps the state. *)
Theorem tick_transmits mgr rs r now d r' out :
  remoteSessionID mgr = Some rs ->
  blockOnTryingToSend mgr r now None = Ok (d, r', out) ->
  acksConserved (pendingACKsToSend r) (pendingACKsToSend r') out /\
  (hasPendingACKs r = true -> out <> []) /\
  match readyToSend (inFlight r) now with
  | [] => inFlight r' = inFlight r /\
          if hasPendingACKs r
          then exists ack, out = [ack] /\ Opcode ack = P_ACK_V1 /\
                 LocalSessionID ack = localSessionID mgr /\ RemoteSessionID ack = rs
          else r' = r /\ out = []
  | ready => Forall2 (transmitted now) (inFlight r) (inFlight r') /\
             map ID out = map inflight_key ready
  end.
Proof.
  intros Hrs. unfold blockOnTryingToSend. intros (d' & _ & H)%bind_Ok.
  destruct (readyToSend (inFlight r) now) as [|p0 ready] eqn:Er.
  - cbn [len length Z.of_nat Z.ltb Z.compare] in H.
    destruct (hasPendingACKs r) eqn:Hp; cbn [negb] in H.
    + unfold NextPacketIDsToACK in H. destruct (nextToACK (pendingACKsToSend r)) as [ids m] eqn:En.
      unfold NewACKForPacketIDs in H. rewrite Hrs in H. injection H as <- <- <-. cbn.
      split; [eapply acksConserved_cons; [exact En | done | apply acksConserved_nil]|].
      split; [done|]. split; [done|]. eexists. repeat split.
    + injection H as <- <- <-. split; [apply acksConserved_nil | done].
  - rewrite len_cons in H. pose proof (len_nonneg ready). destruct (Z.ltb_spec 0 (len ready + 1)); [|lia].
    destruct (flush now None (inFlight r) (pendingACKsToSend r)) as [[l a] o] eqn:Ef.
    injection H as <- <- <-. destruct (flush_spec _ _ _ _ _ _ Ef) as (HF & HA & ->). cbn.
    pose proof (sentFrom_IDs _ _ _ HF) as HIDs. rewrite Er in HIDs.
    split; [done|]. split; [|done]. intros _ Hnil. rewrite Hnil in HIDs. done.
Qed.

Definition sampleMgr : Manager := set_remoteSessionID (Some zeroSessionID) sampleManager.

Lemma tick_transmits_witness :
  exists d r' out, blockOnTryingToSend sampleMgr sampleSender Minute None = Ok (d, r', out) /\
  acksConserved (pendingACKsToSend sampleSender) (pendingACKsToSend r') out /\
  (hasPendingACKs sampleSender = true -> out <> []) /\
  match readyToSend (inFlight sampleSender) Minute with
  | [] => inFlight r' = inFlight sampleSender /\
          if hasPendingACKs sampleSender
          then exists ack, out = [ack] /\ Opcode ack = P_ACK_V1 /\
                 LocalSessionID ack = localSessionID sampleMgr /\ RemoteSessionID ack = zeroSessionID
          else r' = sampleSender /\ out = []
  | ready => Forall2 (transmitted Minute) (inFlight sampleSender) (inFlight r') /\
             map ID out = map inflight_key ready
  end.
Proof.
  do 3 eexists. split; [reflexivity|]. eapply (tick_transmits sampleMgr); reflexivity.
Defined.

(** ** The invariant of the sender *)

(** [next] is the identifier the control channel will assign next. *)
Record sender_inv (next : Z) (r : reliableSender) : Prop := {
  si_sorted : idSorted (inFlight r);
  si_next : Forall (fun p => ID (packet p) < next) (inFlight r);
  si_window : len (inFlight r) <= RELIABLE_SEND_BUFFER_SIZE;
  si_acks : ackSet_Len (pendingACKsToSend r) <= ACK_SET_CAPACITY
}.

Lemma evictSpec_Forall (P : Z -> Prop) acked l :
  Forall (fun p => P (ID (packet p))) l -> Forall (fun p => P (ID (packet p))) (evictSpec acked l).
Proof.
  rewrite !Forall_forall. intros H q (p & Hp & Hq)%list_elem_of_omap. specialize (H p Hp).
  destruct (_ =? acked); [done|]. destruct (_ <? acked); injection Hq as <-; done.
Qed.

Lemma evictSpec_len acked l : len (evictSpec acked l) <= len l.
Proof.
  unfold len, evictSpec. induction l as [|p l IH]; cbn; [lia|].
  destruct (_ =? acked); [lia|]. destruct (_ <? acked); cbn; lia.
Qed.

Lemma evict_inv next r acked :
  sender_inv next r -> sender_inv next (maybeEvictOrMarkWithHigherACK r acked).
Proof.
  intros [Hs Hn Hw Ha]. rewrite maybeEvict_spec by done. constructor; cbn.
  - now apply evictSpec_sorted.
  - now apply (evictSpec_Forall (fun i => i < next)).
  - pose proof (evictSpec_len acked (inFlight r)). lia.
  - done.
Qed.

Lemma seen_inv next r seen : sender_inv next r -> sender_inv next (OnIncomingPacketSeen r seen).
Proof.
  intros [Hs Hn Hw Ha]. unfold OnIncomingPacketSeen.
  set (r0 := mkReliableSender (inFlight r) (maybeAdd (pendingACKsToSend r) (seen_id seen))).
  assert (sender_inv next r0) as H0.
  { constructor; try done. cbn. unfold ACK_SET_CAPACITY in *. now apply maybeAdd_Len. }
  destruct (seen_acks seen) as [acks|]; [|done]. clearbody r0. revert r0 H0.
  induction acks as [|a acks IH]; cbn; intros r0 H0; [done|]. apply IH, evict_inv, H0.
Qed.

Lemma insert_inv next r p b r' :
  sender_inv next r -> next <= ID p -> TryInsertOutgoingPacket r p = (b, r') ->
  sender_inv (ID p + 1) r' /\ (b = false -> r' = r).
Proof.
  intros [Hs Hn Hw Ha] Hp. unfold TryInsertOutgoingPacket, RELIABLE_SEND_BUFFER_SIZE in *.
  destruct (Z.leb_spec 6 (len (inFlight r))); intros [= <- <-].
  - split; [|done]. constructor; try done. eapply Forall_impl; [exact Hn|]. cbn. intros; lia.
  - split; [|done]. constructor; cbn; try done.
    + apply StronglySorted_app_2; [|done|repeat constructor].
      intros x y Hx ->%list_elem_of_singleton. rewrite Forall_forall in Hn. specialize (Hn _ Hx).
      unfold key_lt, inflight_key. cbn in *. lia.
    + apply Forall_app. split; [eapply Forall_impl; [exact Hn|]; cbn; intros; lia|].
      repeat constructor. cbn. lia.
    + rewrite len_app, len_cons, len_nil. unfold RELIABLE_SEND_BUFFER_SIZE. lia.
Qed.

(** Transmission does not change the identifiers nor the length. *)
Lemma flush_keys now budget l acks l' acks' out :
  flush now budget l acks = (l', acks', out) ->
  map inflight_key l' = map inflight_key l /\ ackSet_Len acks' <= ackSet_Len acks /\
  Forall (fun p => len (ACKs p) <= MAX_ACKS_PER_OUTGOING_PACKET) out.
Proof.
  revert budget acks l' acks' out. induction l as [|p l IH]; intros budget acks l' acks' out; cbn [flush].
  - intros [= <- <- <-]. repeat split; [lia | constructor].
  - destruct (isReady now p).
    + destruct (nextToACK acks) as [next rest] eqn:En. cbn.
      destruct (nextToACK_sorted _ _ _ En) as (_ & Hn & _ & _ & Hr).
      pose proof (ackSet_Len_nonneg acks).
      destruct (flush now (pred <$> budget) l rest) as [[t' a'] o'] eqn:Ef.
      destruct (IH _ _ _ _ _ Ef) as (H1 & H2 & H3).
      assert (Forall (fun p => len (ACKs p) <= MAX_ACKS_PER_OUTGOING_PACKET)
        (set_ACKs next (packet p) :: o')) by (constructor; [cbn; unfold MAX_ACKS_PER_OUTGOING_PACKET; lia | done]).
      destruct budget as [[|n]|]; intros [= <- <- <-]; cbn;
        rewrite ?H1; (split; [done|]); (split; [lia|]); first [assumption | apply Forall_nil_2].
    + destruct (flush now budget l acks) as [[t' a'] o'] eqn:Ef. intros [= <- <- <-].
      destruct (IH _ _ _ _ _ Ef) as (H1 & H2 & H3). cbn. rewrite H1. done.
Qed.

Lemma map_key_sorted l l' :
  map inflight_key l' = map inflight_key l -> idSorted l -> idSorted l'.
Proof.
  unfold idSorted. intros Hm Hs. revert l' Hm.
  induction Hs as [|p l Hs IH Hall]; intros [|p' l'] Hm; try done; [constructor|].
  injection Hm as Hp Hm. constructor; [auto|].
  apply Forall_forall. intros q Hq. unfold key_lt.
  assert (inflight_key q ∈ map inflight_key l) as Hin.
  { rewrite <- Hm. apply list_elem_of_fmap. eauto. }
  apply list_elem_of_fmap in Hin as (q0 & Hq0 & Hin). rewrite Forall_forall in Hall.
  specialize (Hall _ Hin). unfold key_lt in Hall. lia.
Qed.

Lemma map_key_Forall (P : Z -> Prop) l l' :
  map inflight_key l' = map inflight_key l -> Forall (fun p => P (ID (packet p))) l ->
  Forall (fun p => P (ID (packet p))) l'.
Proof.
  intros Hm H. apply (Forall_map inflight_key P). rewrite Hm. now apply Forall_map.
Qed.

Lemma tick_inv mgr next r now budget d r' out :
  sender_inv next r -> blockOnTryingToSend mgr r now budget = Ok (d, r', out) ->
  sender_inv next r' /\ Forall (fun p => len (ACKs p) <= MAX_ACKS_PER_OUTGOING_PACKET) out.
Proof.
  intros [Hs Hn Hw Ha]. unfold blockOnTryingToSend. intros (d' & _ & H)%bind_Ok.
  destruct (0 <? _).
  - destruct (flush now budget (inFlight r) (pendingACKsToSend r)) as [[l a] o] eqn:Ef.
    injection H as <- <- <-. destruct (flush_keys _ _ _ _ _ _ _ Ef) as (Hk & Hl & Ho).
    split; [|done]. constructor; cbn.
    + eapply map_key_sorted; eassumption.
    + eapply (map_key_Forall (fun i => i < next)); eassumption.
    + assert (length l = length (inFlight r)) by (apply (f_equal length) in Hk; now rewrite !length_map in Hk).
      unfold len in *. lia.
    + unfold ACK_SET_CAPACITY in *. lia.
  - destruct (hasPendingACKs r); cbn [negb] in H.
    + unfold NextPacketIDsToACK in H. destruct (nextToACK (pendingACKsToSend r)) as [ids m] eqn:En.
      destruct (nextToACK_sorted _ _ _ En) as (_ & Hids & _ & _ & Hr). pose proof (ackSet_Len_nonneg (pendingACKsToSend r)).
      assert (sender_inv next (mkReliableSender (inFlight r) m)) by
        (constructor; cbn; unfold ACK_SET_CAPACITY in *; (done || lia)).
      unfold NewACKForPacketIDs in H. destruct (remoteSessionID mgr); injection H as <- <- <-; (split; [done|]).
      * destruct budget as [[|]|]; repeat constructor; cbn; unfold MAX_ACKS_PER_OUTGOING_PACKET; lia.
      * constructor.
    + injection H as <- <- <-. split; [constructor; done | constructor].
Qed.

(** The states of the sender worker: the identifiers it is given by the
    control channel grow, everything else is arbitrary. *)
Inductive sender_reach (mgr : Manager) : Z -> reliableSender * Z -> list Packet -> Prop :=
  | sr_init ticker : sender_reach mgr 1 (newReliableSender, ticker) []
  | sr_insert next st out p st' out' :
      sender_reach mgr next st out -> next <= ID p ->
      moveDownWorker_step mgr st (FromControl p) = Ok (st', out') ->
      sender_reach mgr (ID p + 1) st' (out ++ out')
  | sr_step next st out ev st' out' :
      sender_reach mgr next st out -> (forall p, ev <> FromControl p) ->
      moveDownWorker_step mgr st ev = Ok (st', out') ->
      sender_reach mgr next st' (out ++ out').

(** C26: in every state the sender worker can reach, the in-flight queue
    holds at most six packets with strictly increasing identifiers, at most
    eight acknowledgements are pending, and every packet written to the muxer
    so far carries at most four acknowledgements. *)
Theorem sender_invariant mgr next r ticker out :
  sender_reach mgr next (r, ticker) out ->
  idSorted (inFlight r) /\ len (inFlight r) <= RELIABLE_SEND_BUFFER_SIZE /\
  ackSet_Len (pendingACKsToSend r) <= ACK_SET_CAPACITY /\
  Forall (fun p => len (ACKs p) <= MAX_ACKS_PER_OUTGOING_PACKET) out.
Proof.
  intros H. cut (sender_inv next (r, ticker).1 /\
    Forall (fun p => len (ACKs p) <= MAX_ACKS_PER_OUTGOING_PACKET) out); [intros [[] ?]; done|].
  induction H as [tk|next [r0 tk] out0 p st' out' _ [IH IHo] Hp Hstep|next [r0 tk] out0 ev st' out' _ [IH IHo] Hev Hstep].
  - split; [constructor; cbn; try (constructor || lia)|constructor]; vm_compute; congruence.
  - cbn in Hstep, IH. destruct (TryInsertOutgoingPacket r0 p) as [b r1] eqn:E.
    destruct (insert_inv _ _ _ _ _ IH Hp E) as [Hinv _].
    destruct b; cbn in Hstep; injection Hstep as <- <-; cbn; rewrite app_nil_r; done.
  - destruct ev as [p|seen now|now budget]; [now edestruct Hev| |]; cbn in Hstep, IH.
    + pose proof (seen_inv _ _ seen IH). set (r1 := OnIncomingPacketSeen r0 seen) in *.
      destruct (shouldWakeupAfterACK r1 now) as [[|] w].
      * apply bind_Ok in Hstep as (d & _ & [= <- <-]). cbn. rewrite app_nil_r. done.
      * injection Hstep as <- <-. cbn. rewrite app_nil_r. done.
    + apply bind_Ok in Hstep as ([[d r1] o] & Ht & [= <- <-]).
      apply (tick_inv mgr next) in Ht as [? ?]; [|done]. split; [done | now apply Forall_app].
Qed.

Lemma sender_invariant_witness :
  exists r ticker out, sender_reach sampleMgr 2 (r, ticker) out /\
    map ID out = [1] /\
    idSorted (inFlight r) /\ len (inFlight r) <= RELIABLE_SEND_BUFFER_SIZE /\
    ackSet_Len (pendingACKsToSend r) <= ACK_SET_CAPACITY /\
    Forall (fun p => len (ACKs p) <= MAX_ACKS_PER_OUTGOING_PACKET) out.
Proof.
  assert (exists r ticker out, sender_reach sampleMgr 2 (r, ticker) out /\ map ID out = [1])
    as (r & ticker & out & H & Hout).
  { do 3 eexists. split; [|].
    - eapply (sr_step _ 2 _ _ (Tick Minute None)).
      + eapply (sr_insert _ 1 _ _ (samplePkt 1)); [apply (sr_init _ Minute)|cbn; lia|reflexivity].
      + done.
      + vm_compute. reflexivity.
    - reflexivity. }
  exists r, ticker, out. split; [done|]. split; [done|].
  apply (sender_invariant sampleMgr 2 r ticker out). exact H.
Defined.

