(* ===== verification/Receiver.v ===== *)
(** * internal/reliabletransport: the receiver

    The reordering queue and the up-worker of [receiver.go].  One iteration
    of the worker is a function from the receiver and a packet to the new
    receiver, the notification sent to the sender over [incomingSeen], and the
    packets delivered to the control channel. *)

From S2P Require Import Prelude Packet Session Sender.

Record reliableReceiver : Type := mkReliableReceiver {
  incomingPackets : list Packet;
  lastConsumed : Z
}.

Definition newReliableReceiver : reliableReceiver := mkReliableReceiver [] 0.

Definition MaybeInsertIncoming (r : reliableReceiver) (p : Packet) : bool * reliableReceiver :=
  if RELIABLE_RECV_BUFFER_SIZE <=? len (incomingPackets r) then (false, r)
  else (true, mkReliableReceiver (incomingPackets r ++ [p]) (lastConsumed r)).

(** The loop of [NextIncomingSequence] over the sorted queue: the packets
    that are ready, the last identifier consumed and the packets kept.  The
    subtraction is on [uint32]. *)
Fixpoint consumeLoop (last : Z) (l : list Packet) : list Packet * Z * list Packet :=
  match l with
  | [] => ([], last, [])
  | p :: t =>
      if u32 (ID p - last) =? 1 then
        let '(ready, last', keep) := consumeLoop (u32 (last + 1)) t in
        (p :: ready, last', keep)
      else if last <? ID p then ([], last, p :: t)
      else consumeLoop last t
  end.

Definition NextIncomingSequence (r : reliableReceiver) : list Packet * reliableReceiver :=
  let sorted := sort_by ID (incomingPackets r) in
  let '(ready, last, keep) := consumeLoop (lastConsumed r) sorted in
  (ready, mkReliableReceiver keep last).

Definition newIncomingPacketSeen (p : Packet) : incomingPacketSeen :=
  if Opcode p =? P_ACK_V1 then mkIncomingPacketSeen None (Some (ACKs p))
  else mkIncomingPacketSeen (Some (ID p)) (Some (ACKs p)).

Definition incomingSanityChecks (mgr : Manager) (p : Packet) : bool :=
  if negb (bytes_equal (LocalSessionID p) (GetRemoteSessionID mgr)) then false
  else if len (ACKs p) =? 0 then true
  else if negb (bytes_equal (RemoteSessionID p) (GetLocalSessionID mgr)) then false
  else true.

(** One iteration of [moveUpWorker] on a packet read from [muxerToReliable].
    [budget] is [Some n] when a shutdown wins the select after [n]
    deliveries. *)
Definition moveUpWorker_step (mgr : Manager) (budget : option nat) (r : reliableReceiver) (p : Packet)
  : reliableReceiver * option incomingPacketSeen * list Packet :=
  if negb (incomingSanityChecks mgr p) then (r, None, [])
  else
    let seen := newIncomingPacketSeen p in
    if negb (Opcode p =? P_CONTROL_V1) then (r, Some seen, [])
    else
      let '(inserted, r) := MaybeInsertIncoming r p in
      if negb inserted then (r, Some seen, [])
      else
        let '(ready, r) := NextIncomingSequence r in
        (r, Some seen, match budget with None => ready | Some n => take n ready end).

(** The worker over a sequence of packets while no shutdown is signalled. *)
Fixpoint moveUpWorker_run (mgr : Manager) (r : reliableReceiver) (pkts : list Packet)
  : reliableReceiver * list incomingPacketSeen * list Packet :=
  match pkts with
  | [] => (r, [], [])
  | p :: pkts' =>
      let '(r1, seen, out) := moveUpWorker_step mgr None r p in
      let '(r2, seens, outs) := moveUpWorker_run mgr r1 pkts' in
      (r2, option_list seen ++ seens, out ++ outs)
  end.

(** ** The reordering loop *)

Lemma u32_sub_1 i last :
  is_u32 i -> is_u32 last -> last < MaxUint32 -> u32 (i - last) = 1 <-> i = last + 1.
Proof.
  unfold is_u32, u32, MaxUint32. intros. split.
  - intros H2. assert (i - last = 1 \/ i - last = 1 - 2 ^ 32) as [|]; [|lia|lia].
    pose proof (Z.div_mod (i - last) (2 ^ 32) ltac:(lia)). rewrite H2 in *.
    assert (- 2 ^ 32 < i - last < 2 ^ 32) by lia.
    assert ((i - last) / 2 ^ 32 = 0 \/ (i - last) / 2 ^ 32 = -1) as [E|E] by nia; rewrite E in *; lia.
  - intros ->. replace (last + 1 - last) with 1 by lia. apply Z.mod_small. lia.
Qed.

(** On a sorted queue the loop consumes the run that starts after [last],
    stops at the first gap, and keeps everything beyond it. *)
Lemma consumeLoop_spec l last ready last' keep :
  StronglySorted (key_le ID) l -> Forall (fun p => is_u32 (ID p)) l -> 0 <= last <= MaxUint32 ->
  (last < MaxUint32 \/ Forall (fun p => MaxUint32 <= ID p) l) ->
  consumeLoop last l = (ready, last', keep) ->
  map ID ready = seqZ (last + 1) (len ready) /\ last' = last + len ready /\
  ready ⊆ l /\ keep = List.filter (fun p => last' <? ID p) l /\
  Forall (fun p => ID p <> last' + 1) keep /\ last' <= MaxUint32.
Proof.
  intros Hs Hu. revert last ready last' keep.
  induction Hs as [|p t Hs IH Hle]; intros last ready last' keep Hlast Hmax; cbn [consumeLoop].
  - intros [= <- <- <-]. rewrite len_nil. repeat split; (done || lia || constructor || set_solver).
  - apply Forall_cons in Hu as [Hp Hu]. assert (is_u32 last) as Hl by (unfold is_u32, MaxUint32 in *; lia).
    unfold key_le in Hle. specialize (IH Hu).
    destruct (Z.eqb_spec (u32 (ID p - last)) 1) as [E|E].
    + assert (last < MaxUint32 /\ ID p = last + 1) as [Hlt Hid].
      { destruct Hmax as [H|H]; [split; [done | now apply u32_sub_1 in E]|].
        apply Forall_cons in H as [H _]. destruct (Z.lt_ge_cases last MaxUint32).
        - split; [done | now apply u32_sub_1 in E].
        - exfalso. assert (ID p = last) as E' by (unfold is_u32, MaxUint32 in *; lia).
          rewrite E', Z.sub_diag in E. done. }
      rewrite u32_small by (unfold is_u32, MaxUint32 in *; lia).
      destruct (consumeLoop (last + 1) t) as [[rd l'] kp] eqn:Er. intros [= <- <- <-].
      apply IH in Er as (H1 & H2 & H3 & H4 & H5 & H6); [|lia|].
      2:{ destruct (Z.lt_ge_cases (last + 1) MaxUint32); [now left | right].
          eapply Forall_impl; [exact Hle|]. cbn. intros; lia. }
      pose proof (len_nonneg rd). rewrite len_cons. cbn [map List.filter].
      rewrite seqZ_cons by lia. rewrite H1, Hid.
      replace (Z.succ (last + 1)) with (last + 1 + 1) by lia.
      replace (Z.pred (len rd + 1)) with (len rd) by lia.
      destruct (Z.ltb_spec l' (last + 1)); [lia|].
      repeat split; try done; try lia. set_solver.
    + destruct (Z.ltb_spec last (ID p)) as [Hlt|Hge].
      * intros [= <- <- <-]. assert (ID p <> last + 1) as Hne.
        { intros H. apply E. rewrite H. replace (last + 1 - last) with 1 by lia. done. }
        rewrite len_nil, Z.add_0_r. split; [done|]. split; [done|]. split; [set_solver|].
        assert (Forall (fun q => last + 1 < ID q) (p :: t)) as Hall.
        { constructor; [lia|]. eapply Forall_impl; [exact Hle|]. cbn. intros; lia. }
        split; [symmetry; apply filter_all|split; [|lia]].
        -- eapply Forall_impl; [exact Hall|]. cbn. intros q Hq. apply Z.ltb_lt. lia.
        -- eapply Forall_impl; [exact Hall|]. cbn. intros; lia.
      * intros Er. apply IH in Er as (H1 & H2 & H3 & H4 & H5 & H6); [|done|].
        2:{ destruct Hmax as [|H]; [now left|]. apply Forall_cons in H as [_ ?]. now right. }
        pose proof (len_nonneg ready). cbn [List.filter]. destruct (Z.ltb_spec last' (ID p)); [lia|].
        repeat split; try done. set_solver.
Qed.

(** The queue as the receiver keeps it between two packets. *)
Record receiver_inv (r : reliableReceiver) : Prop := {
  ri_u32 : Forall (fun p => is_u32 (ID p)) (incomingPackets r);
  ri_last : 0 <= lastConsumed r <= MaxUint32;
  ri_gap : Forall (fun p => lastConsumed r + 1 < ID p) (incomingPackets r);
  ri_len : len (incomingPackets r) <= RELIABLE_RECV_BUFFER_SIZE
}.

(** One packet inserted in a queue that has room. *)
Lemma NextIncomingSequence_spec r ready r' :
  Forall (fun p => is_u32 (ID p)) (incomingPackets r) -> 0 <= lastConsumed r < MaxUint32 ->
  NextIncomingSequence r = (ready, r') ->
  map ID ready = seqZ (lastConsumed r + 1) (len ready) /\
  lastConsumed r' = lastConsumed r + len ready /\
  ready ⊆ incomingPackets r /\
  incomingPackets r' ≡ₚ List.filter (fun p => lastConsumed r' <? ID p) (incomingPackets r) /\
  Forall (fun p => lastConsumed r' + 1 < ID p) (incomingPackets r') /\
  lastConsumed r' <= MaxUint32.
Proof.
  intros Hu Hl. unfold NextIncomingSequence.
  destruct (consumeLoop (lastConsumed r) (sort_by ID (incomingPackets r))) as [[rd last'] keep] eqn:E.
  intros [= <- <-]. cbn [incomingPackets lastConsumed].
  pose proof (sort_by_perm ID (incomingPackets r)) as Hperm.
  apply consumeLoop_spec in E as (H1 & H2 & H3 & H4 & H5 & H6);
    [|apply sort_by_sorted|now rewrite Hperm|lia|left; lia].
  repeat split; try done.
  - intros p Hp. rewrite <- Hperm. auto.
  - rewrite H4. now apply filter_perm.
  - subst keep. apply Forall_forall. intros p Hp. rewrite Forall_forall in H5. specialize (H5 _ Hp).
    apply list_elem_of_In, filter_In in Hp as [_ Hp]. apply Z.ltb_lt in Hp. lia.
Qed.

Lemma consumeLoop_len l last ready last' keep :
  consumeLoop last l = (ready, last', keep) -> len ready + len keep <= len l.
Proof.
  revert last ready last' keep. induction l as [|p t IH]; intros last ready last' keep; cbn [consumeLoop].
  - intros [= <- <- <-]. change (len (@nil Packet)) with 0. lia.
  - destruct (_ =? 1).
    + destruct (consumeLoop (u32 (last + 1)) t) as [[rd l'] kp] eqn:E. intros [= <- <- <-].
      apply IH in E. rewrite !len_cons. lia.
    + destruct (_ <? _); [intros [= <- <- <-]; change (len (@nil Packet)) with 0; pose proof (len_nonneg t); rewrite ?len_cons; lia|].
      intros E%IH. rewrite len_cons. lia.
Qed.

Lemma NextIncomingSequence_len r ready r' :
  NextIncomingSequence r = (ready, r') ->
  len ready + len (incomingPackets r') <= len (incomingPackets r).
Proof.
  unfold NextIncomingSequence.
  destruct (consumeLoop (lastConsumed r) (sort_by ID (incomingPackets r))) as [[rd last'] keep] eqn:E.
  intros [= <- <-]. apply consumeLoop_len in E. cbn. unfold len in *. rewrite length_sort_by in E. done.
Qed.

(** The packets the worker hands to the queue. *)
Definition accepts (mgr : Manager) (p : Packet) : bool :=
  incomingSanityChecks mgr p && (Opcode p =? P_CONTROL_V1).

Definition hasRoom (r : reliableReceiver) : bool :=
  negb (RELIABLE_RECV_BUFFER_SIZE <=? len (incomingPackets r)).

(** The worker either leaves the queue alone or runs the reordering on the
    queue with the packet added. *)
Lemma moveUpWorker_step_cases mgr r p r' seen out :
  moveUpWorker_step mgr None r p = (r', seen, out) ->
  (accepts mgr p && hasRoom r = false /\ r' = r /\ out = []) \/
  (accepts mgr p = true /\ hasRoom r = true /\
   NextIncomingSequence (mkReliableReceiver (incomingPackets r ++ [p]) (lastConsumed r)) = (out, r')).
Proof.
  unfold moveUpWorker_step, accepts, MaybeInsertIncoming, hasRoom.
  destruct (incomingSanityChecks mgr p); cbn [negb andb]; [|intros [= <- <- <-]; auto].
  destruct (Opcode p =? P_CONTROL_V1); cbn [negb andb]; [|intros [= <- <- <-]; auto].
  destruct (_ <=? _); cbn [negb andb]; [intros [= <- <- <-]; auto|].
  destruct (NextIncomingSequence _) as [rd r1] eqn:E. intros [= <- <- <-]. auto.
Qed.

(** What one iteration guarantees. *)
Lemma moveUpWorker_step_spec mgr r p r' seen out :
  receiver_inv r -> is_u32 (ID p) -> lastConsumed r < MaxUint32 ->
  moveUpWorker_step mgr None r p = (r', seen, out) ->
  receiver_inv r' /\ map ID out = seqZ (lastConsumed r + 1) (len out) /\
  lastConsumed r' = lastConsumed r + len out /\
  lastConsumed r' + len (incomingPackets r') <= lastConsumed r + len (incomingPackets r) + 1 /\
  Forall (fun q => q = p \/ q ∈ incomingPackets r) out /\
  (forall q, q ∈ incomingPackets r' -> q = p \/ q ∈ incomingPackets r).
Proof.
  intros [Hu Hl Hg Hn] Hp Hmax H.
  apply moveUpWorker_step_cases in H as [(_ & -> & ->)|(_ & Hroom & H)].
  { rewrite len_nil, Z.add_0_r. split; [constructor; done|].
    split; [done|]. split; [done|]. split; [lia|]. split; [constructor | auto]. }
  unfold hasRoom, RELIABLE_RECV_BUFFER_SIZE in *.
  destruct (Z.leb_spec 12 (len (incomingPackets r))); [done|].
  set (r0 := mkReliableReceiver (incomingPackets r ++ [p]) (lastConsumed r)) in *.
  assert (Forall (fun p => is_u32 (ID p)) (incomingPackets r0)) as Hu0
    by (apply Forall_app; split; [done | constructor; [done | constructor]]).
  pose proof (NextIncomingSequence_len _ _ _ H) as Hlen.
  apply NextIncomingSequence_spec in H as (H1 & H2 & H3 & H4 & H5 & H6); [|done|cbn; lia].
  cbn [lastConsumed incomingPackets r0] in *. rewrite len_app, len_cons, len_nil in Hlen.
  pose proof (len_nonneg out).
  assert (forall q, q ∈ incomingPackets r ++ [p] -> q = p \/ q ∈ incomingPackets r) as Hin.
  { intros q [Hq|Hq%list_elem_of_singleton]%elem_of_app; auto. }
  split; [constructor|].
  - rewrite H4. apply Forall_forall. intros q Hq%list_elem_of_In%filter_In.
    destruct Hq as [Hq%list_elem_of_In _]. rewrite Forall_forall in Hu0. auto.
  - lia.
  - done.
  - unfold RELIABLE_RECV_BUFFER_SIZE. lia.
  - split; [done|]. split; [done|]. split; [lia|]. split.
    + apply Forall_forall. auto.
    + intros q Hq. rewrite H4 in Hq. apply list_elem_of_In, filter_In in Hq as [Hq%list_elem_of_In _]. auto.
Qed.

Lemma new_receiver_inv : receiver_inv newReliableReceiver.
Proof. constructor; cbn; try constructor; unfold MaxUint32; try lia. vm_compute. congruence. Qed.

Lemma moveUpWorker_run_spec mgr pkts r r' seens outs :
  receiver_inv r -> Forall (fun p => is_u32 (ID p)) pkts ->
  lastConsumed r + len (incomingPackets r) + len pkts < MaxUint32 ->
  moveUpWorker_run mgr r pkts = (r', seens, outs) ->
  receiver_inv r' /\ map ID outs = seqZ (lastConsumed r + 1) (len outs) /\
  lastConsumed r' = lastConsumed r + len outs /\
  Forall (fun q => q ∈ pkts \/ q ∈ incomingPackets r) outs.
Proof.
  intros Hinv Hu. revert r r' seens outs Hinv. induction Hu as [|p pkts Hp _ IH]; intros r r' seens outs Hinv Hmax; cbn.
  - intros [= <- <- <-]. rewrite len_nil, Z.add_0_r. repeat split; (apply Hinv || done || constructor).
  - destruct (moveUpWorker_step mgr None r p) as [[r1 s1] o1] eqn:E1.
    destruct (moveUpWorker_run mgr r1 pkts) as [[r2 s2] o2] eqn:E2. intros [= <- <- <-].
    rewrite len_cons in Hmax. pose proof (len_nonneg pkts). pose proof (len_nonneg (incomingPackets r)).
    apply moveUpWorker_step_spec in E1 as (Hinv1 & H1 & H2 & H3 & H4 & H5); [|done|done|lia].
    apply IH in E2 as (Hinv2 & H1' & H2' & H3'); [|done|lia].
    split; [done|]. pose proof (len_nonneg o1). pose proof (len_nonneg o2).
    rewrite map_app, H1, H1', len_app, H2. split; [|split; [lia|]].
    + rewrite seqZ_app by lia. do 2 f_equal. lia.
    + apply Forall_app. split; (eapply Forall_impl; [eassumption|]); cbn.
      * intros q [->|?]; [left; left | auto].
      * intros q [?|Hq]; [left; now right|]. destruct (H5 _ Hq) as [->|?]; [left; left | auto].
Qed.

(** C8: whatever packets the network delivers, reordered, repeated, forged
    or lost, the receiver hands to the control channel exactly the packets
    numbered 1, 2, 3, ... in this order, with no gap and no repetition, and
    each of them is a packet it received. *)
Theorem in_order_delivery mgr pkts r seens outs :
  Forall (fun p => is_u32 (ID p)) pkts -> len pkts < MaxUint32 ->
  moveUpWorker_run mgr newReliableReceiver pkts = (r, seens, outs) ->
  map ID outs = seqZ 1 (len outs) /\ lastConsumed r = len outs /\ Forall (fun q => q ∈ pkts) outs.
Proof.
  intros Hu Hlen Hrun. apply moveUpWorker_run_spec in Hrun as (_ & H1 & H2 & H3);
    [|apply new_receiver_inv|done|change (0 + 0 + len pkts < MaxUint32); lia].
  split; [exact H1|]. split; [rewrite H2; cbn; lia|].
  eapply Forall_impl; [exact H3|]. cbn. intros q [?|Hq%elem_of_nil]; done.
Qed.

(** Packets from the peer of [sampleMgr] whose remote session is all zero. *)
Definition peerPkt (i : Z) : Packet :=
  mkPacket P_CONTROL_V1 0 zeroPeerID zeroSessionID [] zeroSessionID i [z2b i].

Lemma in_order_delivery_witness :
  exists r seens outs,
  moveUpWorker_run sampleMgr newReliableReceiver (map peerPkt [3; 1; 1; 5; 2]) = (r, seens, outs) /\
  len outs = 3 /\
  map ID outs = seqZ 1 (len outs) /\ lastConsumed r = len outs /\
  Forall (fun q => q ∈ map peerPkt [3; 1; 1; 5; 2]) outs.
Proof.
  destruct (moveUpWorker_run sampleMgr newReliableReceiver (map peerPkt [3; 1; 1; 5; 2]))
    as [[r seens] outs] eqn:E.
  exists r, seens, outs. split; [done|]. split; [vm_compute in E; injection E as <- <- <-; reflexivity|].
  apply (in_order_delivery sampleMgr _ r seens outs); [|vm_compute; reflexivity|exact E].
  repeat constructor; cbn; lia.
Defined.

(** ** Completeness *)

(** Every packet the worker accepts finds a free slot in the queue. *)
Fixpoint neverFull (mgr : Manager) (r : reliableReceiver) (pkts : list Packet) : bool :=
  match pkts with
  | [] => true
  | p :: pkts' =>
      (negb (accepts mgr p) || hasRoom r) &&
      neverFull mgr (moveUpWorker_step mgr None r p).1.1 pkts'
  end.

(** Every packet of [acc] was consumed or superseded, or waits in the queue. *)
Definition accounted (r : reliableReceiver) (acc : list Packet) : Prop :=
  Forall (fun p => ID p <= lastConsumed r \/ p ∈ incomingPackets r) acc.

Lemma accounted_step mgr r p r' seen out acc :
  receiver_inv r -> is_u32 (ID p) -> lastConsumed r < MaxUint32 ->
  negb (accepts mgr p) || hasRoom r = true ->
  moveUpWorker_step mgr None r p = (r', seen, out) ->
  accounted r acc -> accounted r' (acc ++ List.filter (accepts mgr) [p]).
Proof.
  intros [Hu Hl Hg Hn] Hp Hmax Hroom H Hacc. cbn [List.filter].
  apply moveUpWorker_step_cases in H as [(Hrej & -> & ->)|(-> & _ & H)].
  { destruct (accepts mgr p), (hasRoom r); try done; now rewrite app_nil_r. }
  set (r0 := mkReliableReceiver (incomingPackets r ++ [p]) (lastConsumed r)) in *.
  apply NextIncomingSequence_spec in H as (_ & H2 & _ & H4 & _ & _);
    [|apply Forall_app; split; [done | constructor; [done | constructor]]|cbn; lia].
  cbn [lastConsumed incomingPackets r0] in *. pose proof (len_nonneg out).
  assert (forall q, q ∈ incomingPackets r ++ [p] -> ID q <= lastConsumed r' \/ q ∈ incomingPackets r') as Hq.
  { intros q Hq. destruct (Z.ltb_spec (lastConsumed r') (ID q)); [right|left; lia].
    rewrite H4. apply list_elem_of_In, filter_In. split; [now apply list_elem_of_In | now apply Z.ltb_lt]. }
  apply Forall_app. split; [|constructor; [apply Hq; set_solver | constructor]].
  eapply Forall_impl; [exact Hacc|]. cbn. intros q [?|?]; [left; lia | apply Hq; set_solver].
Qed.

Lemma accounted_run mgr pkts r r' seens outs acc :
  receiver_inv r -> Forall (fun p => is_u32 (ID p)) pkts ->
  lastConsumed r + len (incomingPackets r) + len pkts < MaxUint32 ->
  neverFull mgr r pkts = true -> moveUpWorker_run mgr r pkts = (r', seens, outs) ->
  accounted r acc -> accounted r' (acc ++ List.filter (accepts mgr) pkts).
Proof.
  intros Hinv Hu. revert r r' seens outs acc Hinv.
  induction Hu as [|p pkts Hp _ IH]; intros r r' seens outs acc Hinv Hmax;
    cbn [neverFull moveUpWorker_run].
  - intros _ [= <- <- <-] Hacc. now rewrite app_nil_r.
  - destruct (moveUpWorker_step mgr None r p) as [[r1 s1] o1] eqn:E1. cbn [fst].
    destruct (moveUpWorker_run mgr r1 pkts) as [[r2 s2] o2] eqn:E2.
    intros [Hroom Hnf]%andb_true_iff [= <- <- <-] Hacc.
    rewrite len_cons in Hmax. pose proof (len_nonneg pkts). pose proof (len_nonneg (incomingPackets r)).
    pose proof (accounted_step _ _ _ _ _ _ _ Hinv Hp ltac:(lia) Hroom E1 Hacc) as Hacc1.
    apply moveUpWorker_step_spec in E1 as (Hinv1 & _ & _ & H3 & _ & _); [|done|done|lia].
    specialize (IH _ _ _ _ _ Hinv1 ltac:(lia) Hnf E2 Hacc1).
    rewrite <- app_assoc, <- List.filter_app in IH. exact IH.
Qed.

(** C9: as long as the reordering queue never overflows, every initial
    segment 1..k of the peer's control packets that has arrived (in any
    order, among any other packets) has been delivered in full. *)
Theorem complete_prefix_delivered mgr pkts r seens outs k :
  Forall (fun p => is_u32 (ID p)) pkts -> len pkts < MaxUint32 ->
  neverFull mgr newReliableReceiver pkts = true ->
  moveUpWorker_run mgr newReliableReceiver pkts = (r, seens, outs) ->
  (forall i, 1 <= i <= k -> i ∈ map ID (List.filter (accepts mgr) pkts)) ->
  k <= len outs.
Proof.
  intros Hu Hlen Hnf Hrun Hk.
  assert (lastConsumed newReliableReceiver + len (incomingPackets newReliableReceiver) + len pkts < MaxUint32)
    as Hmax by (change (0 + 0 + len pkts < MaxUint32); lia).
  pose proof (accounted_run _ _ _ _ _ _ [] new_receiver_inv Hu Hmax Hnf Hrun
    ltac:(constructor)) as Hacc. cbn [app] in Hacc.
  apply moveUpWorker_run_spec in Hrun as ([_ Hl Hg _] & _ & Hlast & _); [|apply new_receiver_inv|done|done].
  cbn in Hlast. destruct (Z.le_gt_cases k (len outs)) as [|Hlt]; [done|exfalso].
  pose proof (len_nonneg outs).
  specialize (Hk (len outs + 1) ltac:(lia)).
  apply list_elem_of_In, in_map_iff in Hk as (q' & Hid' & Hq').
  unfold accounted in Hacc. rewrite List.Forall_forall in Hacc. specialize (Hacc _ Hq').
  rewrite Forall_forall in Hg. destruct Hacc as [?|Hin]; [lia|]. specialize (Hg _ Hin). cbn in Hg. lia.
Qed.

Lemma complete_prefix_delivered_witness :
  exists r seens outs,
  moveUpWorker_run sampleMgr newReliableReceiver (map peerPkt [3; 1; 1; 5; 2]) = (r, seens, outs) /\
  3 <= len outs.
Proof.
  destruct (moveUpWorker_run sampleMgr newReliableReceiver (map peerPkt [3; 1; 1; 5; 2]))
    as [[r seens] outs] eqn:E.
  exists r, seens, outs. split; [done|].
  apply (complete_prefix_delivered sampleMgr (map peerPkt [3; 1; 1; 5; 2]) r seens outs 3);
    [repeat constructor; cbn; lia|vm_compute; reflexivity|vm_compute; reflexivity|exact E|].
  intros i Hi. assert (i = 1 \/ i = 2 \/ i = 3) as [->|[->| ->]] by lia; vm_compute; repeat constructor.
Defined.

(** ** Forged packets *)

(** A packet whose session identifiers are not those of the session is
    invisible: the worker reaches the same queue, delivers the same packets
    and tells the sender the same things as if it had never arrived. *)
Theorem forged_packets_invisible mgr pkts r :
  moveUpWorker_run mgr r pkts = moveUpWorker_run mgr r (List.filter (incomingSanityChecks mgr) pkts).
Proof.
  revert r. induction pkts as [|p pkts IH]; intros r; [done|]. cbn [List.filter].
  destruct (incomingSanityChecks mgr p) eqn:E; cbn [moveUpWorker_run].
  - destruct (moveUpWorker_step mgr None r p) as [[r1 s1] o1]. now rewrite IH.
  - unfold moveUpWorker_step. rewrite E. cbn [negb]. rewrite IH.
    now destruct (moveUpWorker_run mgr r _) as [[? ?] ?].
Qed.

(** ** The full queue *)

Lemma hasRoom_false_step mgr r p :
  hasRoom r = false ->
  moveUpWorker_step mgr None r p =
    (r, if incomingSanityChecks mgr p then Some (newIncomingPacketSeen p) else None, []).
Proof.
  unfold hasRoom, moveUpWorker_step, MaybeInsertIncoming. intros H%negb_false_iff. rewrite H.
  destruct (incomingSanityChecks mgr p); [|done]. cbn [negb]. now destruct (Opcode p =? P_CONTROL_V1).
Qed.

(** A full queue never drains.  Whatever arrives next, the packet that
    would fill the gap included, the queue does not change and nothing is
    delivered; every packet that passes the sanity checks is nevertheless
    reported as seen to the sender, which will acknowledge it, so the peer
    does not send it again. *)
Theorem full_queue_stalls mgr pkts r :
  hasRoom r = false ->
  moveUpWorker_run mgr r pkts =
    (r, map newIncomingPacketSeen (List.filter (incomingSanityChecks mgr) pkts), []).
Proof.
  intros Hfull. induction pkts as [|p pkts IH]; [done|]. cbn [moveUpWorker_run List.filter].
  rewrite hasRoom_false_step, IH by done. now destruct (incomingSanityChecks mgr p).
Qed.

(** The peer's packets 2 to 13 arrive before packet 1. *)
Definition stalledReceiver : reliableReceiver :=
  Eval vm_compute in
    (moveUpWorker_run sampleMgr newReliableReceiver (map peerPkt (seqZ 2 12))).1.1.

Lemma full_queue_stalls_witness :
  (moveUpWorker_run sampleMgr newReliableReceiver (map peerPkt (seqZ 2 12))).1.1 = stalledReceiver /\
  moveUpWorker_run sampleMgr stalledReceiver [peerPkt 1] =
    (stalledReceiver, [mkIncomingPacketSeen (Some 1) (Some [])], []).
Proof.
  split; [vm_compute; reflexivity|].
  rewrite (full_queue_stalls sampleMgr [peerPkt 1] stalledReceiver) by reflexivity. reflexivity.
Defined.
