(* ===== verification/Sorting.v ===== *)
(** * reliabletransport: the sorted queues

    [packets.go] implements [sort.Interface] for the two queues, and the sender
    and the receiver call [sort.Sort] on them; the set of acknowledgements is
    listed with [sort.SliceStable].  The components use [sort_by], a stable
    sort.  [sort.Sort] does not promise stability, and a queue may hold two
    packets with one identifier: here the routine of the standard library is
    written out for the lengths the queues have, where it is an insertion sort
    by swaps of neighbours, and shown to compute [sort_by]. *)

From S2P Require Import Prelude Packet Session Sender Receiver.

(** ** [sort.Interface] *)

Record sortInterface (T : Type) : Type := mkSortInterface {
  sort_Len : T -> nat;
  sort_Less : T -> nat -> nat -> outcome bool;
  sort_Swap : T -> nat -> nat -> outcome T
}.
Arguments sort_Len {T}.
Arguments sort_Less {T}.
Arguments sort_Swap {T}.

(** A slice compared by a key; an index out of range panics. *)
Definition sliceByKey {A} (key : A -> Z) : sortInterface (list A) := {|
  sort_Len := length;
  sort_Less := fun seq i j =>
    x ← go_index seq (Z.of_nat i); y ← go_index seq (Z.of_nat j); Ok (key x <? key y);
  sort_Swap := fun seq i j =>
    _ ← go_index seq (Z.of_nat i); _ ← go_index seq (Z.of_nat j); Ok (swap_at i j seq)
|}.

Definition inflightSequence : sortInterface (list inFlightPacket) := sliceByKey inflight_key.
Definition incomingSequence : sortInterface (list Packet) := sliceByKey ID.

(** ** The routines of the standard library *)

Section Library.
Context {T : Type}.
Variable data : sortInterface T.

(** [for j := i; j > a && data.Less(j, j-1); j-- { data.Swap(j, j-1) }] *)
Fixpoint sinkLoop (a j : nat) (t : T) : outcome T :=
  match j with
  | O => Ok t
  | S j' =>
      if (a <? j)%nat then
        less ← sort_Less data t j j';
        if (less : bool) then t ← sort_Swap data t j j'; sinkLoop a j' t else Ok t
      else Ok t
  end.

(** [for i := a + 1; i < b; i++ { ... }] *)
Definition insertionSort (a b : nat) (t : T) : outcome T :=
  fold_left (fun t i => t ← t; sinkLoop a i t) (seq (a + 1) (b - (a + 1))) (Ok t).

(** The pattern-defeating quicksort sorts up to twelve elements by insertion;
    [larger] stands for the rest of it. *)
Definition maxInsertion : nat := 12.

Definition sort_Sort (larger : T -> outcome T) (t : T) : outcome T :=
  let n := sort_Len data t in
  if (n <=? 1)%nat then Ok t
  else if (n <=? maxInsertion)%nat then insertionSort 0 n t else larger t.

(** [sort.SliceStable] sorts blocks of twenty by insertion and merges them:
    up to twenty elements there is nothing to merge. *)
Definition stableBlock : nat := 20.

Definition sort_SliceStable (larger : T -> outcome T) (t : T) : outcome T :=
  let n := sort_Len data t in
  if (n <=? stableBlock)%nat then insertionSort 0 n t else larger t.
End Library.

(** ** They sort *)

Section Correct.
Context {A : Type}.
Variable key : A -> Z.

Lemma go_index_middle (pre post : list A) x : go_index (pre ++ x :: post) (Z.of_nat (length pre)) = Ok x.
Proof.
  unfold go_index. destruct (Z.ltb_spec (Z.of_nat (length pre)) 0); [lia|].
  rewrite Nat2Z.id. by rewrite list_lookup_middle.
Qed.

Lemma neighbours (pre post : list A) y x :
  go_index (pre ++ y :: x :: post) (Z.of_nat (S (length pre))) = Ok x /\
  go_index (pre ++ y :: x :: post) (Z.of_nat (length pre)) = Ok y /\
  swap_at (S (length pre)) (length pre) (pre ++ y :: x :: post) = pre ++ x :: y :: post.
Proof.
  assert (go_index (pre ++ y :: x :: post) (Z.of_nat (S (length pre))) = Ok x) as H1.
  { pose proof (go_index_middle (pre ++ [y]) post x) as H. rewrite <- app_assoc, length_app, Nat.add_1_r in H. exact H. }
  split; [exact H1|]. split; [apply go_index_middle|]. unfold swap_at.
  assert ((pre ++ y :: x :: post) !! S (length pre) = Some x) as ->.
  { rewrite lookup_app_r by lia. by replace (S (length pre) - length pre)%nat with 1%nat by lia. }
  rewrite list_lookup_middle by done. rewrite !insert_app_r_alt by lia.
  rewrite Nat.sub_diag. by replace (S (length pre) - length pre)%nat with 1%nat by lia.
Qed.

Lemma insert_by_before x y l : key x < key y -> insert_by key x (l ++ [y]) = insert_by key x l ++ [y].
Proof.
  intros Hlt. induction l as [|z l IH]; cbn.
  - destruct (Z.ltb_spec (key x) (key y)); [done|lia].
  - destruct (key x <? key z); [done|]. by rewrite IH.
Qed.

(** The element behind a sorted prefix sinks to its place. *)
Lemma sinkLoop_insert pre x post :
  StronglySorted (key_le key) pre ->
  sinkLoop (sliceByKey key) 0 (length pre) (pre ++ x :: post) = Ok (insert_by key x pre ++ post).
Proof.
  revert post. induction pre as [|y pre IH] using rev_ind; intros post Hs; [done|].
  rewrite length_app, Nat.add_1_r, <- app_assoc. cbn [app sinkLoop]. rewrite (proj2 (Nat.ltb_lt 0 _)) by lia.
  destruct (neighbours pre post y x) as (H1 & H2 & H3). cbn [sort_Less sort_Swap sliceByKey].
  rewrite H1, H2. cbn [mbind outcome_bind]. destruct (Z.ltb_spec (key x) (key y)) as [Hlt|Hge].
  - rewrite H3, IH.
    + by rewrite insert_by_before, <- app_assoc.
    + by apply StronglySorted_app_1_l in Hs.
  - rewrite insert_by_last, <- !app_assoc; [done|].
    apply Forall_app. split; [|by constructor]. apply Forall_forall. intros z Hz.
    pose proof (StronglySorted_app_1_elem_of (key_le key) pre [y] z y Hs Hz ltac:(left)) as Hzy. unfold key_le in Hzy. lia.
Qed.

Lemma insertionSort_prefix l k :
  (k < length l)%nat ->
  fold_left (fun t i => t ← t; sinkLoop (sliceByKey key) 0 i t) (seq 1 k) (Ok l) =
    Ok (sort_by key (take (S k) l) ++ drop (S k) l).
Proof.
  induction k as [|k IH]; intros Hk; [by destruct l|].
  rewrite seq_S, fold_left_app, IH by lia. cbn [fold_left mbind outcome_bind Nat.add].
  destruct (lookup_lt_is_Some_2 l (S k) Hk) as [x Hx].
  rewrite (drop_S l x (S k) Hx).
  assert (length (sort_by key (take (S k) l)) = S k) as Hlen by (rewrite length_sort_by, length_take; lia).
  rewrite <- Hlen at 1. rewrite sinkLoop_insert by apply sort_by_sorted.
  rewrite (take_S_r l (S k) x Hx). unfold sort_by at 2. by rewrite fold_left_app.
Qed.

Lemma insertionSort_sort_by l : insertionSort (sliceByKey key) 0 (length l) l = Ok (sort_by key l).
Proof.
  unfold insertionSort. destruct l as [|x l]; [done|]. cbn [length Nat.add].
  rewrite insertionSort_prefix by (cbn; lia). cbn [length].
  replace (S (S (length l) - 1)) with (length (x :: l)) by (cbn; lia).
  by rewrite firstn_all, skipn_all, app_nil_r.
Qed.

Lemma sort_Sort_sort_by larger l :
  (length l <= maxInsertion)%nat -> sort_Sort (sliceByKey key) larger l = Ok (sort_by key l).
Proof.
  intros Hl. unfold sort_Sort. cbn [sort_Len sliceByKey]. destruct (Nat.leb_spec (length l) 1).
  - destruct l as [|x [|]]; [done..|cbn in *; lia].
  - rewrite (proj2 (Nat.leb_le _ _) Hl). apply insertionSort_sort_by.
Qed.

Lemma sort_SliceStable_sort_by larger l :
  (length l <= stableBlock)%nat -> sort_SliceStable (sliceByKey key) larger l = Ok (sort_by key l).
Proof.
  intros Hl. unfold sort_SliceStable. cbn [sort_Len sliceByKey]. rewrite (proj2 (Nat.leb_le _ _) Hl).
  apply insertionSort_sort_by.
Qed.
End Correct.

(** ** The queues *)

(** The keys of a strictly sorted list determine it. *)
Lemma sorted_permutation_eq (l k : list Z) :
  StronglySorted (key_lt id) l -> StronglySorted (key_lt id) k -> l ≡ₚ k -> l = k.
Proof.
  revert k. induction l as [|x l IH]; intros k Hl Hk Hp; [by apply Permutation_nil in Hp as ->|].
  destruct k as [|y k]; [by apply Permutation_sym, Permutation_nil in Hp|].
  inversion Hl as [|? ? Hl' Hx]. inversion Hk as [|? ? Hk' Hy]. subst. rewrite Forall_forall in Hx, Hy.
  assert (x = y) as ->.
  { assert (x ∈ y :: k) as Hin by (rewrite <- Hp; left). assert (y ∈ x :: l) as Hin' by (rewrite Hp; left).
    apply elem_of_cons in Hin as [->|Hin]; [done|]. apply elem_of_cons in Hin' as [->|Hin']; [done|].
    specialize (Hx y Hin'). specialize (Hy x Hin). unfold key_lt, id in *. lia. }
  f_equal. apply IH; [done..|]. by apply Permutation_cons_inv in Hp.
Qed.

Lemma sort_by_strict (l : list Z) : NoDup l -> StronglySorted (key_lt id) (sort_by id l).
Proof.
  intros Hnd. rewrite <- (sort_by_perm id l) in Hnd. pose proof (sort_by_sorted id l) as Hs.
  induction Hs as [|x k Hs IH Hall]; constructor; apply NoDup_cons in Hnd as [Hx Hnd]; [by apply IH|].
  rewrite Forall_forall in *. intros y Hy. specialize (Hall y Hy). unfold key_le, key_lt, id in *.
  assert (x <> y) by (intros ->; done). lia.
Qed.

(** The calls of [sort.Sort] and [sort.SliceStable] in the reliable transport
    compute what the components say: on every queue the receiver and the sender
    can have, twins with one identifier included, and on the pending
    acknowledgements, in whatever order the map hands them out. *)
Theorem library_sorts_queues :
  (forall larger r, receiver_inv r ->
     sort_Sort incomingSequence larger (incomingPackets r) = Ok (sort_by ID (incomingPackets r))) /\
  (forall larger (l : list inFlightPacket), len l <= RELIABLE_SEND_BUFFER_SIZE ->
     sort_Sort inflightSequence larger l = Ok (sort_by inflight_key l)) /\
  (forall larger m ids, ackSet_Len m <= ACK_SET_CAPACITY -> ids ≡ₚ elements m ->
     sort_SliceStable (sliceByKey id) larger ids = Ok (ackSet_sorted m)).
Proof.
  split; [|split].
  - intros larger r Hr. apply sort_Sort_sort_by. pose proof (ri_len _ Hr) as Hl.
    unfold len, RELIABLE_RECV_BUFFER_SIZE, maxInsertion in *. lia.
  - intros larger l Hl. apply sort_Sort_sort_by. unfold len, RELIABLE_SEND_BUFFER_SIZE, maxInsertion in *. lia.
  - intros larger m ids Hm Hp.
    assert (length ids = size m) as Hlen by (by rewrite Hp).
    rewrite sort_SliceStable_sort_by by (unfold ackSet_Len, ACK_SET_CAPACITY, stableBlock in *; lia).
    f_equal. unfold ackSet_sorted. destruct (Z.eqb_spec (ackSet_Len m) 0) as [H0|H0].
    + unfold ackSet_Len in H0. by destruct ids; [|cbn in Hlen; lia].
    + apply sorted_permutation_eq; [apply sort_by_strict..|by rewrite !sort_by_perm];
        [rewrite Hp|]; apply NoDup_elements.
Qed.

(** Two packets with one identifier keep the order of their arrival. *)
Example twins_keep_order :
  let a := mkPacket P_CONTROL_V1 0 zeroPeerID [] [] [] 7 [Byte.x01] in
  let b := mkPacket P_CONTROL_V1 0 zeroPeerID [] [] [] 7 [Byte.x02] in
  let c := mkPacket P_CONTROL_V1 0 zeroPeerID [] [] [] 5 [] in
  sort_Sort incomingSequence (fun _ => Panic) [a; b; c] = Ok [c; a; b].
Proof. reflexivity. Qed.
