(* ===== verification/Transport.v ===== *)
(** * internal/reliabletransport: the interfaces

    [model.go] declares the operations that the two workers call on their
    queues.  Each interface is a class of operations with the observations its
    comments talk about.  The classes of laws are the interface between the
    proofs of the queues and those of their clients: they say more than the
    comments of [model.go] do, since the order of the acknowledgements, their
    distribution over packets and the capacities are those of [sender.go] and
    [receiver.go], and the sender and the receiver are proved to be instances.
    The theorem at the end is about the sender. *)

From S2P Require Import Prelude Packet Session Sender Receiver.

(** ** Outgoing packets

    [outgoingPacketWriter], [seenPacketHandler] and [outgoingPacketHandler].
    Observed are the identifiers in flight, each with its count of higher
    ACKs, and the set of identifiers that are still to be acknowledged. *)
Class outgoingHandler (Q : Type) : Type := {
  tryInsertOutgoingPacket : Q -> Packet -> bool * Q;
  onIncomingPacketSeen : Q -> incomingPacketSeen -> Q;
  nextPacketIDsToACK : Q -> list Z * Q;
  window : Q -> list (Z * Z);
  owed : Q -> gset Z
}.

(** One acknowledgement: "evict the matching packet" and "increment the
    counter of acks-with-higher-pid for each packet with a lesser packet id". *)
Definition ackWindow (acked : Z) (w : list (Z * Z)) : list (Z * Z) :=
  omap (fun x => if x.1 =? acked then None else if x.1 <? acked then Some (x.1, x.2 + 1) else Some x) w.

(** "needs to be appended to the array of packets pending to be acked, if not
    already there": the code does so while there is room. *)
Definition owe (i : option Z) (m : gset Z) : gset Z :=
  match i with
  | Some i => if decide (Z.of_nat (size m) < ACK_SET_CAPACITY) then {[i]} ∪ m else m
  | None => m
  end.

(** What the sender's clients use of it; [next] is the next identifier that
    will be inserted. *)
Class outgoingLaws (Q : Type) `{outgoingHandler Q} (wf : Z -> Q -> Prop) : Prop := {
  law_owed next s : wf next s -> Z.of_nat (size (owed s)) <= ACK_SET_CAPACITY;
  law_insert next s p b s' :
    wf next s -> next <= ID p -> tryInsertOutgoingPacket s p = (b, s') ->
    wf (ID p + 1) s' /\ owed s' = owed s /\
    (b = true <-> len (window s) < RELIABLE_SEND_BUFFER_SIZE) /\
    window s' = if b then window s ++ [(ID p, 0)] else window s;
  law_seen next s seen :
    wf next s ->
    wf next (onIncomingPacketSeen s seen) /\
    owed (onIncomingPacketSeen s seen) = owe (seen_id seen) (owed s) /\
    window (onIncomingPacketSeen s seen) = fold_left (fun w a => ackWindow a w) (default [] (seen_acks seen)) (window s);
  law_next next s ids s' :
    wf next s -> nextPacketIDsToACK s = (ids, s') ->
    wf next s' /\ window s' = window s /\ StronglySorted Z.lt ids /\
    len ids = Z.min MAX_ACKS_PER_OUTGOING_PACKET (Z.of_nat (size (owed s))) /\
    owed s = list_to_set ids ∪ owed s' /\ (forall i j, i ∈ ids -> j ∈ owed s' -> i < j)
}.

(** ** Incoming packets: [incomingPacketHandler] *)
Class incomingHandler (R : Type) : Type := {
  maybeInsertIncoming : R -> Packet -> bool * R;
  nextIncomingSequence : R -> list Packet * R;
  buffered : R -> list Packet;
  consumed : R -> Z
}.

Class incomingLaws (R : Type) `{incomingHandler R} : Prop := {
  law_maybeInsert r p b r' :
    maybeInsertIncoming r p = (b, r') ->
    consumed r' = consumed r /\ (b = true <-> len (buffered r) < RELIABLE_RECV_BUFFER_SIZE) /\
    buffered r' = if b then buffered r ++ [p] else buffered r;
  law_sequence r ready r' :
    Forall (fun p => is_u32 (ID p)) (buffered r) -> 0 <= consumed r < MaxUint32 ->
    nextIncomingSequence r = (ready, r') ->
    map ID ready = seqZ (consumed r + 1) (len ready) /\ ready ⊆ buffered r /\
    consumed r' = consumed r + len ready /\
    buffered r' ≡ₚ List.filter (fun p => consumed r' <? ID p) (buffered r) /\
    Forall (fun p => consumed r' + 1 < ID p) (buffered r')
}.

(** ** The sender and the receiver meet the interfaces *)

Definition observe (p : inFlightPacket) : Z * Z := (ID (packet p), higherACKs p).

#[export] Instance reliableSender_handler : outgoingHandler reliableSender := {|
  tryInsertOutgoingPacket := TryInsertOutgoingPacket;
  onIncomingPacketSeen := OnIncomingPacketSeen;
  nextPacketIDsToACK := NextPacketIDsToACK;
  window := fun r => map observe (inFlight r);
  owed := pendingACKsToSend
|}.

#[export] Instance reliableReceiver_handler : incomingHandler reliableReceiver := {|
  maybeInsertIncoming := MaybeInsertIncoming;
  nextIncomingSequence := NextIncomingSequence;
  buffered := incomingPackets;
  consumed := lastConsumed
|}.

Lemma evict_observed acked l : map observe (evictSpec acked l) = ackWindow acked (map observe l).
Proof.
  induction l as [|p l IH]; [done|]. unfold evictSpec, ackWindow in *. cbn.
  destruct (ID (packet p) =? acked); [done|]. destruct (ID (packet p) <? acked); cbn; now rewrite IH.
Qed.

Lemma evictions_observed acks r :
  idSorted (inFlight r) ->
  window (fold_left maybeEvictOrMarkWithHigherACK acks r) = fold_left (fun w a => ackWindow a w) acks (window r) /\
  owed (fold_left maybeEvictOrMarkWithHigherACK acks r) = owed r.
Proof.
  revert r. induction acks as [|a acks IH]; intros r Hs; [done|]. cbn [fold_left].
  rewrite maybeEvict_spec by done. destruct (IH (mkReliableSender (evictSpec a (inFlight r)) (pendingACKsToSend r))) as [-> ->].
  - cbn. now apply evictSpec_sorted.
  - split; [|done]. cbn. now rewrite evict_observed.
Qed.

Lemma maybeAdd_owe m i : maybeAdd m i = owe i m.
Proof.
  unfold maybeAdd, owe, ackSet_Len. destruct i as [i|]; [|by destruct (_ <=? _)].
  destruct (Z.leb_spec ACK_SET_CAPACITY (Z.of_nat (size m))); case_decide; (done || lia).
Qed.

#[export] Instance reliableSender_laws : outgoingLaws reliableSender sender_inv.
Proof.
  constructor; cbn [tryInsertOutgoingPacket onIncomingPacketSeen nextPacketIDsToACK window owed reliableSender_handler].
  - intros next r Hi. now destruct Hi.
  - intros next r p b r' Hi Hp E. destruct (insert_inv next r p b r' Hi Hp E) as [Hi' _]. split; [done|].
    unfold TryInsertOutgoingPacket in E. unfold len in *. rewrite length_map.
    destruct (Z.leb_spec RELIABLE_SEND_BUFFER_SIZE (Z.of_nat (length (inFlight r)))); injection E as <- <-; cbn.
    + split; [done|]. split; [|done]. split; [done | lia].
    + rewrite map_app. done.
  - intros next r seen Hi. split; [now apply seen_inv|]. unfold OnIncomingPacketSeen. rewrite maybeAdd_owe.
    destruct (seen_acks seen) as [acks|]; [|done]. cbn [default].
    destruct (evictions_observed acks (mkReliableSender (inFlight r) (owe (seen_id seen) (pendingACKsToSend r)))) as [Hw Ho];
      [now destruct Hi|]. split; [exact Ho | exact Hw].
  - intros next r ids r' Hi. unfold NextPacketIDsToACK. destruct (nextToACK (pendingACKsToSend r)) as [next' rest] eqn:E.
    intros [= <- <-]. destruct (nextToACK_sorted _ _ _ E) as (Hs & _ & Hm & Hlt & Hlen).
    pose proof (nextToACK_Len (pendingACKsToSend r)) as [Hl _]. rewrite E in Hl. cbn [fst] in Hl.
    split; [|done]. destruct Hi as [? ? ? Ha]. constructor; try done. cbn. unfold ACK_SET_CAPACITY in *. lia.
Qed.

#[export] Instance reliableReceiver_laws : incomingLaws reliableReceiver.
Proof.
  constructor; cbn [maybeInsertIncoming nextIncomingSequence buffered consumed reliableReceiver_handler].
  - intros r p b r'. unfold MaybeInsertIncoming.
    destruct (Z.leb_spec RELIABLE_RECV_BUFFER_SIZE (len (incomingPackets r))); intros [= <- <-]; cbn; (split; [done|]);
      (split; [|done]); (split; [done | lia]) || (split; [lia | done]).
  - intros r ready r' Hu Hc E. destruct (NextIncomingSequence_spec _ _ _ Hu Hc E) as (? & ? & ? & ? & ? & _). done.
Qed.

(** ** What a client may rely on *)

Section Clients.
Context {Q : Type} {wf : Z -> Q -> Prop} `{outgoingLaws Q wf}.

(** Two packets are enough to acknowledge all that is owed. *)
Lemma owed_drained next s ids1 s1 ids2 s2 :
  wf next s -> nextPacketIDsToACK s = (ids1, s1) -> nextPacketIDsToACK s1 = (ids2, s2) ->
  owed s2 = ∅ /\ list_to_set (ids1 ++ ids2) = owed s /\ StronglySorted Z.lt (ids1 ++ ids2).
Proof.
  intros Hs E1 E2. pose proof (law_owed _ _ Hs) as Hcap.
  destruct (law_next _ _ _ _ Hs E1) as (Hs1 & _ & Hsort1 & Hl1 & Ho1 & Hlt1).
  destruct (law_next _ _ _ _ Hs1 E2) as (_ & _ & Hsort2 & Hl2 & Ho2 & Hlt2).
  assert (forall (ids : list Z) (m m' : gset Z), StronglySorted Z.lt ids -> m = list_to_set ids ∪ m' ->
    (forall i j, i ∈ ids -> j ∈ m' -> i < j) -> size m = (length ids + size m')%nat) as Hsz.
  { intros ids m m' Hsort -> Hlt. rewrite size_union.
    - rewrite size_list_to_set; [done|]. apply (Sorted_lt_nodup id) in Hsort. by rewrite list_fmap_id in Hsort.
    - intros i Hi%elem_of_list_to_set Hi'. specialize (Hlt i i Hi Hi'). lia. }
  pose proof (Hsz _ _ _ Hsort1 Ho1 Hlt1) as Hz1. pose proof (Hsz _ _ _ Hsort2 Ho2 Hlt2) as Hz2.
  unfold len, MAX_ACKS_PER_OUTGOING_PACKET, ACK_SET_CAPACITY in *.
  assert (owed s2 = ∅) as He by (apply leibniz_equiv, size_empty_inv; lia).
  split; [done|]. rewrite He in *. rewrite union_empty_r_L in Ho2. split; [by rewrite list_to_set_app_L, Ho1, Ho2|].
  apply StronglySorted_app_2; [|done|done]. intros i j Hi Hj. apply Hlt1; [done|]. rewrite Ho2. by apply elem_of_list_to_set.
Qed.
End Clients.

(** "the largest sequence of packets ready": no longer run of identifiers is
    buffered. *)
Lemma sequence_largest `{incomingLaws R} r ready r' k :
  Forall (fun p => is_u32 (ID p)) (buffered r) -> 0 <= consumed r < MaxUint32 ->
  nextIncomingSequence r = (ready, r') ->
  (forall i, 1 <= i <= k -> exists p, p ∈ buffered r /\ ID p = consumed r + i) -> k <= len ready.
Proof.
  intros Hu Hc E Hrun. destruct (law_sequence _ _ _ Hu Hc E) as (_ & _ & Hl & Hp & Hg).
  destruct (Z.le_gt_cases k (len ready)) as [|Hgt]; [done|]. pose proof (len_nonneg ready).
  destruct (Hrun (len ready + 1) ltac:(lia)) as (p & Hin & Hid).
  rewrite Hp in Hg. rewrite Forall_forall in Hg.
  assert (p ∈ List.filter (fun p => consumed r' <? ID p) (buffered r)) as Hf
    by (apply list_elem_of_In, filter_In; split; [by apply list_elem_of_In | apply Z.ltb_lt; lia]).
  specialize (Hg p Hf). lia.
Qed.

(** The packets in flight after a list of acknowledgements: those that it does
    not name, each with one more for every acknowledgement of a higher one. *)
Definition afterACKs (acks : list Z) (w : list (Z * Z)) : list (Z * Z) :=
  omap (fun x => if bool_decide (x.1 ∈ acks) then None else Some (x.1, x.2 + len (List.filter (Z.ltb x.1) acks))) w.

Lemma afterACKs_cons a acks w : afterACKs acks (ackWindow a w) = afterACKs (a :: acks) w.
Proof.
  induction w as [|[i n] w IH]; [done|]. unfold afterACKs, ackWindow in *. cbn [omap list_omap fst snd List.filter].
  destruct (Z.eqb_spec i a) as [->|Hne].
  - rewrite bool_decide_true by set_solver. exact IH.
  - assert (bool_decide (i ∈ a :: acks) = bool_decide (i ∈ acks)) as -> by (apply bool_decide_ext; set_solver).
    destruct (i <? a); cbn [omap list_omap fst snd]; destruct (bool_decide (i ∈ acks)); rewrite IH; try done.
    unfold len. cbn [length]. do 2 f_equal. lia.
Qed.

Lemma afterACKs_fold acks w : fold_left (fun w a => ackWindow a w) acks w = afterACKs acks w.
Proof.
  revert w. induction acks as [|a acks IH]; intros w; cbn [fold_left]; [|by rewrite IH, afterACKs_cons].
  unfold afterACKs. induction w as [|[i n] w IHw]; [done|]. cbn. rewrite Z.add_0_r. by f_equal.
Qed.

(** C35: nothing that was received is forgotten, and every acknowledgement
    counts.  In every state that the sender can be in, when it is told of an
    incoming packet: if fewer than eight identifiers are to be acknowledged the
    packet's is added to them, and the next two packets that go out carry
    exactly these, each once and in ascending order, the first of them as many
    as fit (four), after which none is left; and of the packets in flight
    exactly those that the incoming packet acknowledges are gone, while each of
    the others counts one more for every acknowledgement of a higher one. *)
Theorem seen_is_acknowledged next (r : reliableSender) seen ids1 r1 ids2 r2 :
  sender_inv next r ->
  NextPacketIDsToACK (OnIncomingPacketSeen r seen) = (ids1, r1) -> NextPacketIDsToACK r1 = (ids2, r2) ->
  let pending := pendingACKsToSend r in
  let toSend := match seen_id seen with
                | Some i => if (Z.of_nat (size pending) <? 8) then {[i]} ∪ pending else pending
                | None => pending
                end in
  StronglySorted Z.lt (ids1 ++ ids2) /\ list_to_set (ids1 ++ ids2) = toSend /\
  len ids1 = Z.min 4 (Z.of_nat (size toSend)) /\ pendingACKsToSend r2 = ∅ /\
  map observe (inFlight r2) = afterACKs (default [] (seen_acks seen)) (map observe (inFlight r)).
Proof.
  intros Hs E1 E2 pending toSend. destruct (law_seen next r seen Hs) as (Hs0 & Ho & Hw).
  assert (owe (seen_id seen) (owed r) = toSend) as Howe.
  { unfold owe, toSend. destruct (seen_id seen); [|done]. cbn [owed reliableSender_handler]. fold pending.
    unfold ACK_SET_CAPACITY. case_decide; [rewrite (proj2 (Z.ltb_lt _ _)) | rewrite (proj2 (Z.ltb_ge _ _))]; (done || lia). }
  change (nextPacketIDsToACK (onIncomingPacketSeen r seen) = (ids1, r1)) in E1. change (nextPacketIDsToACK r1 = (ids2, r2)) in E2.
  destruct (owed_drained next _ _ _ _ _ Hs0 E1 E2) as (He & Hset & Hsort).
  destruct (law_next _ _ _ _ Hs0 E1) as (Hs1 & Hw1 & _ & Hl & _).
  destruct (law_next _ _ _ _ Hs1 E2) as (_ & Hw2 & _).
  split; [exact Hsort|]. split; [by rewrite Hset, Ho|]. split; [by rewrite Hl, Ho, Howe|]. split; [exact He|].
  change (window r2 = afterACKs (default [] (seen_acks seen)) (window r)). by rewrite Hw2, Hw1, Hw, afterACKs_fold.
Qed.

Lemma seen_is_acknowledged_witness :
  let r := mkReliableSender [newInFlightPacket (samplePkt 1); newInFlightPacket (samplePkt 2)] (newACKSet [3; 9; 4; 8; 7]) in
  let seen := mkIncomingPacketSeen (Some 5) (Some [2]) in
  let '(ids1, r1) := NextPacketIDsToACK (OnIncomingPacketSeen r seen) in
  let '(ids2, r2) := NextPacketIDsToACK r1 in
  ids1 = [3; 4; 5; 7] /\ ids2 = [8; 9] /\ list_to_set (ids1 ++ ids2) = ({[5]} ∪ newACKSet [3; 9; 4; 8; 7] : gset Z) /\
  map observe (inFlight r2) = [(1, 1)].
Proof.
  set (r := mkReliableSender _ _). set (seen := mkIncomingPacketSeen _ _). cbv zeta.
  destruct (NextPacketIDsToACK (OnIncomingPacketSeen r seen)) as [ids1 r1] eqn:E1.
  destruct (NextPacketIDsToACK r1) as [ids2 r2] eqn:E2.
  destruct (seen_is_acknowledged 3 r seen ids1 r1 ids2 r2) as (_ & Hset & _ & _ & Hw); [|exact E1|exact E2|].
  { constructor; [repeat constructor| |vm_compute; congruence|vm_compute; congruence].
    repeat apply Forall_cons_2; [..|apply Forall_nil_2]; reflexivity. }
  rewrite Hset, Hw. vm_compute in E1. injection E1 as <- <-. vm_compute in E2. injection E2 as <- <-.
  split; [reflexivity|]. split; [reflexivity|]. split; vm_compute; reflexivity.
Defined.

(** While eight identifiers are owed, another one that is seen is not recorded. *)
Lemma full_set_forgets {Q} {wf : Z -> Q -> Prop} `{outgoingLaws Q wf} next (s : Q) seen :
  wf next s -> Z.of_nat (size (owed s)) = ACK_SET_CAPACITY -> owed (onIncomingPacketSeen s seen) = owed s.
Proof.
  intros Hs Hfull. destruct (law_seen next s seen Hs) as (_ & -> & _). unfold owe.
  destruct (seen_id seen); [|done]. rewrite decide_False; [done | lia].
Qed.
