(* ===== verification/ControlChannel.v ===== *)
(** * internal/controlchannel

    [controlchannel.go]: routing of control packets between the reliable
    transport and TLS, and the pipeline from the network to TLS that it
    completes. *)

From S2P Require Import Prelude Bytesx Packet Session Sender Receiver.

Module Control.

(** Sends of the up-worker. *)
Inductive effect : Type :=
  | NotifyTLS (n : Notification)
  | TLSRecord (payload : list byte).

(** One iteration of [moveUpWorker] on a packet from [reliableToControl]. *)
Definition moveUpWorker_step (m : Manager) (packet : Packet) : Manager * list effect :=
  if Opcode packet =? P_CONTROL_SOFT_RESET_V1 then
    if negState m <? S_GENERATED_KEYS then (m, [])
    else
      let '(m, _) := SetNegotiationState m S_INITIAL in
      (m, [NotifyTLS (mkNotification NotificationReset)])
  else if Opcode packet =? P_CONTROL_V1 then (m, [TLSRecord (Payload packet)])
  else (m, []).

(** One iteration of [moveDownWorker] on a TLS record; the worker returns
    when no packet can be made. *)
Definition moveDownWorker_step (m : Manager) (record : list byte) : Manager * option Packet :=
  let '(r, m) := Manager_NewPacket m P_CONTROL_V1 record in
  match r with
  | Ok packet => (m, Some packet)
  | _ => (m, None)
  end.

Fixpoint moveUpWorker_run (m : Manager) (ps : list Packet) : Manager * list effect :=
  match ps with
  | [] => (m, [])
  | p :: ps' =>
      let '(m1, es1) := moveUpWorker_step m p in
      let '(m2, es2) := moveUpWorker_run m1 ps' in
      (m2, es1 ++ es2)
  end.

End Control.

Lemma consumeLoop_subset l last ready last' keep :
  consumeLoop last l = (ready, last', keep) -> ready ⊆ l /\ keep ⊆ l.
Proof.
  revert last ready last' keep. induction l as [|p t IH]; intros last ready last' keep; cbn [consumeLoop].
  - intros [= <- <- <-]. set_solver.
  - destruct (_ =? 1).
    + destruct (consumeLoop (u32 (last + 1)) t) as [[rd l'] kp] eqn:E. intros [= <- <- <-].
      apply IH in E. set_solver.
    + destruct (_ <? _); [intros [= <- <- <-]; set_solver|]. intros E%IH. set_solver.
Qed.

Lemma NextIncomingSequence_subset r ready r' :
  NextIncomingSequence r = (ready, r') -> ready ⊆ incomingPackets r /\ incomingPackets r' ⊆ incomingPackets r.
Proof.
  unfold NextIncomingSequence.
  destruct (consumeLoop (lastConsumed r) (sort_by ID (incomingPackets r))) as [[rd last'] keep] eqn:E.
  intros [= <- <-]. apply consumeLoop_subset in E as [H1 H2]. cbn [incomingPackets].
  pose proof (sort_by_perm ID (incomingPackets r)) as Hp.
  split; intros q Hq; rewrite <- Hp; auto.
Qed.

Definition isControlV1 (p : Packet) : Prop := Opcode p = P_CONTROL_V1.

(** The packets that reach the control channel are control packets: all the
    others stop in the reliable transport. *)
Lemma receiver_delivers_control mgr pkts r r' seens outs :
  Forall isControlV1 (incomingPackets r) ->
  moveUpWorker_run mgr r pkts = (r', seens, outs) -> Forall isControlV1 outs.
Proof.
  revert r r' seens outs. induction pkts as [|p pkts IH]; intros r r' seens outs Hr; cbn [moveUpWorker_run].
  - intros [= <- <- <-]. constructor.
  - destruct (moveUpWorker_step mgr None r p) as [[r1 s1] o1] eqn:E1.
    destruct (moveUpWorker_run mgr r1 pkts) as [[r2 s2] o2] eqn:E2. intros [= <- <- <-].
    apply moveUpWorker_step_cases in E1 as [(_ & -> & ->)|(Hacc & _ & E1)]; [now apply IH in E2|].
    assert (isControlV1 p) as Hp.
    { unfold accepts in Hacc. apply andb_true_iff in Hacc as [_ H]. now apply Z.eqb_eq in H. }
    apply NextIncomingSequence_subset in E1 as [H1 H2]. cbn [incomingPackets] in *.
    assert (Forall isControlV1 (incomingPackets r ++ [p])) as Hall by (apply Forall_app; split; [done | by constructor]).
    rewrite Forall_forall in Hall. apply Forall_app. split; [apply Forall_forall; auto|].
    eapply IH; [|exact E2]. apply Forall_forall. auto.
Qed.

Lemma control_run_records m ps :
  Forall isControlV1 ps ->
  Control.moveUpWorker_run m ps = (m, map (fun p => Control.TLSRecord (Payload p)) ps).
Proof.
  induction 1 as [|p ps Hp _ IH]; [done|]. cbn [Control.moveUpWorker_run map].
  unfold Control.moveUpWorker_step. rewrite Hp.
  change (P_CONTROL_V1 =? P_CONTROL_SOFT_RESET_V1) with false.
  change (P_CONTROL_V1 =? P_CONTROL_V1) with true. cbn iota. now rewrite IH.
Qed.

(** From the network to TLS: whatever packets the muxer passes up, soft
    resets included, the reliable transport and the control channel together
    give TLS exactly the payloads of the control packets numbered 1, 2, 3, ...
    in order; the control channel never sees a soft reset, so it never asks
    TLS to renegotiate and never changes the negotiation state. *)
Theorem control_pipeline mgr m pkts r seens outs :
  Forall (fun p => is_u32 (ID p)) pkts -> len pkts < MaxUint32 ->
  moveUpWorker_run mgr newReliableReceiver pkts = (r, seens, outs) ->
  map ID outs = seqZ 1 (len outs) /\
  Control.moveUpWorker_run m outs = (m, map (fun p => Control.TLSRecord (Payload p)) outs).
Proof.
  intros Hu Hlen Hrun. split.
  - apply moveUpWorker_run_spec in Hrun as (_ & H1 & _);
      [exact H1|apply new_receiver_inv|done|change (0 + 0 + len pkts < MaxUint32); lia].
  - apply control_run_records. eapply receiver_delivers_control; [|exact Hrun]. constructor.
Qed.

(** A soft reset of the peer, numbered 2. *)
Definition softReset : Packet :=
  mkPacket P_CONTROL_SOFT_RESET_V1 0 zeroPeerID zeroSessionID [] zeroSessionID 2 [].

Lemma control_pipeline_witness :
  exists r seens outs,
  moveUpWorker_run sampleMgr newReliableReceiver [peerPkt 1; softReset; peerPkt 2] = (r, seens, outs) /\
  map ID outs = [1; 2] /\
  Control.moveUpWorker_run sampleMgr outs =
    (sampleMgr, [Control.TLSRecord [z2b 1]; Control.TLSRecord [z2b 2]]).
Proof.
  destruct (moveUpWorker_run sampleMgr newReliableReceiver [peerPkt 1; softReset; peerPkt 2])
    as [[r seens] outs] eqn:E.
  exists r, seens, outs. split; [done|].
  assert (outs = [peerPkt 1; peerPkt 2]) as -> by (vm_compute in E; injection E as <- <- <-; reflexivity).
  apply (control_pipeline sampleMgr sampleMgr [peerPkt 1; softReset; peerPkt 2] r seens [peerPkt 1; peerPkt 2]);
    [repeat constructor; cbn; lia|vm_compute; reflexivity|exact E].
Defined.
