(* ===== verification/Config.v ===== *)
(** * pkg/config: the options and their parser

    [vpnoptions.go] and [config.go].  The operating system is an argument: an
    [FS] gives the working directory, the result of [os.Stat] and the contents
    of a file.  [path/filepath] is modelled for Unix.  Text is ASCII, as
    [strings.TrimSpace] would otherwise also strip Unicode spaces.  A parser
    that mutates the options through its pointer returns the new options.  A
    byte slice that may be nil is an option. *)

From S2P Require Import Prelude GoStrings.

Inductive statResult : Type := StatRegular | StatNotRegular | StatNotExist | StatFailed.

Record FS : Type := mkFS {
  fs_cwd : string;
  fs_stat : string -> statResult;
  fs_read : string -> option string
}.

(** ** [path/filepath] *)

Definition IsAbs (path : string) : bool := HasPrefix path "/".

(** The components of a path resolved against a stack, deepest first. *)
Fixpoint cleanStack (rooted : bool) (comps : list string) (stack : list string) : list string :=
  match comps with
  | [] => stack
  | c :: cs =>
      let stack :=
        if String.eqb c "" || String.eqb c "." then stack
        else if String.eqb c ".." then
          match stack with
          | [] => if rooted then [] else [".."]
          | top :: rest => if String.eqb top ".." then ".." :: stack else rest
          end
        else c :: stack in
      cleanStack rooted cs stack
  end.

Definition Clean (path : string) : string :=
  let rooted := IsAbs path in
  let body := Join "/" (rev (cleanStack rooted (Split "/" path) [])) in
  if rooted then String "/" body else if String.eqb body "" then "." else body.

(** [filepath.Join(a, b)] drops empty elements. *)
Definition filepath_Join (a b : string) : string :=
  match a, b with
  | EmptyString, EmptyString => ""
  | EmptyString, _ => Clean b
  | _, EmptyString => Clean a
  | _, _ => Clean (a +:+ String "/" b)
  end.

Definition filepath_Abs (fs : FS) (path : string) : string :=
  if IsAbs path then Clean path else filepath_Join (fs_cwd fs) path.

(** The directory part of [filepath.Split], final slash included. *)
Definition filepath_Dir (path : string) : string :=
  match rev (Split "/" path) with
  | [] | [_] => ""
  | _ :: rest => Join "/" (rev rest) +:+ "/"
  end.

(** ** [strings] and [bufio] *)

Definition is_space (c : ascii) : bool :=
  let n := nat_of_ascii c in ((9 <=? n)%nat && (n <=? 13)%nat) || (n =? 32)%nat.

Fixpoint TrimLeft (s : string) : string :=
  match s with
  | String c s' => if is_space c then TrimLeft s' else s
  | EmptyString => s
  end.

Fixpoint TrimRight (s : string) : string :=
  match s with
  | EmptyString => s
  | String c s' =>
      match TrimRight s' with
      | EmptyString => if is_space c then EmptyString else String c EmptyString
      | t => String c t
      end
  end.

Definition TrimSpace (s : string) : string := TrimRight (TrimLeft s).

Definition newline : ascii := "010".

(** [bufio.ScanLines] drops one trailing carriage return. *)
Fixpoint dropCR (s : string) : string :=
  match s with
  | EmptyString => s
  | String c EmptyString => if Ascii.eqb c "013" then EmptyString else s
  | String c s' => String c (dropCR s')
  end.

(** [bufio.MaxScanTokenSize] *)
Definition MaxScanTokenSize : Z := 65536.

Definition dropLastEmpty (l : list string) : list string :=
  match rev l with
  | EmptyString :: rest => rev rest
  | _ => l
  end.

(** The lines of a scanner, or its error on a line over the token size. *)
Definition scanLines (contents : string) : outcome (list string) :=
  let raw := dropLastEmpty (Split newline contents) in
  if forallb (fun l => Z.of_nat (String.length l) <? MaxScanTokenSize) raw
  then Ok (map dropCR raw) else Err ErrOS.

(** ** Options *)

Definition Compression : Type := string.
Definition CompressionStub : Compression := "stub".
Definition CompressionEmpty : Compression := "empty".
Definition CompressionLZONo : Compression := "lzo-no".

Definition Proto : Type := string.
Definition ProtoTCP : Proto := "tcp".
Definition ProtoUDP : Proto := "udp".

Definition SupportedCiphers : list string :=
  ["AES-128-CBC"; "AES-192-CBC"; "AES-256-CBC"; "AES-128-GCM"; "AES-192-GCM"; "AES-256-GCM"].
Definition SupportedAuth : list string := ["SHA1"; "SHA256"; "SHA512"].

Record OpenVPNOptions : Type := mkOpenVPNOptions {
  Remote : string; Port : string; OProto : Proto;
  Username : string; Password : string;
  CAPath : string; CertPath : string; KeyPath : string;
  CA : option (list byte); Cert : option (list byte); Key : option (list byte);
  Cipher : string; Auth : string; TLSMaxVer : string;
  Compress : Compression; ProxyOBFS4 : string
}.

Definition set_Remote (r p : string) (o : OpenVPNOptions) : OpenVPNOptions :=
  mkOpenVPNOptions r p (OProto o) (Username o) (Password o) (CAPath o) (CertPath o) (KeyPath o)
    (CA o) (Cert o) (Key o) (Cipher o) (Auth o) (TLSMaxVer o) (Compress o) (ProxyOBFS4 o).
Definition set_Proto (v : Proto) (o : OpenVPNOptions) : OpenVPNOptions :=
  mkOpenVPNOptions (Remote o) (Port o) v (Username o) (Password o) (CAPath o) (CertPath o) (KeyPath o)
    (CA o) (Cert o) (Key o) (Cipher o) (Auth o) (TLSMaxVer o) (Compress o) (ProxyOBFS4 o).
Definition set_Creds (u p : string) (o : OpenVPNOptions) : OpenVPNOptions :=
  mkOpenVPNOptions (Remote o) (Port o) (OProto o) u p (CAPath o) (CertPath o) (KeyPath o)
    (CA o) (Cert o) (Key o) (Cipher o) (Auth o) (TLSMaxVer o) (Compress o) (ProxyOBFS4 o).
Definition set_Paths (ca cert key : string) (o : OpenVPNOptions) : OpenVPNOptions :=
  mkOpenVPNOptions (Remote o) (Port o) (OProto o) (Username o) (Password o) ca cert key
    (CA o) (Cert o) (Key o) (Cipher o) (Auth o) (TLSMaxVer o) (Compress o) (ProxyOBFS4 o).
Definition set_Inline (ca cert key : option (list byte)) (o : OpenVPNOptions) : OpenVPNOptions :=
  mkOpenVPNOptions (Remote o) (Port o) (OProto o) (Username o) (Password o) (CAPath o) (CertPath o) (KeyPath o)
    ca cert key (Cipher o) (Auth o) (TLSMaxVer o) (Compress o) (ProxyOBFS4 o).
Definition set_Cipher (v : string) (o : OpenVPNOptions) : OpenVPNOptions :=
  mkOpenVPNOptions (Remote o) (Port o) (OProto o) (Username o) (Password o) (CAPath o) (CertPath o) (KeyPath o)
    (CA o) (Cert o) (Key o) v (Auth o) (TLSMaxVer o) (Compress o) (ProxyOBFS4 o).
Definition set_Auth (v : string) (o : OpenVPNOptions) : OpenVPNOptions :=
  mkOpenVPNOptions (Remote o) (Port o) (OProto o) (Username o) (Password o) (CAPath o) (CertPath o) (KeyPath o)
    (CA o) (Cert o) (Key o) (Cipher o) v (TLSMaxVer o) (Compress o) (ProxyOBFS4 o).
Definition set_TLSMaxVer (v : string) (o : OpenVPNOptions) : OpenVPNOptions :=
  mkOpenVPNOptions (Remote o) (Port o) (OProto o) (Username o) (Password o) (CAPath o) (CertPath o) (KeyPath o)
    (CA o) (Cert o) (Key o) (Cipher o) (Auth o) v (Compress o) (ProxyOBFS4 o).
Definition set_Compress (v : Compression) (o : OpenVPNOptions) : OpenVPNOptions :=
  mkOpenVPNOptions (Remote o) (Port o) (OProto o) (Username o) (Password o) (CAPath o) (CertPath o) (KeyPath o)
    (CA o) (Cert o) (Key o) (Cipher o) (Auth o) (TLSMaxVer o) v (ProxyOBFS4 o).
Definition set_ProxyOBFS4 (v : string) (o : OpenVPNOptions) : OpenVPNOptions :=
  mkOpenVPNOptions (Remote o) (Port o) (OProto o) (Username o) (Password o) (CAPath o) (CertPath o) (KeyPath o)
    (CA o) (Cert o) (Key o) (Cipher o) (Auth o) (TLSMaxVer o) (Compress o) v.

Definition zeroOptions : OpenVPNOptions :=
  mkOpenVPNOptions "" "" "" "" "" "" "" "" None None None "" "" "" "" "".

(** The options [getOptionsFromLines] starts from. *)
Definition defaultOptions : OpenVPNOptions :=
  mkOpenVPNOptions "" "" ProtoTCP "" "" "" "" "" (Some []) (Some []) (Some []) "" "" "" CompressionEmpty "".

(** [len] of a byte slice that may be nil. *)
Definition bytes_len (b : option (list byte)) : Z := match b with Some l => len l | None => 0 end.

Definition isSet (s : string) : bool := negb (String.eqb s "").

Definition ShouldLoadCertsFromPath (o : OpenVPNOptions) : bool :=
  isSet (CertPath o) && isSet (KeyPath o) && isSet (CAPath o).

Definition HasAuthInfo (o : OpenVPNOptions) : bool :=
  if isSet (CertPath o) && isSet (KeyPath o) && isSet (CAPath o) then true
  else if negb (bytes_len (Cert o) =? 0) && negb (bytes_len (Key o) =? 0) && negb (bytes_len (CA o) =? 0) then true
  else if isSet (Username o) && isSet (Password o) then true
  else false.

(** The [fmt.Sprintf] of [clientOptions]. *)
Definition clientOptions (proto cipher auth keysize : string) : string :=
  "V4,dev-type tun,link-mtu 1549,tun-mtu 1500,proto " +:+ proto +:+ "v4,cipher " +:+ cipher +:+
  ",auth " +:+ auth +:+ ",keysize " +:+ keysize +:+ ",key-method 2,tls-client".

Definition ServerOptionsString (o : OpenVPNOptions) : outcome string :=
  if String.eqb (Cipher o) "" then Ok ""
  else
    keysize ← go_index (Split "-" (Cipher o)) 1;
    let proto := if String.eqb (OProto o) ProtoTCP then ToUpper ProtoTCP else ToUpper ProtoUDP in
    let s := clientOptions proto (Cipher o) (Auth o) keysize in
    Ok (if String.eqb (Compress o) CompressionStub then s +:+ ",compress stub"
        else if String.eqb (Compress o) "lzo-no" then s +:+ ",lzo-comp no"
        else if String.eqb (Compress o) CompressionEmpty then s +:+ ",compress"
        else s).

(** ** Parsers *)

Definition hasElement (el : string) (arr : list string) : bool := existsb (String.eqb el) arr.

Definition parseProto (p : list string) (o : OpenVPNOptions) : outcome OpenVPNOptions :=
  match p with
  | [m] =>
      if String.eqb m ProtoUDP then Ok (set_Proto ProtoUDP o)
      else if String.eqb m ProtoTCP then Ok (set_Proto ProtoTCP o)
      else Err ErrBadConfig
  | _ => Err ErrBadConfig
  end.

Definition parseRemote (p : list string) (o : OpenVPNOptions) : outcome OpenVPNOptions :=
  match p with
  | [host; port] => Ok (set_Remote host port o)
  | _ => Err ErrBadConfig
  end.

Definition parseCipher (p : list string) (o : OpenVPNOptions) : outcome OpenVPNOptions :=
  match p with
  | [cipher] => if negb (hasElement cipher SupportedCiphers) then Err ErrBadConfig else Ok (set_Cipher cipher o)
  | _ => Err ErrBadConfig
  end.

Definition parseAuth (p : list string) (o : OpenVPNOptions) : outcome OpenVPNOptions :=
  match p with
  | [auth] => if negb (hasElement auth SupportedAuth) then Err ErrBadConfig else Ok (set_Auth auth o)
  | _ => Err ErrBadConfig
  end.

Definition toAbs (path basedir : string) : string :=
  if IsAbs path then path else filepath_Join basedir path.

Definition isSubdir (fs : FS) (parent sub : string) : bool :=
  HasPrefix (filepath_Abs fs sub) (filepath_Abs fs parent).

(** [statbuf] is nil when [os.Stat] fails, for whatever reason. *)
Definition existsFile (fs : FS) (path : string) : outcome bool :=
  match fs_stat fs path with
  | StatNotExist => Ok false
  | StatFailed => Panic
  | StatRegular => Ok true
  | StatNotRegular => Ok false
  end.

(** The checks shared by the options that name a file. *)
Definition checkedPath (fs : FS) (p : list string) (basedir : string) : outcome string :=
  match p with
  | [arg] =>
      let path := toAbs arg basedir in
      if negb (isSubdir fs basedir path) then Err ErrBadConfig
      else
        ok ← existsFile fs path;
        if negb ok then Err ErrBadConfig else Ok path
  | _ => Err ErrBadConfig
  end.

Definition parseCA (fs : FS) (p : list string) (o : OpenVPNOptions) (basedir : string) : outcome OpenVPNOptions :=
  ca ← checkedPath fs p basedir; Ok (set_Paths ca (CertPath o) (KeyPath o) o).

Definition parseCert (fs : FS) (p : list string) (o : OpenVPNOptions) (basedir : string) : outcome OpenVPNOptions :=
  cert ← checkedPath fs p basedir; Ok (set_Paths (CAPath o) cert (KeyPath o) o).

Definition parseKey (fs : FS) (p : list string) (o : OpenVPNOptions) (basedir : string) : outcome OpenVPNOptions :=
  key ← checkedPath fs p basedir; Ok (set_Paths (CAPath o) (CertPath o) key o).

Definition getLinesFromFile (fs : FS) (path : string) : outcome (list string) :=
  match fs_read fs path with Some contents => scanLines contents | None => Err ErrOS end.

Definition getCredentialsFromFile (fs : FS) (path : string) : outcome (string * string) :=
  lines ← rewrap ErrBadConfig (getLinesFromFile fs path);
  match lines with
  | [user; pass] =>
      if String.eqb user "" then Err ErrBadConfig
      else if String.eqb pass "" then Err ErrBadConfig
      else Ok (user, pass)
  | _ => Err ErrBadConfig
  end.

Definition parseAuthUser (fs : FS) (p : list string) (o : OpenVPNOptions) (basedir : string) : outcome OpenVPNOptions :=
  auth ← checkedPath fs p basedir;
  creds ← getCredentialsFromFile fs auth;
  Ok (set_Creds creds.1 creds.2 o).

Definition parseCompress (p : list string) (o : OpenVPNOptions) : outcome OpenVPNOptions :=
  match p with
  | [] => Ok (set_Compress CompressionEmpty o)
  | [c] => if String.eqb c "stub" then Ok (set_Compress CompressionStub o) else Err ErrBadConfig
  | _ => Err ErrBadConfig
  end.

Definition parseCompLZO (p : list string) (o : OpenVPNOptions) : outcome OpenVPNOptions :=
  c ← go_index p 0;
  if negb (String.eqb c "no") then Err ErrBadConfig else Ok (set_Compress "lzo-no" o).

Definition parseTLSVerMax (p : list string) (o : OpenVPNOptions) : outcome OpenVPNOptions :=
  match p with
  | [] => Ok (set_TLSMaxVer "1.3" o)
  | v :: _ => if String.eqb v "1.2" then Ok (set_TLSMaxVer "1.2" o) else Ok o
  end.

Definition parseProxyOBFS4 (p : list string) (o : OpenVPNOptions) : outcome OpenVPNOptions :=
  match p with
  | [v] => Ok (set_ProxyOBFS4 v o)
  | _ => Err ErrBadConfig
  end.

Definition parseOption (fs : FS) (opt : OpenVPNOptions) (dir key : string) (p : list string) : outcome OpenVPNOptions :=
  if String.eqb key "proto" then parseProto p opt
  else if String.eqb key "remote" then parseRemote p opt
  else if String.eqb key "cipher" then parseCipher p opt
  else if String.eqb key "auth" then parseAuth p opt
  else if String.eqb key "compress" then parseCompress p opt
  else if String.eqb key "comp-lzo" then parseCompLZO p opt
  else if String.eqb key "tls-version-max" then parseTLSVerMax p opt
  else if String.eqb key "proxy-obfs4" then parseProxyOBFS4 p opt
  else if String.eqb key "ca" then parseCA fs p opt dir
  else if String.eqb key "cert" then parseCert fs p opt dir
  else if String.eqb key "key" then parseKey fs p opt dir
  else if String.eqb key "auth-user-pass" then parseAuthUser fs p opt dir
  else Ok opt.

Definition isOpeningTag (key : string) : bool := hasElement key ["<ca>"; "<cert>"; "<key>"].
Definition isClosingTag (key : string) : bool := hasElement key ["</ca>"; "</cert>"; "</key>"].

Definition parseTag (tag : string) : string :=
  if hasElement tag ["<ca>"; "</ca>"] then "ca"
  else if hasElement tag ["<cert>"; "</cert>"] then "cert"
  else if hasElement tag ["<key>"; "</key>"] then "key"
  else "".

Definition parseInlineTag (o : OpenVPNOptions) (tag : string) (b : list byte) : outcome OpenVPNOptions :=
  if len b =? 0 then Err ErrBadConfig
  else if String.eqb tag "ca" then Ok (set_Inline (Some b) (Cert o) (Key o) o)
  else if String.eqb tag "cert" then Ok (set_Inline (CA o) (Some b) (Key o) o)
  else if String.eqb tag "key" then Ok (set_Inline (CA o) (Cert o) (Some b) o)
  else Err ErrBadConfig.

(** The variables of the loop of [getOptionsFromLines]. *)
Record parserState : Type := mkParserState {
  ps_opt : OpenVPNOptions;
  ps_tag : string;
  ps_inlineBuf : list byte
}.

Definition parseLine (fs : FS) (dir : string) (st : parserState) (l : string) : outcome parserState :=
  if HasPrefix l "#" then Ok st
  else
    let l := TrimSpace l in
    if isClosingTag l then
      opt ← parseInlineTag (ps_opt st) (ps_tag st) (ps_inlineBuf st);
      Ok (mkParserState opt "" [])
    else if isSet (ps_tag st) then
      Ok (mkParserState (ps_opt st) (ps_tag st)
            (ps_inlineBuf st ++ bytes_of_string l ++ bytes_of_string (String newline "")))
    else if isOpeningTag l then
      if negb (len (ps_inlineBuf st) =? 0) then Err ErrBadConfig
      else Ok (mkParserState (ps_opt st) (parseTag l) (ps_inlineBuf st))
    else
      match Split " " l with
      | [] => Ok st
      | key :: parts =>
          opt ← parseOption fs (ps_opt st) dir key parts;
          Ok (mkParserState opt (ps_tag st) (ps_inlineBuf st))
      end.

Fixpoint parseLines (fs : FS) (dir : string) (st : parserState) (lines : list string) : outcome parserState :=
  match lines with
  | [] => Ok st
  | l :: ls => st' ← parseLine fs dir st l; parseLines fs dir st' ls
  end.

Definition getOptionsFromLines (fs : FS) (lines : list string) (dir : string) : outcome OpenVPNOptions :=
  st ← parseLines fs dir (mkParserState defaultOptions "" []) lines; Ok (ps_opt st).

Definition ReadConfigFile (fs : FS) (filePath : string) : outcome OpenVPNOptions :=
  lines ← getLinesFromFile fs filePath;
  getOptionsFromLines fs lines (filepath_Dir filePath).

(** ** [config.go]

    The logger and the tracer are values the program only passes on. *)
Record Config (Logger Tracer : Type) : Type := mkConfig {
  openvpnOptions : OpenVPNOptions;
  logger : Logger;
  tracer : Tracer
}.
Arguments mkConfig {Logger Tracer}.
Arguments openvpnOptions {Logger Tracer}.
Arguments logger {Logger Tracer}.
Arguments tracer {Logger Tracer}.

Inductive Option (Logger Tracer : Type) : Type :=
  | WithLogger (l : Logger)
  | WithHandshakeTracer (t : Tracer)
  | WithConfigFile (configPath : string)
  | WithOpenVPNOptions (o : OpenVPNOptions).
Arguments WithLogger {Logger Tracer}.
Arguments WithHandshakeTracer {Logger Tracer}.
Arguments WithConfigFile {Logger Tracer}.
Arguments WithOpenVPNOptions {Logger Tracer}.

(** [runtimex.PanicOnError] *)
Definition PanicOnError {A} (m : outcome A) : outcome A :=
  match m with Err _ => Panic | _ => m end.

Definition applyOption {L T} (fs : FS) (c : Config L T) (opt : Option L T) : outcome (Config L T) :=
  match opt with
  | WithLogger l => Ok (mkConfig (openvpnOptions c) l (tracer c))
  | WithHandshakeTracer t => Ok (mkConfig (openvpnOptions c) (logger c) t)
  | WithConfigFile path =>
      o ← PanicOnError (ReadConfigFile fs path);
      _ ← Assert (HasAuthInfo o);
      Ok (mkConfig o (logger c) (tracer c))
  | WithOpenVPNOptions o => Ok (mkConfig o (logger c) (tracer c))
  end.

Fixpoint applyOptions {L T} (fs : FS) (c : Config L T) (opts : list (Option L T)) : outcome (Config L T) :=
  match opts with
  | [] => Ok c
  | o :: os => c' ← applyOption fs c o; applyOptions fs c' os
  end.

Definition NewConfig {L T} (fs : FS) (log : L) (dummy : T) (opts : list (Option L T)) : outcome (Config L T) :=
  applyOptions fs (mkConfig zeroOptions log dummy) opts.

Record RemoteInfo : Type := mkRemote { IPAddr : string; Endpoint : string; Protocol : string }.

(** [net.JoinHostPort] *)
Definition JoinHostPort (host port : string) : string :=
  if no_char ":" host then host +:+ ":" +:+ port else "[" +:+ host +:+ "]:" +:+ port.

Definition Config_Remote {L T} (c : Config L T) : RemoteInfo :=
  let o := openvpnOptions c in
  mkRemote (Remote o) (JoinHostPort (Remote o) (Port o)) (OProto o).

(** ** Well-formed options *)

Record options_ok (o : OpenVPNOptions) : Prop := {
  oo_cipher : Cipher o ∈ "" :: SupportedCiphers;
  oo_auth : Auth o ∈ "" :: SupportedAuth;
  oo_proto : OProto o ∈ [ProtoTCP; ProtoUDP];
  oo_compress : Compress o ∈ [CompressionStub; CompressionEmpty; CompressionLZONo]
}.

Lemma hasElement_spec el arr : hasElement el arr = true <-> el ∈ arr.
Proof.
  unfold hasElement. rewrite existsb_exists, list_elem_of_In. split.
  - now intros (x & Hx & ->%String.eqb_eq).
  - intros. exists el. split; [done | apply String.eqb_refl].
Qed.

Lemma defaultOptions_ok : options_ok defaultOptions.
Proof. constructor; vm_compute; repeat constructor. Qed.

(** [by_fields H] closes [options_ok] of a setter from [options_ok] of the
    options it updates. *)
Ltac by_fields H := destruct H; constructor; cbn; try assumption.

Lemma options_ok_plain o p o' (f : list string -> OpenVPNOptions -> outcome OpenVPNOptions) :
  f ∈ [parseProto; parseRemote; parseCipher; parseAuth; parseCompress; parseCompLZO; parseTLSVerMax; parseProxyOBFS4] ->
  options_ok o -> f p o = Ok o' -> options_ok o'.
Proof.
  intros Hf Ho. repeat (apply elem_of_cons in Hf as [->|Hf]); [..|now apply elem_of_nil in Hf].
  - unfold parseProto. repeat case_match; intros [= <-]; by_fields Ho; vm_compute; repeat constructor.
  - unfold parseRemote. repeat case_match; intros [= <-]; by_fields Ho.
  - unfold parseCipher. do 2 (case_match; try done). destruct (hasElement _ _) eqn:E; intros [= <-].
    apply hasElement_spec in E. by_fields Ho. now right.
  - unfold parseAuth. do 2 (case_match; try done). destruct (hasElement _ _) eqn:E; intros [= <-].
    apply hasElement_spec in E. by_fields Ho. now right.
  - unfold parseCompress. repeat case_match; intros [= <-]; by_fields Ho; vm_compute; repeat constructor.
  - unfold parseCompLZO. intros H. go_inv H. case_match; go_inv H. by_fields Ho. vm_compute. repeat constructor.
  - unfold parseTLSVerMax. repeat case_match; intros [= <-]; by_fields Ho.
  - unfold parseProxyOBFS4. repeat case_match; intros [= <-]; by_fields Ho.
Qed.

Lemma options_ok_parseOption fs o dir key p o' :
  options_ok o -> parseOption fs o dir key p = Ok o' -> options_ok o'.
Proof.
  intros Ho. unfold parseOption.
  do 8 (case_match; [intros H'; eapply options_ok_plain; [|exact Ho|exact H']; set_solver|]).
  repeat case_match; unfold parseCA, parseCert, parseKey, parseAuthUser; intros H';
    first [injection H' as <-; assumption | go_inv H'; by_fields Ho].
Qed.

Lemma options_ok_parseInlineTag o tag b o' :
  options_ok o -> parseInlineTag o tag b = Ok o' -> options_ok o'.
Proof. intros Ho. unfold parseInlineTag. repeat case_match; intros [= <-]; by_fields Ho. Qed.

Lemma options_ok_parseLines fs dir lines st st' :
  options_ok (ps_opt st) -> parseLines fs dir st lines = Ok st' -> options_ok (ps_opt st').
Proof.
  revert st. induction lines as [|l ls IH]; intros st Hst; cbn [parseLines].
  - now intros [= <-].
  - intros H. apply bind_Ok in H as (st1 & H1 & H2). apply IH in H2; [done|]. clear IH H2.
    unfold parseLine in H1. destruct (HasPrefix l "#"); [now injection H1 as <-|].
    destruct (isClosingTag _); [go_inv H1; eapply options_ok_parseInlineTag; eassumption|].
    destruct (isSet _); [now injection H1 as <-|].
    destruct (isOpeningTag _); [destruct (negb _); [done | now injection H1 as <-]|].
    destruct (Split _ _); [now injection H1 as <-|]. go_inv H1. eapply options_ok_parseOption; eassumption.
Qed.

Lemma ServerOptionsString_Ok o : options_ok o -> exists s, ServerOptionsString o = Ok s.
Proof.
  intros [H _ _ _]. unfold ServerOptionsString, SupportedCiphers in *.
  repeat (apply elem_of_cons in H as [->|H]); [..|now apply elem_of_nil in H]; eexists; reflexivity.
Qed.

(** C38: whatever the lines of a configuration file, if they are accepted the
    cipher, the digest, the protocol and the compression are supported ones
    (or unset), and the options string announced to the server is built
    without the index out of range that a malformed cipher name causes. *)
Theorem parsed_options_supported fs lines dir o :
  getOptionsFromLines fs lines dir = Ok o ->
  options_ok o /\ exists s, ServerOptionsString o = Ok s.
Proof.
  intros H. unfold getOptionsFromLines in H. go_inv H.
  apply options_ok_parseLines in H0; [|apply defaultOptions_ok].
  split; [done | now apply ServerOptionsString_Ok].
Qed.

Definition sampleFS : FS :=
  mkFS "/home/u" (fun _ => StatRegular) (fun _ => Some ("user" +:+ String newline "secret")).

Definition sampleLines : list string :=
  ["# a comment"; "remote 10.0.0.1 1194"; "proto udp"; "cipher AES-256-GCM"; "auth SHA512";
   "<ca>"; "line1"; "line2"; "</ca>"; "auth-user-pass creds.txt"; "unknown"].

Lemma parsed_options_supported_witness :
  exists o, getOptionsFromLines sampleFS sampleLines "/etc/vpn/" = Ok o /\
  Username o = "user" /\ Cipher o = "AES-256-GCM" /\
  options_ok o /\ exists s, ServerOptionsString o = Ok s.
Proof.
  eexists. split; [vm_compute; reflexivity|]. split; [reflexivity|]. split; [reflexivity|].
  apply (parsed_options_supported sampleFS sampleLines "/etc/vpn/"). vm_compute. reflexivity.
Defined.

(** ** Inline files *)

(** A line that belongs to an inline block. *)
Definition blockLine (l : string) : bool := negb (HasPrefix l "#") && negb (isClosingTag (TrimSpace l)).

(** What an inline block of such lines contributes. *)
Definition inlineBytes (block : list string) : list byte :=
  concat (map (fun l => bytes_of_string (TrimSpace l) ++ bytes_of_string (String newline "")) block).

Definition setInline (tag : string) (b : list byte) (o : OpenVPNOptions) : OpenVPNOptions :=
  if String.eqb tag "ca" then set_Inline (Some b) (Cert o) (Key o) o
  else if String.eqb tag "cert" then set_Inline (CA o) (Some b) (Key o) o
  else set_Inline (CA o) (Cert o) (Some b) o.

Lemma parseLines_app fs dir l1 l2 st :
  parseLines fs dir st (l1 ++ l2) = parseLines fs dir st l1 ≫= fun st' => parseLines fs dir st' l2.
Proof.
  revert st. induction l1 as [|l l1 IH]; intros st; [done|]. cbn [app parseLines].
  destruct (parseLine fs dir st l); go_step; [apply IH | done | done].
Qed.

Lemma parseLines_block fs dir o tag block buf :
  isSet tag = true -> Forall (fun l => blockLine l = true) block ->
  parseLines fs dir (mkParserState o tag buf) block = Ok (mkParserState o tag (buf ++ inlineBytes block)).
Proof.
  intros Htag Hb. revert buf. induction Hb as [|l block Hl _ IH]; intros buf; cbn [parseLines].
  - now rewrite app_nil_r.
  - unfold blockLine in Hl. apply andb_true_iff in Hl as [H1%negb_true_iff H2%negb_true_iff].
    unfold parseLine. rewrite H1, H2. cbn [ps_tag ps_opt ps_inlineBuf]. rewrite Htag. go_step.
    rewrite IH. unfold inlineBytes. cbn [map concat]. now rewrite !app_assoc.
Qed.

Lemma inlineBytes_nonempty block : block <> [] -> (len (inlineBytes block) =? 0) = false.
Proof.
  intros H. destruct block as [|l block]; [done|]. apply Z.eqb_neq. unfold inlineBytes, len.
  cbn [map concat]. rewrite !length_app. cbn [bytes_of_string]. change (length (bytes_of_string (String newline ""))) with 1%nat.
  lia.
Qed.

(** [in_cases H] replaces a variable by each element of a concrete list. *)
Ltac in_cases H :=
  repeat (apply elem_of_cons in H as [->|H]); [..|now apply elem_of_nil in H].

Lemma parseLine_opening fs dir o opening :
  isOpeningTag opening = true ->
  parseLine fs dir (mkParserState o "" []) opening = Ok (mkParserState o (parseTag opening) []) /\
  parseTag opening ∈ ["ca"; "cert"; "key"].
Proof. intros H%hasElement_spec. in_cases H; (split; [reflexivity | vm_compute; repeat constructor]). Qed.

Lemma parseLine_closing fs dir o tag buf closing :
  isClosingTag closing = true ->
  parseLine fs dir (mkParserState o tag buf) closing =
    (opt ← parseInlineTag o tag buf; Ok (mkParserState opt "" [])).
Proof. intros H%hasElement_spec. in_cases H; reflexivity. Qed.

Lemma parseInlineTag_Ok o tag b :
  tag ∈ ["ca"; "cert"; "key"] -> (len b =? 0) = false -> parseInlineTag o tag b = Ok (setInline tag b o).
Proof. intros H Hb. unfold parseInlineTag. rewrite Hb. in_cases H; reflexivity. Qed.

(** An inline block between an opening tag and any closing tag stores
    exactly its lines, trimmed and newline-terminated, in the option the
    opening tag names, changes nothing else, and leaves the parser outside
    any block.  The closing tag is not matched against the opening one. *)
Theorem inline_block_stored fs dir o opening closing block :
  isOpeningTag opening = true -> isClosingTag closing = true ->
  block <> [] -> Forall (fun l => blockLine l = true) block ->
  parseLines fs dir (mkParserState o "" []) (opening :: block ++ [closing]) =
    Ok (mkParserState (setInline (parseTag opening) (inlineBytes block) o) "" []).
Proof.
  intros Ho Hc Hne Hb. cbn [parseLines].
  apply (parseLine_opening fs dir o) in Ho as [-> Htag]. go_step.
  rewrite parseLines_app, parseLines_block by (done || (in_cases Htag; done)). go_step. cbn [parseLines].
  rewrite parseLine_closing by done. cbn [app].
  rewrite parseInlineTag_Ok by (done || now apply inlineBytes_nonempty). reflexivity.
Qed.

Lemma inline_block_stored_witness :
  parseLines sampleFS "" (mkParserState defaultOptions "" []) ["<cert>"; " abc "; "</key>"] =
    Ok (mkParserState (set_Inline (Some []) (Some (bytes_of_string ("abc" +:+ String newline ""))) (Some []) defaultOptions) "" []).
Proof.
  apply (inline_block_stored sampleFS "" defaultOptions "<cert>" "</key>" [" abc "]);
    [reflexivity|reflexivity|done|repeat constructor].
Defined.

(** ** When the parser crashes *)

Lemma checkedPath_Panic fs p dir :
  checkedPath fs p dir = Panic <->
  exists arg, p = [arg] /\ isSubdir fs dir (toAbs arg dir) = true /\ fs_stat fs (toAbs arg dir) = StatFailed.
Proof.
  unfold checkedPath, existsFile. split.
  - repeat case_match; try done; subst. eexists. split; [done|].
    destruct (isSubdir _ _ _); [|done]. cbn [negb] in *. destruct (fs_stat _ _) eqn:E; done.
  - intros (arg & -> & -> & ->). done.
Qed.

Lemma bind_Ok_Panic {A B} (m : outcome A) (f : A -> B) : (m ≫= fun a => Ok (f a)) = Panic <-> m = Panic.
Proof. destruct m; done. Qed.

Lemma getCredentials_no_panic fs path : getCredentialsFromFile fs path <> Panic.
Proof.
  unfold getCredentialsFromFile, getLinesFromFile, scanLines.
  destruct (fs_read fs path); [|done]. destruct (forallb _ _); [|done]. go_step.
  repeat case_match; done.
Qed.

Definition fileOptions : list string := ["ca"; "cert"; "key"; "auth-user-pass"].

(** The parser of one option crashes in exactly two cases, instead of
    reporting a bad configuration: a [comp-lzo] line without argument, and a
    file option whose path, below the configuration directory, [os.Stat]
    cannot examine for a reason other than absence. *)
Theorem parseOption_panics_iff fs o dir key p :
  parseOption fs o dir key p = Panic <->
  (key = "comp-lzo" /\ p = []) \/
  (key ∈ fileOptions /\ exists arg, p = [arg] /\
     isSubdir fs dir (toAbs arg dir) = true /\ fs_stat fs (toAbs arg dir) = StatFailed).
Proof.
  rewrite <- checkedPath_Panic. split.
  - unfold parseOption, fileOptions.
    repeat (case_match; [match goal with H : String.eqb _ _ = true |- _ => apply String.eqb_eq in H; subst key end|]);
      try done.
    + unfold parseProto. repeat case_match; done.
    + unfold parseRemote. repeat case_match; done.
    + unfold parseCipher. repeat case_match; done.
    + unfold parseAuth. repeat case_match; done.
    + unfold parseCompress. repeat case_match; done.
    + unfold parseCompLZO. destruct p as [|c p]; [auto|].
      change (go_index (c :: p) 0) with (Ok c). go_step. now destruct (String.eqb c "no").
    + unfold parseTLSVerMax. repeat case_match; done.
    + unfold parseProxyOBFS4. repeat case_match; done.
    + unfold parseCA. rewrite bind_Ok_Panic. intros Hp. right. split; [set_solver | done].
    + unfold parseCert. rewrite bind_Ok_Panic. intros Hp. right. split; [set_solver | done].
    + unfold parseKey. rewrite bind_Ok_Panic. intros Hp. right. split; [set_solver | done].
    + unfold parseAuthUser. rewrite bind_Panic. intros [Hp|(a & _ & Hp)]; [right; split; [set_solver | done]|].
      apply bind_Ok_Panic, getCredentials_no_panic in Hp. done.
  - intros [[-> ->]|[Hk H]]; [reflexivity|]. unfold fileOptions in Hk.
    in_cases Hk; unfold parseOption; cbn; unfold parseCA, parseCert, parseKey, parseAuthUser; now rewrite H.
Qed.

(** ** The directory check *)

Definition lfiFS : FS :=
  mkFS "/" (fun _ => StatRegular)
    (fun path => if String.eqb path "/etc/vpn-private/creds" then Some ("root" +:+ String newline "hunter2") else None).

(** The check that a credentials file is below the directory of the
    configuration compares strings, not path components: a configuration in
    [/etc/vpn] reads a file of the sibling directory [/etc/vpn-private],
    while one that climbs with [..] to another directory is refused. *)
Theorem sibling_directory_accepted :
  isSubdir lfiFS "/etc/vpn/" "/etc/vpn-private/creds" = true /\
  (Username <$> parseOption lfiFS defaultOptions "/etc/vpn/" "auth-user-pass" ["../vpn-private/creds"]) = Ok "root" /\
  parseOption lfiFS defaultOptions "/etc/vpn/" "auth-user-pass" ["../shadow"] = Err ErrBadConfig.
Proof. vm_compute. auto. Qed.
