(* ===== verification/Hashes.v ===== *)
(** * Go's crypto/md5, sha1, sha256, sha512 and hmac

    The hash functions the data channel is built on, as executable functions
    on bytes: RFC 1321, FIPS 180-4 and RFC 2104.  The additive constants are
    computed from their definitions (sines, and the fractional parts of roots
    of primes).  [Crypto] makes them the [hmacSum] of the program. *)

From S2P Require Import Prelude.

(** ** Words *)

Definition rotl (w x n : Z) : Z := Z.lor (Z.shiftl x n mod 2 ^ w) (Z.shiftr x (w - n)).
Definition rotr (w x n : Z) : Z := rotl w x (w - n).
Definition lnot (w x : Z) : Z := Z.lxor (2 ^ w - 1) x.

(** [le_val] and [le_bytes] are [binary.LittleEndian]. *)
Definition le_val (l : list byte) : Z := be_val (rev l).
Definition le_bytes (n : nat) (z : Z) : list byte := rev (be_bytes n z).

(** [chunks n l] cuts [l] into blocks of [n] bytes, the last one perhaps
    shorter; the fuel [length l] suffices when [n] is positive. *)
Fixpoint chunksLoop (fuel n : nat) (l : list byte) : list (list byte) :=
  match fuel, l with
  | S fuel', _ :: _ => take n l :: chunksLoop fuel' n (drop n l)
  | _, _ => []
  end.
Definition chunks (n : nat) (l : list byte) : list (list byte) := chunksLoop (length l) n l.

(** ** Merkle-Damgard hashes *)

Record hashFn : Type := mkHashFn {
  h_block : nat;                          (* BlockSize *)
  h_size : nat;                           (* Size *)
  h_init : list Z;
  h_compress : list Z -> list byte -> list Z;
  h_lenfield : Z -> list byte;            (* the length in bits, as the padding ends *)
  h_word : Z -> list byte                 (* how a word of the state is written *)
}.

Definition h_pad (h : hashFn) (msg : list byte) : list byte :=
  let tail := h_lenfield h (8 * len msg) in
  let used := ((length msg + 1 + length tail) mod h_block h)%nat in
  msg ++ Byte.x80 :: replicate ((h_block h - used) mod h_block h) Byte.x00 ++ tail.

(** [h.Write(msg)] followed by [h.Sum(nil)] *)
Definition h_sum (h : hashFn) (msg : list byte) : list byte :=
  flat_map (h_word h) (fold_left (h_compress h) (chunks (h_block h) (h_pad h msg)) (h_init h)).

(** ** MD5 *)

Module MD5fn.
(** [2^256 * sin x] for an integer [x], from its Taylor series: [t] is the
    current term and [k] its degree. *)
Fixpoint sineLoop (n : nat) (x t k acc : Z) : Z :=
  match n with
  | O => acc
  | S n' => sineLoop n' x (- (t * x * x) / ((k + 1) * (k + 2))) (k + 2) (acc + t)
  end.
Definition sine256 (x : Z) : Z := sineLoop 160 x (x * 2 ^ 256) 1 0.

Definition T : list Z :=
  Eval vm_compute in map (fun i => Z.abs (sine256 (Z.of_nat i)) / 2 ^ 224) (seq 1 64).

Definition shifts : list Z :=
  concat (replicate 4 [7;12;17;22]) ++ concat (replicate 4 [5;9;14;20]) ++
  concat (replicate 4 [4;11;16;23]) ++ concat (replicate 4 [6;10;15;21]).

(** Round [i] uses a function of three words and the message word [g i]. *)
Definition F (i : nat) (b c d : Z) : Z :=
  match (i / 16)%nat with
  | 0%nat => Z.lor (Z.land b c) (Z.land (lnot 32 b) d)
  | 1%nat => Z.lor (Z.land d b) (Z.land (lnot 32 d) c)
  | 2%nat => Z.lxor (Z.lxor b c) d
  | _ => Z.lxor c (Z.lor b (lnot 32 d))
  end.
Definition g (i : nat) : nat :=
  match (i / 16)%nat with
  | 0%nat => i
  | 1%nat => 5 * i + 1
  | 2%nat => 3 * i + 5
  | _ => 7 * i
  end mod 16.

Definition round (m : list Z) (st : list Z) (r : nat * (Z * Z)) : list Z :=
  let '(i, (t, s)) := r in
  match st with
  | [a; b; c; d] =>
      let f := u32 (F i b c d + a + t + nth (g i) m 0) in
      [d; u32 (b + rotl 32 f s); b; c]
  | _ => st
  end.

Definition compress (st : list Z) (block : list byte) : list Z :=
  let m := map le_val (chunks 4 block) in
  zip_with (fun x y => u32 (x + y)) st
    (fold_left (round m) (zip (seq 0 64) (zip T shifts)) st).

Definition md5 : hashFn := {|
  h_block := 64; h_size := 16;
  h_init := [0x67452301; 0xefcdab89; 0x98badcfe; 0x10325476];
  h_compress := compress; h_lenfield := le_bytes 8; h_word := le_bytes 4
|}.
End MD5fn.

(** ** The SHA family

    The message schedule is a window of sixteen words: each round uses the
    first word and appends the word sixteen places later. *)

Definition window_step (next : list Z -> Z) (win : list Z) : list Z := tail win ++ [next win].

Definition sha_compress (w : Z) (next : list Z -> Z) (rnd : list Z -> Z -> Z -> list Z) (ks : list Z)
    (st : list Z) (block : list byte) : list Z :=
  let win := map be_val (chunks (Z.to_nat (w / 8)) block) in
  let '(st', _) := fold_left (fun '(st, win) k => (rnd st k (hd 0 win), window_step next win)) ks (st, win) in
  zip_with (fun x y => (x + y) mod 2 ^ w) st st'.

Module SHA1fn.
Definition next (win : list Z) : Z :=
  rotl 32 (Z.lxor (Z.lxor (nth 13 win 0) (nth 8 win 0)) (Z.lxor (nth 2 win 0) (nth 0 win 0))) 1.

(** The additive constants are square roots; [k] selects the function too. *)
Definition root (n : Z) : Z := Z.sqrt (n * 2 ^ 60).
Definition ks : list Z :=
  Eval vm_compute in concat (map (fun n => replicate 20 (root n)) [2; 3; 5; 10]).

Definition f (k b c d : Z) : Z :=
  if k =? root 2 then Z.lor (Z.land b c) (Z.land (lnot 32 b) d)
  else if k =? root 5 then Z.lor (Z.lor (Z.land b c) (Z.land b d)) (Z.land c d)
  else Z.lxor (Z.lxor b c) d.

Definition round (st : list Z) (k w : Z) : list Z :=
  match st with
  | [a; b; c; d; e] => [u32 (rotl 32 a 5 + f k b c d + e + k + w); a; rotl 32 b 30; c; d]
  | _ => st
  end.

Definition sha1 : hashFn := {|
  h_block := 64; h_size := 20;
  h_init := [0x67452301; 0xefcdab89; 0x98badcfe; 0x10325476; 0xc3d2e1f0];
  h_compress := sha_compress 32 next round ks; h_lenfield := be_bytes 8; h_word := be_bytes 4
|}.
End SHA1fn.

Module SHA2fn.
Definition is_prime (n : nat) : bool :=
  (2 <=? n)%nat && forallb (fun d => negb (n mod d =? 0)%nat) (seq 2 (n - 2)).
Definition primes : list Z :=
  Eval vm_compute in map Z.of_nat (List.filter is_prime (seq 0 410)).

(** The integer cube root, one bit at a time from bit [n]. *)
Fixpoint cbrtLoop (n : nat) (acc x : Z) : Z :=
  let acc' := acc + 2 ^ Z.of_nat n in
  let acc := if acc' * acc' * acc' <=? x then acc' else acc in
  match n with O => acc | S n' => cbrtLoop n' acc x end.

(** The first [w] fractional bits of the square and cube roots of a prime *)
Definition sqrt_frac (w p : Z) : Z := Z.sqrt (p * 2 ^ (2 * w)) mod 2 ^ w.
Definition cbrt_frac (w p : Z) : Z := cbrtLoop (Z.to_nat w + 3) 0 (p * 2 ^ (3 * w)) mod 2 ^ w.

(** [xorrot w [a; b] s x]: rotations by [a] and [b] and the last operand *)
Definition Sigma (w a b c x : Z) : Z := Z.lxor (Z.lxor (rotr w x a) (rotr w x b)) (rotr w x c).
Definition sigma (w a b c x : Z) : Z := Z.lxor (Z.lxor (rotr w x a) (rotr w x b)) (Z.shiftr x c).

Definition Ch (w e f g : Z) : Z := Z.lxor (Z.land e f) (Z.land (lnot w e) g).
Definition Maj (a b c : Z) : Z := Z.lxor (Z.lxor (Z.land a b) (Z.land a c)) (Z.land b c).

Definition round (w : Z) (S0 S1 : Z -> Z) (st : list Z) (k x : Z) : list Z :=
  match st with
  | [a; b; c; d; e; f; g; h] =>
      let t1 := h + S1 e + Ch w e f g + k + x in
      let t2 := S0 a + Maj a b c in
      [(t1 + t2) mod 2 ^ w; a; b; c; (d + t1) mod 2 ^ w; e; f; g]
  | _ => st
  end.

Definition next (w : Z) (s0 s1 : Z -> Z) (win : list Z) : Z :=
  (s1 (nth 14 win 0) + nth 9 win 0 + s0 (nth 1 win 0) + nth 0 win 0) mod 2 ^ w.

Definition K256 : list Z := Eval vm_compute in map (cbrt_frac 32) (take 64 primes).
Definition H256 : list Z := Eval vm_compute in map (sqrt_frac 32) (take 8 primes).
Definition K512 : list Z := Eval vm_compute in map (cbrt_frac 64) (take 80 primes).
Definition H512 : list Z := Eval vm_compute in map (sqrt_frac 64) (take 8 primes).

Definition sha256 : hashFn := {|
  h_block := 64; h_size := 32; h_init := H256;
  h_compress := sha_compress 32 (next 32 (sigma 32 7 18 3) (sigma 32 17 19 10))
    (round 32 (Sigma 32 2 13 22) (Sigma 32 6 11 25)) K256;
  h_lenfield := be_bytes 8; h_word := be_bytes 4
|}.

Definition sha512 : hashFn := {|
  h_block := 128; h_size := 64; h_init := H512;
  h_compress := sha_compress 64 (next 64 (sigma 64 1 8 7) (sigma 64 19 61 6))
    (round 64 (Sigma 64 28 34 39) (Sigma 64 14 18 41)) K512;
  h_lenfield := be_bytes 16; h_word := be_bytes 8
|}.
End SHA2fn.

(** ** HMAC *)

Definition xor_byte (x y : byte) : byte := z2b (Z.lxor (b2z x) (b2z y)).

(** [hmac.New(h, key)], [Write(msg)], [Sum(nil)] *)
Definition hmac (h : hashFn) (key msg : list byte) : list byte :=
  let key := if (h_block h <? length key)%nat then h_sum h key else key in
  let key := copy_zeroed (h_block h) key in
  h_sum h (map (xor_byte Byte.x5c) key ++ h_sum h (map (xor_byte Byte.x36) key ++ msg)).

(** ** Lengths *)

Lemma length_fold_left {A B} (f : list A -> B -> list A) l st :
  (forall st x, length (f st x) = length st) -> length (fold_left f l st) = length st.
Proof. intros Hf. revert st. induction l as [|x l IH]; intros st; [done|]. cbn. now rewrite IH. Qed.

Lemma length_flat_map_const {A B} (f : A -> list B) n l :
  (forall x, length (f x) = n) -> length (flat_map f l) = (n * length l)%nat.
Proof. intros Hf. induction l as [|x l IH]; cbn; [lia|]. rewrite length_app, Hf, IH. lia. Qed.

Lemma length_le_bytes n z : length (le_bytes n z) = n.
Proof. unfold le_bytes. now rewrite length_rev, length_be_bytes. Qed.

#[export] Hint Rewrite length_le_bytes : golen.

Lemma concat_chunksLoop fuel n l : (0 < n)%nat -> (length l <= fuel)%nat -> concat (chunksLoop fuel n l) = l.
Proof.
  intros Hn. revert l. induction fuel as [|fuel IH]; intros [|x l] Hl; cbn in *; try done; [lia|].
  rewrite IH by (rewrite length_drop; cbn; lia). apply (take_drop n (x :: l)).
Qed.

Lemma concat_chunks n l : (0 < n)%nat -> concat (chunks n l) = l.
Proof. intros. now apply concat_chunksLoop. Qed.

(** Padding fills the last block: what is hashed is a number of whole blocks. *)
Lemma h_pad_whole h msg : (0 < h_block h)%nat -> (length (h_pad h msg) mod h_block h = 0)%nat.
Proof.
  intros Hb. unfold h_pad. rewrite length_app. cbn [length]. rewrite length_app, length_replicate.
  set (t := length (h_lenfield h _)). set (n := h_block h) in *. set (m := length msg).
  replace (m + S ((n - (m + 1 + t) mod n) mod n + t))%nat with ((m + 1 + t) + (n - (m + 1 + t) mod n) mod n)%nat by lia.
  rewrite Nat.Div0.add_mod_idemp_r, (Nat.div_mod_eq (m + 1 + t) n) at 1.
  pose proof (Nat.mod_upper_bound (m + 1 + t) n ltac:(lia)).
  replace (n * ((m + 1 + t) / n) + (m + 1 + t) mod n + (n - (m + 1 + t) mod n))%nat
    with ((1 + (m + 1 + t) / n) * n)%nat by lia. apply Nat.Div0.mod_mul.
Qed.

(** What [h_sum] needs of an algorithm to produce digests of its [Size]. *)
Class HashFn (h : hashFn) : Prop := {
  compress_length st block : length (h_compress h st block) = length st;
  word_length z : length (h_word h z) = length (h_word h 0);
  words_size : (length (h_word h 0) * length (h_init h))%nat = h_size h
}.

Lemma md5_compress_length st block : length (MD5fn.compress st block) = length st.
Proof.
  unfold MD5fn.compress. rewrite length_zip_with, length_fold_left; [lia|].
  intros st' [i [t s]]. unfold MD5fn.round. by repeat case_match.
Qed.

Lemma sha_compress_length w next rnd ks st block :
  (forall st k x, length (rnd st k x) = length st) -> length (sha_compress w next rnd ks st block) = length st.
Proof.
  intros Hr. unfold sha_compress. set (win := map _ _). clearbody win.
  assert (forall ks st win, length (fold_left (fun '(st, win) k =>
    (rnd st k (hd 0 win), window_step next win)) ks (st, win)).1 = length st) as Hf.
  { clear -Hr. induction ks as [|k ks IH]; intros st win; [done|]. cbn [fold_left]. now rewrite IH. }
  specialize (Hf ks st win). destruct (fold_left _ ks (st, win)) as [st' win']. cbn [fst] in Hf.
  rewrite length_zip_with. lia.
Qed.

Lemma sha1_round_length st k x : length (SHA1fn.round st k x) = length st.
Proof. unfold SHA1fn.round. by repeat case_match. Qed.

Lemma sha2_round_length w S0 S1 st k x : length (SHA2fn.round w S0 S1 st k x) = length st.
Proof. unfold SHA2fn.round. by repeat case_match. Qed.

#[local] Hint Resolve md5_compress_length sha_compress_length sha1_round_length sha2_round_length : hashdb.

Ltac hashfn alg :=
  constructor; intros; cbn [h_compress h_init h_word h_size alg]; autorewrite with golen; auto with hashdb.

#[export] Instance md5_HashFn : HashFn MD5fn.md5.
Proof. hashfn MD5fn.md5. Qed.
#[export] Instance sha1_HashFn : HashFn SHA1fn.sha1.
Proof. hashfn SHA1fn.sha1. Qed.
#[export] Instance sha256_HashFn : HashFn SHA2fn.sha256.
Proof. hashfn SHA2fn.sha256. Qed.
#[export] Instance sha512_HashFn : HashFn SHA2fn.sha512.
Proof. hashfn SHA2fn.sha512. Qed.

Lemma length_h_sum `{HashFn h} msg : length (h_sum h msg) = h_size h.
Proof.
  unfold h_sum. rewrite (length_flat_map_const _ _ _ word_length).
  rewrite length_fold_left by apply compress_length. apply words_size.
Qed.

Lemma length_hmac `{HashFn h} key msg : length (hmac h key msg) = h_size h.
Proof. apply length_h_sum. Qed.

(** ** Published test vectors *)

(** Bytes from hexadecimal digits *)
Definition hexval (b : byte) : Z :=
  let z := b2z b in if z <? 58 then z - 48 else z - 87.
Fixpoint unhexLoop (l : list byte) : list byte :=
  match l with
  | x :: y :: l' => z2b (16 * hexval x + hexval y) :: unhexLoop l'
  | _ => []
  end.
Definition unhex (s : string) : list byte := unhexLoop (bytes_of_string s).

Example md5_vectors :
  map (h_sum MD5fn.md5) [[]; bytes_of_string "abc"; bytes_of_string "message digest"] =
  map unhex ["d41d8cd98f00b204e9800998ecf8427e"; "900150983cd24fb0d6963f7d28e17f72"; "f96b697d7cb7938d525a2f31aaf161d0"].
Proof. vm_compute. reflexivity. Qed.

Example sha1_vectors :
  map (h_sum SHA1fn.sha1) [[]; bytes_of_string "abc"; bytes_of_string "message digest"] =
  map unhex ["da39a3ee5e6b4b0d3255bfef95601890afd80709"; "a9993e364706816aba3e25717850c26c9cd0d89d"; "c12252ceda8be8994d5fa0290a47231c1d16aae3"].
Proof. vm_compute. reflexivity. Qed.

Example sha256_vectors :
  map (h_sum SHA2fn.sha256) [[]; bytes_of_string "abc"; bytes_of_string "message digest"] =
  map unhex ["e3b0c44298fc1c149afbf4c8996fb92427ae41e4649b934ca495991b7852b855"; "ba7816bf8f01cfea414140de5dae2223b00361a396177a9cb410ff61f20015ad"; "f7846f55cf23e14eebeab5b4e1550cad5b509e3348fbc4efa3a1413d393cb650"].
Proof. vm_compute. reflexivity. Qed.

Example sha512_vectors :
  map (h_sum SHA2fn.sha512) [[]; bytes_of_string "abc"; bytes_of_string "message digest"] =
  map unhex ["cf83e1357eefb8bdf1542850d66d8007d620e4050b5715dc83f4a921d36ce9ce47d0d13c5d85f2b0ff8318d2877eec2f63b931bd47417a81a538327af927da3e"; "ddaf35a193617abacc417349ae20413112e6fa4e89a97ea20a9eeee64b55d39a2192992a274fc1a836ba3c23a3feebbd454d4423643ce80e2a9ac94fa54ca49f"; "107dbf389d9e9f71a3a95f6c055b9251bc5268c2be16d6c13492ea45b0199f3309e16455ab1e96118e8a905d5597b72038ddb372a89826046de66687bb420e7c"].
Proof. vm_compute. reflexivity. Qed.

(** RFC 2202 and RFC 4231: a short key, and one longer than a block *)
Example hmac_vectors :
  hmac MD5fn.md5 (bytes_of_string "Jefe") (bytes_of_string "what do ya want for nothing?") =
    unhex "750c783e6ab0b503eaa86e310a5db738" /\
  hmac SHA1fn.sha1 (replicate 80 Byte.xaa) (bytes_of_string "Test Using Larger Than Block-Size Key - Hash Key First") =
    unhex "aa4ae5e15272d00e95705637ce8a3b55ed402112" /\
  hmac SHA2fn.sha256 (replicate 131 Byte.xaa) (bytes_of_string "Test Using Larger Than Block-Size Key - Hash Key First") =
    unhex "60e431591ee0b67f0d8a26aacbf5b77f8e0bc6213728c5140546040f0ee37f54" /\
  hmac SHA2fn.sha512 (bytes_of_string "Jefe") (bytes_of_string "what do ya want for nothing?") =
    unhex "164b7a7bfcf819e2e395fbe73b56e0a387bd64222e831fd610270cd7ea2505549758bf75c05a994a6d034f65f8f0e6fdcaeab1a34d4a6b4b636e070a38bce737".
Proof. vm_compute. auto. Qed.
