(* ===== verification/Aes.v ===== *)
(** * Go's crypto/aes and the CBC and GCM modes of crypto/cipher

    FIPS 197 and NIST SP 800-38A and 800-38D as executable functions on bytes,
    and the proof that decryption inverts encryption.  [Crypto] makes them
    the ciphers of the data channel. *)

From S2P Require Import Prelude Hashes.
From Stdlib Require Import Ring Bool.

(** ** Exclusive or *)

(** [subtle.XORBytes] in place: as many bytes as both have are combined. *)
Fixpoint xor_into (l k : list byte) : list byte :=
  match l, k with
  | x :: l', y :: k' => xor_byte x y :: xor_into l' k'
  | _, _ => l
  end.

(** Bit [i] of a byte *)
Definition bit (x : byte) (i : Z) : bool := Z.testbit (b2z x) i.

Lemma b2z_xor x y : b2z (xor_byte x y) = Z.lxor (b2z x) (b2z y).
Proof.
  unfold xor_byte. rewrite b2z_z2b. change 256 with (2 ^ 8). rewrite <- Z.land_ones by lia.
  apply Z.bits_inj'. intros n Hn. rewrite Z.land_spec, Z.lxor_spec.
  destruct (Z.ltb_spec n 8).
  - rewrite Z.ones_spec_low by lia. now rewrite andb_true_r.
  - assert (forall b, Z.testbit (b2z b) n = false) as Hz.
    { intros b. pose proof (b2z_range b). apply Z.testbit_false; [lia|]. rewrite Z.div_small; [done|].
      split; [lia|]. apply Z.lt_le_trans with (2 ^ 8); [lia|]. apply Z.pow_le_mono_r; lia. }
    rewrite !Hz. done.
Qed.

Lemma bit_xor x y i : bit (xor_byte x y) i = xorb (bit x i) (bit y i).
Proof. unfold bit. rewrite b2z_xor. apply Z.lxor_spec. Qed.

Lemma bit_ext x y : (forall i, bit x i = bit y i) -> x = y.
Proof. intros E. apply b2z_inj, Z.bits_inj. exact E. Qed.

(** An equation between exclusive ors holds when it holds bit by bit. *)
Ltac xor_solve := apply bit_ext; intros ?i; rewrite !bit_xor; ring.

Lemma xor_byte_cancel x k : xor_byte (xor_byte x k) k = x.
Proof. xor_solve. Qed.

Lemma xor_into_involutive l k : xor_into (xor_into l k) k = l.
Proof. revert k. induction l as [|x l IH]; intros [|y k]; cbn; [done..|]. now rewrite xor_byte_cancel, IH. Qed.

Lemma length_xor_into l k : length (xor_into l k) = length l.
Proof. revert k. induction l as [|x l IH]; intros [|y k]; cbn; auto. Qed.

#[export] Hint Rewrite length_xor_into : golen.

(** ** The field with 256 elements *)

Definition xtime (x : byte) : byte :=
  xor_byte (z2b (2 * b2z x)) (if b2z x <? 128 then Byte.x00 else Byte.x1b).

(** Multiplication, one bit of the second factor at a time *)
Definition gmul (x y : byte) : byte :=
  fst (fold_left (fun '(acc, p) i => ((if bit y i then xor_byte acc p else acc), xtime p))
         [0;1;2;3;4;5;6;7] (Byte.x00, x)).

Definition all_bytes : list byte := map (fun i => z2b (Z.of_nat i)) (seq 0 256).

(** The inverse is the 254th power. *)
Definition ginv (x : byte) : byte := fold_left (fun p _ => gmul p x) (seq 0 254) Byte.x01.

Definition affine (x : byte) : byte :=
  let r n := z2b (rotl 8 (b2z x) n) in
  fold_left xor_byte [r 1; r 2; r 3; r 4; Byte.x63] x.

Definition sboxTable : list byte := Eval vm_compute in map (fun x => affine (ginv x)) all_bytes.

Definition inverse_of (t : list byte) (y : byte) : byte :=
  z2b (Z.of_nat (default 0%nat (fst <$> list_find (fun x => x = y) t))).
Definition invSboxTable : list byte := Eval vm_compute in map (inverse_of sboxTable) all_bytes.

Definition sub (t : list byte) (x : byte) : byte := nth (N.to_nat (Byte.to_N x)) t Byte.x00.

(** ** Rounds

    A state is a list of sixteen bytes, column by column. *)

Definition SubBytes : list byte -> list byte := map (sub sboxTable).
Definition InvSubBytes : list byte -> list byte := map (sub invSboxTable).

Definition ShiftRows (s : list byte) : list byte :=
  match s with
  | [a0;a1;a2;a3; b0;b1;b2;b3; c0;c1;c2;c3; d0;d1;d2;d3] =>
      [a0;b1;c2;d3; b0;c1;d2;a3; c0;d1;a2;b3; d0;a1;b2;c3]
  | _ => s
  end.
Definition InvShiftRows (s : list byte) : list byte :=
  match s with
  | [a0;a1;a2;a3; b0;b1;b2;b3; c0;c1;c2;c3; d0;d1;d2;d3] =>
      [a0;d1;c2;b3; b0;a1;d2;c3; c0;b1;a2;d3; d0;c1;b2;a3]
  | _ => s
  end.

Definition dot (c a : list byte) : byte := fold_left xor_byte (zip_with gmul a c) Byte.x00.

(** A column times the circulant matrix whose first row is [m0; m1; m2; m3] *)
Definition mixColumn (m0 m1 m2 m3 : byte) (col : list byte) : list byte :=
  [dot [m0; m1; m2; m3] col; dot [m3; m0; m1; m2] col; dot [m2; m3; m0; m1] col; dot [m1; m2; m3; m0] col].
Definition mixWith (m0 m1 m2 m3 : byte) (s : list byte) : list byte :=
  flat_map (mixColumn m0 m1 m2 m3) (chunks 4 s).
Definition MixColumns : list byte -> list byte := mixWith Byte.x02 Byte.x03 Byte.x01 Byte.x01.
Definition InvMixColumns : list byte -> list byte := mixWith Byte.x0e Byte.x0b Byte.x0d Byte.x09.

(** [cipher [k0; ...; kn]]: the whitening, the full rounds and the last one *)
Fixpoint rounds (ks : list (list byte)) (s : list byte) : list byte :=
  match ks with
  | [] => s
  | [k] => xor_into (ShiftRows (SubBytes s)) k
  | k :: ks' => rounds ks' (xor_into (MixColumns (ShiftRows (SubBytes s))) k)
  end.
Definition cipher (ks : list (list byte)) (s : list byte) : list byte :=
  match ks with [] => s | k :: ks' => rounds ks' (xor_into s k) end.

Fixpoint invRounds (ks : list (list byte)) (s : list byte) : list byte :=
  match ks with
  | [] => s
  | [k] => InvSubBytes (InvShiftRows (xor_into s k))
  | k :: ks' => InvSubBytes (InvShiftRows (InvMixColumns (xor_into (invRounds ks' s) k)))
  end.
Definition invCipher (ks : list (list byte)) (s : list byte) : list byte :=
  match ks with [] => s | k :: ks' => xor_into (invRounds ks' s) k end.

(** ** Key expansion *)

Definition rotWord (w : list byte) : list byte := drop 1 w ++ take 1 w.

(** [n] more words after the words [ws], of which there are [i]; [rc] is the
    next round constant. *)
Fixpoint expandLoop (n nk i : nat) (rc : byte) (ws : list (list byte)) : list (list byte) :=
  match n with
  | O => ws
  | S n' =>
      let prev := nth (i - 1) ws [] in
      let '(t, rc) :=
        if (i mod nk =? 0)%nat then (xor_into (SubBytes (rotWord prev)) [rc], xtime rc)
        else if (6 <? nk)%nat && (i mod nk =? 4)%nat then (SubBytes prev, rc)
        else (prev, rc) in
      expandLoop n' nk (S i) rc (ws ++ [xor_into (nth (i - nk) ws []) t])
  end.

(** [aes.NewCipher]: ten, twelve or fourteen rounds *)
Definition expandKey (key : list byte) : list (list byte) :=
  let nk := (length key / 4)%nat in
  chunks 16 (concat (expandLoop (4 * (nk + 7) - nk) nk nk Byte.x01 (chunks 4 key))).

(** ** Each step of a round is inverted *)

Lemma all_bytes_complete x : x ∈ all_bytes.
Proof.
  unfold all_bytes. apply list_elem_of_In, in_map_iff. pose proof (b2z_range x).
  exists (Z.to_nat (b2z x)). rewrite Z2Nat.id, z2b_b2z by lia. split; [done|]. apply in_seq. lia.
Qed.

(** A statement about one byte is checked on the 256 of them. *)
Lemma byte_forall (P : byte -> bool) : forallb P all_bytes = true -> forall x, P x = true.
Proof. intros HP x. eapply forallb_forall; [exact HP|]. apply list_elem_of_In, all_bytes_complete. Qed.

Lemma byte_fun_ext (f g : byte -> byte) :
  forallb (fun x => Byte.eqb (f x) (g x)) all_bytes = true -> forall x, f x = g x.
Proof. intros HP x. by apply Byte.byte_dec_bl, (byte_forall (fun x => Byte.eqb (f x) (g x))). Qed.

Ltac byte_cases x := revert x; apply byte_fun_ext; vm_compute; reflexivity.

Lemma sub_inverse x : sub invSboxTable (sub sboxTable x) = x.
Proof. byte_cases x. Qed.

Lemma InvSub_Sub s : InvSubBytes (SubBytes s) = s.
Proof.
  unfold InvSubBytes, SubBytes. rewrite map_map, (map_ext _ id) by apply sub_inverse. apply map_id.
Qed.

(** Doubling is linear: it is enough to look at the table of all pairs. *)
Lemma xtime_xor x y : xtime (xor_byte x y) = xor_byte (xtime x) (xtime y).
Proof.
  apply Byte.byte_dec_bl. revert y.
  apply (byte_forall (fun y => Byte.eqb (xtime (xor_byte x y)) (xor_byte (xtime x) (xtime y)))). revert x.
  apply (byte_forall (fun x => forallb (fun y => Byte.eqb (xtime (xor_byte x y)) (xor_byte (xtime x) (xtime y))) all_bytes)).
  vm_compute. reflexivity.
Qed.

Lemma xor_0_l x : xor_byte Byte.x00 x = x.
Proof. byte_cases x. Qed.

(** The factors of the two matrices, by doublings *)
Lemma gmul_1 x : gmul x Byte.x01 = x.
Proof. byte_cases x. Qed.
Lemma gmul_2 x : gmul x Byte.x02 = xtime x.
Proof. byte_cases x. Qed.
Lemma gmul_3 x : gmul x Byte.x03 = xor_byte x (xtime x).
Proof. byte_cases x. Qed.
Lemma gmul_9 x : gmul x Byte.x09 = xor_byte x (xtime (xtime (xtime x))).
Proof. byte_cases x. Qed.
Lemma gmul_11 x : gmul x Byte.x0b = xor_byte x (xor_byte (xtime x) (xtime (xtime (xtime x)))).
Proof. byte_cases x. Qed.
Lemma gmul_13 x : gmul x Byte.x0d = xor_byte x (xor_byte (xtime (xtime x)) (xtime (xtime (xtime x)))).
Proof. byte_cases x. Qed.
Lemma gmul_14 x : gmul x Byte.x0e = xor_byte (xtime x) (xor_byte (xtime (xtime x)) (xtime (xtime (xtime x)))).
Proof. byte_cases x. Qed.

#[local] Hint Rewrite gmul_1 gmul_2 gmul_3 gmul_9 gmul_11 gmul_13 gmul_14 xor_0_l xtime_xor : gmul.

Notation mixCol := (mixColumn Byte.x02 Byte.x03 Byte.x01 Byte.x01) (only parsing).
Notation invMixCol := (mixColumn Byte.x0e Byte.x0b Byte.x0d Byte.x09) (only parsing).

Lemma mixColumn_inverse a b c d : invMixCol (mixCol [a; b; c; d]) = [a; b; c; d].
Proof.
  unfold mixColumn, dot. cbn [zip_with fold_left]. autorewrite with gmul.
  f_equal; [|f_equal; [|f_equal; [|f_equal]]]; xor_solve.
Qed.

Lemma block_bytes (s : list byte) :
  length s = 16%nat -> exists a0 a1 a2 a3 b0 b1 b2 b3 c0 c1 c2 c3 d0 d1 d2 d3,
    s = [a0;a1;a2;a3] ++ [b0;b1;b2;b3] ++ [c0;c1;c2;c3] ++ [d0;d1;d2;d3].
Proof.
  intros Hs. do 16 (destruct s as [|? s]; [discriminate|]). destruct s; [|discriminate]. by repeat eexists.
Qed.

Lemma mixWith_columns m0 m1 m2 m3 a b c d :
  length a = 4%nat -> length b = 4%nat -> length c = 4%nat -> length d = 4%nat ->
  mixWith m0 m1 m2 m3 (a ++ b ++ c ++ d) =
    mixColumn m0 m1 m2 m3 a ++ mixColumn m0 m1 m2 m3 b ++ mixColumn m0 m1 m2 m3 c ++ mixColumn m0 m1 m2 m3 d.
Proof.
  intros. do 4 (destruct a as [|? a]; [discriminate|]). destruct a; [|discriminate].
  do 4 (destruct b as [|? b]; [discriminate|]). destruct b; [|discriminate].
  do 4 (destruct c as [|? c]; [discriminate|]). destruct c; [|discriminate].
  do 4 (destruct d as [|? d]; [discriminate|]). destruct d; [|discriminate]. reflexivity.
Qed.

Lemma InvMix_Mix s : length s = 16%nat -> InvMixColumns (MixColumns s) = s.
Proof.
  intros Hs. destruct (block_bytes s Hs) as (?&?&?&?&?&?&?&?&?&?&?&?&?&?&?&?&->).
  unfold InvMixColumns, MixColumns. rewrite !mixWith_columns by reflexivity. now rewrite !mixColumn_inverse.
Qed.

Lemma InvShift_Shift s : InvShiftRows (ShiftRows s) = s.
Proof. unfold ShiftRows. repeat (case_match; try reflexivity). all: subst; try reflexivity. Qed.

(** ** Blocks *)

Lemma length_SubBytes s : length (SubBytes s) = length s.
Proof. apply length_map. Qed.

Lemma length_ShiftRows s : length (ShiftRows s) = length s.
Proof. unfold ShiftRows. by repeat case_match. Qed.

Lemma length_InvShiftRows s : length (InvShiftRows s) = length s.
Proof. unfold InvShiftRows. by repeat case_match. Qed.

Lemma length_mixWith m0 m1 m2 m3 s : length s = 16%nat -> length (mixWith m0 m1 m2 m3 s) = 16%nat.
Proof.
  intros Hs. destruct (block_bytes s Hs) as (?&?&?&?&?&?&?&?&?&?&?&?&?&?&?&?&->).
  now rewrite mixWith_columns.
Qed.

#[export] Hint Rewrite length_SubBytes length_ShiftRows length_InvShiftRows : golen.

Lemma length_mixed s : length s = 16%nat -> length (MixColumns (ShiftRows (SubBytes s))) = 16%nat.
Proof. intros. apply length_mixWith. now autorewrite with golen. Qed.

Lemma length_rounds ks s : length s = 16%nat -> length (rounds ks s) = 16%nat.
Proof.
  revert s. induction ks as [|k [|k' ks] IH]; intros s Hs; cbn [rounds]; [done|now autorewrite with golen|].
  apply IH. autorewrite with golen. now apply length_mixed.
Qed.

Lemma length_cipher ks s : length s = 16%nat -> length (cipher ks s) = 16%nat.
Proof. intros. destruct ks; [done|]. apply length_rounds. now autorewrite with golen. Qed.

Lemma invRounds_rounds ks s : length s = 16%nat -> invRounds ks (rounds ks s) = s.
Proof.
  revert s. induction ks as [|k [|k' ks] IH]; intros s Hs; [done| |].
  - cbn. now rewrite xor_into_involutive, InvShift_Shift, InvSub_Sub.
  - cbn [rounds]. set (s' := xor_into _ k).
    change (InvSubBytes (InvShiftRows (InvMixColumns (xor_into (invRounds (k' :: ks) (rounds (k' :: ks) s')) k))) = s).
    rewrite IH by (unfold s'; rewrite length_xor_into; now apply length_mixed).
    unfold s'. rewrite xor_into_involutive, InvMix_Mix by now autorewrite with golen.
    now rewrite InvShift_Shift, InvSub_Sub.
Qed.

(** The inverse cipher inverts the cipher, whatever the round keys. *)
Lemma invCipher_cipher ks s : length s = 16%nat -> invCipher ks (cipher ks s) = s.
Proof.
  intros Hs. destruct ks as [|k ks]; [done|]. cbn [cipher invCipher].
  rewrite invRounds_rounds by now autorewrite with golen. apply xor_into_involutive.
Qed.

(** ** CBC *)

(** [CryptBlocks] of [cipher.NewCBCEncrypter]: the chaining value is the
    previous block of ciphertext.  Go panics when the input ends in a partial
    block; both callers rule that out, and here it stays as it is. *)
Fixpoint cbcEncLoop (ks : list (list byte)) (prev : list byte) (blocks : list (list byte)) : list (list byte) :=
  match blocks with
  | [] => []
  | b :: bs =>
      if (length b =? 16)%nat
      then let c := cipher ks (xor_into b prev) in c :: cbcEncLoop ks c bs
      else b :: bs
  end.
Fixpoint cbcDecLoop (ks : list (list byte)) (prev : list byte) (blocks : list (list byte)) : list (list byte) :=
  match blocks with
  | [] => []
  | c :: cs =>
      if (length c =? 16)%nat
      then xor_into (invCipher ks c) prev :: cbcDecLoop ks c cs
      else c :: cs
  end.

Definition aesCbcEncrypt (key iv p : list byte) : list byte :=
  concat (cbcEncLoop (expandKey key) iv (chunks 16 p)).
Definition aesCbcDecrypt (key iv c : list byte) : list byte :=
  concat (cbcDecLoop (expandKey key) iv (chunks 16 c)).

(** ** GCM *)

(** Multiplication in the field with 2^128 elements: bit 0 of the standard is
    the most significant one here. *)
Definition gcmR : Z := 0xe1 * 2 ^ 120.
Definition gcm_mul (x y : Z) : Z :=
  fst (fold_left
    (fun '(z, v) i => ((if Z.testbit x (127 - i) then Z.lxor z v else z),
                       (if Z.odd v then Z.lxor (Z.shiftr v 1) gcmR else Z.shiftr v 1)))
    (map Z.of_nat (seq 0 128)) (0, y)).

Definition pad16 (l : list byte) : list byte :=
  l ++ replicate ((16 - length l mod 16) mod 16) Byte.x00.

Definition ghash (h : Z) (l : list byte) : Z :=
  fold_left (fun y b => gcm_mul (Z.lxor y (be_val b)) h) (chunks 16 l) 0.

(** The counter block number [i] for a nonce of twelve bytes; block 1 masks
    the tag and the key stream starts at block 2. *)
Definition counterBlock (nonce : list byte) (i : nat) : list byte := nonce ++ be_bytes 4 (Z.of_nat i).

Definition keyStream (ks : list (list byte)) (nonce : list byte) (n : nat) : list byte :=
  flat_map (fun i => cipher ks (counterBlock nonce i)) (seq 2 ((n + 15) / 16)).

Definition gcmTag (ks : list (list byte)) (nonce c a : list byte) : list byte :=
  let h := be_val (cipher ks (replicate 16 Byte.x00)) in
  let s := ghash h (pad16 a ++ pad16 c ++ be_bytes 8 (8 * len a) ++ be_bytes 8 (8 * len c)) in
  xor_into (be_bytes 16 s) (cipher ks (counterBlock nonce 1)).

(** [Seal(nil, nonce, p, a)] and [Open(nil, nonce, c, a)] *)
Definition aesGcmSeal (key nonce p a : list byte) : list byte :=
  let ks := expandKey key in
  let c := xor_into p (keyStream ks nonce (length p)) in
  c ++ gcmTag ks nonce c a.

Definition aesGcmOpen (key nonce c a : list byte) : option (list byte) :=
  let ks := expandKey key in
  if (length c <? 16)%nat then None
  else
    let body := take (length c - 16) c in
    if bytes_equal (drop (length c - 16) c) (gcmTag ks nonce body a)
    then Some (xor_into body (keyStream ks nonce (length body))) else None.

(** ** The modes invert each other and have the documented lengths *)

Lemma chunksLoop_concat fuel n bs :
  (0 < n)%nat -> Forall (fun b => length b = n) bs -> (length (concat bs) <= fuel)%nat -> chunksLoop fuel n (concat bs) = bs.
Proof.
  intros Hn. revert fuel. induction bs as [|b bs IH]; intros fuel Hbs Hf; [by destruct fuel|].
  apply Forall_cons in Hbs as [Hb Hbs]. cbn [concat] in *. rewrite length_app in Hf.
  destruct fuel as [|fuel]; [lia|]. destruct (b ++ concat bs) as [|x l] eqn:E.
  { apply app_eq_nil in E as [-> _]. cbn in Hb. lia. }
  cbn [chunksLoop]. rewrite <- E, <- Hb, take_app_length, drop_app_length, Hb, IH; [done|done|lia].
Qed.

Lemma chunks_concat n bs : (0 < n)%nat -> Forall (fun b => length b = n) bs -> chunks n (concat bs) = bs.
Proof. intros. by apply chunksLoop_concat. Qed.

Lemma chunks_whole n l : (0 < n)%nat -> (length l mod n = 0)%nat -> Forall (fun b => length b = n) (chunks n l).
Proof.
  intros Hn. unfold chunks. generalize (length l) at 2. intros fuel. revert l.
  induction fuel as [|fuel IH]; intros [|x l] Hl; cbn [chunksLoop]; try constructor;
    pose proof (Nat.div_mod_eq (length (x :: l)) n) as E; rewrite Hl, Nat.add_0_r in E;
    destruct (length (x :: l) / n)%nat as [|q]; try (cbn in E; lia).
  - rewrite length_take. lia.
  - apply IH. rewrite length_drop. replace (length (x :: l) - n)%nat with (q * n)%nat by lia. apply Nat.Div0.mod_mul.
Qed.

Lemma length_concat_of (bs cs : list (list byte)) :
  map length bs = map length cs -> length (concat bs) = length (concat cs).
Proof.
  revert cs. induction bs as [|b bs IH]; intros [|c cs] [=]; [done|]. cbn. rewrite !length_app. f_equal; [done|]. by apply IH.
Qed.

Lemma length_invRounds ks s : length s = 16%nat -> length (invRounds ks s) = 16%nat.
Proof.
  induction ks as [|k [|k' ks] IH]; intros Hs; cbn [invRounds]; [done|..];
    unfold InvSubBytes; rewrite length_map, length_InvShiftRows.
  - now autorewrite with golen.
  - apply length_mixWith. rewrite length_xor_into. apply IH, Hs.
Qed.

Lemma length_invCipher ks s : length s = 16%nat -> length (invCipher ks s) = 16%nat.
Proof. intros. destruct ks; [done|]. cbn [invCipher]. rewrite length_xor_into. now apply length_invRounds. Qed.

Lemma cbcEncLoop_lengths ks prev bs : map length (cbcEncLoop ks prev bs) = map length bs.
Proof.
  revert prev. induction bs as [|b bs IH]; intros prev; [done|]. cbn [cbcEncLoop].
  destruct (Nat.eqb_spec (length b) 16) as [Hb|]; [|done]. cbn [map]. rewrite IH, length_cipher; [congruence|].
  now autorewrite with golen.
Qed.

Lemma cbcDecLoop_lengths ks prev bs : map length (cbcDecLoop ks prev bs) = map length bs.
Proof.
  revert prev. induction bs as [|b bs IH]; intros prev; [done|]. cbn [cbcDecLoop].
  destruct (Nat.eqb_spec (length b) 16) as [Hb|]; [|done]. cbn [map].
  rewrite IH, length_xor_into, length_invCipher by done. congruence.
Qed.

Lemma cbcDec_Enc ks prev bs : cbcDecLoop ks prev (cbcEncLoop ks prev bs) = bs.
Proof.
  revert prev. induction bs as [|b bs IH]; intros prev; [done|]. cbn [cbcEncLoop].
  destruct (Nat.eqb_spec (length b) 16) as [Hb|Hb].
  - cbn [cbcDecLoop]. rewrite length_cipher by now autorewrite with golen. cbn [Nat.eqb].
    rewrite IH, invCipher_cipher by now autorewrite with golen. now rewrite xor_into_involutive.
  - cbn [cbcDecLoop]. by rewrite (proj2 (Nat.eqb_neq _ _) Hb).
Qed.

Lemma length_aesCbcEncrypt key iv p : length (aesCbcEncrypt key iv p) = length p.
Proof.
  unfold aesCbcEncrypt. erewrite length_concat_of by apply cbcEncLoop_lengths. now rewrite concat_chunks by lia.
Qed.

Lemma length_aesCbcDecrypt key iv p : length (aesCbcDecrypt key iv p) = length p.
Proof.
  unfold aesCbcDecrypt. erewrite length_concat_of by apply cbcDecLoop_lengths. now rewrite concat_chunks by lia.
Qed.

Lemma aesCbc_inverse key iv p : (length p mod 16 = 0)%nat -> aesCbcDecrypt key iv (aesCbcEncrypt key iv p) = p.
Proof.
  intros Hp. unfold aesCbcDecrypt, aesCbcEncrypt. rewrite chunks_concat; [|lia|].
  - rewrite cbcDec_Enc. apply concat_chunks. lia.
  - apply (Forall_map length (fun n => n = 16%nat)). rewrite cbcEncLoop_lengths.
    apply (Forall_map length (fun n => n = 16%nat)), chunks_whole; [lia|done].
Qed.

Lemma length_gcmTag ks nonce c a : length (gcmTag ks nonce c a) = 16%nat.
Proof. unfold gcmTag. now autorewrite with golen. Qed.

Lemma length_aesGcmSeal key nonce p a : length (aesGcmSeal key nonce p a) = (length p + 16)%nat.
Proof. unfold aesGcmSeal. now rewrite length_app, length_gcmTag, length_xor_into. Qed.

Lemma aesGcm_inverse key nonce p a : aesGcmOpen key nonce (aesGcmSeal key nonce p a) a = Some p.
Proof.
  unfold aesGcmOpen. rewrite length_aesGcmSeal. destruct (Nat.ltb_spec (length p + 16) 16); [lia|].
  replace (length p + 16 - 16)%nat with (length p) by lia. unfold aesGcmSeal.
  set (ks := expandKey key). set (c := xor_into p _). assert (length p = length c) as -> by (unfold c; now rewrite length_xor_into).
  rewrite drop_app_length, take_app_length. unfold bytes_equal. rewrite bool_decide_true by done.
  unfold c. now rewrite length_xor_into, xor_into_involutive.
Qed.

(** A message that [Open] accepts is one [Seal] produces: there is no second
    encoding of a plaintext under a key, a nonce and associated data. *)
Lemma aesGcm_open_sealed key nonce c a p : aesGcmOpen key nonce c a = Some p -> c = aesGcmSeal key nonce p a.
Proof.
  unfold aesGcmOpen. destruct (Nat.ltb_spec (length c) 16); [done|]. unfold bytes_equal.
  case_bool_decide as Ht; [|done]. intros [= <-]. unfold aesGcmSeal.
  rewrite length_xor_into, xor_into_involutive, <- Ht. symmetry. apply take_drop.
Qed.

(** ** Published test vectors (FIPS 197, appendix C) *)

Example aes_vectors :
  let key n := map (fun i => z2b (Z.of_nat i)) (seq 0 n) in
  let block := unhex "00112233445566778899aabbccddeeff" in
  map (fun n => cipher (expandKey (key n)) block) [16; 24; 32]%nat =
    map unhex ["69c4e0d86a7b0430d8cdb78070b4c55a"; "dda97ca4864cdfe06eaf70a0ec0d7191"; "8ea2b7ca516745bfeafc49904b496089"] /\
  map (fun n => length (expandKey (key n))) [16; 24; 32]%nat = [11; 13; 15]%nat.
Proof. vm_compute. auto. Qed.
