(* ===== verification/Crypto.v ===== *)
(** * internal/datachannel: ciphers and key derivation

    [crypto.go].  The block cipher modes and the keyed hash of Go's crypto
    packages are an interface: the class [Crypto] names the operations the
    program calls and [CryptoLaws] states the documented behaviour its
    correctness relies on.  Everything else (key and IV size checks, padding,
    mode dispatch, the TLS 1.0 PRF) is the program's own code. *)

From S2P Require Import Prelude Bytesx Config Hashes Aes.

(** ** The interface to Go's crypto packages *)

Inductive hashAlg : Type := MD5 | SHA1 | SHA256 | SHA512.

#[export] Instance hashAlg_eq_dec : EqDecision hashAlg.
Proof. solve_decision. Defined.

(** [hash.Hash.Size] *)
Definition hashSize (h : hashAlg) : Z :=
  match h with MD5 => 16 | SHA1 => 20 | SHA256 => 32 | SHA512 => 64 end.

Class Crypto : Type := {
  (** [Seal(nil, nonce, plaintext, data)] of an AES-GCM AEAD *)
  gcmSeal : list byte -> list byte -> list byte -> list byte -> list byte;
  (** [Open(nil, nonce, ciphertext, data)] *)
  gcmOpen : list byte -> list byte -> list byte -> list byte -> option (list byte);
  (** [CryptBlocks] of the CBC encrypter and decrypter for a key and an IV *)
  cbcEncrypt : list byte -> list byte -> list byte -> list byte;
  cbcDecrypt : list byte -> list byte -> list byte -> list byte;
  (** [Sum(nil)] of [hmac.New(hash, key)] after the message was written *)
  hmacSum : hashAlg -> list byte -> list byte -> list byte
}.

Class CryptoLaws `{Crypto} : Prop := {
  gcm_inverse key nonce p a : length nonce = 12%nat -> gcmOpen key nonce (gcmSeal key nonce p a) a = Some p;
  gcm_sealed key nonce c a p : gcmOpen key nonce c a = Some p -> c = gcmSeal key nonce p a;
  gcm_overhead key nonce p a : length (gcmSeal key nonce p a) = (length p + 16)%nat;
  cbc_inverse key iv p : length iv = 16%nat -> (length p mod 16 = 0)%nat -> cbcDecrypt key iv (cbcEncrypt key iv p) = p;
  cbcEncrypt_length key iv p : length (cbcEncrypt key iv p) = length p;
  cbcDecrypt_length key iv p : length (cbcDecrypt key iv p) = length p;
  hmac_size h key msg : len (hmacSum h key msg) = hashSize h
}.

(** The block size of [crypto/aes], and [aes.NewCipher]'s check of the key. *)
Definition aesBlockSize : Z := 16.
Definition aesKeyOk (k : list byte) : bool :=
  (len k =? 16) || (len k =? 24) || (len k =? 32).

(** ** Ciphers *)

Definition cipherModeCBC : string := "cbc".
Definition cipherModeGCM : string := "gcm".
Definition cipherNameAES : string := "aes".

Record encryptedData : Type := mkEncryptedData { e_iv : list byte; ciphertext : list byte; e_aead : list byte }.
Record plaintextData : Type := mkPlaintextData { p_iv : list byte; plaintext : list byte; p_aead : list byte }.

Record dataCipherAES : Type := mkDataCipherAES { ksb : Z; mode : string }.

Definition isAEAD (a : dataCipherAES) : bool := negb (String.eqb (mode a) cipherModeCBC).

Definition blockSize (a : dataCipherAES) : Z :=
  if String.eqb (mode a) cipherModeCBC || String.eqb (mode a) cipherModeGCM then 16 else 0.

Definition newDataCipher (name : string) (bits : Z) (m : string) : outcome dataCipherAES :=
  if negb (bits mod 8 =? 0) || (512 <? bits) || (bits <? 64) then Err ErrInvalidKeySize
  else if negb (String.eqb name cipherNameAES) then Err ErrUnsupportedCipher
  else if negb (String.eqb m cipherModeCBC || String.eqb m cipherModeGCM) then Err ErrUnsupportedMode
  else Ok (mkDataCipherAES (bits / 8) m).

Definition newDataCipherFromCipherSuite (c : string) : outcome dataCipherAES :=
  if String.eqb c "AES-128-CBC" then newDataCipher cipherNameAES 128 cipherModeCBC
  else if String.eqb c "AES-192-CBC" then newDataCipher cipherNameAES 192 cipherModeCBC
  else if String.eqb c "AES-256-CBC" then newDataCipher cipherNameAES 256 cipherModeCBC
  else if String.eqb c "AES-128-GCM" then newDataCipher cipherNameAES 128 cipherModeGCM
  else if String.eqb c "AES-256-GCM" then newDataCipher cipherNameAES 256 cipherModeGCM
  else Err ErrUnsupportedCipher.

Definition newHMACFactory (name : string) : option hashAlg :=
  if String.eqb name "sha1" then Some SHA1
  else if String.eqb name "sha256" then Some SHA256
  else if String.eqb name "sha512" then Some SHA512
  else None.

(** A byte slice with the bytes between its length and its capacity, which a
    slice expression such as [b[:4]] may reach. *)
Record slice : Type := mkSlice { visible : list byte; slack : list byte }.

Section Ciphers.
Context `{Crypto}.

(** [decrypt].  [CryptBlocks] panics on a partial block.  The slice that
    [BytesUnpadPKCS7] returns keeps the padding in its capacity. *)
Definition decrypt (a : dataCipherAES) (key : list byte) (data : encryptedData) : outcome slice :=
  if len key <? ksb a then Err ErrInvalidKeySize
  else
    k ← go_upto key (ksb a);
    if negb (aesKeyOk k) then Err ErrExternal
    else if String.eqb (mode a) cipherModeCBC then
      if negb (len (e_iv data) =? aesBlockSize) then Err ErrCannotDecrypt
      else
        _ ← Assert (len (ciphertext data) mod aesBlockSize =? 0);
        let padded := cbcDecrypt k (e_iv data) (ciphertext data) in
        p ← BytesUnpadPKCS7 padded aesBlockSize;
        Ok (mkSlice p (drop (length p) padded))
    else if String.eqb (mode a) cipherModeGCM then
      if negb (len (e_iv data) =? 12) then Err ErrCannotDecrypt
      else match gcmOpen k (e_iv data) (ciphertext data) (e_aead data) with
           | Some p => Ok (mkSlice p [])
           | None => Err ErrExternal
           end
    else Err ErrUnsupportedMode.

Definition encrypt (a : dataCipherAES) (key : list byte) (data : plaintextData) : outcome (list byte) :=
  if len key <? ksb a then Err ErrInvalidKeySize
  else
    k ← go_upto key (ksb a);
    if negb (aesKeyOk k) then Err ErrExternal
    else if String.eqb (mode a) cipherModeCBC then
      if negb (len (p_iv data) =? aesBlockSize) then Err ErrCannotEncrypt
      else if negb (len (plaintext data) mod aesBlockSize =? 0) then Err ErrCannotEncrypt
      else Ok (cbcEncrypt k (p_iv data) (plaintext data))
    else if String.eqb (mode a) cipherModeGCM then
      if negb (len (p_iv data) =? 12) then Err ErrCannotEncrypt
      else Ok (gcmSeal k (p_iv data) (plaintext data) (p_aead data))
    else Err ErrUnsupportedMode.

(** ** The TLS 1.0 pseudo-random function *)

(** [copy(result[j:], b)] *)
Definition copy_at (result : list byte) (j : nat) (b : list byte) : list byte :=
  take j result ++ take (length result - j) b ++ drop (j + length b) result.

(** The loop of [pHash]; [None] when the fuel runs out. *)
Fixpoint pHashLoop (fuel : nat) (alg : hashAlg) (secret seed a : list byte) (j : nat) (result : list byte)
  : option (list byte) :=
  if (j <? length result)%nat then
    match fuel with
    | O => None
    | S fuel' =>
        let b := hmacSum alg secret (a ++ seed) in
        let result := copy_at result j b in
        let a := hmacSum alg secret a in
        pHashLoop fuel' alg secret seed a (j + length b) result
    end
  else Some result.

Definition pHash (result secret seed : list byte) (alg : hashAlg) : option (list byte) :=
  pHashLoop (length result) alg secret seed (hmacSum alg secret seed) 0 result.

Definition splitPreMasterSecret (secret : list byte) : list byte * list byte :=
  (take ((length secret + 1) / 2) secret, drop (length secret / 2) secret).

Definition prf10 (result secret label seed : list byte) : option (list byte) :=
  let labelAndSeed := label ++ seed in
  let '(s1, s2) := splitPreMasterSecret secret in
  result ← pHash result s1 labelAndSeed MD5;
  result2 ← pHash (replicate (length result) Byte.x00) s2 labelAndSeed SHA1;
  Some (zip_with xor_byte result result2).

Definition prf (secret label clientSeed serverSeed clientSid serverSid : list byte) (olen : nat)
  : option (list byte) :=
  let seed := clientSeed ++ serverSeed in
  let seed := if negb (len clientSid =? 0) then seed ++ clientSid else seed in
  let seed := if negb (len serverSid =? 0) then seed ++ serverSid else seed in
  prf10 (replicate olen Byte.x00) secret label seed.
End Ciphers.

(** ** Go's crypto packages *)

Definition newHash (h : hashAlg) : hashFn :=
  match h with MD5 => MD5fn.md5 | SHA1 => SHA1fn.sha1 | SHA256 => SHA2fn.sha256 | SHA512 => SHA2fn.sha512 end.

#[export] Instance goCrypto : Crypto := {|
  gcmSeal := aesGcmSeal;
  gcmOpen := aesGcmOpen;
  cbcEncrypt := aesCbcEncrypt;
  cbcDecrypt := aesCbcDecrypt;
  hmacSum := fun h => hmac (newHash h)
|}.

#[export] Instance goCryptoLaws : CryptoLaws.
Proof.
  constructor; cbn [gcmSeal gcmOpen cbcEncrypt cbcDecrypt hmacSum goCrypto]; intros.
  - apply aesGcm_inverse.
  - by apply aesGcm_open_sealed.
  - apply length_aesGcmSeal.
  - by apply aesCbc_inverse.
  - apply length_aesCbcEncrypt.
  - apply length_aesCbcDecrypt.
  - unfold len. destruct h; cbn [newHash]; by rewrite length_hmac.
Qed.

(** ** Cipher suites *)

Definition cipher_ok (a : dataCipherAES) : bool :=
  ((ksb a =? 16) || (ksb a =? 24) || (ksb a =? 32)) &&
  (String.eqb (mode a) cipherModeCBC || String.eqb (mode a) cipherModeGCM).

Lemma newDataCipherFromCipherSuite_ok c a : newDataCipherFromCipherSuite c = Ok a -> cipher_ok a = true.
Proof.
  unfold newDataCipherFromCipherSuite. repeat case_match; try done; intros [= <-]; reflexivity.
Qed.

(** Of the ciphers the configuration parser accepts, the data channel
    implements all but one: AES-192-GCM is listed as supported and then
    refused when the channel is built. *)
Theorem supported_cipher_implemented c :
  c ∈ SupportedCiphers ->
  is_ok (newDataCipherFromCipherSuite c) = negb (String.eqb c "AES-192-GCM").
Proof. unfold SupportedCiphers. intros Hc. in_cases Hc; reflexivity. Qed.

Lemma supported_cipher_implemented_witness :
  newDataCipherFromCipherSuite "AES-192-GCM" = Err ErrUnsupportedCipher /\
  is_ok (newDataCipherFromCipherSuite "AES-192-GCM") = false.
Proof.
  split; [reflexivity|].
  apply (supported_cipher_implemented "AES-192-GCM"). vm_compute. repeat constructor.
Defined.

(** ** Encryption is inverted by decryption *)

Section CipherProofs.
Context `{CryptoLaws}.

Lemma go_upto_key (a : dataCipherAES) key :
  cipher_ok a = true -> ksb a <= len key ->
  exists k, go_upto key (ksb a) = Ok k /\ aesKeyOk k = true /\ (len key <? ksb a) = false.
Proof.
  unfold cipher_ok. intros [Hk _]%andb_true_iff Hlen. rewrite !orb_true_iff, !Z.eqb_eq in Hk.
  exists (take (Z.to_nat (ksb a)) key). split; [apply go_upto_Ok; lia|]. split; [|apply Z.ltb_ge; lia].
  unfold aesKeyOk. rewrite !orb_true_iff, !Z.eqb_eq. unfold len in *. rewrite length_take. lia.
Qed.

Lemma encrypt_decrypt_GCM a key iv p aad :
  cipher_ok a = true -> isAEAD a = true -> ksb a <= len key -> length iv = 12%nat ->
  exists c, encrypt a key (mkPlaintextData iv p aad) = Ok c /\ length c = (length p + 16)%nat /\
    decrypt a key (mkEncryptedData iv c aad) = Ok (mkSlice p []).
Proof.
  intros Ha Hm Hlen Hiv. destruct (go_upto_key a key Ha Hlen) as (k & Hk & Hok & Hlt).
  exists (gcmSeal k iv p aad). unfold encrypt, decrypt. rewrite Hlt, Hk. go_step. rewrite Hok.
  unfold cipher_ok, isAEAD in *. apply andb_true_iff in Ha as [_ Ha].
  destruct (String.eqb (mode a) cipherModeCBC); [done|]. cbn [orb] in Ha. rewrite Ha.
  cbn [negb p_iv e_iv plaintext ciphertext p_aead e_aead]. unfold len. rewrite Hiv.
  split; [reflexivity|]. split; [apply gcm_overhead|].
  change (negb (Z.of_nat 12 =? 12)) with false. cbn iota. rewrite gcm_inverse by done. reflexivity.
Qed.

Lemma encrypt_decrypt_CBC a key iv p :
  cipher_ok a = true -> isAEAD a = false -> ksb a <= len key -> length iv = 16%nat ->
  exists c, encrypt a key (mkPlaintextData iv (p ++ padBytes p 16) []) = Ok c /\
    length c = length (p ++ padBytes p 16) /\
    decrypt a key (mkEncryptedData iv c []) = Ok (mkSlice p (padBytes p 16)).
Proof.
  intros Ha Hm Hlen Hiv. destruct (go_upto_key a key Ha Hlen) as (k & Hk & Hok & Hlt).
  destruct (padBytes_len p 16 ltac:(lia)) as [_ Hmod]. rewrite <- len_app in Hmod.
  set (padded := p ++ padBytes p 16) in *.
  exists (cbcEncrypt k iv padded). unfold encrypt, decrypt. rewrite Hlt, Hk. go_step. rewrite Hok.
  unfold isAEAD, aesBlockSize in *. destruct (String.eqb (mode a) cipherModeCBC); [|done].
  cbn [negb p_iv e_iv plaintext ciphertext]. assert (len iv =? 16 = true) as -> by (unfold len; now rewrite Hiv).
  cbn [negb]. rewrite Hmod. cbn [Z.eqb negb]. split; [done|]. split; [apply cbcEncrypt_length|].
  assert (len (cbcEncrypt k iv padded) = len padded) as -> by (unfold len; now rewrite cbcEncrypt_length).
  rewrite Hmod. cbn [Z.eqb]. go_step. rewrite cbc_inverse; [|done|].
  - unfold padded. rewrite padBytes_unpad by lia. go_step. now rewrite drop_app_length.
  - unfold len in Hmod. apply (f_equal Z.to_nat) in Hmod. rewrite Z2Nat.inj_mod, Nat2Z.id in Hmod by lia. done.
Qed.
End CipherProofs.

(** ** Key derivation *)

Section PRF.
Context `{CryptoLaws}.

(** The reference definition of P_hash (RFC 4346, section 5):
    A(0) = seed, A(i+1) = HMAC(secret, A(i)), and the output is
    HMAC(secret, A(1) ++ seed) ++ HMAC(secret, A(2) ++ seed) ++ ... *)
Fixpoint A_chain (alg : hashAlg) (secret seed : list byte) (i : nat) : list byte :=
  match i with
  | O => seed
  | S i' => hmacSum alg secret (A_chain alg secret seed i')
  end.

Definition P_block (alg : hashAlg) (secret seed : list byte) (i : nat) : list byte :=
  hmacSum alg secret (A_chain alg secret seed (S i) ++ seed).

Definition P_hash (alg : hashAlg) (secret seed : list byte) (n : nat) : list byte :=
  take n (concat (map (P_block alg secret seed) (seq 0 n))).

Lemma length_hmacSum alg key msg : length (hmacSum alg key msg) = Z.to_nat (hashSize alg).
Proof. rewrite <- (hmac_size alg key msg). unfold len. lia. Qed.

Lemma hashSize_pos alg : (0 < Z.to_nat (hashSize alg))%nat.
Proof. destruct alg; cbn; lia. Qed.

Lemma length_copy_at result j b :
  (j <= length result)%nat -> length (copy_at result j b) = length result.
Proof. intros. unfold copy_at. rewrite !length_app, !length_take, length_drop. lia. Qed.

Lemma take_copy_at result j b :
  (j <= length result)%nat -> take (j + length b) (copy_at result j b) = take j result ++ take (length result - j) b.
Proof.
  intros. unfold copy_at. rewrite take_app_ge by (rewrite length_take; lia). f_equal.
  rewrite length_take, Nat.min_l by lia. replace (j + length b - j)%nat with (length b) by lia.
  destruct (decide (j + length b <= length result)%nat).
  - rewrite (take_ge b) by lia. apply take_app_length.
  - rewrite drop_ge, app_nil_r by lia. rewrite take_take, Nat.min_r by lia. done.
Qed.

Lemma pHashLoop_spec alg secret seed fuel i j k result :
  (length result <= j + fuel)%nat -> (length result <= j + k * Z.to_nat (hashSize alg))%nat ->
  pHashLoop fuel alg secret seed (A_chain alg secret seed (S i)) j result =
    Some (take j result ++ take (length result - j) (concat (map (P_block alg secret seed) (seq i k)))).
Proof.
  revert i j k result. pose proof (hashSize_pos alg) as Hpos.
  induction fuel as [|fuel IH]; intros i j k result Hf Hk; cbn [pHashLoop];
    (destruct (Nat.ltb_spec j (length result)) as [Hj|Hj];
      [|rewrite take_ge by lia; replace (length result - j)%nat with 0%nat by lia; now rewrite app_nil_r]).
  - lia.
  - destruct k as [|k]; [lia|].
    pose proof (length_hmacSum alg secret (A_chain alg secret seed (S i) ++ seed)) as Hb.
    fold (P_block alg secret seed i) in *. set (b := P_block alg secret seed i) in *.
    change (hmacSum alg secret (A_chain alg secret seed (S i))) with (A_chain alg secret seed (S (S i))).
    rewrite (IH (S i) _ k) by (rewrite length_copy_at by lia; lia).
    rewrite take_copy_at, length_copy_at by lia. cbn [seq map concat]. fold b.
    rewrite take_app, <- app_assoc. do 2 f_equal. f_equal. f_equal. lia.
Qed.

Lemma pHash_spec result secret seed alg :
  pHash result secret seed alg = Some (P_hash alg secret seed (length result)).
Proof.
  unfold pHash, P_hash. change (hmacSum alg secret seed) with (A_chain alg secret seed 1).
  pose proof (hashSize_pos alg). rewrite (pHashLoop_spec _ _ _ _ 0 0 (length result)) by nia.
  now rewrite Nat.sub_0_r.
Qed.

Lemma length_concat_blocks alg secret seed i n :
  length (concat (map (P_block alg secret seed) (seq i n))) = (n * Z.to_nat (hashSize alg))%nat.
Proof.
  revert i. induction n as [|n IH]; intros i; [done|]. cbn [seq map concat].
  rewrite length_app, IH. unfold P_block. rewrite length_hmacSum. lia.
Qed.

Lemma length_P_hash alg secret seed n : length (P_hash alg secret seed n) = n.
Proof.
  unfold P_hash. rewrite length_take, length_concat_blocks. pose proof (hashSize_pos alg). nia.
Qed.

(** The reference definition of the TLS 1.0 PRF (RFC 2246, section 5):
    "L_S1 = L_S2 = ceil(L_S / 2)", S1 are the first L_S1 bytes of the secret and
    S2 the last L_S2 bytes; when the length is odd they share a byte. *)
Definition ceilHalf (n : nat) : nat := n / 2 + n mod 2.
Definition lastBytes (k : nat) (l : list byte) : list byte := drop (length l - k) l.

Definition PRF10 (secret labelSeed : list byte) (n : nat) : list byte :=
  let L := ceilHalf (length secret) in
  zip_with xor_byte (P_hash MD5 (take L secret) labelSeed n) (P_hash SHA1 (lastBytes L secret) labelSeed n).

(** The code splits the secret so. *)
Lemma splitPreMasterSecret_halves secret :
  splitPreMasterSecret secret =
    (take (ceilHalf (length secret)) secret, lastBytes (ceilHalf (length secret)) secret).
Proof.
  unfold splitPreMasterSecret, lastBytes, ceilHalf. set (n := length secret).
  pose proof (Nat.div_mod_eq n 2). pose proof (Nat.mod_upper_bound n 2 ltac:(lia)).
  pose proof (Nat.div_mod_eq (n + 1) 2). pose proof (Nat.mod_upper_bound (n + 1) 2 ltac:(lia)).
  f_equal; f_equal; lia.
Qed.

Lemma prf_spec secret label cs ss cid sid n :
  prf secret label cs ss cid sid n = Some (PRF10 secret (label ++ cs ++ ss ++ cid ++ sid) n).
Proof.
  unfold prf, prf10, PRF10.
  assert (forall x y : list byte, (if negb (len y =? 0) then x ++ y else x) = x ++ y) as Hsid.
  { intros x y. destruct y; [|done]. change (len (@nil byte)) with 0. cbn. now rewrite app_nil_r. }
  rewrite !Hsid, <- !app_assoc, splitPreMasterSecret_halves.
  rewrite pHash_spec. cbn [mbind option_bind]. rewrite length_replicate, pHash_spec.
  cbn [mbind option_bind]. now rewrite length_replicate, length_P_hash.
Qed.

Lemma length_PRF10 secret ls n : length (PRF10 secret ls n) = n.
Proof. unfold PRF10. rewrite length_zip_with, !length_P_hash. lia. Qed.

(** The two halves of a secret cover it, and share at most one byte. *)
Lemma splitPreMasterSecret_cover secret :
  let '(s1, s2) := splitPreMasterSecret secret in
  length s1 = length s2 /\ s1 ++ drop (length secret mod 2) s2 = secret.
Proof.
  unfold splitPreMasterSecret. pose proof (Nat.div_mod_eq (length secret) 2) as E.
  pose proof (Nat.mod_upper_bound (length secret) 2 ltac:(lia)).
  assert (length secret mod 2 = (length secret + 1) / 2 - length secret / 2)%nat as Em.
  { pose proof (Nat.div_mod_eq (length secret + 1) 2). pose proof (Nat.mod_upper_bound (length secret + 1) 2 ltac:(lia)). lia. }
  assert (length secret = (length secret + 1) / 2 + length secret / 2)%nat as Es.
  { pose proof (Nat.div_mod_eq (length secret + 1) 2). pose proof (Nat.mod_upper_bound (length secret + 1) 2 ltac:(lia)). lia. }
  rewrite length_take, length_drop. split; [lia|].
  rewrite drop_drop, Em. replace (length secret / 2 + ((length secret + 1) / 2 - length secret / 2))%nat
    with ((length secret + 1) / 2)%nat by lia. apply take_drop.
Qed.
End PRF.

(** C29: [prf] terminates for every secret, label, seed and output length and
    computes the TLS 1.0 pseudo-random function of RFC 2246: the exclusive or
    of P_MD5 over the first half of the secret and P_SHA1 over the second,
    each half of the secret's length rounded up, both on the label followed by
    the seeds and the session identifiers that are present; the output has the
    length asked for. *)
Theorem prf_is_tls10_prf `{CryptoLaws} secret label cs ss cid sid n :
  prf secret label cs ss cid sid n = Some (PRF10 secret (label ++ cs ++ ss ++ cid ++ sid) n) /\
  length (PRF10 secret (label ++ cs ++ ss ++ cid ++ sid) n) = n.
Proof. split; [apply prf_spec | apply length_PRF10]. Qed.

(** A secret of five bytes: the halves share the third. *)
Lemma prf_is_tls10_prf_witness :
  let labelSeed := bytes_of_string "label" ++ [Byte.x01; Byte.x02; Byte.x03] in
  prf (bytes_of_string "abcde") (bytes_of_string "label") [Byte.x01] [Byte.x02] [] [Byte.x03] 50 =
    Some (zip_with xor_byte (P_hash MD5 (bytes_of_string "abc") labelSeed 50)
            (P_hash SHA1 (bytes_of_string "cde") labelSeed 50)).
Proof.
  intros labelSeed.
  destruct (prf_is_tls10_prf (bytes_of_string "abcde") (bytes_of_string "label") [Byte.x01] [Byte.x02] [] [Byte.x03] 50) as [-> _].
  unfold PRF10.
  assert (take (ceilHalf (length (bytes_of_string "abcde"))) (bytes_of_string "abcde") = bytes_of_string "abc") as -> by reflexivity.
  assert (lastBytes (ceilHalf (length (bytes_of_string "abcde"))) (bytes_of_string "abcde") = bytes_of_string "cde") as -> by reflexivity.
  assert (bytes_of_string "label" ++ [Byte.x01] ++ [Byte.x02] ++ [] ++ [Byte.x03] = labelSeed) as -> by reflexivity.
  generalize labelSeed. reflexivity.
Defined.
