(* ===== verification/DataChannel.v ===== *)
(** * internal/datachannel: the channel and its workers

    [state.go], [read.go], [write.go], [controller.go] and [service.go].  The
    session manager the channel points to is an argument of the operations
    and part of their result.  A [hash.Hash] made by [hmac.New] is its
    algorithm and its key: the program resets it before each use. *)

From S2P Require Import Prelude Bytesx Packet GoStrings Session Config Crypto.

(** ** State *)

Record hmacHash : Type := mkHmacHash { hh_alg : hashAlg; hh_key : list byte }.

Record dataChannelState : Type := mkDataChannelState {
  dataCipher : option dataCipherAES;
  hmacLocal : option hmacHash;
  hmacRemote : option hmacHash;
  cipherKeyLocal : list byte;
  cipherKeyRemote : list byte;
  hmacKeyLocal : list byte;
  hmacKeyRemote : list byte;
  remotePacketID : Z;
  hash : option hashAlg
}.

Definition zeroKeySlot : list byte := replicate 64 Byte.x00.

Definition zeroState : dataChannelState :=
  mkDataChannelState None None None zeroKeySlot zeroKeySlot zeroKeySlot zeroKeySlot 0 None.

Definition SetRemotePacketID (id : Z) (s : dataChannelState) : dataChannelState :=
  mkDataChannelState (dataCipher s) (hmacLocal s) (hmacRemote s) (cipherKeyLocal s) (cipherKeyRemote s)
    (hmacKeyLocal s) (hmacKeyRemote s) id (hash s).

Definition RemotePacketID (s : dataChannelState) : outcome Z :=
  if remotePacketID s =? MaxUint32 then Err ErrExpiredKey else Ok (remotePacketID s).

(** Which pair of encoding and decoding functions is installed. *)
Inductive codec : Type := CodecAEAD | CodecNonAEAD.

(** [log] says whether the field of that name holds a logger: a call on the
    nil interface panics. *)
Record DataChannel : Type := mkDataChannel {
  options : OpenVPNOptions;
  state : dataChannelState;
  decodeFn : option codec;
  encryptEncodeFn : option codec;
  decryptFn : option dataCipherAES;
  log : bool
}.

Definition set_state (s : dataChannelState) (d : DataChannel) : DataChannel :=
  mkDataChannel (options d) s (decodeFn d) (encryptEncodeFn d) (decryptFn d) (log d).

(** The constructor logs to its argument [logger] and does not store it: the
    field [log] keeps its zero value. *)
Definition NewDataChannelFromOptions (opt : OpenVPNOptions) : outcome DataChannel :=
  _ ← Assert (negb (String.eqb (Cipher opt) ""));
  _ ← Assert (negb (String.eqb (Auth opt) ""));
  cipher ← newDataCipherFromCipherSuite (Cipher opt);
  let fn := if isAEAD cipher then CodecAEAD else CodecNonAEAD in
  match newHMACFactory (ToLower (Auth opt)) with
  | None => Err ErrInitError
  | Some hmacHash =>
      Ok (mkDataChannel opt
            (mkDataChannelState (Some cipher) None None zeroKeySlot zeroKeySlot zeroKeySlot zeroKeySlot 0
               (Some hmacHash))
            (Some fn) (Some fn) (Some cipher) false)
  end.

(** ** Writing *)

Definition opcodeAndKeyHeader (m : Manager) : byte :=
  z2b (Z.lor (u8 (Z.shiftl P_DATA_V2 3)) (Z.land (CurrentKeyID m) 7)).

(** The first four bytes of a P_DATA_V2 packet. *)
Definition dataHeader (m : Manager) : list byte :=
  WriteUint24 [opcodeAndKeyHeader m] (u32 (TIPeerID (GetTunnelInfo m))).

Definition doCompress (b : list byte) (compress : Compression) : outcome (list byte) :=
  if String.eqb compress "stub" then
    first ← go_index b 0;
    let b := b ++ [first] in
    Ok (<[0%nat := z2b 0xfb]> b)
  else if String.eqb compress "lzo-no" then Ok ([z2b 0xfa] ++ b)
  else Ok b.

Definition doPadding (b : list byte) (compress : Compression) (blockSize : Z) : outcome (list byte) :=
  if len b =? 0 then Err ErrPadding
  else if String.eqb compress "stub" then
    endByte ← go_index b (len b - 1);
    body ← go_upto b (len b - 1);
    padded ← BytesPadPKCS7 body blockSize;
    Ok (<[(length padded - 1)%nat := endByte]> padded)
  else BytesPadPKCS7 b blockSize.

Definition prependPacketID (p : Z) (buf : list byte) : list byte := be_bytes 4 p ++ buf.

(** ** Reading: the framing of the compression methods *)

Definition hasCompressionByte (c : Compression) : bool :=
  String.eqb c CompressionStub || String.eqb c CompressionLZONo.

(** The compression byte and the payload, which start at offset [off]. *)
Definition splitCompression (c : Compression) (off : Z) (b : list byte) : outcome (Z * list byte) :=
  if hasCompressionByte c then
    compr ← go_index b off;
    payload ← go_from b (off + 1);
    Ok (b2z compr, payload)
  else
    payload ← go_from b off;
    Ok (0, payload).

Definition undoCompression (compr : Z) (payload : list byte) : outcome (list byte) :=
  if compr =? 0xfb then
    last ← go_index payload (len payload - 1);
    b ← go_upto payload (len payload - 1);
    Ok (last :: b)
  else if (compr =? 0x00) || (compr =? 0xfa) then Ok payload
  else Err ErrBadCompression.

Definition maybeDecompress (b : slice) (st : dataChannelState) (opt : OpenVPNOptions)
  : outcome (list byte) * dataChannelState :=
  match dataCipher st with
  | None => (Err ErrBadInput, st)
  | Some cipher =>
      if isAEAD cipher then
        (x ← splitCompression (Compress opt) 0 (visible b); undoCompression x.1 x.2, st)
      else
        match go_upto (visible b ++ slack b) 4 with
        | Ok idBytes =>
            let id := be_val idBytes in
            match RemotePacketID st with
            | Ok lastKnownRemote =>
                if id <=? lastKnownRemote then (Err ErrReplayAttack, st)
                else
                  (x ← splitCompression (Compress opt) 4 (visible b); undoCompression x.1 x.2,
                   SetRemotePacketID id st)
            | Err e => (Err e, st)
            | Panic => (Panic, st)
            end
        | Err e => (Err e, st)
        | Panic => (Panic, st)
        end
  end.

Section Channel.
Context `{Crypto}.

Definition encryptAndEncodePayloadAEAD (padded : list byte) (m : Manager) (st : dataChannelState)
  : outcome (list byte) * Manager :=
  let '(nextPacketID, m) := LocalDataPacketID m in
  match nextPacketID with
  | Ok id =>
      (cipher ← match dataCipher st with Some c => Ok c | None => Panic end;
       let aead := WriteUint32 (dataHeader m) (u32 id) in
       let iv := WriteUint32 [] (u32 id) ++ take 8 (hmacKeyLocal st) in
       encrypted ← encrypt cipher (cipherKeyLocal st) (mkPlaintextData iv padded aead);
       let boundary := len encrypted - 16 in
       tag ← go_from encrypted boundary;
       ct ← go_upto encrypted boundary;
       Ok (aead ++ tag ++ ct), m)
  | Err _ => (Err ErrBadPacketID, m)
  | Panic => (Panic, m)
  end.

(** [genRandomFn] draws the initialisation vector. *)
Definition encryptAndEncodePayloadNonAEAD (genRandomFn : Z -> outcome (list byte))
    (padded : list byte) (m : Manager) (st : dataChannelState) : outcome (list byte) :=
  cipher ← match dataCipher st with Some c => Ok c | None => Panic end;
  iv ← genRandomFn (blockSize cipher);
  ct ← encrypt cipher (cipherKeyLocal st) (mkPlaintextData iv padded []);
  h ← match hmacLocal st with Some h => Ok h | None => Panic end;
  let computedMAC := hmacSum (hh_alg h) (hh_key h) (iv ++ ct) in
  Ok (dataHeader m ++ computedMAC ++ iv ++ ct).

Definition encryptAndEncodePayload (genRandomFn : Z -> outcome (list byte))
    (plaintext : list byte) (d : DataChannel) (m : Manager) : outcome (list byte) * Manager :=
  match dataCipher (state d) with
  | None => (Panic, m)
  | Some cipher =>
      if len plaintext =? 0 then (Err ErrCannotEncrypt, m)
      else match rewrap ErrCannotEncrypt (doPadding plaintext (Compress (options d)) (blockSize cipher)) with
           | Ok padded =>
               match encryptEncodeFn d with
               | None => (Panic, m)
               | Some CodecAEAD =>
                   let '(r, m) := encryptAndEncodePayloadAEAD padded m (state d) in
                   (rewrap ErrCannotEncrypt r, m)
               | Some CodecNonAEAD =>
                   (rewrap ErrCannotEncrypt (encryptAndEncodePayloadNonAEAD genRandomFn padded m (state d)), m)
               end
           | Err e => (Err e, m)
           | Panic => (Panic, m)
           end
  end.

(** In the non-AEAD modes the error of [LocalDataPacketID] is dropped and
    the identifier it comes with, zero, is used. *)
Definition writePacket (genRandomFn : Z -> outcome (list byte)) (d : DataChannel) (m : Manager)
    (payload : list byte) : outcome Packet * Manager :=
  match dataCipher (state d) with
  | None => (Panic, m)
  | Some cipher =>
      let '(payload, m) :=
        if isAEAD cipher then (payload, m)
        else
          let '(pid, m) := LocalDataPacketID m in
          (prependPacketID (match pid with Ok i => i | _ => 0 end) payload, m) in
      match rewrap ErrCannotEncrypt (doCompress payload (Compress (options d))) with
      | Ok payload =>
          let '(encrypted, m) := encryptAndEncodePayload genRandomFn payload d m in
          (enc ← rewrap ErrCannotEncrypt encrypted;
           Ok (set_PeerID (WriteUint24 [] (u32 (TIPeerID (GetTunnelInfo m))))
                 (NewPacket P_DATA_V2 (CurrentKeyID m) enc)), m)
      | Err e => (Err e, m)
      | Panic => (Panic, m)
      end
  end.

(** ** Reading *)

Definition decodeEncryptedPayloadAEAD (buf : list byte) (m : Manager) (st : dataChannelState)
  : outcome encryptedData :=
  _ ← Assert (bool_decide (is_Some (dataCipher st)));
  if (len buf =? 0) || (len buf <? 20) then Err ErrTooShort
  else if len (hmacKeyRemote st) <? 8 then Err ErrBadRemoteHMAC
  else
    let remoteHMAC := take 8 (hmacKeyRemote st) in
    let packet_id := take 4 buf in
    let headers := dataHeader m ++ packet_id in
    let payload := drop 20 buf ++ take 16 (drop 4 buf) in
    Ok (mkEncryptedData (packet_id ++ remoteHMAC) payload headers).

(** The sizes are [uint8]s.  A wrong HMAC is logged before the error is
    returned. *)
Definition decodeEncryptedPayloadNonAEAD (log : bool) (buf : list byte) (m : Manager) (st : dataChannelState)
  : outcome encryptedData :=
  cipher ← match dataCipher st with Some c => Ok c | None => Panic end;
  h ← match hmacRemote st with Some h => Ok h | None => Panic end;
  let hSize := u8 (hashSize (hh_alg h)) in
  let minLen := u8 (hSize + blockSize cipher) in
  if len buf <? minLen then Err ErrCannotDecode
  else
    receivedHMAC ← go_upto buf hSize;
    upTo ← go_upto buf minLen;
    iv ← go_from upTo hSize;
    cipherText ← go_from buf minLen;
    let computedHMAC := hmacSum (hh_alg h) (hh_key h) (iv ++ cipherText) in
    if negb (bytes_equal computedHMAC receivedHMAC) then if log then Err ErrCannotDecrypt else Panic
    else Ok (mkEncryptedData iv cipherText []).

Definition decodeEncryptedPayload (d : DataChannel) (m : Manager) (b : list byte) : outcome encryptedData :=
  match decodeFn d with
  | None => Panic
  | Some CodecAEAD => decodeEncryptedPayloadAEAD b m (state d)
  | Some CodecNonAEAD => decodeEncryptedPayloadNonAEAD (log d) b m (state d)
  end.

Definition DataChannel_decrypt (d : DataChannel) (m : Manager) (encrypted : list byte) : outcome slice :=
  match decryptFn d with
  | None => Err ErrInitError
  | Some cipher =>
      if len (hmacKeyRemote (state d)) =? 0 then if log d then Err ErrCannotDecrypt else Panic
      else
        data ← rewrap ErrCannotDecrypt (decodeEncryptedPayload d m encrypted);
        if len (ciphertext data) =? 0 then Err ErrCannotDecrypt
        else rewrap ErrCannotDecrypt (decrypt cipher (cipherKeyRemote (state d)) data)
  end.

Definition readPacket (d : DataChannel) (m : Manager) (p : Packet) : outcome (list byte) * DataChannel :=
  if len (Payload p) =? 0 then (Err ErrCannotDecrypt, d)
  else if negb (Packet_IsData p) then (Panic, d)
  else match DataChannel_decrypt d m (Payload p) with
       | Ok plaintext =>
           let '(r, st) := maybeDecompress plaintext (state d) (options d) in
           (r, set_state st d)
       | Err e => (Err e, d)
       | Panic => (Panic, d)
       end.

(** ** Key setup *)

(** The four key slots cut from the 256 bytes of key expansion.  [prf]
    always returns (see [prf_spec]); the [None] branches are its fuel. *)
Definition setupKeys (d : DataChannel) (m : Manager) (dck : DataChannelKey) : outcome DataChannel :=
  if negb (Ready dck) then Err ErrDataChannelKey
  else
    match key_local dck, key_remote dck with
    | Some loc, Some rem =>
        match prf (PreMaster loc) (bytes_of_string "OpenVPN master secret") (R1 loc) (R1 rem) [] [] 48 with
        | None => Panic
        | Some master =>
            match prf master (bytes_of_string "OpenVPN key expansion") (R2 loc) (R2 rem)
                    (GetLocalSessionID m) (GetRemoteSessionID m) 256 with
            | None => Panic
            | Some ks =>
                let keyLocal := copy_zeroed 64 (take 64 ks) in
                let hmacLocal := copy_zeroed 64 (take 64 (drop 64 ks)) in
                let keyRemote := copy_zeroed 64 (take 64 (drop 128 ks)) in
                let hmacRemote := copy_zeroed 64 (take 64 (drop 192 ks)) in
                match hash (state d) with
                | None => Panic
                | Some alg =>
                    kl ← go_upto hmacLocal (hashSize alg);
                    kr ← go_upto hmacRemote (hashSize alg);
                    Ok (set_state
                          (mkDataChannelState (dataCipher (state d))
                             (Some (mkHmacHash alg kl)) (Some (mkHmacHash alg kr))
                             keyLocal keyRemote hmacLocal hmacRemote
                             (remotePacketID (state d)) (hash (state d))) d)
                end
            end
        end
    | _, _ => Panic
    end.

(** ** Workers

    One iteration of each worker; [firstKeyReady] is [true] once the
    channel is closed. *)
Record workersState : Type := mkWorkersState {
  dataChannel : DataChannel;
  sessionManager : Manager;
  firstKeyReady : bool
}.

(** [moveDownWorker]: the packets sent to the muxer.  Before the first key
    the worker waits and reads nothing from the TUN. *)
Definition moveDownWorker_step (genRandomFn : Z -> outcome (list byte)) (ws : workersState) (data : list byte)
  : outcome (workersState * list Packet) :=
  let '(r, m) := writePacket genRandomFn (dataChannel ws) (sessionManager ws) data in
  let ws' := mkWorkersState (dataChannel ws) m (firstKeyReady ws) in
  match r with
  | Ok packet => Ok (ws', [packet])
  | Err _ => Ok (ws', [])
  | Panic => Panic
  end.

(** [moveUpWorker]: the payloads delivered to the TUN. *)
Definition moveUpWorker_step (ws : workersState) (pkt : Packet) : outcome (workersState * list (list byte)) :=
  let '(r, d) := readPacket (dataChannel ws) (sessionManager ws) pkt in
  let ws' := mkWorkersState d (sessionManager ws) (firstKeyReady ws) in
  match r with
  | Ok decrypted => if len decrypted =? 16 then Ok (ws', []) else Ok (ws', [decrypted])
  | Err _ => Ok (ws', [])
  | Panic => Panic
  end.

(** [keyWorker]: the boolean says that [SetNegotiationState] sends on the
    session's [Ready] channel. *)
Definition keyWorker_step (ws : workersState) (key : DataChannelKey) : outcome (workersState * bool) :=
  match setupKeys (dataChannel ws) (sessionManager ws) key with
  | Ok d =>
      let '(m, sends) := SetNegotiationState (sessionManager ws) S_GENERATED_KEYS in
      Ok (mkWorkersState d m true, sends)
  | Err _ => Ok (ws, false)
  | Panic => Panic
  end.

(** [StartWorkers]: no worker starts when the channel cannot be built. *)
Definition StartWorkers (opt : OpenVPNOptions) (m : Manager) : outcome (option workersState) :=
  match NewDataChannelFromOptions opt with
  | Ok d => Ok (Some (mkWorkersState d m false))
  | Err _ => Ok None
  | Panic => Panic
  end.
End Channel.
