(* ===== verification/DataChannelSpec.v ===== *)
(** * What the data channel guarantees

    Key setup, the round trip of a tunnel payload from [writePacket] over the
    wire format to the peer's [readPacket], replay protection, uniqueness of
    the AEAD nonces, and which unauthenticated input crashes the reader. *)

From S2P Require Import Prelude Bytesx Packet GoStrings Session Config Hashes Crypto DataChannel.

(** ** A channel with keys *)

Definition codecOf (c : dataCipherAES) : codec := if isAEAD c then CodecAEAD else CodecNonAEAD.

Record channel_ready (d : DataChannel) (c : dataCipherAES) (hl hr : hmacHash) : Prop := {
  cr_cipher : dataCipher (state d) = Some c;
  cr_cipher_ok : cipher_ok c = true;
  cr_decode : decodeFn d = Some (codecOf c);
  cr_encode : encryptEncodeFn d = Some (codecOf c);
  cr_decrypt : decryptFn d = Some c;
  cr_ckl : length (cipherKeyLocal (state d)) = 64%nat;
  cr_ckr : length (cipherKeyRemote (state d)) = 64%nat;
  cr_hkl : length (hmacKeyLocal (state d)) = 64%nat;
  cr_hkr : length (hmacKeyRemote (state d)) = 64%nat;
  cr_hl : hmacLocal (state d) = Some hl;
  cr_hr : hmacRemote (state d) = Some hr;
  cr_log : log d = false
}.

Lemma cipher_ok_ksb c : cipher_ok c = true -> 16 <= ksb c <= 32 /\ blockSize c = 16.
Proof.
  unfold cipher_ok, blockSize. intros [Hk Hm]%andb_true_iff. rewrite Hm.
  rewrite !orb_true_iff, !Z.eqb_eq in Hk. lia.
Qed.

Section Setup.
Context `{CryptoLaws}.

(** The 256 bytes of key expansion for a pair of key sources. *)
Definition keyExpansion (loc rem : KeySource) (m : Manager) : list byte :=
  PRF10
    (PRF10 (PreMaster loc) (bytes_of_string "OpenVPN master secret" ++ R1 loc ++ R1 rem) 48)
    (bytes_of_string "OpenVPN key expansion" ++ R2 loc ++ R2 rem ++ GetLocalSessionID m ++ GetRemoteSessionID m)
    256.

Lemma NewDataChannel_fields opt d :
  NewDataChannelFromOptions opt = Ok d ->
  exists c alg, cipher_ok c = true /\ alg <> MD5 /\
    d = mkDataChannel opt
          (mkDataChannelState (Some c) None None zeroKeySlot zeroKeySlot zeroKeySlot zeroKeySlot 0 (Some alg))
          (Some (codecOf c)) (Some (codecOf c)) (Some c) false.
Proof.
  unfold NewDataChannelFromOptions. intros E.
  apply bind_Ok in E as (? & _ & E). apply bind_Ok in E as (? & _ & E).
  apply bind_Ok in E as (c & Hc & E).
  destruct (newHMACFactory _) as [alg|] eqn:Ea; [|done]. injection E as <-.
  exists c, alg. split; [exact (newDataCipherFromCipherSuite_ok _ _ Hc)|]. split; [|done].
  unfold newHMACFactory in Ea. repeat case_match; congruence.
Qed.

Lemma slot_of_expansion (ks : list byte) off :
  length ks = 256%nat -> (off + 64 <= 256)%nat ->
  copy_zeroed 64 (take 64 (drop off ks)) = take 64 (drop off ks) /\ length (take 64 (drop off ks)) = 64%nat.
Proof.
  intros Hk Ho. assert (length (take 64 (drop off ks)) = 64%nat) as Hl by (rewrite length_take, length_drop; lia).
  split; [now apply copy_zeroed_exact | done].
Qed.

Lemma four_slots (ks : list byte) :
  length ks = 256%nat ->
  take 64 ks ++ take 64 (drop 64 ks) ++ take 64 (drop 128 ks) ++ take 64 (drop 192 ks) = ks.
Proof.
  intros Hk. rewrite (take_ge (drop 192 ks)) by (rewrite length_drop; lia).
  replace (drop 192 ks) with (drop 64 (drop 128 ks)) by (rewrite drop_drop; done). rewrite take_drop.
  replace (drop 128 ks) with (drop 64 (drop 64 ks)) by (rewrite drop_drop; done). now rewrite take_drop, take_drop.
Qed.
End Setup.

(** The channel with the four slots of the key expansion [ks]. *)
Definition keyedChannel (alg : hashAlg) (ks : list byte) (d : DataChannel) : DataChannel :=
  let slot off := take 64 (drop off ks) in
  let mac off := Some (mkHmacHash alg (take (Z.to_nat (hashSize alg)) (slot off))) in
  set_state (mkDataChannelState (dataCipher (state d)) (mac 64%nat) (mac 192%nat)
    (slot 0%nat) (slot 128%nat) (slot 64%nat) (slot 192%nat) (remotePacketID (state d)) (hash (state d))) d.

Lemma setupKeys_keyed `{CryptoLaws} opt d m dck loc rem :
  NewDataChannelFromOptions opt = Ok d -> Ready dck = true ->
  key_local dck = Some loc -> key_remote dck = Some rem ->
  exists alg, hash (state d) = Some alg /\ setupKeys d m dck = Ok (keyedChannel alg (keyExpansion loc rem m) d).
Proof.
  intros Hd Hready Hl Hr. apply NewDataChannel_fields in Hd as (c & alg & Hc & Halg & ->).
  exists alg. split; [done|]. unfold setupKeys. rewrite Hready, Hl, Hr, !prf_spec, !app_nil_r. cbn [negb].
  fold (keyExpansion loc rem m).
  assert (length (keyExpansion loc rem m) = 256%nat) as Hk by apply length_PRF10.
  set (ks := keyExpansion loc rem m) in *.
  destruct (slot_of_expansion ks 0 Hk ltac:(lia)) as [E0 L0]. rewrite drop_0 in E0, L0.
  destruct (slot_of_expansion ks 64 Hk ltac:(lia)) as [E1 L1].
  destruct (slot_of_expansion ks 128 Hk ltac:(lia)) as [E2 L2].
  destruct (slot_of_expansion ks 192 Hk ltac:(lia)) as [E3 L3].
  rewrite E0, E1, E2, E3. cbn [hash state].
  assert (0 <= hashSize alg <= 64) as Hsz by (destruct alg; cbn; lia).
  rewrite !go_upto_Ok by (unfold len; rewrite ?L1, ?L3; lia). go_step. unfold keyedChannel. by rewrite drop_0.
Qed.

Lemma keyedChannel_ready `{CryptoLaws} opt d alg ks :
  NewDataChannelFromOptions opt = Ok d -> length ks = 256%nat ->
  exists c, channel_ready (keyedChannel alg ks d) c
    (mkHmacHash alg (take (Z.to_nat (hashSize alg)) (take 64 (drop 64 ks))))
    (mkHmacHash alg (take (Z.to_nat (hashSize alg)) (take 64 (drop 192 ks)))).
Proof.
  intros Hd Hk. apply NewDataChannel_fields in Hd as (c & alg' & Hc & _ & ->). exists c.
  constructor; try done; cbn; rewrite length_take, ?length_drop, Hk; lia.
Qed.

(** On a channel built from options that were accepted, [setupKeys] with
    a ready key always succeeds; the four key slots are the consecutive
    64-byte pieces of the TLS PRF key expansion, the two HMACs are keyed with
    the first [Size()] bytes of their slots, the remote packet identifier is
    untouched and the channel is ready to encrypt and decrypt.  A key that is
    not ready is an error. *)
Theorem setupKeys_derives `{CryptoLaws} opt d m dck loc rem :
  NewDataChannelFromOptions opt = Ok d ->
  key_local dck = Some loc -> key_remote dck = Some rem ->
  if Ready dck then
    exists d' c alg, setupKeys d m dck = Ok d' /\
      let hl := mkHmacHash alg (take (Z.to_nat (hashSize alg)) (hmacKeyLocal (state d'))) in
      let hr := mkHmacHash alg (take (Z.to_nat (hashSize alg)) (hmacKeyRemote (state d'))) in
      channel_ready d' c hl hr /\ hash (state d) = Some alg /\
      cipherKeyLocal (state d') ++ hmacKeyLocal (state d') ++ cipherKeyRemote (state d') ++ hmacKeyRemote (state d')
        = keyExpansion loc rem m /\
      remotePacketID (state d') = remotePacketID (state d)
  else setupKeys d m dck = Err ErrDataChannelKey.
Proof.
  intros Hd Hl Hr. destruct (Ready dck) eqn:Hready; [|unfold setupKeys; by rewrite Hready].
  destruct (setupKeys_keyed _ _ m _ _ _ Hd Hready Hl Hr) as (alg & Halg & E).
  assert (length (keyExpansion loc rem m) = 256%nat) as Hk by apply length_PRF10.
  destruct (keyedChannel_ready _ _ alg _ Hd Hk) as (c & Hc).
  exists (keyedChannel alg (keyExpansion loc rem m) d), c, alg. split; [done|]. split; [exact Hc|]. split; [done|].
  split; [|reflexivity]. cbn [keyedChannel set_state state cipherKeyLocal hmacKeyLocal cipherKeyRemote hmacKeyRemote]. rewrite drop_0. by apply four_slots.
Qed.

Definition sampleOptions (cipher : string) (compress : Compression) : OpenVPNOptions :=
  set_Compress compress (set_Auth "SHA256" (set_Cipher cipher defaultOptions)).

Definition sampleSource (b : byte) : KeySource := mkKeySource (replicate 32 b) (replicate 32 b) (replicate 48 b).

Definition sampleKey : DataChannelKey :=
  mkDataChannelKey 0 true (Some (sampleSource Byte.x01)) (Some (sampleSource Byte.x02)).

Lemma setupKeys_derives_witness :
  exists d d', NewDataChannelFromOptions (sampleOptions "AES-256-GCM" "empty") = Ok d /\
    setupKeys d sampleManager sampleKey = Ok d'.
Proof.
  eexists. destruct (setupKeys_derives (sampleOptions "AES-256-GCM" "empty") _ sampleManager sampleKey
    (sampleSource Byte.x01) (sampleSource Byte.x02) eq_refl eq_refl eq_refl) as (d' & c & alg & E & _).
  exists d'. split; [reflexivity | exact E].
Defined.

(** ** Framing *)

(** What an AEAD packet carries after the payload: the padding is added but
    never removed.  The compression stub uses one byte of it. *)
Definition aeadTrailer (c : Compression) (payload : list byte) : list byte :=
  if String.eqb c "stub" then drop 1 (padBytes payload 16)
  else if String.eqb c "lzo-no" then padBytes (z2b 0xfa :: payload) 16
  else padBytes payload 16.

Lemma padBytes_cons b bs : 1 <= bs <= 255 -> exists x n, padBytes b bs = replicate (S n) x.
Proof.
  intros Hbs. pose proof (Z.mod_pos_bound (len b) bs ltac:(lia)). unfold padBytes.
  exists (z2b (bs - len b mod bs)), (Z.to_nat (bs - len b mod bs) - 1)%nat. f_equal. lia.
Qed.

Lemma padBytes_same_length b b' bs : length b = length b' -> padBytes b bs = padBytes b' bs.
Proof. intros E. unfold padBytes, len. now rewrite E. Qed.

Lemma insert_last (l : list byte) x n y :
  <[(length (l ++ replicate (S n) x) - 1)%nat := y]> (l ++ replicate (S n) x) = l ++ replicate n x ++ [y].
Proof.
  cbn [replicate]. rewrite replicate_cons_app, app_assoc.
  rewrite length_app. cbn [length]. replace (length (l ++ replicate n x) + 1 - 1)%nat with (length (l ++ replicate n x)) by lia.
  rewrite insert_app_r_alt by lia. now rewrite Nat.sub_diag, <- app_assoc.
Qed.

Lemma go_upto_snoc (l : list byte) x : go_upto (l ++ [x]) (len (l ++ [x]) - 1) = Ok l.
Proof.
  assert (len (l ++ [x]) = len l + 1) as -> by (unfold len; rewrite length_app; cbn [length]; lia).
  pose proof (len_nonneg l). rewrite go_upto_Ok by (unfold len; rewrite length_app; cbn [length]; lia).
  replace (Z.to_nat (len l + 1 - 1)) with (length l) by (unfold len; lia).
  now rewrite take_app_length.
Qed.

(** Compressing and padding a payload, then undoing the compression framing,
    gives the payload followed by the trailer. *)
Lemma aead_framing c payload :
  payload <> [] ->
  exists b padded, doCompress payload c = Ok b /\ b <> [] /\ doPadding b c 16 = Ok padded /\
    (x ← splitCompression c 0 padded; undoCompression x.1 x.2) = Ok (payload ++ aeadTrailer c payload).
Proof.
  intros Hne. destruct payload as [|x t]; [done|]. unfold doCompress, doPadding, aeadTrailer, splitCompression,
    hasCompressionByte, CompressionStub, CompressionLZONo.
  destruct (String.eqb_spec c "stub") as [->|Hs].
  - change (go_index (x :: t) 0) with (Ok x). go_step. cbn [app insert list_insert].
    eexists (z2b 0xfb :: t ++ [x]), _. split; [reflexivity|]. split; [done|].
    change (z2b 0xfb :: t ++ [x]) with ((z2b 0xfb :: t) ++ [x]).
    destruct (Z.eqb_spec (len ((z2b 0xfb :: t) ++ [x])) 0) as [E%len_zero_iff|_]; [done|].
    rewrite go_index_last, go_upto_snoc. go_step. rewrite BytesPadPKCS7_eq by lia. go_step.
    split; [reflexivity|]. rewrite (padBytes_same_length (x :: t) (z2b 0xfb :: t)) by done.
    destruct (padBytes_cons (z2b 0xfb :: t) 16 ltac:(lia)) as (y & n & ->). rewrite insert_last.
    cbn [String.eqb Ascii.eqb orb app]. change (go_index (z2b 0xfb :: ?l) 0) with (Ok (z2b 0xfb)).
    go_step. rewrite go_from_Ok by (rewrite len_cons; pose proof (len_nonneg (t ++ replicate n y ++ [x])); lia).
    change (Z.to_nat (0 + 1)) with 1%nat. cbn [drop]. go_step. cbn [fst snd].
    unfold undoCompression. rewrite b2z_z2b_small by lia. cbn [Z.eqb Pos.eqb].
    rewrite drop_0, app_assoc, go_index_last, go_upto_snoc. go_step. cbn [replicate drop]. now rewrite drop_0.
  - destruct (String.eqb_spec c "lzo-no") as [->|Hl].
    + eexists (z2b 0xfa :: x :: t), _. split; [reflexivity|]. split; [done|]. rewrite len_cons.
      destruct (Z.eqb_spec (len (x :: t) + 1) 0); [pose proof (len_nonneg (x :: t)); lia|].
      split; [apply BytesPadPKCS7_eq; lia|]. cbn [String.eqb Ascii.eqb orb app].
      change (go_index (z2b 0xfa :: ?l) 0) with (Ok (z2b 0xfa)). go_step.
      rewrite go_from_Ok by (rewrite !len_cons; pose proof (len_nonneg (t ++ padBytes (z2b 0xfa :: x :: t) 16)); lia).
      change (Z.to_nat (0 + 1)) with 1%nat. cbn [drop]. go_step. cbn [fst snd].
      unfold undoCompression. rewrite b2z_z2b_small by lia. reflexivity.
    + eexists (x :: t), _. split; [reflexivity|]. split; [done|]. rewrite len_cons.
      destruct (Z.eqb_spec (len t + 1) 0); [pose proof (len_nonneg t); lia|].
      split; [apply BytesPadPKCS7_eq; lia|].
      cbn [orb]. rewrite go_from_Ok by (pose proof (len_nonneg ((x :: t) ++ padBytes (x :: t) 16)); lia). done.
Qed.

(** ** The wire format *)

Lemma WriteUint32_len buf v : length (WriteUint32 buf v) = (length buf + 4)%nat.
Proof. unfold WriteUint32. now rewrite length_app, length_be_bytes. Qed.

Lemma dataHeader_split m :
  exists a b c, dataHeader m = [opcodeAndKeyHeader m; a; b; c].
Proof.
  unfold dataHeader, WriteUint24. set (l := drop 1 _).
  assert (length l = 3%nat) as Hl by (subst l; now rewrite length_drop, WriteUint32_len).
  destruct l as [|a [|b [|c [|]]]]; try done. now exists a, b, c.
Qed.

Lemma dataHeader_length m : length (dataHeader m) = 4%nat.
Proof. destruct (dataHeader_split m) as (a & b & c & ->). done. Qed.

(** The header written by one side is parsed as a data packet by the other. *)
Lemma parse_data m body :
  exists q, ParsePacket (dataHeader m ++ body) = Ok q /\
    Opcode q = P_DATA_V2 /\ Payload q = body.
Proof.
  destruct (dataHeader_split m) as (a & b & c & ->). cbn [app].
  set (k := Z.land (CurrentKeyID m) 7).
  assert (0 <= k < 8) as Hk.
  { subst k. change 7 with (Z.ones 3). rewrite Z.land_ones by lia. now apply Z.mod_pos_bound. }
  assert (opcodeAndKeyHeader m = headerByte P_DATA_V2 k) as ->.
  { unfold opcodeAndKeyHeader, headerByte. subst k. rewrite <- Z.land_assoc. done. }
  destruct (headerByte_fields P_DATA_V2 k) as [Ho _]; [unfold P_DATA_V2; lia | done|].
  rewrite ParsePacket_unfold. cbv zeta. rewrite Ho. cbn [Opcode_IsControl].
  change (Opcode_IsControl P_DATA_V2 || (P_DATA_V2 =? P_ACK_V1)) with false. cbn iota.
  change (P_DATA_V2 =? P_DATA_V2) with true. cbn iota.
  destruct (Z.ltb_spec (len (b :: c :: body)) 2) as [Hlt|_].
  { rewrite !len_cons in Hlt. pose proof (len_nonneg body). lia. }
  eexists. split; [reflexivity|]. cbn [Opcode Payload drop]. now rewrite drop_0.
Qed.

(** The peer [e] (with manager [n]) holds the keys the channel [d] (with
    manager [m]) encrypts with, the same cipher and compression, and agrees
    on the key and peer identifiers of the header. *)
Record mirrored (d e : DataChannel) (m n : Manager) (c : dataCipherAES) : Prop := {
  mi_ready : exists hl hr hl', channel_ready d c hl hr /\ channel_ready e c hl' hl;
  mi_cipherKey : cipherKeyRemote (state e) = cipherKeyLocal (state d);
  mi_hmacKey : hmacKeyRemote (state e) = hmacKeyLocal (state d);
  mi_compress : Compress (options e) = Compress (options d);
  mi_header : dataHeader n = dataHeader m
}.

Section RoundTrip.
Context `{CryptoLaws}.

Lemma AEAD_encode d m c hl hr padded id :
  channel_ready d c hl hr -> isAEAD c = true -> LocalDataPacketID m = (Ok id, set_localDataPacketID (id + 1) m) ->
  is_u32 id ->
  exists ct, length ct = (length padded + 16)%nat /\
    encryptAndEncodePayloadAEAD padded m (state d) =
      (Ok ((dataHeader m ++ be_bytes 4 id) ++ drop (length padded) ct ++ take (length padded) ct),
       set_localDataPacketID (id + 1) m) /\
    decrypt c (cipherKeyLocal (state d))
      (mkEncryptedData (be_bytes 4 id ++ take 8 (hmacKeyLocal (state d))) ct (dataHeader m ++ be_bytes 4 id))
      = Ok (mkSlice padded []).
Proof.
  intros Hd Ha Hid Hu. destruct Hd. apply cipher_ok_ksb in cr_cipher_ok0 as Hks.
  destruct (encrypt_decrypt_GCM c (cipherKeyLocal (state d)) (be_bytes 4 id ++ take 8 (hmacKeyLocal (state d)))
    padded (dataHeader m ++ be_bytes 4 id)) as (ct & He & Hl & Hdec); [done|done|unfold len; lia| |].
  { rewrite length_app, length_be_bytes, length_take, cr_hkl0. done. }
  exists ct. split; [done|]. split; [|done].
  unfold encryptAndEncodePayloadAEAD. rewrite Hid, cr_cipher0. go_step.
  rewrite u32_small, !WriteUint32_app by done. change (dataHeader (set_localDataPacketID (id + 1) m)) with (dataHeader m).
  cbn [app]. rewrite He. go_step. unfold len. rewrite Hl.
  replace (Z.of_nat (length padded + 16) - 16) with (Z.of_nat (length padded)) by lia.
  rewrite go_from_Ok, go_upto_Ok by (unfold len; lia). go_step. now rewrite Nat2Z.id.
Qed.

Lemma AEAD_decode e n c hl hr idb tag body :
  channel_ready e c hl hr -> isAEAD c = true -> length idb = 4%nat -> length tag = 16%nat ->
  DataChannel_decrypt e n (idb ++ tag ++ body) =
    rewrap ErrCannotDecrypt (decrypt c (cipherKeyRemote (state e))
      (mkEncryptedData (idb ++ take 8 (hmacKeyRemote (state e))) (body ++ tag) (dataHeader n ++ idb))).
Proof.
  intros He Ha Hidb Htag. destruct He. unfold DataChannel_decrypt, decodeEncryptedPayload, decodeEncryptedPayloadAEAD.
  rewrite cr_decrypt0, cr_decode0, cr_cipher0. unfold codecOf. rewrite Ha.
  rewrite bool_decide_true by done. unfold len. rewrite cr_hkr0, !length_app, Hidb, Htag. go_step.
  destruct (Z.eqb_spec (Z.of_nat (4 + (16 + length body))) 0); [lia|].
  destruct (Z.ltb_spec (Z.of_nat (4 + (16 + length body))) 20); [lia|].
  change (Z.of_nat 64 =? 0) with false. change (Z.of_nat 64 <? 8) with false. go_step. cbn iota.
  assert (drop 20 (idb ++ tag ++ body) = body) as ->.
  { rewrite app_assoc. apply drop_app_length'. rewrite length_app. lia. }
  rewrite (take_app_length' idb) by lia.
  rewrite (drop_app_length' idb) by lia. rewrite (take_app_length' tag) by lia.
  go_step. cbn [ciphertext]. rewrite length_app, Htag.
  destruct (Z.eqb_spec (Z.of_nat (length body + 16)) 0); [lia | done].
Qed.

Lemma readPacket_data e n q pt r st :
  Opcode q = P_DATA_V2 -> Payload q <> [] -> DataChannel_decrypt e n (Payload q) = Ok pt ->
  maybeDecompress pt (state e) (options e) = (r, st) -> readPacket e n q = (r, set_state st e).
Proof.
  intros Ho Hp Hd Hm. unfold readPacket, Packet_IsData. rewrite Ho, Hd, Hm.
  destruct (Z.eqb_spec (len (Payload q)) 0) as [E%len_zero_iff|_]; done.
Qed.
End RoundTrip.

Lemma set_state_id d : set_state (state d) d = d.
Proof. now destruct d. Qed.

(** Compression and padding add at most 17 bytes. *)
Lemma padded_len payload c b padded :
  doCompress payload c = Ok b -> doPadding b c 16 = Ok padded -> len padded <= len payload + 17.
Proof.
  intros Hc. assert (len b <= len payload + 1) as Hb.
  { revert Hc. unfold doCompress. destruct (String.eqb c "stub"); [|destruct (String.eqb c "lzo-no")].
    - destruct (go_index payload 0) as [x| |]; [|done..]. intros [= <-]. unfold len. rewrite length_insert, length_app. cbn. lia.
    - intros [= <-]. cbn [app]. rewrite len_cons. lia.
    - intros [= <-]. lia. }
  unfold doPadding. destruct (len b =? 0); [done|]. destruct (String.eqb c "stub").
  - destruct (go_index b (len b - 1)) as [x| |]; [|done..]. go_step. destruct (go_upto b (len b - 1)) as [body| |] eqn:E; [|done..].
    go_step. rewrite BytesPadPKCS7_eq by lia. go_step. intros [= <-]. unfold len at 1. rewrite length_insert.
    fold (len (body ++ padBytes body 16)). rewrite len_app.
    destruct (padBytes_len body 16 ltac:(lia)) as [? _].
    assert (len body <= len b) by (unfold go_upto in E; case_match; [|done]; injection E as <-; unfold len; rewrite length_take; lia).
    lia.
  - rewrite BytesPadPKCS7_eq by lia. intros [= <-]. rewrite len_app. destruct (padBytes_len b 16 ltac:(lia)) as [? _]. lia.
Qed.

(** A payload through one AEAD channel, with the size it has on the wire. *)
Lemma aead_wire_sized `{CryptoLaws} gen d e m n c payload :
  mirrored d e m n c -> isAEAD c = true -> manager_inv m -> localDataPacketID m < MaxUint32 -> payload <> [] ->
  exists p raw q,
    writePacket gen d m payload = (Ok p, set_localDataPacketID (localDataPacketID m + 1) m) /\
    Packet_Bytes p = Ok raw /\ Opcode q = P_DATA_V2 /\ len raw <= len payload + 41 /\ ParsePacket raw = Ok q /\
    readPacket e n q = (Ok (payload ++ aeadTrailer (Compress (options d)) payload), e).
Proof.
  intros [(hl & hr & hl' & Hd & He) Hck Hhk Hcomp Hhead] Ha Hm Hid Hne.
  destruct (aead_framing (Compress (options d)) payload Hne) as (b & padded & Hb & Hbne & Hpad & Hframe).
  pose proof (localDataPacketIDLocked_spec m Hm) as [[? _]|[_ Hlid]]; [lia|].
  set (id := localDataPacketID m) in *.
  assert (is_u32 id) as Hu by (destruct Hm; unfold is_u32, MaxUint32 in *; lia).
  destruct (AEAD_encode d m c hl hr padded id Hd Ha Hlid Hu) as (ct & Hlen & Henc & Hdec).
  destruct (cipher_ok_ksb c) as [_ Hbs]; [now destruct Hd|].
  destruct (parse_data m (be_bytes 4 id ++ drop (length padded) ct ++ take (length padded) ct))
    as (q & Hq & Hop & Hpay).
  eexists _, _, q. split; [|split; [|split; [exact Hop|split; [|split]]]].
  - unfold writePacket. rewrite (cr_cipher _ _ _ _ Hd), Ha, Hb. go_step.
    unfold encryptAndEncodePayload. rewrite (cr_cipher _ _ _ _ Hd), Hbs, Hpad, (cr_encode _ _ _ _ Hd).
    destruct (Z.eqb_spec (len b) 0) as [E%len_zero_iff|_]; [done|]. go_step.
    unfold codecOf. rewrite Ha, Henc. go_step. reflexivity.
  - unfold Packet_Bytes. cbn [Opcode Payload set_PeerID NewPacket].
    change (P_DATA_V2 =? P_DATA_V2) with true. cbn iota. reflexivity.
  - pose proof (padded_len _ _ _ _ Hb Hpad) as Hpl. unfold len in *. rewrite !length_app, dataHeader_length, length_be_bytes,
      length_drop, length_take. lia.
  - now rewrite <- app_assoc.
  - rewrite <- (set_state_id e) at 2. apply (readPacket_data e n q (mkSlice padded [])); [done| | |].
    + rewrite Hpay. intros E%(f_equal length). rewrite length_app, length_be_bytes in E. cbn in E. discriminate E.
    + rewrite Hpay, (AEAD_decode e n c hl' hl) by (done || apply length_be_bytes || rewrite length_drop; lia).
      rewrite take_drop, Hck, Hhk, Hhead, Hdec. done.
    + unfold maybeDecompress. rewrite (cr_cipher _ _ _ _ He), Ha, Hcomp. cbn [visible]. now rewrite Hframe.
Qed.

(** In the AEAD modes a non-empty tunnel payload written by one side is
    serialised, parsed and decrypted by its peer to the same payload followed
    by the padding, for every compression setting; one packet identifier is
    used and the peer's channel does not change. *)
Theorem aead_wire_roundtrip `{CryptoLaws} gen d e m n c payload :
  mirrored d e m n c -> isAEAD c = true -> manager_inv m -> localDataPacketID m < MaxUint32 -> payload <> [] ->
  exists p raw q,
    writePacket gen d m payload = (Ok p, set_localDataPacketID (localDataPacketID m + 1) m) /\
    Packet_Bytes p = Ok raw /\ ParsePacket raw = Ok q /\
    readPacket e n q = (Ok (payload ++ aeadTrailer (Compress (options d)) payload), e).
Proof.
  intros Hmi Ha Hm Hid Hne.
  destruct (aead_wire_sized gen d e m n c payload Hmi Ha Hm Hid Hne) as (p & raw & q & H1 & H2 & _ & _ & H3 & H4). eauto 10.
Qed.

(** The channel of the other end: what is local here is remote there. *)
Definition mirrorChannel (d : DataChannel) : DataChannel :=
  let s := state d in
  set_state (mkDataChannelState (dataCipher s) (hmacRemote s) (hmacLocal s)
    (cipherKeyRemote s) (cipherKeyLocal s) (hmacKeyRemote s) (hmacKeyLocal s) (remotePacketID s) (hash s)) d.

Lemma mirrorChannel_mirrored d m c hl hr :
  channel_ready d c hl hr -> mirrored d (mirrorChannel d) m m c.
Proof.
  intros Hd. constructor; try done. exists hl, hr, hr. split; [done|]. destruct Hd. now constructor.
Qed.

(** A channel with keys for a cipher suite and a compression setting. *)
Definition sampleChannel (cipher : string) (compress : Compression) : outcome DataChannel :=
  d ← NewDataChannelFromOptions (sampleOptions cipher compress); setupKeys d sampleManager sampleKey.

Definition unwrap {A} (d : A) (m : outcome A) : A := match m with Ok a => a | _ => d end.

Definition gcmChannel : DataChannel :=
  Eval vm_compute in unwrap (mkDataChannel zeroOptions zeroState None None None false) (sampleChannel "AES-256-GCM" "stub").
Definition cbcKeyed : DataChannel :=
  Eval vm_compute in unwrap (mkDataChannel zeroOptions zeroState None None None false) (sampleChannel "AES-128-CBC" "empty").
Definition cbcChannel (compress : Compression) : DataChannel :=
  let d := cbcKeyed in
  mkDataChannel (sampleOptions "AES-128-CBC" compress) (state d) (decodeFn d) (encryptEncodeFn d) (decryptFn d) (log d).

Lemma gcmChannel_ready : exists hl hr, channel_ready gcmChannel (mkDataCipherAES 32 "gcm") hl hr.
Proof. eexists _, _. constructor; reflexivity. Qed.

Lemma cbcChannel_ready compress : exists hl hr, channel_ready (cbcChannel compress) (mkDataCipherAES 16 "cbc") hl hr.
Proof. eexists _, _. constructor; vm_compute; reflexivity. Qed.

Definition samplePayload : list byte := bytes_of_string "hello, tunnel".

Lemma aead_wire_roundtrip_witness :
  exists p raw q,
    writePacket (fun _ => Panic) gcmChannel sampleManager samplePayload =
      (Ok p, set_localDataPacketID 2 sampleManager) /\
    Packet_Bytes p = Ok raw /\ ParsePacket raw = Ok q /\
    readPacket (mirrorChannel gcmChannel) sampleManager q =
      (Ok (samplePayload ++ replicate 2 (z2b 3)), mirrorChannel gcmChannel).
Proof.
  destruct gcmChannel_ready as (hl & hr & Hd).
  apply (aead_wire_roundtrip (fun _ => Panic) gcmChannel (mirrorChannel gcmChannel) sampleManager sampleManager
    (mkDataCipherAES 32 "gcm") samplePayload);
    [now apply mirrorChannel_mirrored with hl hr|reflexivity|apply sampleManager_inv|vm_compute; reflexivity|done].
Defined.

(** The channel with another remote packet identifier. *)
Definition atRemoteID (i : Z) (d : DataChannel) : DataChannel := set_state (SetRemotePacketID i (state d)) d.

Lemma atRemoteID_self d : atRemoteID (remotePacketID (state d)) d = d.
Proof. destruct d as [o [] ? ? ?]. done. Qed.

(** ** The non-AEAD modes *)

Section RoundTripCBC.
Context `{CryptoLaws}.

Lemma hashSize_bounds alg : 16 <= hashSize alg <= 64.
Proof. destruct alg; cbn; lia. Qed.

Lemma NonAEAD_decode e n c hl hr mac iv ct :
  channel_ready e c hl hr -> isAEAD c = false -> len mac = hashSize (hh_alg hr) -> length iv = 16%nat -> ct <> [] ->
  DataChannel_decrypt e n (mac ++ iv ++ ct) =
    if bytes_equal (hmacSum (hh_alg hr) (hh_key hr) (iv ++ ct)) mac
    then rewrap ErrCannotDecrypt (decrypt c (cipherKeyRemote (state e)) (mkEncryptedData iv ct []))
    else if log e then Err ErrCannotDecrypt else Panic.
Proof.
  intros He Ha Hmac Hiv Hct. destruct He. destruct (cipher_ok_ksb c cr_cipher_ok0) as [_ Hbs].
  unfold DataChannel_decrypt, decodeEncryptedPayload, decodeEncryptedPayloadNonAEAD.
  rewrite cr_decrypt0, cr_decode0, cr_cipher0, cr_hr0. unfold codecOf. rewrite Ha.
  assert (len (hmacKeyRemote (state e)) =? 0 = false) as -> by (unfold len; now rewrite cr_hkr0).
  go_step. cbv zeta. rewrite ?Hbs.
  pose proof (hashSize_bounds (hh_alg hr)) as Hhs. set (hs := hashSize (hh_alg hr)) in *.
  assert (u8 hs = hs) as -> by (apply Z.mod_small; lia).
  assert (u8 (hs + 16) = hs + 16) as -> by (apply Z.mod_small; lia).
  assert (len iv = 16) as Hiv' by (unfold len; lia).
  assert (len (mac ++ iv ++ ct) = hs + 16 + len ct) as Hlen by (rewrite !len_app; lia).
  pose proof (len_nonneg ct). destruct (Z.ltb_spec (len (mac ++ iv ++ ct)) (hs + 16)); [lia|].
  assert (take (Z.to_nat hs) (mac ++ iv ++ ct) = mac) as Hmac'
    by (apply take_app_length'; unfold len in *; lia).
  rewrite !go_upto_Ok by lia. go_step. rewrite Hmac'.
  assert (take (Z.to_nat (hs + 16)) (mac ++ iv ++ ct) = mac ++ iv) as ->.
  { rewrite app_assoc. apply take_app_length'. unfold len in *. rewrite length_app. lia. }
  rewrite !go_from_Ok by (rewrite !len_app; lia). go_step.
  rewrite (drop_app_length' mac iv) by (unfold len in *; lia).
  assert (drop (Z.to_nat (hs + 16)) (mac ++ iv ++ ct) = ct) as ->.
  { rewrite app_assoc. apply drop_app_length'. unfold len in *. rewrite length_app. lia. }
  destruct (bytes_equal _ mac); [|by destruct (log e)]. go_step. cbn [ciphertext].
  destruct (Z.eqb_spec (len ct) 0) as [E%len_zero_iff|_]; done.
Qed.

(** What [writePacket] sends in a non-AEAD mode and what the peer decrypts,
    up to the compression framing, for every setting but the stub. *)
Lemma NonAEAD_write gen d e m n c payload b iv :
  mirrored d e m n c -> isAEAD c = false -> manager_inv m -> localDataPacketID m < MaxUint32 ->
  gen 16 = Ok iv -> length iv = 16%nat -> Compress (options d) <> "stub" ->
  doCompress (be_bytes 4 (localDataPacketID m) ++ payload) (Compress (options d)) = Ok b -> b <> [] ->
  exists p raw q,
    writePacket gen d m payload = (Ok p, set_localDataPacketID (localDataPacketID m + 1) m) /\
    Packet_Bytes p = Ok raw /\ ParsePacket raw = Ok q /\ Opcode q = P_DATA_V2 /\
    forall r st, maybeDecompress (mkSlice b (padBytes b 16)) (state e) (options e) = (r, st) ->
                 readPacket e n q = (r, set_state st e).
Proof.
  intros [(hl & hr & hl' & Hd & He) Hck _ Hcomp Hhead] Ha Hm Hid Hgen Hiv Hstub Hb Hbne.
  pose proof (localDataPacketIDLocked_spec m Hm) as [[? _]|[_ Hlid]]; [lia|].
  destruct (cipher_ok_ksb c) as [Hks Hbs]; [now destruct Hd|].
  destruct (encrypt_decrypt_CBC c (cipherKeyLocal (state d)) iv b) as (ct & Henc & Hlen & Hdec);
    [now destruct Hd|done|unfold len; rewrite (cr_ckl _ _ _ _ Hd); lia|done|].
  set (mac := hmacSum (hh_alg hl) (hh_key hl) (iv ++ ct)).
  destruct (parse_data m (mac ++ iv ++ ct)) as (q & Hq & Hop & Hpay).
  eexists _, _, q. split; [|split; [|split; [|split; [exact Hop|]]]].
  - unfold writePacket, LocalDataPacketID, prependPacketID. rewrite (cr_cipher _ _ _ _ Hd), Ha, Hlid, Hb. go_step.
    unfold encryptAndEncodePayload. rewrite (cr_cipher _ _ _ _ Hd), Hbs, (cr_encode _ _ _ _ Hd).
    destruct (Z.eqb_spec (len b) 0) as [E%len_zero_iff|Hne]; [done|].
    unfold doPadding. destruct (Z.eqb_spec (len b) 0); [done|].
    destruct (String.eqb_spec (Compress (options d)) "stub"); [done|].
    rewrite BytesPadPKCS7_eq by lia. go_step. unfold codecOf. rewrite Ha.
    unfold encryptAndEncodePayloadNonAEAD. rewrite (cr_cipher _ _ _ _ Hd). go_step. rewrite Hbs, Hgen. go_step.
    rewrite Henc. go_step. rewrite (cr_hl _ _ _ _ Hd). go_step. fold mac. reflexivity.
  - reflexivity.
  - cbn [set_PeerID NewPacket Payload].
    change (dataHeader (set_localDataPacketID (localDataPacketID m + 1) m)) with (dataHeader m). exact Hq.
  - intros r st Hr. apply (readPacket_data e n q (mkSlice b (padBytes b 16))); [done| | |exact Hr].
    + rewrite Hpay. intros E%(f_equal length). rewrite !length_app, Hiv in E. cbn in E. lia.
    + assert (ct <> []) as Hct.
      { intros ->. rewrite length_app in Hlen. destruct b; [done|]. cbn in Hlen. lia. }
      rewrite Hpay, (NonAEAD_decode e n c hl' hl) by (done || apply hmac_size).
      unfold bytes_equal. rewrite bool_decide_true by done. rewrite Hck, Hdec. done.
Qed.

(** What the peer makes of an identifier and a payload, without compression. *)
Lemma nonaead_framing e c id payload pad :
  dataCipher (state e) = Some c -> isAEAD c = false -> hasCompressionByte (Compress (options e)) = false ->
  is_u32 id -> remotePacketID (state e) <> MaxUint32 ->
  maybeDecompress (mkSlice (be_bytes 4 id ++ payload) pad) (state e) (options e) =
    if id <=? remotePacketID (state e) then (Err ErrReplayAttack, state e)
    else (Ok payload, SetRemotePacketID id (state e)).
Proof.
  intros Hci Ha Hc Hu Hmax. unfold maybeDecompress. rewrite Hci, Ha. cbn [visible slack].
  assert (len (be_bytes 4 id) = 4) as H4 by (unfold len; now rewrite length_be_bytes).
  pose proof (len_nonneg payload). pose proof (len_nonneg pad).
  rewrite go_upto_Ok by (rewrite !len_app; lia).
  rewrite <- app_assoc, take_app_length' by now rewrite length_be_bytes.
  rewrite be_val_bytes. change (256 ^ Z.of_nat 4) with (2 ^ 32). rewrite Z.mod_small by done. unfold RemotePacketID.
  destruct (Z.eqb_spec (remotePacketID (state e)) MaxUint32); [done|].
  destruct (id <=? remotePacketID (state e)); [done|]. unfold splitCompression. rewrite Hc.
  rewrite go_from_Ok by (rewrite len_app; lia). go_step. rewrite drop_app_length' by now rewrite length_be_bytes. reflexivity.
Qed.

(** A packet of a non-AEAD mode without compression, and its reception when
    the last identifier accepted is [r]. *)
Lemma nonaead_packet gen d e m n c payload iv :
  mirrored d e m n c -> isAEAD c = false -> hasCompressionByte (Compress (options d)) = false ->
  manager_inv m -> localDataPacketID m < MaxUint32 -> gen 16 = Ok iv -> length iv = 16%nat ->
  exists p raw q,
    writePacket gen d m payload = (Ok p, set_localDataPacketID (localDataPacketID m + 1) m) /\
    Packet_Bytes p = Ok raw /\ ParsePacket raw = Ok q /\ Opcode q = P_DATA_V2 /\
    forall r, r <> MaxUint32 ->
      readPacket (atRemoteID r e) n q =
        if localDataPacketID m <=? r then (Err ErrReplayAttack, atRemoteID r e)
        else (Ok payload, atRemoteID (localDataPacketID m) e).
Proof.
  intros Hmi Ha Hc Hm Hid Hgen Hiv. set (id := localDataPacketID m) in *.
  assert (is_u32 id) as Hu by (destruct Hm; unfold is_u32, MaxUint32, id in *; lia).
  pose proof Hc as Hc'. unfold hasCompressionByte, CompressionStub, CompressionLZONo in Hc'.
  apply orb_false_iff in Hc' as [Hs Hl].
  assert (be_bytes 4 id ++ payload <> []) as Hne.
  { intros E%(f_equal length). rewrite length_app, length_be_bytes in E. cbn in E. lia. }
  assert (doCompress (be_bytes 4 id ++ payload) (Compress (options d)) = Ok (be_bytes 4 id ++ payload)) as Hdo
    by (unfold doCompress; now rewrite Hs, Hl).
  apply String.eqb_neq in Hs.
  destruct (NonAEAD_write gen d e m n c payload _ iv Hmi Ha Hm Hid Hgen Hiv Hs Hdo Hne) as (p & raw & q & Hw & Hb & Hp & Ho & _).
  exists p, raw, q. do 4 (split; [done|]). intros r Hr.
  assert (mirrored d (atRemoteID r e) m n c) as Hmi'.
  { destruct Hmi as [(hl & hr & hl' & Hd & He) ? ? ? ?]. constructor; try done. exists hl, hr, hl'. split; [done|]. now destruct He. }
  destruct (NonAEAD_write gen d _ m n c payload _ iv Hmi' Ha Hm Hid Hgen Hiv Hs Hdo Hne) as (p' & raw' & q' & Hw' & Hb' & Hp' & _ & Hread).
  assert (q' = q) as -> by congruence.
  destruct Hmi' as [(hl & hr & hl' & _ & He) _ _ Hcomp _].
  pose proof (nonaead_framing (atRemoteID r e) c id payload (padBytes (be_bytes 4 id ++ payload) 16)) as Hf.
  rewrite Hcomp in Hf. cbn [remotePacketID state atRemoteID set_state SetRemotePacketID] in Hf.
  specialize (Hf (cr_cipher _ _ _ _ He) Ha Hc Hu Hr).
  destruct (id <=? r); apply Hread in Hf; rewrite Hf; reflexivity.
Qed.
End RoundTripCBC.

(** In the non-AEAD modes, without compression framing, any tunnel
    payload (the empty one included) written by one side is recovered exactly
    by its peer, provided its packet identifier is above the last one the
    peer accepted; the peer remembers the identifier. *)
Theorem nonaead_wire_roundtrip `{CryptoLaws} gen d e m n c payload iv :
  mirrored d e m n c -> isAEAD c = false -> hasCompressionByte (Compress (options d)) = false ->
  manager_inv m -> localDataPacketID m < MaxUint32 -> gen 16 = Ok iv -> length iv = 16%nat ->
  remotePacketID (state e) < localDataPacketID m ->
  exists p raw q,
    writePacket gen d m payload = (Ok p, set_localDataPacketID (localDataPacketID m + 1) m) /\
    Packet_Bytes p = Ok raw /\ ParsePacket raw = Ok q /\
    readPacket e n q = (Ok payload, set_state (SetRemotePacketID (localDataPacketID m) (state e)) e).
Proof.
  intros Hmi Ha Hc Hm Hid Hgen Hiv Hrem.
  destruct (nonaead_packet gen d e m n c payload iv Hmi Ha Hc Hm Hid Hgen Hiv) as (p & raw & q & Hw & Hb & Hp & _ & Hr).
  exists p, raw, q. do 3 (split; [done|]). specialize (Hr (remotePacketID (state e)) ltac:(lia)).
  rewrite atRemoteID_self in Hr. rewrite Hr. now destruct (Z.leb_spec (localDataPacketID m) (remotePacketID (state e))); [lia|].
Qed.

Lemma nonaead_wire_roundtrip_witness :
  exists p raw q,
    writePacket (fun n => Ok (replicate (Z.to_nat n) Byte.x07)) (cbcChannel "empty") sampleManager samplePayload =
      (Ok p, set_localDataPacketID 2 sampleManager) /\
    Packet_Bytes p = Ok raw /\ ParsePacket raw = Ok q /\
    readPacket (mirrorChannel (cbcChannel "empty")) sampleManager q =
      (Ok samplePayload,
       set_state (SetRemotePacketID 1 (state (mirrorChannel (cbcChannel "empty")))) (mirrorChannel (cbcChannel "empty"))).
Proof.
  destruct (cbcChannel_ready "empty") as (hl & hr & Hd).
  apply (nonaead_wire_roundtrip (fun n => Ok (replicate (Z.to_nat n) Byte.x07)) (cbcChannel "empty")
    (mirrorChannel (cbcChannel "empty")) sampleManager sampleManager (mkDataCipherAES 16 "cbc") samplePayload
    (replicate 16 Byte.x07));
    [now apply mirrorChannel_mirrored with hl hr|reflexivity|reflexivity|apply sampleManager_inv
    |vm_compute; reflexivity|reflexivity|reflexivity|vm_compute; reflexivity].
Defined.

Lemma be_bytes_4 z :
  exists x y w, be_bytes 4 z = [x; y; w; z2b z].
Proof.
  exists (z2b (Z.shiftr z 24)), (z2b (Z.shiftr z 16)), (z2b (Z.shiftr z 8)).
  cbv [be_bytes]. change (8 * Z.of_nat 3) with 24. change (8 * Z.of_nat 2) with 16.
  change (8 * Z.of_nat 1) with 8. change (8 * Z.of_nat 0) with 0. now rewrite Z.shiftr_0_r.
Qed.

(** With [comp-lzo no] the non-AEAD modes do not interoperate with
    themselves: the writer puts the compression byte before the packet
    identifier and the reader expects it after.  Unless the low byte of the
    identifier happens to be a compression code, the peer rejects the packet,
    and it has then recorded an identifier above 0xfa000000, below which it
    will take everything for a replay. *)
Theorem nonaead_lzo_misframed `{CryptoLaws} gen d e m n c payload iv :
  mirrored d e m n c -> isAEAD c = false -> Compress (options d) = "lzo-no" ->
  manager_inv m -> localDataPacketID m < MaxUint32 -> gen 16 = Ok iv -> length iv = 16%nat ->
  localDataPacketID m mod 256 ∉ [0x00; 0xfa; 0xfb] -> remotePacketID (state e) < 0xfa000000 ->
  exists p raw q e',
    writePacket gen d m payload = (Ok p, set_localDataPacketID (localDataPacketID m + 1) m) /\
    Packet_Bytes p = Ok raw /\ ParsePacket raw = Ok q /\
    readPacket e n q = (Err ErrBadCompression, e') /\ 0xfa000000 <= remotePacketID (state e').
Proof.
  intros Hmi Ha Hc Hm Hid Hgen Hiv Hlow Hrem. set (id := localDataPacketID m) in *.
  destruct (be_bytes_4 id) as (x & y & w & Hbe).
  destruct (NonAEAD_write gen d e m n c payload (z2b 0xfa :: be_bytes 4 id ++ payload) iv)
    as (p & raw & q & Hw & Hb & Hp & _ & Hr);
    [done|done|done|done|done|done|rewrite Hc; done|unfold doCompress; now rewrite Hc|done|].
  exists p, raw, q, (set_state (SetRemotePacketID (be_val [z2b 0xfa; x; y; w]) (state e)) e).
  split; [exact Hw|]. split; [done|]. split; [done|].
  assert (0xfa000000 <= be_val [z2b 0xfa; x; y; w]) as Hbig.
  { rewrite be_val_cons, b2z_z2b_small by lia. change (256 ^ len [x; y; w]) with (256 ^ 3).
    pose proof (be_val_range [x; y; w]). lia. }
  split; [|exact Hbig]. apply Hr. destruct Hmi as [(hl & hr & hl' & _ & He) _ _ Hcomp _].
  unfold maybeDecompress. rewrite (cr_cipher _ _ _ _ He), Ha, Hbe. cbn [visible slack app].
  unfold go_upto. rewrite !len_cons. set (l := payload ++ _). pose proof (len_nonneg l).
  destruct (Z.leb_spec 4 (len l + 1 + 1 + 1 + 1 + 1)); [|lia].
  change (Z.to_nat 4) with 4%nat. cbn [Z.leb andb take]. change (0 <=? 4) with true. cbn [andb].
  cbn [take]. unfold RemotePacketID. rewrite ?take_0.
  destruct (Z.eqb_spec (remotePacketID (state e)) MaxUint32); [unfold MaxUint32 in *; lia|].
  destruct (Z.leb_spec (be_val [z2b 250; x; y; w]) (remotePacketID (state e))); [lia|].
  f_equal. unfold splitCompression. rewrite Hcomp, Hc.
  change (hasCompressionByte "lzo-no") with true. cbn iota.
  change (go_index (z2b 250 :: x :: y :: w :: z2b id :: payload) 4) with (Ok (z2b id)). go_step.
  rewrite go_from_Ok by (rewrite !len_cons; pose proof (len_nonneg payload); lia). go_step. cbn [fst snd].
  unfold undoCompression. rewrite b2z_z2b.
  destruct (Z.eqb_spec (id mod 256) 251) as [E|]; [set_solver|].
  destruct (Z.eqb_spec (id mod 256) 0) as [E|]; [set_solver|].
  destruct (Z.eqb_spec (id mod 256) 250) as [E|]; [set_solver | done].
Qed.

Lemma nonaead_lzo_misframed_witness :
  exists p raw q e',
    writePacket (fun n => Ok (replicate (Z.to_nat n) Byte.x07)) (cbcChannel "lzo-no") sampleManager samplePayload =
      (Ok p, set_localDataPacketID 2 sampleManager) /\
    Packet_Bytes p = Ok raw /\ ParsePacket raw = Ok q /\
    readPacket (mirrorChannel (cbcChannel "lzo-no")) sampleManager q = (Err ErrBadCompression, e') /\
    0xfa000000 <= remotePacketID (state e').
Proof.
  destruct (cbcChannel_ready "lzo-no") as (hl & hr & Hd).
  apply (nonaead_lzo_misframed (fun n => Ok (replicate (Z.to_nat n) Byte.x07)) (cbcChannel "lzo-no")
    (mirrorChannel (cbcChannel "lzo-no")) sampleManager sampleManager (mkDataCipherAES 16 "cbc") samplePayload
    (replicate 16 Byte.x07));
    [now apply mirrorChannel_mirrored with hl hr|reflexivity|reflexivity|apply sampleManager_inv
    |vm_compute; reflexivity|reflexivity|reflexivity| |vm_compute; reflexivity].
  change (localDataPacketID sampleManager mod 256) with 1. set_solver by lia.
Defined.

(** ** Replays *)

Section Replay.
Context `{Crypto}.

(** A run of [readPacket]; the session manager may change in between. *)
Fixpoint readPackets (d : DataChannel) (ps : list (Manager * Packet)) : DataChannel :=
  match ps with
  | [] => d
  | (m, p) :: ps' => readPackets (readPacket d m p).2 ps'
  end.

(** Decryption in the non-AEAD modes depends on neither the session manager
    nor the remote identifier. *)
Lemma decrypt_atRemoteID d m n i buf :
  decodeFn d = Some CodecNonAEAD ->
  DataChannel_decrypt (atRemoteID i d) n buf = DataChannel_decrypt d m buf.
Proof. intros Hc. unfold DataChannel_decrypt, decodeEncryptedPayload. cbn. now rewrite Hc. Qed.

(** The identifier a decrypted buffer starts with. *)
Definition idOf (b : slice) : Z := be_val (take 4 (visible b ++ slack b)).

Lemma maybeDecompress_nonaead b st opt c r st' :
  dataCipher st = Some c -> isAEAD c = false -> maybeDecompress b st opt = (r, st') ->
  (st' = st /\ is_ok r = false) \/ (remotePacketID st < idOf b /\ st' = SetRemotePacketID (idOf b) st).
Proof.
  intros Hc Ha. unfold maybeDecompress, idOf. rewrite Hc, Ha. unfold go_upto.
  destruct (_ && _); [|intros [= <- <-]; auto]. unfold RemotePacketID.
  destruct (_ =? MaxUint32); [intros [= <- <-]; auto|].
  change (Z.to_nat 4) with 4%nat.
  destruct (Z.leb_spec (be_val (take 4 (visible b ++ slack b))) (remotePacketID st)); intros [= <- <-]; auto.
Qed.

Lemma readPacket_nonaead d m q r d' c :
  dataCipher (state d) = Some c -> isAEAD c = false -> readPacket d m q = (r, d') ->
  exists i, remotePacketID (state d) <= i /\ d' = atRemoteID i d /\
    (is_ok r = true -> exists pt, DataChannel_decrypt d m (Payload q) = Ok pt /\ idOf pt = i).
Proof.
  intros Hc Ha. unfold readPacket.
  assert (forall x : outcome (list byte), is_ok x = false -> (x, d) = (r, d') ->
    exists i, remotePacketID (state d) <= i /\ d' = atRemoteID i d /\
    (is_ok r = true -> exists pt, DataChannel_decrypt d m (Payload q) = Ok pt /\ idOf pt = i)) as Hsame.
  { intros x Hx [= <- <-]. exists (remotePacketID (state d)). rewrite atRemoteID_self, Hx. split; [lia|]. done. }
  destruct (_ =? 0); [now apply Hsame|]. destruct (negb _); [now apply Hsame|].
  destruct (DataChannel_decrypt d m (Payload q)) as [pt|e|] eqn:Ed; [|now apply Hsame|now apply Hsame].
  destruct (maybeDecompress pt (state d) (options d)) as [r1 st1] eqn:Em. intros [= -> <-].
  apply (maybeDecompress_nonaead _ _ _ c) in Em as [[-> Hr]|[Hlt ->]]; [| |done|done].
  - exists (remotePacketID (state d)). rewrite set_state_id, atRemoteID_self, Hr. split; [lia|]. done.
  - exists (idOf pt). split; [lia|]. split; [done|]. eauto.
Qed.

Lemma readPackets_nonaead d ps c :
  dataCipher (state d) = Some c -> isAEAD c = false ->
  exists i, remotePacketID (state d) <= i /\ readPackets d ps = atRemoteID i d.
Proof.
  intros Hc Ha. revert d Hc. induction ps as [|[m p] ps IH]; intros d Hc; cbn [readPackets].
  - exists (remotePacketID (state d)). now rewrite atRemoteID_self.
  - destruct (readPacket d m p) as [r d1] eqn:E. cbn [snd].
    apply (readPacket_nonaead _ _ _ _ _ c) in E as (i & Hi & -> & _); [|done|done].
    destruct (IH (atRemoteID i d) Hc) as (j & Hj & ->). exists j. cbn in Hj. split; [lia | done].
Qed.
End Replay.

(** C12: in the non-AEAD modes a packet is accepted at most once: after it
    was, and whatever other packets were read since, reading it again fails
    as a replay (or because the peer's identifiers are exhausted). *)
Theorem nonaead_no_replay `{Crypto} d c m q x d1 ps n :
  dataCipher (state d) = Some c -> isAEAD c = false -> decodeFn d = Some CodecNonAEAD ->
  readPacket d m q = (Ok x, d1) ->
  let d2 := readPackets d1 ps in
  (readPacket d2 n q).1 = Err ErrReplayAttack \/ (readPacket d2 n q).1 = Err ErrExpiredKey.
Proof.
  intros Hc Ha Hf E. cbv zeta. pose proof E as E0.
  apply (readPacket_nonaead _ _ _ _ _ c) in E as (i & Hi & -> & Hok); [|done|done].
  destruct (Hok eq_refl) as (pt & Hdec & Hid).
  destruct (readPackets_nonaead (atRemoteID i d) ps c Hc Ha) as (j & Hj & ->). cbn in Hj.
  change (atRemoteID j (atRemoteID i d)) with (atRemoteID j d).
  unfold readPacket in E0 |- *. destruct (_ =? 0); [done|]. destruct (negb _); [done|].
  rewrite (decrypt_atRemoteID d m n j) by done. rewrite Hdec in E0 |- *.
  unfold maybeDecompress in E0 |- *. cbn [state set_state atRemoteID SetRemotePacketID dataCipher options remotePacketID].
  rewrite Hc, Ha in E0 |- *. unfold idOf in Hid. unfold go_upto in E0 |- *.
  change (Z.to_nat 4) with 4%nat in E0 |- *.
  destruct (_ && _); [|done]. unfold RemotePacketID. cbn [remotePacketID].
  destruct (_ =? MaxUint32); [right; reflexivity|]. rewrite Hid.
  change (remotePacketID (SetRemotePacketID j (state d))) with j.
  destruct (Z.leb_spec i j); [left; reflexivity | lia].
Qed.

(** A packet sealed for the channel [mirrorChannel (cbcChannel "empty")]. *)
Definition sampleDataPacket : Packet :=
  Eval vm_compute in
  unwrap (NewPacket 0 0 [])
    (p ← (writePacket (fun n => Ok (replicate (Z.to_nat n) Byte.x07)) (cbcChannel "empty") sampleManager samplePayload).1;
     raw ← Packet_Bytes p; ParsePacket raw).

Lemma nonaead_no_replay_witness :
  exists x d1, readPacket (mirrorChannel (cbcChannel "empty")) sampleManager sampleDataPacket = (Ok x, d1) /\
  ((readPacket d1 sampleManager sampleDataPacket).1 = Err ErrReplayAttack \/
   (readPacket d1 sampleManager sampleDataPacket).1 = Err ErrExpiredKey).
Proof.
  exists samplePayload, (atRemoteID 1 (mirrorChannel (cbcChannel "empty"))).
  split; [vm_compute; reflexivity|].
  apply (nonaead_no_replay (mirrorChannel (cbcChannel "empty")) (mkDataCipherAES 16 "cbc") sampleManager
    sampleDataPacket samplePayload (atRemoteID 1 (mirrorChannel (cbcChannel "empty"))) [] sampleManager);
    vm_compute; reflexivity.
Defined.

(** In the AEAD modes reading leaves the channel as it was, whatever the
    packet and the result. *)
Lemma readPacket_aead_pure `{Crypto} d c m q :
  dataCipher (state d) = Some c -> isAEAD c = true -> (readPacket d m q).2 = d.
Proof.
  intros Hc Ha. unfold readPacket. destruct (_ =? 0); [done|]. destruct (negb _); [done|].
  destruct (DataChannel_decrypt d m (Payload q)); [|done|done].
  unfold maybeDecompress. rewrite Hc, Ha. apply set_state_id.
Qed.

Lemma readPackets_aead `{Crypto} d c ps :
  dataCipher (state d) = Some c -> isAEAD c = true -> readPackets d ps = d.
Proof.
  intros Hc Ha. induction ps as [|[m q] ps IH]; cbn [readPackets]; [done|].
  now rewrite (readPacket_aead_pure d c m q Hc Ha).
Qed.

(** The AEAD modes have no replay protection: a packet that was accepted
    is accepted again, with the same payload, whatever was read in between. *)
Theorem aead_accepts_replays `{Crypto} d c m q x d1 ps :
  dataCipher (state d) = Some c -> isAEAD c = true -> readPacket d m q = (Ok x, d1) ->
  readPacket (readPackets d1 ps) m q = (Ok x, d1).
Proof.
  intros Hc Ha E. pose proof (readPacket_aead_pure d c m q Hc Ha) as P. rewrite E in P. cbn in P.
  subst d1. now rewrite (readPackets_aead d c ps Hc Ha).
Qed.

Definition sampleGcmPacket : Packet :=
  Eval vm_compute in
  unwrap (NewPacket 0 0 [])
    (p ← (writePacket (fun _ => Panic) gcmChannel sampleManager samplePayload).1;
     raw ← Packet_Bytes p; ParsePacket raw).

Lemma aead_accepts_replays_witness :
  exists x d1, readPacket (mirrorChannel gcmChannel) sampleManager sampleGcmPacket = (Ok x, d1) /\
    readPacket (readPackets d1 [(sampleManager, sampleGcmPacket)]) sampleManager sampleGcmPacket = (Ok x, d1).
Proof.
  exists (samplePayload ++ replicate 2 (z2b 3)), (mirrorChannel gcmChannel). split; [vm_compute; reflexivity|].
  apply (aead_accepts_replays (mirrorChannel gcmChannel) (mkDataCipherAES 32 "gcm")); vm_compute; reflexivity.
Defined.

(** ** Nonces *)

Section Nonces.
Context `{Crypto}.

(** The packets a run of [writePacket] produces. *)
Fixpoint writePackets (gen : Z -> outcome (list byte)) (d : DataChannel) (m : Manager) (payloads : list (list byte))
  : list Packet * Manager :=
  match payloads with
  | [] => ([], m)
  | b :: bs =>
      let '(r, m1) := writePacket gen d m b in
      let '(ps, m2) := writePackets gen d m1 bs in
      (match r with Ok p => p :: ps | _ => ps end, m2)
  end.

(** The explicit part of the nonce; the rest is the fixed HMAC key. *)
Definition packetNonce (p : Packet) : list byte := take 4 (drop 4 (Payload p)).

(** The identifier counter moves only forward, and each packet carries the
    value the counter had. *)
Definition usesNonce (m : Manager) (r : outcome Packet) (m' : Manager) : Prop :=
  (m' = m /\ is_ok r = false) \/
  (localDataPacketID m < MaxUint32 /\ m' = set_localDataPacketID (localDataPacketID m + 1) m /\
   forall p, r = Ok p -> packetNonce p = be_bytes 4 (localDataPacketID m)).

Lemma encodeAEAD_nonce padded m st r m' :
  manager_inv m -> encryptAndEncodePayloadAEAD padded m st = (r, m') ->
  (m' = m /\ is_ok r = false) \/
  (localDataPacketID m < MaxUint32 /\ m' = set_localDataPacketID (localDataPacketID m + 1) m /\
   forall b, r = Ok b -> take 4 (drop 4 b) = be_bytes 4 (localDataPacketID m)).
Proof.
  intros Hm. unfold encryptAndEncodePayloadAEAD, LocalDataPacketID.
  destruct (localDataPacketIDLocked_spec m Hm) as [[_ ->]|[Hlt ->]];
    intros E; apply pair_equal_spec in E as [<- <-]; [now left|right].
  assert (is_u32 (localDataPacketID m)) as Hu by (destruct Hm; unfold is_u32, MaxUint32 in *; lia).
  split; [done|]. split; [done|]. intros b Hb.
  do 4 (apply bind_Ok in Hb as (? & _ & Hb); cbv zeta in Hb).
  match type of Hb with Ok ?y = Ok b => assert (b = y) as -> by congruence end.
  rewrite WriteUint32_app by apply u32_range. rewrite u32_small by done.
  rewrite <- !app_assoc, drop_app_length' by now rewrite dataHeader_length.
  now rewrite take_app_length' by now rewrite length_be_bytes.
Qed.

Lemma writePacket_nonce gen d c hl hr m payload r m' :
  channel_ready d c hl hr -> isAEAD c = true -> manager_inv m ->
  writePacket gen d m payload = (r, m') -> usesNonce m r m'.
Proof.
  intros Hd Ha Hm. unfold writePacket, encryptAndEncodePayload, usesNonce.
  rewrite (cr_cipher _ _ _ _ Hd), (cr_encode _ _ _ _ Hd), Ha. unfold codecOf. rewrite Ha.
  destruct (rewrap _ (doCompress _ _)) as [b| |]; try (intros [= <- <-]; now left).
  destruct (len b =? 0); [intros [= <- <-]; now left|].
  destruct (rewrap _ (doPadding _ _ _)) as [padded| |]; try (intros [= <- <-]; now left).
  destruct (encryptAndEncodePayloadAEAD padded m (state d)) as [r1 m1] eqn:E. intros [= <- <-].
  apply encodeAEAD_nonce in E as [[-> Hr]|(Hlt & -> & Hr)]; [| |done].
  - left. split; [done|]. now destruct r1.
  - right. split; [done|]. split; [done|]. intros p Hp. destruct r1 as [b1| |]; try done.
    injection Hp as <-. now apply Hr.
Qed.

Lemma writePackets_nonces gen d c hl hr payloads m ps m' :
  channel_ready d c hl hr -> isAEAD c = true -> manager_inv m ->
  writePackets gen d m payloads = (ps, m') ->
  NoDup (map packetNonce ps) /\
  Forall (fun p => exists i, localDataPacketID m <= i < MaxUint32 /\ packetNonce p = be_bytes 4 i) ps.
Proof.
  intros Hd Ha. revert m ps m'. induction payloads as [|b bs IH]; intros m ps m' Hm; cbn [writePackets].
  - intros [= <- <-]. split; constructor.
  - destruct (writePacket gen d m b) as [r m1] eqn:E1.
    destruct (writePackets gen d m1 bs) as [ps2 m2] eqn:E2. intros [= <- <-].
    apply (writePacket_nonce gen d c hl hr) in E1 as [[-> Hr]|(Hlt & -> & Hr)]; [| |done|done|done].
    + apply IH in E2 as [H1 H2]; [|done]. now destruct r.
    + pose proof (manager_inv_set_data m (localDataPacketID m + 1) Hm) as Hm1.
      assert (manager_inv (set_localDataPacketID (localDataPacketID m + 1) m)) as Hm1'
        by (apply Hm1; destruct Hm; unfold MaxUint32 in *; lia).
      apply IH in E2 as [Hnd Hall]; [|done]. cbn [localDataPacketID set_localDataPacketID] in Hall.
      assert (Forall (fun p => exists i, localDataPacketID m <= i < MaxUint32 /\ packetNonce p = be_bytes 4 i) ps2) as Hall'.
      { eapply Forall_impl; [exact Hall|]. cbn. intros p (i & Hi & E). exists i. split; [lia | done]. }
      destruct r as [p| |]; [|done|done]. specialize (Hr p eq_refl).
      split; [|constructor; [exists (localDataPacketID m); split; [lia | done] | done]].
      cbn [map]. constructor; [|done]. rewrite Hr. intros Hin.
      apply list_elem_of_In, in_map_iff in Hin as (q & Hq & Hin).
      rewrite List.Forall_forall in Hall. destruct (Hall q Hin) as (i & Hi & E).
      rewrite Hq in E. apply (f_equal be_val) in E. rewrite !be_val_bytes in E.
      change (256 ^ Z.of_nat 4) with (2 ^ 32) in E. destruct Hm.
      rewrite !Z.mod_small in E by (unfold MaxUint32 in *; lia). lia.
Qed.
End Nonces.

(** No two packets a session sends in an AEAD mode carry the same packet
    identifier, hence no nonce is used twice with a key: the counter never
    wraps around, and once it is exhausted no packet is produced. *)
Theorem aead_nonces_unique `{Crypto} gen d c hl hr m payloads ps m' :
  channel_ready d c hl hr -> isAEAD c = true -> manager_inv m ->
  writePackets gen d m payloads = (ps, m') -> NoDup (map packetNonce ps).
Proof. intros Hd Ha Hm E. now apply (writePackets_nonces gen d c hl hr) in E as [? _]. Qed.

Lemma aead_nonces_unique_witness :
  exists ps m', writePackets (fun _ => Panic) gcmChannel sampleManager [samplePayload; samplePayload; []] = (ps, m') /\
    length ps = 2%nat /\ NoDup (map packetNonce ps).
Proof.
  destruct (writePackets (fun _ => Panic) gcmChannel sampleManager [samplePayload; samplePayload]) as [ps m'] eqn:E.
  exists ps, m'. split.
  - vm_compute in E |- *. exact E.
  - split; [vm_compute in E; injection E as <- <-; reflexivity|].
    destruct gcmChannel_ready as (hl & hr & Hd).
    apply (aead_nonces_unique (fun _ => Panic) gcmChannel (mkDataCipherAES 32 "gcm") hl hr sampleManager
      [samplePayload; samplePayload] ps m'); [done|reflexivity|apply sampleManager_inv|exact E].
Defined.

(** ** Crashes *)

Section Crashes.
Context `{Crypto}.

(** The tag of an AEAD payload verifies under the remote key. *)
Definition tagVerifies (d : DataChannel) (m : Manager) (c : dataCipherAES) (buf : list byte) : Prop :=
  20 <= len buf /\ exists pt, gcmOpen (take (Z.to_nat (ksb c)) (cipherKeyRemote (state d)))
               (take 4 buf ++ take 8 (hmacKeyRemote (state d)))
               (drop 20 buf ++ take 16 (drop 4 buf))
               (dataHeader m ++ take 4 buf) = Some pt.

(** A non-AEAD payload starts with the HMAC of the rest. *)
Definition macVerifies (hr : hmacHash) (buf : list byte) : Prop :=
  hmacSum (hh_alg hr) (hh_key hr) (drop (Z.to_nat (hashSize (hh_alg hr))) buf)
    = take (Z.to_nat (hashSize (hh_alg hr))) buf.

(** A computation that ended with an error. *)
Ltac refused := split; [discriminate | intros ?; discriminate].

Lemma decrypt_not_ok_AEAD d c hl hr m buf :
  channel_ready d c hl hr -> isAEAD c = true -> DataChannel_decrypt d m buf <> Panic /\
  (is_ok (DataChannel_decrypt d m buf) = true -> tagVerifies d m c buf).
Proof.
  intros [] Ha. destruct (cipher_ok_ksb c cr_cipher_ok0) as [Hks _].
  unfold DataChannel_decrypt, decodeEncryptedPayload, decodeEncryptedPayloadAEAD, tagVerifies.
  rewrite cr_decrypt0, cr_decode0, cr_cipher0. unfold codecOf. rewrite Ha.
  assert (len (hmacKeyRemote (state d)) =? 0 = false) as -> by (unfold len; now rewrite cr_hkr0).
  rewrite bool_decide_true by done. go_step.
  destruct (Z.ltb_spec (len buf) 20) as [|Hlen]; [by rewrite orb_true_r|]. rewrite orb_false_r.
  destruct (_ =? 0); [done|]. destruct (_ <? _); [done|]. go_step. cbn [ciphertext].
  destruct (_ =? 0); [done|]. unfold decrypt.
  destruct (_ <? _); [refused|]. rewrite go_upto_Ok by (unfold len; lia). go_step.
  destruct (aesKeyOk _); [|refused]. cbn [negb].
  unfold isAEAD in Ha. apply negb_true_iff in Ha. rewrite Ha.
  destruct (String.eqb (mode c) cipherModeGCM); [|refused]. cbn [e_iv ciphertext e_aead].
  destruct (len (take 4 buf ++ _) =? 12); [|refused]. cbn [negb].
  destruct (gcmOpen _ _ _ _) as [pt|]; [|refused]. split; [discriminate|]. eauto.
Qed.

Lemma decrypt_forged_NonAEAD d c hl hr m buf :
  channel_ready d c hl hr -> isAEAD c = false -> ~ macVerifies hr buf ->
  DataChannel_decrypt d m buf = if len buf <? hashSize (hh_alg hr) + 16 then Err ErrCannotDecrypt else Panic.
Proof.
  intros [] Ha Hforged. destruct (cipher_ok_ksb c cr_cipher_ok0) as [_ Hbs].
  unfold DataChannel_decrypt, decodeEncryptedPayload, decodeEncryptedPayloadNonAEAD.
  rewrite cr_decrypt0, cr_decode0, cr_cipher0, cr_hr0, cr_log0. unfold codecOf. rewrite Ha.
  assert (len (hmacKeyRemote (state d)) =? 0 = false) as -> by (unfold len; now rewrite cr_hkr0).
  go_step. cbv zeta. rewrite Hbs. unfold macVerifies in Hforged.
  pose proof (hashSize_bounds (hh_alg hr)) as Hhs. set (hs := hashSize (hh_alg hr)) in *.
  assert (u8 hs = hs) as -> by (apply Z.mod_small; lia).
  assert (u8 (hs + 16) = hs + 16) as -> by (apply Z.mod_small; lia).
  destruct (Z.ltb_spec (len buf) (hs + 16)); [done|].
  rewrite !go_upto_Ok by lia. go_step.
  rewrite !go_from_Ok by (unfold len in *; rewrite ?length_take; lia). go_step.
  assert (drop (Z.to_nat hs) (take (Z.to_nat (hs + 16)) buf) ++ drop (Z.to_nat (hs + 16)) buf = drop (Z.to_nat hs) buf) as ->.
  { replace (Z.to_nat (hs + 16)) with (Z.to_nat hs + 16)%nat by lia.
    rewrite <- take_drop_commute, <- drop_drop, take_drop. done. }
  unfold bytes_equal. now rewrite bool_decide_false.
Qed.
End Crashes.

(** C18: in the non-AEAD modes every data packet whose HMAC is wrong crashes
    the client, unless it is too short to carry an HMAC and an IV: the reader
    logs the mismatch to the field [log] of the channel, which the constructor
    never sets.  No key is needed to make such a packet. *)
Theorem forged_mac_crashes `{Crypto} d c hl hr m q :
  channel_ready d c hl hr -> isAEAD c = false -> Packet_IsData q = true -> ~ macVerifies hr (Payload q) ->
  readPacket d m q =
    (if len (Payload q) <? hashSize (hh_alg hr) + 16 then Err ErrCannotDecrypt else Panic, d).
Proof.
  intros Hd Ha Hq Hforged. unfold readPacket. rewrite Hq, (decrypt_forged_NonAEAD d c hl hr m) by done.
  pose proof (hashSize_bounds (hh_alg hr)) as Hhs. cbn [negb].
  destruct (Z.eqb_spec (len (Payload q)) 0) as [->|_].
  - now destruct (Z.ltb_spec 0 (hashSize (hh_alg hr) + 16)); [|lia].
  - now destruct (_ <? _).
Qed.

(** A made-up SHA256 HMAC and IV. *)
Definition forgedPacket : Packet :=
  mkPacket P_DATA_V2 0 zeroPeerID zeroSessionID [] zeroSessionID 0 (replicate 32 Byte.xff ++ replicate 16 Byte.x00).

Lemma forged_mac_crashes_witness :
  readPacket (cbcChannel "empty") sampleManager forgedPacket = (Panic, cbcChannel "empty").
Proof.
  apply (forged_mac_crashes (cbcChannel "empty") (mkDataCipherAES 16 "cbc")
    (unwrap (mkHmacHash SHA256 []) (match hmacLocal (state (cbcChannel "empty")) with Some h => Ok h | None => Panic end))
    (unwrap (mkHmacHash SHA256 []) (match hmacRemote (state (cbcChannel "empty")) with Some h => Ok h | None => Panic end)));
    [constructor; vm_compute; reflexivity|reflexivity|reflexivity|].
  vm_compute. discriminate.
Defined.

(** The payload of a packet whose plaintext [p] was sealed for this reader
    under the packet identifier [id]: identifier, tag, ciphertext. *)
Definition sealedPayload `{Crypto} (d : DataChannel) (m : Manager) (c : dataCipherAES) (id p : list byte) : list byte :=
  let sealed := gcmSeal (take (Z.to_nat (ksb c)) (cipherKeyRemote (state d)))
                  (id ++ take 8 (hmacKeyRemote (state d))) p (dataHeader m ++ id) in
  id ++ drop (length p) sealed ++ take (length p) sealed.

Lemma tagVerifies_sealed `{CryptoLaws} d m c buf :
  tagVerifies d m c buf -> exists id p, length id = 4%nat /\ buf = sealedPayload d m c id p.
Proof.
  intros (Hlen & p & E). exists (take 4 buf), p. unfold len in Hlen. split; [rewrite length_take; lia|].
  apply gcm_sealed in E. pose proof (f_equal length E) as El. rewrite gcm_overhead in El.
  autorewrite with golen in El.
  unfold sealedPayload. rewrite <- E.
  rewrite drop_app_ge, take_app_le by (rewrite length_drop; lia). rewrite length_drop.
  replace (length p - (length buf - 20))%nat with 0%nat by lia. rewrite drop_0, (take_ge (drop 20 buf)) by (rewrite length_drop; lia).
  rewrite <- (take_drop 4 buf) at 1. f_equal. rewrite <- (take_drop 16 (drop 4 buf)) at 1. now rewrite drop_drop.
Qed.

(** C19: in the AEAD modes a data packet has an effect only if it was sealed
    with the keys of the session: when [readPacket] returns a payload, or
    panics, the packet is its identifier followed by the tag and ciphertext of
    some plaintext, sealed under the remote key with the nonce made of the
    identifier and the header and identifier as additional data.  Every
    other data packet is refused with an error. *)
Theorem aead_acts_only_on_sealed `{CryptoLaws} d c hl hr m q r d' :
  channel_ready d c hl hr -> isAEAD c = true -> Packet_IsData q = true -> readPacket d m q = (r, d') ->
  (forall e, r <> Err e) ->
  exists id p, length id = 4%nat /\ Payload q = sealedPayload d m c id p.
Proof.
  intros Hd Ha Hq E Hr. apply tagVerifies_sealed.
  destruct (decrypt_not_ok_AEAD d c hl hr m (Payload q) Hd Ha) as [Hp Hok]. apply Hok.
  unfold readPacket in E. rewrite Hq in E. destruct (_ =? 0); [injection E as <- _; by destruct (Hr ErrCannotDecrypt)|].
  cbn [negb] in E. destruct (DataChannel_decrypt d m (Payload q)) as [|e|]; [done| |done].
  injection E as <- _. by destruct (Hr e).
Qed.

(** An authenticated GCM packet with an empty plaintext, for a channel that
    uses the compression stub. *)
Definition emptyGcmPacket : Packet :=
  mkPacket P_DATA_V2 0 zeroPeerID zeroSessionID [] zeroSessionID 0
    (be_bytes 4 1 ++ gcmSeal (take 32 (cipherKeyLocal (state gcmChannel)))
       (be_bytes 4 1 ++ take 8 (hmacKeyLocal (state gcmChannel))) [] (dataHeader sampleManager ++ be_bytes 4 1)).

Lemma aead_acts_only_on_sealed_witness :
  exists d', readPacket (mirrorChannel gcmChannel) sampleManager emptyGcmPacket = (Panic, d') /\
  exists id p, length id = 4%nat /\
    Payload emptyGcmPacket = sealedPayload (mirrorChannel gcmChannel) sampleManager (mkDataCipherAES 32 "gcm") id p.
Proof.
  destruct gcmChannel_ready as (hl & hr & Hd).
  destruct (mirrorChannel_mirrored gcmChannel sampleManager _ hl hr Hd) as [(h1 & h2 & h3 & _ & He) _ _ _ _].
  exists (mirrorChannel gcmChannel). split; [vm_compute; reflexivity|].
  apply (aead_acts_only_on_sealed (mirrorChannel gcmChannel) (mkDataCipherAES 32 "gcm") h3 h1 sampleManager
    emptyGcmPacket Panic (mirrorChannel gcmChannel)); [exact He|reflexivity|reflexivity|vm_compute; reflexivity|discriminate].
Defined.

(** ** Workers *)

(** The up-worker takes every decrypted payload of sixteen bytes for a
    keep-alive and drops it, whatever its contents; all other payloads go to
    the TUN unchanged and in both cases the worker goes on. *)
Theorem sixteen_byte_payload_dropped `{Crypto} ws pkt payload d :
  readPacket (dataChannel ws) (sessionManager ws) pkt = (Ok payload, d) ->
  moveUpWorker_step ws pkt =
    Ok (mkWorkersState d (sessionManager ws) (firstKeyReady ws),
        if decide (length payload = 16%nat) then [] else [payload]).
Proof.
  intros E. unfold moveUpWorker_step. rewrite E. unfold len.
  destruct (Z.eqb_spec (Z.of_nat (length payload)) 16), (decide (length payload = 16%nat)); (done || lia).
Qed.

(** A sixteen-byte payload that is not the OpenVPN ping. *)
Definition sixteenBytes : list byte := bytes_of_string "0123456789abcdef".

Definition sixteenPacket : Packet :=
  Eval vm_compute in
  unwrap (NewPacket 0 0 [])
    (p ← (writePacket (fun n => Ok (replicate (Z.to_nat n) Byte.x07)) (cbcChannel "empty") sampleManager sixteenBytes).1;
     raw ← Packet_Bytes p; ParsePacket raw).

Lemma sixteen_byte_payload_dropped_witness :
  sixteenBytes <> pingPayload /\
  exists ws', moveUpWorker_step (mkWorkersState (mirrorChannel (cbcChannel "empty")) sampleManager true) sixteenPacket
    = Ok (ws', []).
Proof.
  split; [vm_compute; congruence|]. eexists.
  apply (sixteen_byte_payload_dropped
    (mkWorkersState (mirrorChannel (cbcChannel "empty")) sampleManager true) sixteenPacket sixteenBytes
    (atRemoteID 1 (mirrorChannel (cbcChannel "empty")))).
  vm_compute. reflexivity.
Defined.

(** ** The vectors of the repository's own tests *)

(** [makeTestingStateAEAD] and [makeTestingStateNonAEAD] of common_test.go *)
Definition testingState (md : string) : dataChannelState :=
  mkDataChannelState (Some (mkDataCipherAES 16 md))
    (Some (mkHmacHash SHA1 (replicate 20 (z2b 0x67)))) (Some (mkHmacHash SHA1 (replicate 20 (z2b 0x68))))
    (replicate 64 (z2b 0x65)) (replicate 64 (z2b 0x66)) (replicate 64 (z2b 0x67)) (replicate 64 (z2b 0x68)) 0 (Some SHA1).

Definition rnd16 : list byte := bytes_of_string "0123456789012345".

(** The ciphers, the key derivation and the two encoders, over AES and the
    hash functions, compute the byte strings that crypto_test.go and
    write_test.go expect of them, in both directions for the ciphers. *)
Example repository_vectors :
  let key := replicate 64 (z2b 0x41) in
  let gcm := mkDataCipherAES 16 "gcm" in let cbc := mkDataCipherAES 16 "cbc" in
  let iv12 := unhex "000000006868686868686868" in
  let iv16 := unhex "00000000686868686868686865656565" in
  let aead := unhex "00010203" in
  let green := bytes_of_string "this test is green" in
  let cGCM := unhex "a949df311c57ec762428a7ba98d1d0d8213134925bf1cd2cb4ab4ea9066c569b0579" in
  let cCBC := unhex "f908ff8dedbe4e2097c992c67e603d25606c76a460cd785503cf0a2a9e6ec961" in
  encrypt gcm key (mkPlaintextData iv12 green aead) = Ok cGCM /\
  decrypt gcm key (mkEncryptedData iv12 cGCM aead) = Ok (mkSlice green []) /\
  encrypt cbc key (mkPlaintextData iv16 (green ++ padBytes green 16) []) = Ok cCBC /\
  decrypt cbc key (mkEncryptedData iv16 cCBC []) = Ok (mkSlice green (padBytes green 16)) /\
  prf (bytes_of_string "secret") (bytes_of_string "master key") (bytes_of_string "aaa") (bytes_of_string "bbb") [] [] 16 =
    Some (unhex "67187c52acd24d959a55d31cdb978011") /\
  (padded ← doPadding (bytes_of_string "hello go tests") "" 16;
   (encryptAndEncodePayloadAEAD padded sampleManager (testingState "gcm")).1) =
    Ok (unhex "48000000000000016ac571106b388f465849c92cb509dfc694c686a0734b92c443b193d579efe1b8") /\
  encryptAndEncodePayloadNonAEAD (fun _ => Ok rnd16) (replicate 16 (z2b 0xff)) sampleManager (testingState "cbc") =
    Ok (unhex "48000000fdf9b069b2e5a637fa7b5c9231166ea96307e4123031323334353637383930313233343581e4878c5eec602c2d2f5a95139c84af") /\
  encryptAndEncodePayloadNonAEAD (fun _ => Ok rnd16) (replicate 15 (z2b 0xff)) sampleManager (testingState "cbc") =
    Err ErrCannotEncrypt.
Proof. cbv zeta. repeat apply conj; vm_compute; reflexivity. Qed.
