(* ===== verification/Muxer.v ===== *)
(** * internal/packetmuxer

    [service.go].  A channel send is an [effect]; a send in a [select] with
    the shutdown channel takes an argument saying at which send, if any, the
    shutdown is chosen.  The ticker is modelled with its one-slot channel:
    [Stop] does not drain a tick that was already delivered (the module's Go
    version, 1.20, has this semantics). *)

From S2P Require Import Prelude Bytesx Packet Session.

Inductive effect : Type :=
  | ToReliable (p : Packet)
  | ToData (p : Packet)
  | ToNetwork (raw : list byte)
  | ToTLS (n : Notification).

(** Sends in sequence; [Some n] means that the shutdown wins the select of
    send number [n]. *)
Definition trySends (sd : option nat) (es : list effect) : outcome unit * list effect :=
  match sd with
  | Some n => if (n <? length es)%nat then (Err ErrShutdown, take n es) else (Ok tt, es)
  | None => (Ok tt, es)
  end.

(** [time.Ticker]: whether it runs, its period, and a tick in its channel. *)
Record Ticker : Type := mkTicker { running : bool; period : Z; pendingTick : bool }.

Definition Second : Z := 1000000000.
Definition longWakeup : Z := 3600 * Second * 24 * 30.

Definition NewTicker (d : Z) : Ticker := mkTicker true d false.
Definition Ticker_Stop (t : Ticker) : Ticker := mkTicker false (period t) (pendingTick t).
Definition Ticker_Reset (d : Z) (t : Ticker) : Ticker := mkTicker true d (pendingTick t).
(** The runtime delivers a tick; receiving it empties the slot. *)
Definition Ticker_fire (t : Ticker) : Ticker := mkTicker (running t) (period t) true.
Definition Ticker_receive (t : Ticker) : Ticker := mkTicker (running t) (period t) false.

Record workersState : Type := mkWorkersState {
  hardResetCount : Z;
  hardResetTicker : Ticker;
  sessionManager : Manager
}.

Definition StartWorkers (m : Manager) : workersState := mkWorkersState 0 (NewTicker longWakeup) m.

Definition set_manager (m : Manager) (ws : workersState) : workersState :=
  mkWorkersState (hardResetCount ws) (hardResetTicker ws) m.
Definition set_ticker (t : Ticker) (ws : workersState) : workersState :=
  mkWorkersState (hardResetCount ws) t (sessionManager ws).

Definition serializeAndEmit (sd : option nat) (packet : Packet) : outcome unit * list effect :=
  match Packet_Bytes packet with
  | Ok rawPacket => trySends sd [ToNetwork rawPacket]
  | Err e => (Err e, [])
  | Panic => (Panic, [])
  end.

Definition startHardReset (sd : option nat) (ws : workersState) : outcome unit * workersState * list effect :=
  let '(m, _) := SetNegotiationState (sessionManager ws) S_PRE_START in
  let ws := mkWorkersState (hardResetCount ws + 1) (hardResetTicker ws) m in
  let packet := NewHardResetPacket m in
  let '(r, es) := serializeAndEmit sd packet in
  match r with
  | Ok _ => (Ok tt, set_ticker (Ticker_Reset (Second * 2) (hardResetTicker ws)) ws, es)
  | _ => (r, ws, es)
  end.

(** [SetRemoteSessionID] asserts that no remote session is set. *)
Definition finishThreeWayHandshake (sd : option nat) (ws : workersState) (packet : Packet)
  : outcome unit * workersState * list effect :=
  match SetRemoteSessionID (sessionManager ws) (LocalSessionID packet) with
  | Ok m =>
      let '(m, _) := SetNegotiationState m S_START in
      let '(r, es) := trySends sd [ToReliable packet; ToTLS (mkNotification NotificationReset)] in
      (r, set_manager m ws, es)
  | Err e => (Err e, ws, [])
  | Panic => (Panic, ws, [])
  end.

Definition handleRawPacket (sd : option nat) (ws : workersState) (rawPacket : list byte)
  : outcome unit * workersState * list effect :=
  match ParsePacket rawPacket with
  | Ok packet =>
      if (negState (sessionManager ws) =? S_PRE_START) && (Opcode packet =? P_CONTROL_HARD_RESET_SERVER_V2) then
        finishThreeWayHandshake sd (set_ticker (Ticker_Stop (hardResetTicker ws)) ws) packet
      else if Packet_IsControl packet || (Opcode packet =? P_ACK_V1) then
        let '(r, es) := trySends sd [ToReliable packet] in (r, ws, es)
      else if negState (sessionManager ws) <? S_GENERATED_KEYS then
        if Packet_IsData packet then (Err ErrNotReadyForData, ws, []) else (Err ErrMalformedInput, ws, [])
      else
        let '(r, es) := trySends sd [ToData packet] in (r, ws, es)
  | Err _ => (Ok tt, ws, [])
  | Panic => (Panic, ws, [])
  end.

(** What the up-worker selects on.  [EvFire] is the runtime putting a tick in
    the ticker's channel; the others are the worker's own cases. *)
Inductive event : Type :=
  | EvRaw (sd : option nat) (raw : list byte)
  | EvFire
  | EvTick (sd : option nat)
  | EvHardReset (sd : option nat)
  | EvShutdown.

(** How the worker continues after an iteration. *)
Inductive flow : Type := Continue | Return | Crash.

(** One iteration of [moveUpWorker]; [None] when the case is not enabled. *)
Definition moveUpWorker_step (ws : workersState) (ev : event) : option (flow * workersState * list effect) :=
  match ev with
  | EvRaw sd raw =>
      let '(r, ws, es) := handleRawPacket sd ws raw in
      Some (match r with Panic => Crash | _ => Continue end, ws, es)
  | EvFire =>
      if running (hardResetTicker ws)
      then Some (Continue, set_ticker (Ticker_fire (hardResetTicker ws)) ws, []) else None
  | EvTick sd =>
      if pendingTick (hardResetTicker ws) then
        let ws := set_ticker (Ticker_receive (hardResetTicker ws)) ws in
        let '(r, ws, es) := startHardReset sd ws in
        Some (match r with Ok _ => Continue | Err _ => Return | Panic => Crash end, ws, es)
      else None
  | EvHardReset sd =>
      let '(r, ws, es) := startHardReset sd ws in
      Some (match r with Ok _ => Continue | Err _ => Return | Panic => Crash end, ws, es)
  | EvShutdown => Some (Return, ws, [])
  end.

(** A run of the up-worker, until it returns or crashes. *)
Fixpoint moveUpWorker_run (ws : workersState) (evs : list event) : option (flow * workersState * list effect) :=
  match evs with
  | [] => Some (Continue, ws, [])
  | ev :: evs' =>
      match moveUpWorker_step ws ev with
      | Some (Continue, ws1, es1) =>
          match moveUpWorker_run ws1 evs' with
          | Some (f, ws2, es2) => Some (f, ws2, es1 ++ es2)
          | None => None
          end
      | r => r
      end
  end.

(** One iteration of [moveDownWorker]. *)
Definition moveDownWorker_step (sd : option nat) (packet : Packet) : flow * list effect :=
  match Packet_Bytes packet with
  | Ok rawPacket =>
      let '(r, es) := trySends sd [ToNetwork rawPacket] in
      (match r with Ok _ => Continue | _ => Return end, es)
  | Err _ => (Continue, [])
  | Panic => (Crash, [])
  end.

(** ** The three-way handshake *)

Lemma NewHardResetPacket_canonical m : manager_inv m -> canonical (NewHardResetPacket m).
Proof.
  intros []. constructor; cbn; try done; rewrite ?inv_keyID0; try lia.
  apply length_copy_zeroed.
Qed.

(** The hard reset always goes out: it starts the negotiation, counts the
    attempt and arms the retransmission. *)
Lemma startHardReset_spec ws :
  manager_inv (sessionManager ws) ->
  exists raw, Packet_Bytes (NewHardResetPacket (sessionManager ws)) = Ok raw /\
    startHardReset None ws =
      (Ok tt, mkWorkersState (hardResetCount ws + 1) (Ticker_Reset (Second * 2) (hardResetTicker ws))
                (set_negState S_PRE_START (sessionManager ws)), [ToNetwork raw]).
Proof.
  intros Hm. destruct (canonical_roundtrip _ (NewHardResetPacket_canonical _ Hm)) as (raw & Hraw & _).
  exists raw. split; [done|]. unfold startHardReset, SetNegotiationState, serializeAndEmit.
  change (NewHardResetPacket (set_negState S_PRE_START (sessionManager ws)))
    with (NewHardResetPacket (sessionManager ws)). now rewrite Hraw.
Qed.

(** C30: the opening of a session.  A hard reset request followed by the
    server's hard reset sends one client reset (which the server parses to a
    packet with our session identifier and packet identifier 0), records the
    server's session, moves to [S_START], stops the retransmission, passes the
    server's packet up to be acknowledged and asks TLS to handshake, in this
    order. *)
Theorem opening_handshake ws reply rawReply :
  manager_inv (sessionManager ws) -> remoteSessionID (sessionManager ws) = None ->
  Packet_Bytes reply = Ok rawReply -> ParsePacket rawReply = Ok reply ->
  Opcode reply = P_CONTROL_HARD_RESET_SERVER_V2 ->
  exists raw q ws',
    moveUpWorker_run ws [EvHardReset None; EvRaw None rawReply] =
      Some (Continue, ws', [ToNetwork raw; ToReliable reply; ToTLS (mkNotification NotificationReset)]) /\
    ParsePacket raw = Ok q /\ Opcode q = P_CONTROL_HARD_RESET_CLIENT_V2 /\ ID q = 0 /\
    LocalSessionID q = localSessionID (sessionManager ws) /\
    sessionManager ws' = set_remoteSessionID (Some (LocalSessionID reply)) (set_negState S_START (sessionManager ws)) /\
    running (hardResetTicker ws') = false /\ hardResetCount ws' = hardResetCount ws + 1.
Proof.
  intros Hm Hrs Hb Hp Hop. destruct (startHardReset_spec ws Hm) as (raw & Hraw & Hstart).
  destruct (canonical_roundtrip _ (NewHardResetPacket_canonical _ Hm)) as (raw' & Hraw' & Hparse).
  rewrite Hraw in Hraw'. injection Hraw' as <-.
  exists raw, (NewHardResetPacket (sessionManager ws)). eexists. split.
  - cbn [moveUpWorker_run moveUpWorker_step]. rewrite Hstart. unfold handleRawPacket. rewrite Hp.
    cbn [sessionManager negState set_negState]. rewrite Hop.
    change ((S_PRE_START =? S_PRE_START) && (P_CONTROL_HARD_RESET_SERVER_V2 =? P_CONTROL_HARD_RESET_SERVER_V2)) with true.
    cbn iota. unfold finishThreeWayHandshake, SetRemoteSessionID, IsRemoteSessionIDSet.
    cbn [sessionManager set_ticker set_negState remoteSessionID]. rewrite Hrs. go_step. reflexivity.
  - split; [done|]. cbn. repeat split. destruct Hm. now apply copy_zeroed_exact.
Qed.

(** The server's hard reset, with a session of its own. *)
Definition serverReset (sid : list byte) : Packet :=
  mkPacket P_CONTROL_HARD_RESET_SERVER_V2 0 zeroPeerID sid [] zeroSessionID 0 [].

Definition rawServerReset : list byte := z2b 64 :: replicate 8 Byte.x05 ++ replicate 5 Byte.x00.

Lemma opening_handshake_witness :
  exists raw ws', moveUpWorker_run (StartWorkers sampleManager) [EvHardReset None; EvRaw None rawServerReset] =
    Some (Continue, ws', [ToNetwork raw; ToReliable (serverReset (replicate 8 Byte.x05)); ToTLS (mkNotification 1)]) /\
    remoteSessionID (sessionManager ws') = Some (replicate 8 Byte.x05).
Proof.
  destruct (opening_handshake (StartWorkers sampleManager) (serverReset (replicate 8 Byte.x05)) rawServerReset)
    as (raw & q & ws' & Hrun & _ & _ & _ & _ & Hm & _);
    [apply sampleManager_inv|reflexivity|vm_compute; reflexivity|vm_compute; reflexivity|reflexivity|].
  exists raw, ws'. split; [exact Hrun|]. now rewrite Hm.
Defined.

(** ** Data is held back until there are keys *)

Definition isToData (e : effect) : bool := match e with ToData _ => true | _ => false end.

Lemma trySends_subset sd es r es' : trySends sd es = (r, es') -> es' ⊆ es.
Proof.
  unfold trySends. destruct sd as [n|]; [destruct (n <? _)%nat|]; intros [= <- <-]; [|done|done].
  intros e He. apply elem_of_take in He as (i & He & _). exact (list_elem_of_lookup_2 _ _ _ He).
Qed.

Lemma no_data_of_subset es es' : es' ⊆ es -> Forall (fun e => isToData e = false) es -> Forall (fun e => isToData e = false) es'.
Proof. rewrite !Forall_forall. auto. Qed.

Lemma startHardReset_no_data sd ws r ws' es :
  startHardReset sd ws = (r, ws', es) ->
  Forall (fun e => isToData e = false) es /\ negState (sessionManager ws') = S_PRE_START.
Proof.
  unfold startHardReset, SetNegotiationState, serializeAndEmit.
  destruct (Packet_Bytes _) as [raw| |]; [|intros [= <- <- <-]; done|intros [= <- <- <-]; done].
  destruct (trySends sd [ToNetwork raw]) as [r1 es1] eqn:E.
  assert (Forall (fun e => isToData e = false) es1)
    by (eapply no_data_of_subset; [exact (trySends_subset _ _ _ _ E) | repeat constructor]).
  destruct r1; intros [= <- <- <-]; done.
Qed.

Lemma handleRawPacket_no_data sd ws raw r ws' es :
  negState (sessionManager ws) < S_GENERATED_KEYS -> handleRawPacket sd ws raw = (r, ws', es) ->
  Forall (fun e => isToData e = false) es /\ negState (sessionManager ws') < S_GENERATED_KEYS.
Proof.
  intros Hn. unfold handleRawPacket.
  destruct (ParsePacket raw) as [p| |]; [|intros [= <- <- <-]; done|intros [= <- <- <-]; done].
  destruct (_ && _).
  { unfold finishThreeWayHandshake. destruct (SetRemoteSessionID _ _) as [m| |];
      [|intros [= <- <- <-]; done|intros [= <- <- <-]; done].
    cbn [SetNegotiationState]. destruct (trySends sd _) as [r1 es1] eqn:E. intros [= <- <- <-].
    split; [|cbn; unfold S_START, S_GENERATED_KEYS; lia].
    eapply no_data_of_subset; [exact (trySends_subset _ _ _ _ E) | repeat constructor]. }
  destruct (_ || _).
  { destruct (trySends sd _) as [r1 es1] eqn:E. intros [= <- <- <-]. split; [|done].
    eapply no_data_of_subset; [exact (trySends_subset _ _ _ _ E) | repeat constructor]. }
  destruct (Z.ltb_spec (negState (sessionManager ws)) S_GENERATED_KEYS); [|lia].
  destruct (Packet_IsData p); intros [= <- <- <-]; done.
Qed.

Lemma moveUpWorker_step_no_data ws ev f ws' es :
  negState (sessionManager ws) < S_GENERATED_KEYS -> moveUpWorker_step ws ev = Some (f, ws', es) ->
  Forall (fun e => isToData e = false) es /\ negState (sessionManager ws') < S_GENERATED_KEYS.
Proof.
  intros Hn. assert (S_PRE_START < S_GENERATED_KEYS) by (unfold S_PRE_START, S_GENERATED_KEYS; lia).
  destruct ev as [sd raw| |sd|sd|]; cbn [moveUpWorker_step].
  - destruct (handleRawPacket sd ws raw) as [[r ws1] es1] eqn:E. intros [= <- <- <-].
    now eapply handleRawPacket_no_data in E.
  - destruct (running _); [|done]. intros [= <- <- <-]. done.
  - destruct (pendingTick _); [|done]. destruct (startHardReset sd _) as [[r ws1] es1] eqn:E. intros [= <- <- <-].
    apply startHardReset_no_data in E as [? ->]. done.
  - destruct (startHardReset sd _) as [[r ws1] es1] eqn:E. intros [= <- <- <-].
    apply startHardReset_no_data in E as [? ->]. done.
  - intros [= <- <- <-]. done.
Qed.

(** Whatever arrives from the network and however ticks and resets
    interleave, while the session has no keys the muxer passes no packet to
    the data channel, and it does not by itself enter the state that would
    let it. *)
Theorem no_data_before_keys evs ws f ws' es :
  negState (sessionManager ws) < S_GENERATED_KEYS -> moveUpWorker_run ws evs = Some (f, ws', es) ->
  Forall (fun e => isToData e = false) es /\ negState (sessionManager ws') < S_GENERATED_KEYS.
Proof.
  revert ws f ws' es. induction evs as [|ev evs IH]; intros ws f ws' es Hn; cbn [moveUpWorker_run].
  - intros [= <- <- <-]. done.
  - destruct (moveUpWorker_step ws ev) as [[[f1 ws1] es1]|] eqn:E1; [|done].
    apply moveUpWorker_step_no_data in E1 as [H1 Hn1]; [|done].
    destruct f1; [|intros [= <- <- <-]; done|intros [= <- <- <-]; done].
    destruct (moveUpWorker_run ws1 evs) as [[[f2 ws2] es2]|] eqn:E2; [|done]. intros [= <- <- <-].
    apply IH in E2 as [H2 Hn2]; [|done]. split; [now apply Forall_app | done].
Qed.

Lemma no_data_before_keys_witness :
  exists ws' es,
    moveUpWorker_run (StartWorkers sampleManager)
      [EvHardReset None; EvRaw None [z2b 72; z2b 0; z2b 0; z2b 0; z2b 1]; EvRaw None rawServerReset] =
      Some (Continue, ws', es) /\ length es = 3%nat /\
    Forall (fun e => isToData e = false) es /\ negState (sessionManager ws') < S_GENERATED_KEYS.
Proof.
  destruct (moveUpWorker_run (StartWorkers sampleManager)
    [EvHardReset None; EvRaw None [z2b 72; z2b 0; z2b 0; z2b 0; z2b 1]; EvRaw None rawServerReset])
    as [[[f ws'] es]|] eqn:E; [|vm_compute in E; discriminate E].
  assert (f = Continue /\ length es = 3%nat) as [-> Hl] by (vm_compute in E; injection E as <- <- <-; done).
  exists ws', es. split; [done|]. split; [done|].
  apply (no_data_before_keys [EvHardReset None; EvRaw None [z2b 72; z2b 0; z2b 0; z2b 0; z2b 1]; EvRaw None rawServerReset]
    (StartWorkers sampleManager) Continue ws' es); [vm_compute; reflexivity | exact E].
Defined.

(** ** When the muxer crashes *)

(** The manager has already recorded the session of the server. *)
Lemma SetRemoteSessionID_Panic m rs : SetRemoteSessionID m rs = Panic <-> IsRemoteSessionIDSet m = true.
Proof. unfold SetRemoteSessionID. destruct (IsRemoteSessionIDSet m); done. Qed.

Lemma startHardReset_no_panic sd ws r ws' es :
  manager_inv (sessionManager ws) -> startHardReset sd ws = (r, ws', es) -> r <> Panic.
Proof.
  intros Hm. destruct (startHardReset_spec ws Hm) as (raw & Hraw & _).
  unfold startHardReset, SetNegotiationState, serializeAndEmit.
  change (NewHardResetPacket (set_negState S_PRE_START (sessionManager ws)))
    with (NewHardResetPacket (sessionManager ws)). rewrite Hraw.
  unfold trySends. destruct sd as [n|]; [destruct (n <? _)%nat|]; intros [= <- _ _]; done.
Qed.

Lemma trySends_no_panic sd es : (trySends sd es).1 <> Panic.
Proof. unfold trySends. destruct sd; [destruct (_ <? _)%nat|]; done. Qed.

Lemma handleRawPacket_Panic sd ws raw :
  (handleRawPacket sd ws raw).1.1 = Panic <->
  exists p, ParsePacket raw = Ok p /\ Opcode p = P_CONTROL_HARD_RESET_SERVER_V2 /\
    negState (sessionManager ws) = S_PRE_START /\ IsRemoteSessionIDSet (sessionManager ws) = true.
Proof.
  unfold handleRawPacket. pose proof (ParsePacket_no_panic raw) as Hnp.
  destruct (ParsePacket raw) as [p|e|]; [|split; [done | naive_solver]|done].
  destruct (Z.eqb_spec (negState (sessionManager ws)) S_PRE_START) as [Hn|Hn],
    (Z.eqb_spec (Opcode p) P_CONTROL_HARD_RESET_SERVER_V2) as [Ho|Ho]; cbn [andb].
  1:{ unfold finishThreeWayHandshake. cbn [sessionManager set_ticker].
      pose proof (SetRemoteSessionID_Panic (sessionManager ws) (LocalSessionID p)) as HP.
      destruct (SetRemoteSessionID _ _) as [m|e|] eqn:E.
      - cbn [SetNegotiationState]. pose proof (trySends_no_panic sd [ToReliable p; ToTLS (mkNotification NotificationReset)]).
        destruct (trySends _ _) as [r es]. cbn in *. naive_solver.
      - naive_solver.
      - split; [|done]. intros _. exists p. naive_solver. }
  all: split; [|naive_solver]; intros H; exfalso; revert H;
    repeat match goal with
    | |- context [trySends ?sd ?es] =>
        pose proof (trySends_no_panic sd es); destruct (trySends sd es); cbn in *
    | |- context [if ?b then _ else _] => destruct b
    end; done.
Qed.

(** C31: the up-worker crashes in exactly one situation: a server hard reset
    arrives while the negotiation is in [S_PRE_START] and the session of a
    server is already recorded. *)
Theorem muxer_crash_iff ws ev :
  manager_inv (sessionManager ws) ->
  (exists ws' es, moveUpWorker_step ws ev = Some (Crash, ws', es)) <->
  exists sd raw p, ev = EvRaw sd raw /\ ParsePacket raw = Ok p /\ Opcode p = P_CONTROL_HARD_RESET_SERVER_V2 /\
    negState (sessionManager ws) = S_PRE_START /\ IsRemoteSessionIDSet (sessionManager ws) = true.
Proof.
  intros Hm. split.
  - intros (ws' & es & E). destruct ev as [sd raw| |sd|sd|]; cbn [moveUpWorker_step] in E.
    + pose proof (handleRawPacket_Panic sd ws raw) as [HP _].
      destruct (handleRawPacket sd ws raw) as [[r ws1] es1]. exists sd, raw. cbn in HP.
      destruct r; try done. destruct (HP eq_refl) as (p & ? & ? & ? & ?). eauto 10.
    + destruct (running _); done.
    + destruct (pendingTick _); [|done].
      destruct (startHardReset sd _) as [[r ws1] es1] eqn:Es. apply startHardReset_no_panic in Es; [|done].
      now destruct r.
    + destruct (startHardReset sd _) as [[r ws1] es1] eqn:Es. apply startHardReset_no_panic in Es; [|done].
      now destruct r.
    + done.
  - intros (sd & raw & p & -> & Hp). cbn [moveUpWorker_step].
    pose proof (handleRawPacket_Panic sd ws raw) as [_ HP].
    destruct (handleRawPacket sd ws raw) as [[r ws1] es1]. cbn in HP. rewrite HP by eauto. eauto.
Qed.

(** A tick that was delivered just before [Stop] is received afterwards, and
    the server answers the second client reset it causes. *)
Definition lateTick : list event :=
  [EvHardReset None; EvFire; EvRaw None rawServerReset; EvTick None; EvRaw None rawServerReset].

Lemma muxer_crash_iff_witness :
  (exists ws' es, moveUpWorker_run (StartWorkers sampleManager) lateTick = Some (Crash, ws', es)) /\
  exists ws, (moveUpWorker_run (StartWorkers sampleManager) (take 4 lateTick)) = Some ws /\
    exists ws' es, moveUpWorker_step ws.1.2 (EvRaw None rawServerReset) = Some (Crash, ws', es).
Proof.
  split; [vm_compute; eauto|]. eexists. split; [vm_compute; reflexivity|].
  apply (muxer_crash_iff _ (EvRaw None rawServerReset)).
  - constructor; cbn; try done; try (repeat constructor; done); unfold MaxUint32; lia.
  - exists None, rawServerReset. eexists. split; [reflexivity|]. split; [vm_compute; reflexivity|].
    split; [reflexivity|]. split; reflexivity.
Defined.
