(* ===== verification/Stack.v ===== *)
(** * The layers together

    Theorems that compose the models of several services. *)

From S2P Require Import Prelude Bytesx Packet Session Crypto DataChannel DataChannelSpec Muxer.

(** The opcode a raw packet announces. *)
Definition rawOpcode (raw : list byte) : option Z :=
  match raw with b :: _ :: _ => Some (Z.shiftr (b2z b) 3) | _ => None end.

(** No message type of the protocol has this opcode. *)
Definition unknownOpcode (op : Z) : bool := negb (Opcode_IsControl op || (op =? P_ACK_V1) || Opcode_IsData op).

Lemma parse_unknown raw op :
  rawOpcode raw = Some op -> unknownOpcode op = true ->
  exists p, ParsePacket raw = Ok p /\ Opcode p = op /\ Payload p <> [].
Proof.
  destruct raw as [|b0 [|b1 rest]]; [done|done|]. intros [= <-] Hu. rewrite ParsePacket_unfold. cbv zeta.
  set (op := Z.shiftr (b2z b0) 3) in *. unfold unknownOpcode in Hu. apply negb_true_iff, orb_false_iff in Hu as [Hc Hd].
  rewrite Hc. unfold Opcode_IsData in Hd. apply orb_false_iff in Hd as [_ Hd]. rewrite Hd.
  eexists. split; [reflexivity|]. done.
Qed.

(** C20: once the session has keys, any datagram of two bytes or more whose
    first byte announces an opcode the protocol does not have, from anyone who
    can reach the socket, crashes the client: the muxer passes every packet
    that is not a control packet to the data channel, whose reader asserts
    that it is a data packet. *)
Theorem unknown_opcode_crashes `{Crypto} ws raw op d m :
  S_GENERATED_KEYS <= negState (Muxer.sessionManager ws) ->
  rawOpcode raw = Some op -> unknownOpcode op = true ->
  exists p, Muxer.handleRawPacket None ws raw = (Ok tt, ws, [ToData p]) /\
    readPacket d m p = (Panic, d) /\ DataChannel.moveUpWorker_step (DataChannel.mkWorkersState d m true) p = Panic.
Proof.
  intros Hk Hop Hu. destruct (parse_unknown raw op Hop Hu) as (p & Hp & Hpo & Hne). exists p.
  assert (readPacket d m p = (Panic, d)) as Hr.
  { unfold readPacket. destruct (Z.eqb_spec (len (Payload p)) 0) as [E%len_zero_iff|_]; [done|].
    unfold Packet_IsData. rewrite Hpo. unfold unknownOpcode in Hu.
    apply negb_true_iff, orb_false_iff in Hu as [_ ->]. done. }
  split; [|split; [done|]].
  - unfold Muxer.handleRawPacket. rewrite Hp.
    destruct (Z.eqb_spec (negState (Muxer.sessionManager ws)) S_PRE_START) as [E|_];
      [unfold S_GENERATED_KEYS, S_PRE_START in *; lia|]. cbn [andb].
    unfold Packet_IsControl. rewrite Hpo. unfold unknownOpcode in Hu.
    apply negb_true_iff, orb_false_iff in Hu as [-> _].
    destruct (Z.ltb_spec (negState (Muxer.sessionManager ws)) S_GENERATED_KEYS); [lia | done].
  - unfold DataChannel.moveUpWorker_step. cbn [dataChannel DataChannel.sessionManager]. now rewrite Hr.
Qed.

Lemma unknown_opcode_crashes_witness :
  let ws := Muxer.StartWorkers (set_negState S_GENERATED_KEYS sampleManager) in
  exists p, Muxer.handleRawPacket None ws [z2b 80; z2b 0] = (Ok tt, ws, [ToData p]) /\
    readPacket gcmChannel sampleManager p = (Panic, gcmChannel) /\
    DataChannel.moveUpWorker_step (DataChannel.mkWorkersState gcmChannel sampleManager true) p = Panic.
Proof.
  apply (unknown_opcode_crashes (Muxer.StartWorkers (set_negState S_GENERATED_KEYS sampleManager)) [z2b 80; z2b 0] 10
    gcmChannel sampleManager); [cbn; lia|reflexivity|reflexivity].
Defined.
