(* ===== verification/Workers.v ===== *)
(** * internal/workers: the lifecycle of the workers

    [workers.go].  The wait group is a counter; closing a closed channel and a
    negative counter are panics of the runtime.  A worker that ends runs
    [OnWorkerDone] and then [StartShutdown], as the deferred functions of all
    the services do. *)

From S2P Require Import Prelude.

Record Manager : Type := mkManager { shouldShutdown : bool; shutdownOnce : bool; wg : Z }.

Definition NewManager : Manager := mkManager false false 0.

Definition StartWorker (m : Manager) : Manager := mkManager (shouldShutdown m) (shutdownOnce m) (wg m + 1).

Definition OnWorkerDone (m : Manager) : outcome Manager :=
  if wg m - 1 <? 0 then Panic else Ok (mkManager (shouldShutdown m) (shutdownOnce m) (wg m - 1)).

(** [close] of a channel. *)
Definition close_chan (closed : bool) : outcome bool := if closed then Panic else Ok true.

Definition StartShutdown (m : Manager) : outcome Manager :=
  if shutdownOnce m then Ok m
  else closed ← close_chan (shouldShutdown m); Ok (mkManager closed true (wg m)).

(** What a worker does when it ends. *)
Definition workerExit (m : Manager) : outcome Manager := m ← OnWorkerDone m; StartShutdown m.

(** [WaitWorkersShutdown] returns when the counter is zero. *)
Definition WaitReturns (m : Manager) : bool := wg m =? 0.

(** ** The life of a set of workers

    [n] workers are started; then, in any order, workers end on their own,
    the tunnel asks for a shutdown, and workers that see the closed channel
    end. *)
Inductive lifecycle : Manager -> Z -> Prop :=
  | life_start n : 0 <= n -> lifecycle (Nat.iter (Z.to_nat n) StartWorker NewManager) n
  | life_exit m n m' : lifecycle m n -> 0 < n -> workerExit m = Ok m' -> lifecycle m' (n - 1)
  | life_shutdown m n m' : lifecycle m n -> StartShutdown m = Ok m' -> lifecycle m' n.

Lemma iter_StartWorker k : Nat.iter k StartWorker NewManager = mkManager false false (Z.of_nat k).
Proof.
  induction k as [|k IH]; [done|]. cbn [Nat.iter nat_rect]. change (nat_rect _ _ _ k) with (Nat.iter k StartWorker NewManager).
  rewrite IH. unfold StartWorker. cbn [shouldShutdown shutdownOnce wg]. f_equal. lia.
Qed.

Lemma lifecycle_inv m n : lifecycle m n -> wg m = n /\ 0 <= n /\ shouldShutdown m = shutdownOnce m.
Proof.
  induction 1 as [n Hn|m n m' _ (IH & IH1 & IH2) Hpos E|m n m' _ (IH & IH1 & IH2) E].
  - rewrite iter_StartWorker. cbn. lia.
  - unfold workerExit, OnWorkerDone in E. destruct (Z.ltb_spec (wg m - 1) 0); [done|]. revert E. go_step.
    unfold StartShutdown, close_chan. cbn [shutdownOnce shouldShutdown wg].
    rewrite IH2. destruct (shutdownOnce m); go_step; intros [= <-]; cbn; lia.
  - unfold StartShutdown, close_chan in E. rewrite IH2 in E.
    destruct (shutdownOnce m) eqn:Eo; [injection E as <-; rewrite IH2, Eo; done|].
    revert E. go_step. intros [= <-]. cbn. lia.
Qed.

(** The shutdown machinery never panics: the shutdown channel is closed at
    most once however many workers end or ask for it, and the wait group never
    goes negative; the first worker to end signals all the others, and waiting
    ends exactly when every worker has ended. *)
Lemma lifecycle_safe m n :
  lifecycle m n ->
  (exists m', StartShutdown m = Ok m' /\ shouldShutdown m' = true /\ wg m' = n) /\
  (0 < n -> exists m', workerExit m = Ok m' /\ shouldShutdown m' = true /\ wg m' = n - 1) /\
  (WaitReturns m = true <-> n = 0).
Proof.
  intros Hl. destruct (lifecycle_inv m n Hl) as (Hw & Hn & Hs).
  unfold workerExit, OnWorkerDone, StartShutdown, close_chan, WaitReturns. rewrite Hw. split; [|split].
  - destruct (shutdownOnce m) eqn:Eo; [exists m; rewrite Hs; done|]. rewrite Hs. go_step.
    eexists. split; [reflexivity|]. done.
  - intros Hpos. destruct (Z.ltb_spec (n - 1) 0); [lia|]. go_step. cbn [shutdownOnce shouldShutdown wg].
    rewrite Hs. destruct (shutdownOnce m); go_step; (eexists; split; [reflexivity|]); done.
  - apply Z.eqb_eq.
Qed.
