(* ===== verification/NetworkIO.v ===== *)
(** * internal/networkio

    Framing over stream and datagram sockets, the close-once wrapper, the
    dialer's choice and the two workers.  A [net.Conn] is the sequence of
    chunks (or datagrams) its [Read] will return, the record of its writes,
    and whether it is open; the network decides how a byte stream is cut into
    chunks.  [FramingConn] is the interface of [framing.go] and the workers are
    written against it.  [FramingLaws] is an interface between proofs, not one
    of the source: it collects what the stream and the datagram framing are
    shown to do, so that the workers are treated once; the theorems are about
    the two framings. *)

From S2P Require Import Prelude Bytesx.

Record conn : Type := mkConn {
  conn_in : list (list byte);
  conn_out : list (list byte);
  conn_open : bool;
  conn_closes : nat
}.

Definition set_in (chunks : list (list byte)) (c : conn) : conn :=
  mkConn chunks (conn_out c) (conn_open c) (conn_closes c).

(** [conn.Read(buffer)] with room for [n] bytes on a datagram socket: one
    datagram is consumed and what does not fit is lost. *)
Definition datagram_Read (n : nat) (c : conn) : outcome (list byte) * conn :=
  if negb (conn_open c) then (Err ErrClosed, c)
  else match conn_in c with
       | [] => (Err ErrEOF, c)
       | ch :: t => (Ok (take n ch), set_in t c)
       end.

Definition conn_Write (b : list byte) (c : conn) : outcome unit * conn :=
  if negb (conn_open c) then (Err ErrClosed, c)
  else (Ok tt, mkConn (conn_in c) (conn_out c ++ [b]) (conn_open c) (conn_closes c)).

Definition conn_Close (c : conn) : outcome unit * conn :=
  (if conn_open c then Ok tt else Err ErrClosed, mkConn (conn_in c) (conn_out c) false (S (conn_closes c))).

(** [io.ReadFull] on a stream: as many reads as it takes to get [n] bytes,
    each of which returns at most one chunk; an unread tail stays. *)
Fixpoint readFullChunks (n : nat) (started : bool) (chunks : list (list byte)) : outcome (list byte) * list (list byte) :=
  if (n =? 0)%nat then (Ok [], chunks)
  else match chunks with
       | [] => (Err (if started then ErrUnexpectedEOF else ErrEOF), [])
       | ch :: t =>
           if (length ch <=? n)%nat then
             let '(r, rest) := readFullChunks (n - length ch) (started || negb (length ch =? 0)%nat) t in
             (l ← r; Ok (ch ++ l), rest)
           else (Ok (take n ch), drop n ch :: t)
       end.

Definition conn_ReadFull (n : nat) (c : conn) : outcome (list byte) * conn :=
  if (n =? 0)%nat then (Ok [], c)
  else if negb (conn_open c) then (Err ErrClosed, c)
  else let '(r, rest) := readFullChunks n false (conn_in c) in (r, set_in rest c).

(** ** The framings *)

Class FramingConn (C : Type) : Type := {
  ReadRawPacket : C -> outcome (list byte) * C;
  WriteRawPacket : list byte -> C -> outcome unit * C;
  Close : C -> outcome unit * C;
  underlying : C -> conn
}.

(** [closeOnceConn] *)
Record closeOnceConn : Type := mkCloseOnceConn { once : bool; Conn : conn }.

Definition newCloseOnceConn (c : conn) : closeOnceConn := mkCloseOnceConn false c.

Definition closeOnce_Close (c : closeOnceConn) : outcome unit * closeOnceConn :=
  if once c then (Ok tt, c)
  else let '(r, inner) := conn_Close (Conn c) in (r, mkCloseOnceConn true inner).

Record streamConn : Type := mkStreamConn { s_conn : closeOnceConn }.
Record datagramConn : Type := mkDatagramConn { d_conn : closeOnceConn }.

Definition s_with (c : streamConn) (inner : conn) : streamConn := mkStreamConn (mkCloseOnceConn (once (s_conn c)) inner).
Definition d_with (c : datagramConn) (inner : conn) : datagramConn := mkDatagramConn (mkCloseOnceConn (once (d_conn c)) inner).

Definition streamConn_ReadRawPacket (c : streamConn) : outcome (list byte) * streamConn :=
  let '(lenbuf, inner) := conn_ReadFull 2 (Conn (s_conn c)) in
  match lenbuf with
  | Ok lenbuf =>
      let length := be_val lenbuf in
      let '(buf, inner) := conn_ReadFull (Z.to_nat length) inner in
      (buf, s_with c inner)
  | Err e => (Err e, s_with c inner)
  | Panic => (Panic, s_with c inner)
  end.

Definition streamConn_WriteRawPacket (pkt : list byte) (c : streamConn) : outcome unit * streamConn :=
  if MaxUint16 <? len pkt then (Err ErrPacketTooLarge, c)
  else
    let length := be_bytes 2 (u16 (len pkt)) in
    let '(r, inner) := conn_Write (length ++ pkt) (Conn (s_conn c)) in (r, s_with c inner).

Definition datagramConn_ReadRawPacket (c : datagramConn) : outcome (list byte) * datagramConn :=
  let '(r, inner) := datagram_Read (Z.to_nat MaxUint16) (Conn (d_conn c)) in (r, d_with c inner).

Definition datagramConn_WriteRawPacket (pkt : list byte) (c : datagramConn) : outcome unit * datagramConn :=
  if MaxUint16 <? len pkt then (Err ErrPacketTooLarge, c)
  else let '(r, inner) := conn_Write pkt (Conn (d_conn c)) in (r, d_with c inner).

#[export] Instance streamConn_FramingConn : FramingConn streamConn := {|
  ReadRawPacket := streamConn_ReadRawPacket;
  WriteRawPacket := streamConn_WriteRawPacket;
  Close := fun c => let '(r, inner) := closeOnce_Close (s_conn c) in (r, mkStreamConn inner);
  underlying := fun c => Conn (s_conn c)
|}.

#[export] Instance datagramConn_FramingConn : FramingConn datagramConn := {|
  ReadRawPacket := datagramConn_ReadRawPacket;
  WriteRawPacket := datagramConn_WriteRawPacket;
  Close := fun c => let '(r, inner) := closeOnce_Close (d_conn c) in (r, mkDatagramConn inner);
  underlying := fun c => Conn (d_conn c)
|}.

(** The connection [DialContext] returns: [network] is what
    [LocalAddr().Network()] reports; the dial itself is the caller's. *)
Definition DialContext (dialed : outcome conn) (network : string) : outcome (streamConn + datagramConn) :=
  conn ← dialed;
  let conn := newCloseOnceConn conn in
  Ok (if String.eqb network "udp" || String.eqb network "udp4" || String.eqb network "udp6"
      then inr (mkDatagramConn conn) else inl (mkStreamConn conn)).

(** ** The workers, over any framing *)

Section Workers.
Context {C : Type} `{FramingConn C}.

(** [moveUpWorker] until [ReadRawPacket] fails; [None] when the fuel runs
    out first. *)
Fixpoint moveUpWorker_run (fuel : nat) (c : C) : option (list (list byte) * C) :=
  match fuel with
  | O => None
  | S fuel' =>
      let '(r, c) := ReadRawPacket c in
      match r with
      | Ok pkt => '(pkts, c) ← moveUpWorker_run fuel' c; Some (pkt :: pkts, c)
      | _ => Some ([], c)
      end
  end.

(** [moveDownWorker] on the packets of [muxerToNetwork]; the boolean says
    that the worker is still running. *)
Fixpoint moveDownWorker_run (pkts : list (list byte)) (c : C) : bool * C :=
  match pkts with
  | [] => (true, c)
  | pkt :: pkts' =>
      let '(r, c) := WriteRawPacket pkt c in
      match r with
      | Ok _ => moveDownWorker_run pkts' c
      | _ => (false, c)
      end
  end.
End Workers.

(** The packets a frame can carry. *)
Definition fits (pkt : list byte) : Prop := len pkt <= MaxUint16.

(** What is shown of both framings: [frame] is the bytes one write puts on the
    wire, [carries] relates what was written to what the network delivers,
    [holds] says which packets are waiting to be read. *)
Class FramingLaws (C : Type) `{FramingConn C} : Type := {
  frame : list byte -> list byte;
  carries : list (list byte) -> list (list byte) -> Prop;
  holds : list (list byte) -> C -> Prop;
  write_fits pkt c : fits pkt -> conn_open (underlying c) = true ->
    exists c', WriteRawPacket pkt c = (Ok tt, c') /\ conn_open (underlying c') = true /\
      conn_out (underlying c') = conn_out (underlying c) ++ [frame pkt];
  write_too_large pkt c : MaxUint16 < len pkt -> WriteRawPacket pkt c = (Err ErrPacketTooLarge, c);
  delivered pkts c : Forall fits pkts -> conn_open (underlying c) = true ->
    carries (map frame pkts) (conn_in (underlying c)) -> holds pkts c;
  read_none c : holds [] c -> exists e c', ReadRawPacket c = (Err e, c');
  read_one pkt pkts c : holds (pkt :: pkts) c -> exists c', ReadRawPacket c = (Ok pkt, c') /\ holds pkts c'
}.

(** ** The stream framing *)

Lemma readFullChunks_spec n started chunks a b :
  concat chunks = a ++ b -> length a = n ->
  exists rest, readFullChunks n started chunks = (Ok a, rest) /\ concat rest = b.
Proof.
  revert n started a b. induction chunks as [|ch t IH]; intros n started a b Hc Ha; cbn [readFullChunks].
  - symmetry in Hc. apply app_nil in Hc as [-> ->]. subst n. cbn. eauto.
  - destruct (Nat.eqb_spec n 0) as [E|E].
    { subst n. destruct a; [|done]. exists (ch :: t). done. }
    cbn [concat] in Hc. destruct (Nat.leb_spec (length ch) n) as [Hle|Hlt].
    + assert (exists a2, a = ch ++ a2) as [a2 ->].
      { exists (drop (length ch) a). apply (f_equal (take (length ch))) in Hc.
        rewrite take_app_length, take_app_le in Hc by lia. rewrite Hc at 1. now rewrite take_drop. }
      rewrite <- app_assoc in Hc. apply app_inv_head in Hc. rewrite length_app in Ha.
      destruct (IH (n - length ch)%nat (started || negb (length ch =? 0)%nat) a2 b Hc ltac:(lia)) as (rest & -> & Hr).
      eexists. split; [reflexivity | done].
    + exists (drop n ch :: t). split.
      * f_equal. f_equal. apply (f_equal (take n)) in Hc. rewrite take_app_le in Hc by lia.
        rewrite Hc. apply take_app_length'. lia.
      * cbn [concat]. apply (f_equal (drop n)) in Hc. rewrite drop_app_le in Hc by lia.
        rewrite Hc. apply drop_app_length'. lia.
Qed.

Lemma readFullChunks_empty n started chunks :
  concat chunks = [] -> (0 < n)%nat -> exists e rest, readFullChunks n started chunks = (Err e, rest).
Proof.
  revert started. induction chunks as [|ch t IH]; intros started Hc Hn; cbn [readFullChunks];
    (destruct (Nat.eqb_spec n 0); [lia|]).
  - eauto.
  - cbn [concat] in Hc. apply app_nil in Hc as [-> Hc]. cbn [length Nat.leb]. rewrite Nat.sub_0_r.
    destruct (IH (started || negb (0 =? 0)%nat) Hc Hn) as (e & rest & ->). cbn. eauto.
Qed.

Lemma conn_ReadFull_spec n c a b :
  conn_open c = true -> concat (conn_in c) = a ++ b -> length a = n ->
  exists c', conn_ReadFull n c = (Ok a, c') /\ concat (conn_in c') = b /\ conn_open c' = true.
Proof.
  intros Ho Hc Ha. unfold conn_ReadFull. destruct (Nat.eqb_spec n 0) as [E|E].
  - subst n. destruct a; [|done]. exists c. done.
  - rewrite Ho. destruct (readFullChunks_spec n false _ _ _ Hc Ha) as (rest & -> & Hr).
    eexists. split; [reflexivity|]. done.
Qed.

(** The wire form of a packet on a stream. *)
Definition streamFrame (pkt : list byte) : list byte := be_bytes 2 (len pkt) ++ pkt.

Lemma u16_len (pkt : list byte) : fits pkt -> u16 (len pkt) = len pkt /\ be_val (be_bytes 2 (len pkt)) = len pkt.
Proof.
  unfold fits. intros Hp. pose proof (len_nonneg pkt). unfold MaxUint16, u16 in *. rewrite be_val_bytes.
  change (256 ^ Z.of_nat 2) with (2 ^ 16). split; apply Z.mod_small; lia.
Qed.

Definition stream_holds (pkts : list (list byte)) (c : streamConn) : Prop :=
  Forall fits pkts /\ conn_open (underlying c) = true /\
  concat (conn_in (underlying c)) = concat (map streamFrame pkts).

Lemma stream_read_one pkt pkts c :
  stream_holds (pkt :: pkts) c -> exists c', streamConn_ReadRawPacket c = (Ok pkt, c') /\ stream_holds pkts c'.
Proof.
  intros (Hf & Ho & Hc). apply Forall_cons in Hf as [Hp Hf]. cbn [map concat underlying streamConn_FramingConn] in *.
  unfold streamFrame in Hc at 1. rewrite <- !app_assoc in Hc.
  unfold streamConn_ReadRawPacket.
  destruct (conn_ReadFull_spec 2 _ _ _ Ho Hc (length_be_bytes _ _)) as (c1 & -> & Hc1 & Ho1).
  destruct (u16_len pkt Hp) as [_ ->]. rewrite to_nat_len.
  destruct (conn_ReadFull_spec (length pkt) c1 _ _ Ho1 Hc1 eq_refl) as (c2 & -> & Hc2 & Ho2).
  eexists. split; [reflexivity|]. done.
Qed.

#[export] Instance streamConn_laws : FramingLaws streamConn.
Proof.
  refine {| frame := streamFrame; carries := fun ws chunks => concat chunks = concat ws; holds := stream_holds |}.
  - intros pkt c Hp Ho. cbn [WriteRawPacket underlying streamConn_FramingConn] in *.
    unfold streamConn_WriteRawPacket, conn_Write. unfold fits in Hp. destruct (Z.ltb_spec MaxUint16 (len pkt)); [lia|].
    rewrite Ho. destruct (u16_len pkt Hp) as [-> _]. eexists. split; [reflexivity|]. done.
  - intros pkt c Hp. cbn [WriteRawPacket streamConn_FramingConn]. unfold streamConn_WriteRawPacket.
    destruct (Z.ltb_spec MaxUint16 (len pkt)); [done | lia].
  - intros pkts c Hf Ho Hc. done.
  - intros c (_ & Ho & Hc). cbn [ReadRawPacket underlying streamConn_FramingConn map concat] in *.
    unfold streamConn_ReadRawPacket, conn_ReadFull. cbn [Nat.eqb]. rewrite Ho.
    destruct (readFullChunks_empty 2 false _ Hc ltac:(lia)) as (e & rest & ->). eauto.
  - apply stream_read_one.
Defined.

(** ** The datagram framing *)

Definition datagram_holds (pkts : list (list byte)) (c : datagramConn) : Prop :=
  Forall fits pkts /\ conn_open (underlying c) = true /\ conn_in (underlying c) = pkts.

#[export] Instance datagramConn_laws : FramingLaws datagramConn.
Proof.
  refine {| frame := fun p => p; carries := fun ws chunks => chunks = ws; holds := datagram_holds |}.
  - intros pkt c Hp Ho. cbn [WriteRawPacket underlying datagramConn_FramingConn] in *.
    unfold datagramConn_WriteRawPacket, conn_Write. unfold fits in Hp. destruct (Z.ltb_spec MaxUint16 (len pkt)); [lia|].
    rewrite Ho. eexists. split; [reflexivity|]. done.
  - intros pkt c Hp. cbn [WriteRawPacket datagramConn_FramingConn]. unfold datagramConn_WriteRawPacket.
    destruct (Z.ltb_spec MaxUint16 (len pkt)); [done | lia].
  - intros pkts c Hf Ho Hc. rewrite map_id in Hc. done.
  - intros c (_ & Ho & Hc). cbn [ReadRawPacket underlying datagramConn_FramingConn] in *.
    unfold datagramConn_ReadRawPacket, datagram_Read. rewrite Ho, Hc. eauto.
  - intros pkt pkts c (Hf & Ho & Hc). apply Forall_cons in Hf as [Hp Hf].
    cbn [ReadRawPacket underlying datagramConn_FramingConn] in *.
    unfold datagramConn_ReadRawPacket, datagram_Read. rewrite Ho, Hc. cbn [negb].
    rewrite take_ge by (unfold fits, len, MaxUint16 in *; lia). eexists. split; [reflexivity|]. done.
Defined.

(** ** The workers over the interface *)

Section Pipe.
Context {C : Type} `{FramingLaws C}.

Lemma moveDownWorker_run_spec pkts c :
  Forall fits pkts -> conn_open (underlying c) = true ->
  exists c', moveDownWorker_run pkts c = (true, c') /\
    conn_out (underlying c') = conn_out (underlying c) ++ map frame pkts.
Proof.
  intros Hf. revert c. induction Hf as [|p pkts Hp _ IH]; intros c Ho; cbn [moveDownWorker_run map].
  - exists c. now rewrite app_nil_r.
  - destruct (write_fits p c Hp Ho) as (c1 & -> & Ho1 & Hout). destruct (IH c1 Ho1) as (c' & -> & Hout').
    exists c'. split; [done|]. now rewrite Hout', Hout, <- app_assoc.
Qed.

Lemma networkUp_run_spec pkts c fuel :
  holds pkts c -> (length pkts < fuel)%nat -> exists c', moveUpWorker_run fuel c = Some (pkts, c').
Proof.
  revert c fuel. induction pkts as [|p pkts IH]; intros c fuel Hh Hf;
    (destruct fuel as [|fuel]; [cbn in Hf; lia|]); cbn [moveUpWorker_run].
  - destruct (read_none c Hh) as (e & c' & ->). eauto.
  - destruct (read_one p pkts c Hh) as (c1 & -> & Hh1). cbn in Hf.
    destruct (IH c1 fuel Hh1 ltac:(lia)) as (c' & ->). cbn. eauto.
Qed.
End Pipe.

(** The two workers over a framing with the laws. *)
Lemma pipe_over `{FramingLaws C} pkts (a b : C) :
  Forall fits pkts ->
  conn_open (underlying a) = true -> conn_out (underlying a) = [] -> conn_open (underlying b) = true ->
  exists a', moveDownWorker_run pkts a = (true, a') /\ conn_out (underlying a') = map frame pkts /\
    (carries (conn_out (underlying a')) (conn_in (underlying b)) ->
     forall fuel, (length pkts < fuel)%nat -> exists b', moveUpWorker_run fuel b = Some (pkts, b')).
Proof.
  intros Hf Ha Hout Hb. destruct (moveDownWorker_run_spec pkts a Hf Ha) as (a' & Hrun & Ho'). rewrite Hout in Ho'.
  exists a'. split; [done|]. split; [done|]. intros Hc fuel Hfuel. rewrite Ho' in Hc.
  apply networkUp_run_spec; [|done]. now apply delivered.
Qed.

(** C32: what one side's down-worker writes, no packet larger than 65535 bytes,
    is what the other side's up-worker reads, in order, after which it ends at
    the end of the input.  On a stream each packet is written with its length
    in two bytes before it, and the bytes may arrive cut into chunks of any
    sizes, empty ones too; on datagrams each packet is one datagram. *)
Theorem network_pipe pkts :
  Forall fits pkts ->
  (forall a b : streamConn,
     conn_open (Conn (s_conn a)) = true -> conn_out (Conn (s_conn a)) = [] -> conn_open (Conn (s_conn b)) = true ->
     exists a', moveDownWorker_run pkts a = (true, a') /\
       conn_out (Conn (s_conn a')) = map (fun p => be_bytes 2 (len p) ++ p) pkts /\
       (concat (conn_in (Conn (s_conn b))) = concat (conn_out (Conn (s_conn a'))) ->
        forall fuel, (length pkts < fuel)%nat -> exists b', moveUpWorker_run fuel b = Some (pkts, b'))) /\
  (forall a b : datagramConn,
     conn_open (Conn (d_conn a)) = true -> conn_out (Conn (d_conn a)) = [] -> conn_open (Conn (d_conn b)) = true ->
     exists a', moveDownWorker_run pkts a = (true, a') /\ conn_out (Conn (d_conn a')) = pkts /\
       (conn_in (Conn (d_conn b)) = conn_out (Conn (d_conn a')) ->
        forall fuel, (length pkts < fuel)%nat -> exists b', moveUpWorker_run fuel b = Some (pkts, b'))).
Proof.
  intros Hf. split; intros a b Ha Hout Hb.
  - exact (pipe_over (C := streamConn) pkts a b Hf Ha Hout Hb).
  - destruct (pipe_over (C := datagramConn) pkts a b) as (a' & H1 & H2 & H3); [done..|].
    exists a'. split; [done|]. split; [|exact H3]. cbn in H2. by rewrite map_id in H2.
Qed.

(** Three packets over a stream that arrives one byte at a time, and over
    datagrams. *)
Definition freshStream (chunks : list (list byte)) : streamConn :=
  mkStreamConn (newCloseOnceConn (mkConn chunks [] true 0)).
Definition freshDatagrams (datagrams : list (list byte)) : datagramConn :=
  mkDatagramConn (newCloseOnceConn (mkConn datagrams [] true 0)).

Definition bytewise (pkts : list (list byte)) : list (list byte) :=
  map (fun b => [b]) (concat (map streamFrame pkts)).

Definition threePackets : list (list byte) := [bytes_of_string "first"; []; bytes_of_string "second"].

Lemma network_pipe_witness :
  (exists b', moveUpWorker_run 4 (freshStream (bytewise threePackets)) = Some (threePackets, b')) /\
  (exists b', moveUpWorker_run 4 (freshDatagrams threePackets) = Some (threePackets, b')).
Proof.
  destruct (network_pipe threePackets) as [Hs Hd]; [repeat constructor; vm_compute; congruence|].
  destruct (Hs (freshStream []) (freshStream (bytewise threePackets)) eq_refl eq_refl eq_refl) as (a1 & _ & E1 & R1).
  destruct (Hd (freshDatagrams []) (freshDatagrams threePackets) eq_refl eq_refl eq_refl) as (a2 & _ & E2 & R2).
  split; [apply R1; [rewrite E1; reflexivity | cbn; lia] | apply R2; [by rewrite E2 | cbn; lia]].
Defined.

(** ** Closing *)

(** Closing any number of times. *)
Fixpoint closeTimes `{FramingConn C} (n : nat) (c : C) : C :=
  match n with O => c | S n' => closeTimes n' (Close c).2 end.

Lemma closeTimes_stream n c :
  once (s_conn c) = true -> closeTimes n c = c.
Proof.
  intros H. induction n as [|n IH]; [done|]. cbn. unfold closeOnce_Close. rewrite H. cbn. now destruct c.
Qed.

(** The underlying connection is closed exactly once, however often [Close]
    is called, and [Close] reports success after the first call. *)
Lemma close_once n c :
  once (s_conn c) = false ->
  conn_closes (underlying (closeTimes (S n) c)) = S (conn_closes (underlying c)) /\
  (Close (closeTimes (S n) c)).1 = Ok tt /\ conn_open (underlying (closeTimes (S n) c)) = false.
Proof.
  destruct c as [[o inner]]. cbn [once s_conn]. intros ->.
  change (closeTimes (S n) (mkStreamConn (mkCloseOnceConn false inner)))
    with (closeTimes n (mkStreamConn (mkCloseOnceConn true (conn_Close inner).2))).
  rewrite closeTimes_stream by done. done.
Qed.
