(* ===== verification/ControlMsg.v ===== *)
(** * internal/tlssession: control messages

    [controlmsg.go]: the messages of OpenVPN's key method 2 that travel inside
    the TLS session.  The pushed options are a map, as in the source. *)

From S2P Require Import Prelude Bytesx Packet GoStrings Session Config.

Definition controlMessageHeader : list byte := replicate 4 Byte.x00.
Definition ivVer : string := "2.5.5".
Definition ivProto : string := "2".

Definition rawInfo : string :=
  "IV_VER=" +:+ ivVer +:+ String newline "" +:+ "IV_PROTO=" +:+ ivProto +:+ String newline "".

Definition encodeClientControlMessageAsBytes (k : KeySource) (o : OpenVPNOptions) : outcome (list byte) :=
  so ← ServerOptionsString o;
  opt ← EncodeOptionStringToBytes so;
  user ← EncodeOptionStringToBytes (Username o);
  pass ← EncodeOptionStringToBytes (Password o);
  let peerInfo := match EncodeOptionStringToBytes rawInfo with Ok b => b | _ => [] end in
  Ok (controlMessageHeader ++ [z2b 0x02] ++ KeySource_Bytes k ++ opt ++ user ++ pass ++ peerInfo).

Definition parseServerControlMessage (message : list byte) : outcome (KeySource * string) :=
  if len message <? 4 then Err ErrMissingHeader
  else if negb (bytes_equal (take 4 message) controlMessageHeader) then Err ErrInvalidHeader
  else if len message <? 71 then Err ErrBadControlMessage
  else
    keyMethod ← go_index message 4;
    if negb (b2z keyMethod =? 2) then Err ErrBadKeyMethod
    else
      let random1 := copy_zeroed 32 (take 32 (drop 5 message)) in
      let random2 := copy_zeroed 32 (take 32 (drop 37 message)) in
      options ← rewrap ErrBadControlMessage (DecodeOptionStringFromBytes (drop 69 message));
      Ok (mkKeySource random1 random2 (replicate 48 Byte.x00), options).

Definition serverBadAuth : list byte := bytes_of_string "AUTH_FAILED".
Definition serverPushReply : list byte := bytes_of_string "PUSH_REPLY".

(** [bytes.HasPrefix] *)
Definition bytes_HasPrefix (b prefix : list byte) : bool := bytes_equal (take (length prefix) b) prefix.

Definition remoteOptions : Type := gmap string (list string).

(** The loop of [pushedOptionsAsMap]: a later option replaces an earlier one
    with the same key. *)
Fixpoint pushedLoop (opts : list string) (optMap : remoteOptions) : remoteOptions :=
  match opts with
  | [] => optMap
  | opt :: opts' =>
      match Split " "%char opt with
      | k :: v => pushedLoop opts' (<[k := v]> optMap)
      | [] => optMap
      end
  end.

Definition pushedOptionsAsMap (pushedOptions : list byte) : remoteOptions :=
  if len pushedOptions =? 0 then ∅
  else
    let optStr := string_of_bytes (take (length pushedOptions - 1) pushedOptions) in
    pushedLoop (Split ","%char optStr) ∅.

(** [opts[key]]: a missing key gives a nil slice. *)
Definition opt_lookup (opts : remoteOptions) (key : string) : list string := default [] (opts !! key).

Definition newTunnelInfoFromPushedOptions (opts : remoteOptions) : TunnelInfo :=
  let gw :=
    match opt_lookup opts "route" with
    | g :: _ => g
    | [] => match opt_lookup opts "route-gateway" with g :: _ => g | [] => "" end
    end in
  let ifconfig := opt_lookup opts "ifconfig" in
  let ip := match ifconfig with i :: _ => i | [] => "" end in
  let mask := match ifconfig with _ :: n :: _ => n | _ => "" end in
  let peer :=
    match opt_lookup opts "peer-id" with
    | [p] => match Atoi p with Ok n => n | _ => 0 end
    | _ => 0
    end in
  mkTunnelInfo gw ip 0 mask peer.

Definition parseServerPushReply (resp : list byte) : outcome TunnelInfo :=
  if bytes_HasPrefix resp serverBadAuth then Err ErrBadAuth
  else if negb (bytes_HasPrefix resp serverPushReply) then Err ErrBadServerReply
  else Ok (newTunnelInfoFromPushedOptions (pushedOptionsAsMap resp)).

(** ** The client's message as a server reads it *)

(** A length-prefixed, zero-terminated string at the head of a buffer. *)
Definition takeOption (b : list byte) : option (string * list byte) :=
  let n := Z.to_nat (be_val (take 2 b)) in
  let body := take n (drop 2 b) in
  if (length b <? 2 + n)%nat || (n =? 0)%nat then None
  else if bool_decide (last body = Some Byte.x00)
  then Some (string_of_bytes (take (n - 1) body), drop (2 + n) b) else None.

(** The message of key method 2: header, method, pre-master secret and two
    random values, then options, username, password and peer information. *)
Definition serverParseClient (b : list byte) : option (KeySource * list string) :=
  if bytes_equal (take 5 b) (controlMessageHeader ++ [z2b 2]) then
    let b := drop 5 b in
    let k := mkKeySource (take 32 (drop 48 b)) (take 32 (drop 80 b)) (take 48 b) in
    '(o, b) ← takeOption (drop 112 b);
    '(u, b) ← takeOption b;
    '(p, b) ← takeOption b;
    '(i, b) ← takeOption b;
    if bool_decide (b = []) then Some (k, [o; u; p; i]) else None
  else None.

Lemma takeOption_encoded s data rest :
  EncodeOptionStringToBytes s = Ok data -> takeOption (data ++ rest) = Some (s, rest).
Proof.
  intros [Hlen ->]%Encode_Ok. unfold MaxUint16 in Hlen. pose proof (len_nonneg (bytes_of_string s)).
  set (body := bytes_of_string s) in *. unfold takeOption.
  rewrite <- app_assoc. rewrite take_app_length', drop_app_length' by now rewrite length_be_bytes.
  rewrite be_val_bytes, Z.mod_small by (change (256 ^ Z.of_nat 2) with 65536; lia).
  replace (Z.to_nat (len body + 1)) with (length (body ++ [z2b 0]))
    by (rewrite length_app; cbn [length]; unfold len; lia).
  rewrite take_app_length. rewrite !length_app, length_be_bytes. cbn [length].
  destruct (Nat.ltb_spec (2 + (length body + 1 + length rest)) (2 + (length body + 1))); [lia|].
  destruct (Nat.eqb_spec (length body + 1) 0); [lia|]. cbn [orb].
  rewrite bool_decide_true by now rewrite last_snoc.
  replace (length body + 1 - 1)%nat with (length body) by lia. rewrite take_app_length.
  subst body. rewrite string_of_bytes_of_string. do 2 f_equal.
  rewrite app_assoc. apply drop_app_length'. rewrite !length_app, length_be_bytes. cbn [length]. lia.
Qed.

Lemma serverParseClient_encoded k o so msg :
  length (PreMaster k) = 48%nat -> length (R1 k) = 32%nat -> length (R2 k) = 32%nat ->
  ServerOptionsString o = Ok so -> encodeClientControlMessageAsBytes k o = Ok msg ->
  serverParseClient msg = Some (k, [so; Username o; Password o; rawInfo]).
Proof.
  intros Hpm Hr1 Hr2 Hso. unfold encodeClientControlMessageAsBytes. rewrite Hso. go_step.
  destruct (EncodeOptionStringToBytes so) as [opt| |] eqn:Eo; [go_step|done|done].
  destruct (EncodeOptionStringToBytes (Username o)) as [user| |] eqn:Eu; [go_step|done|done].
  destruct (EncodeOptionStringToBytes (Password o)) as [pass| |] eqn:Ep; [go_step|done|done].
  destruct (EncodeOptionStringToBytes rawInfo) as [info| |] eqn:Ei; [|vm_compute in Ei; discriminate Ei..].
  intros E. apply (f_equal (fun x => match x with Ok a => a | _ => [] end)) in E. cbn iota in E. subst msg.
  unfold serverParseClient, KeySource_Bytes. rewrite (app_assoc controlMessageHeader).
  rewrite take_app_length', drop_app_length' by reflexivity. unfold bytes_equal at 1.
  rewrite bool_decide_true by done. rewrite <- !app_assoc.
  assert (forall rest, drop 48 (PreMaster k ++ rest) = rest) as D48 by (intros; now apply drop_app_length').
  assert (forall rest, drop 80 (PreMaster k ++ R1 k ++ rest) = rest) as D80.
  { intros. rewrite app_assoc. apply drop_app_length'. rewrite length_app. lia. }
  assert (forall rest, drop 112 (PreMaster k ++ R1 k ++ R2 k ++ rest) = rest) as D112.
  { intros. rewrite !app_assoc. apply drop_app_length'. rewrite !length_app. lia. }
  rewrite D48, D80, D112, !take_app_length' by done.
  rewrite (takeOption_encoded so opt) by done. cbn [mbind option_bind].
  rewrite (takeOption_encoded (Username o) user) by done. cbn [mbind option_bind].
  rewrite (takeOption_encoded (Password o) pass) by done. cbn [mbind option_bind].
  rewrite <- (app_nil_r info), (takeOption_encoded rawInfo info) by done. cbn [mbind option_bind].
  rewrite bool_decide_true by done. now destruct k.
Qed.

(** Whatever the options and credentials, if the client's message can be
    encoded, a server that follows key method 2 reads back the pre-master
    secret, the two random values, the options string, the username and the
    password, with nothing left over. *)
Theorem client_message_readable k o so msg :
  length (PreMaster k) = 48%nat -> length (R1 k) = 32%nat -> length (R2 k) = 32%nat ->
  ServerOptionsString o = Ok so -> encodeClientControlMessageAsBytes k o = Ok msg ->
  serverParseClient msg = Some (k, [so; Username o; Password o; rawInfo]).
Proof. apply serverParseClient_encoded. Qed.

Definition sampleClientKey : KeySource := mkKeySource (replicate 32 Byte.x01) (replicate 32 Byte.x02) (replicate 48 Byte.x03).

Definition sampleClientOptions : OpenVPNOptions :=
  set_Creds "user" "secret" (set_Cipher "AES-256-GCM" (set_Auth "SHA256" defaultOptions)).

Lemma client_message_readable_witness :
  exists so msg, encodeClientControlMessageAsBytes sampleClientKey sampleClientOptions = Ok msg /\
    serverParseClient msg = Some (sampleClientKey, [so; "user"; "secret"; rawInfo]).
Proof.
  destruct (encodeClientControlMessageAsBytes sampleClientKey sampleClientOptions) as [msg| |] eqn:E;
    [|vm_compute in E; discriminate E..].
  eexists _, msg. split; [done|].
  apply (client_message_readable sampleClientKey sampleClientOptions);
    [reflexivity|reflexivity|reflexivity|reflexivity|exact E].
Defined.

(** ** The server's message *)

Definition serverMessage (r1 r2 : list byte) (opt : list byte) : list byte :=
  controlMessageHeader ++ [z2b 2] ++ r1 ++ r2 ++ opt.

Lemma Decode_of_encode s data : EncodeOptionStringToBytes s = Ok data -> DecodeOptionStringFromBytes data = Ok s.
Proof.
  intros [Hlen ->]%Encode_Ok.
  rewrite <- (app_nil_r (bytes_of_string s ++ _)), Decode_encoded by done.
  rewrite app_nil_r, Nat.add_0_r, take_app_length. now rewrite string_of_bytes_of_string.
Qed.

Lemma Decode_no_panic b : DecodeOptionStringFromBytes b <> Panic.
Proof.
  unfold DecodeOptionStringFromBytes. destruct (Z.ltb_spec (len b) 2); [done|].
  destruct (Z.ltb_spec (len (drop 2 b)) (be_val (take 2 b))); [done|].
  destruct (Z.leb_spec (len (drop 2 b)) 0); [done|]. destruct (Z.eqb_spec (be_val (take 2 b)) 0); [done|]. cbn [orb].
  pose proof (be_val_range (take 2 b)).
  destruct (go_index (drop 2 b) (be_val (take 2 b) - 1)) as [x| |] eqn:E; go_step.
  - destruct (negb _); [done|]. rewrite go_upto_Ok by lia. done.
  - done.
  - apply go_index_Panic in E. lia.
Qed.

Lemma parse_serverMessage r1 r2 opt data m :
  length r1 = 32%nat -> length r2 = 32%nat -> EncodeOptionStringToBytes opt = Ok data ->
  parseServerControlMessage (serverMessage r1 r2 data) = Ok (mkKeySource r1 r2 (replicate 48 Byte.x00), opt) /\
  parseServerControlMessage m <> Panic.
Proof.
  intros Hr1 Hr2 He. split.
  - assert (3 <= length data)%nat as Hd.
    { apply Encode_Ok in He as [_ ->]. rewrite !length_app, length_be_bytes. cbn [length]. lia. }
    unfold parseServerControlMessage, serverMessage.
    assert (len (controlMessageHeader ++ [z2b 2] ++ r1 ++ r2 ++ data) = 69 + len data) as Hl
      by (unfold len; rewrite !length_app, Hr1, Hr2; cbn [length controlMessageHeader replicate]; lia).
    rewrite Hl. unfold len in *. destruct (Z.ltb_spec (69 + Z.of_nat (length data)) 4); [lia|].
    rewrite take_app_length' by reflexivity. unfold bytes_equal. rewrite bool_decide_true by done. cbn [negb].
    destruct (Z.ltb_spec (69 + Z.of_nat (length data)) 71); [lia|].
    change (go_index (controlMessageHeader ++ [z2b 2] ++ r1 ++ r2 ++ data) 4) with (Ok (z2b 2)). go_step.
    rewrite b2z_z2b_small by lia. cbn [Z.eqb Pos.eqb negb].
    assert (drop 5 (controlMessageHeader ++ [z2b 2] ++ r1 ++ r2 ++ data) = r1 ++ r2 ++ data) as -> by reflexivity.
    assert (drop 37 (controlMessageHeader ++ [z2b 2] ++ r1 ++ r2 ++ data) = r2 ++ data) as ->.
    { rewrite !app_assoc, <- (app_assoc _ r2). apply drop_app_length'. rewrite !length_app, Hr1. reflexivity. }
    assert (drop 69 (controlMessageHeader ++ [z2b 2] ++ r1 ++ r2 ++ data) = data) as ->.
    { rewrite !app_assoc. apply drop_app_length'. rewrite !length_app, Hr1, Hr2. reflexivity. }
    rewrite !take_app_length' by done. rewrite (Decode_of_encode opt) by done. go_step.
    now rewrite !copy_zeroed_exact.
  - unfold parseServerControlMessage. destruct (_ <? 4); [done|]. destruct (negb _); [done|].
    destruct (Z.ltb_spec (len m) 71); [done|].
    destruct (go_index m 4) as [x| |] eqn:E; go_step; [|done|apply go_index_Panic in E; lia].
    destruct (negb _); [done|]. pose proof (Decode_no_panic (drop 69 m)).
    destruct (DecodeOptionStringFromBytes (drop 69 m)); done.
Qed.

(** The server's key message is parsed exactly: two 32-byte random
    values and any encodable options string come back as they were, with a
    zero pre-master secret; and no byte string whatever makes the parser
    panic. *)
Theorem server_message_parsed r1 r2 opt data m :
  length r1 = 32%nat -> length r2 = 32%nat -> EncodeOptionStringToBytes opt = Ok data ->
  parseServerControlMessage (serverMessage r1 r2 data) = Ok (mkKeySource r1 r2 (replicate 48 Byte.x00), opt) /\
  parseServerControlMessage m <> Panic.
Proof. apply parse_serverMessage. Qed.

Lemma server_message_parsed_witness :
  exists data, EncodeOptionStringToBytes "V4,tun-mtu 1500" = Ok data /\
  parseServerControlMessage (serverMessage (replicate 32 Byte.x01) (replicate 32 Byte.x02) data) =
    Ok (mkKeySource (replicate 32 Byte.x01) (replicate 32 Byte.x02) (replicate 48 Byte.x00), "V4,tun-mtu 1500").
Proof.
  eexists. split; [reflexivity|].
  apply (server_message_parsed (replicate 32 Byte.x01) (replicate 32 Byte.x02) "V4,tun-mtu 1500" _ []); reflexivity.
Defined.

(** ** The push reply *)

(** A value that can be pushed: no separator in it. *)
Definition pushable (s : string) : bool := no_char ","%char s && no_char " "%char s.

(** A push reply as a server writes it, terminated by a zero byte. *)
Definition pushReply (gw ip mask peer : string) : list byte :=
  bytes_of_string ("PUSH_REPLY" +:+ ",route " +:+ gw +:+ ",ifconfig " +:+ ip +:+ " " +:+ mask +:+ ",peer-id " +:+ peer)
  ++ [Byte.x00].

Lemma bytes_of_string_app s t : bytes_of_string (s +:+ t) = bytes_of_string s ++ bytes_of_string t.
Proof.
  induction s as [|c s IH]; [done|]. change (String c s +:+ t) with (String c (s +:+ t)).
  unfold bytes_of_string in *. cbn. unfold String.list_byte_of_string in *. cbn. now rewrite IH.
Qed.

Lemma pushReply_split gw ip mask peer :
  pushable gw = true -> pushable ip = true -> pushable mask = true -> pushable peer = true ->
  pushedOptionsAsMap (pushReply gw ip mask peer) =
    <["peer-id" := [peer]]> (<["ifconfig" := [ip; mask]]> (<["route" := [gw]]> (<["PUSH_REPLY" := []]> ∅))).
Proof.
  unfold pushable. intros [Hg Hg']%andb_true_iff [Hi Hi']%andb_true_iff [Hm Hm']%andb_true_iff [Hp Hp']%andb_true_iff.
  unfold pushedOptionsAsMap, pushReply. set (s := "PUSH_REPLY" +:+ _).
  rewrite length_app. cbn [length]. replace (length (bytes_of_string s) + 1 - 1)%nat with (length (bytes_of_string s)) by lia.
  rewrite take_app_length, string_of_bytes_of_string.
  destruct (Z.eqb_spec (len (bytes_of_string s ++ [Byte.x00])) 0) as [E%len_zero_iff|_]; [now apply app_nil in E|].
  subst s.
  change (",route " +:+ gw +:+ ?t) with (String "," ("route " +:+ gw +:+ t)).
  rewrite (Split_app ","%char "PUSH_REPLY") by reflexivity.
  change (",ifconfig " +:+ ip +:+ ?t) with (String "," ("ifconfig " +:+ ip +:+ t)).
  rewrite (str_assoc "route " gw), (Split_app ","%char ("route " +:+ gw)) by (rewrite no_char_app, Hg; reflexivity).
  change (",peer-id " +:+ peer) with (String "," ("peer-id " +:+ peer)).
  rewrite (str_assoc " " mask), (str_assoc ip), (str_assoc "ifconfig ").
  rewrite (Split_app ","%char ("ifconfig " +:+ ip +:+ " " +:+ mask))
    by (rewrite !no_char_app, Hi, Hm; reflexivity).
  rewrite (Split_no_char ","%char ("peer-id " +:+ peer)) by (rewrite no_char_app, Hp; reflexivity).
  cbn [pushedLoop]. rewrite (Split_no_char " "%char "PUSH_REPLY") by reflexivity.
  change ("route " +:+ gw) with ("route" +:+ String " " gw).
  rewrite (Split_app " "%char "route") by reflexivity. rewrite (Split_no_char " "%char gw) by done.
  change ("ifconfig " +:+ ip +:+ " " +:+ mask) with ("ifconfig" +:+ String " " (ip +:+ String " " mask)).
  rewrite (Split_app " "%char "ifconfig") by reflexivity. rewrite (Split_app " "%char ip) by done.
  rewrite (Split_no_char " "%char mask) by done.
  change ("peer-id " +:+ peer) with ("peer-id" +:+ String " " peer).
  rewrite (Split_app " "%char "peer-id") by reflexivity. now rewrite (Split_no_char " "%char peer).
Qed.

Lemma parse_pushReply gw ip mask peer n rest :
  pushable gw = true -> pushable ip = true -> pushable mask = true -> pushable peer = true -> Atoi peer = Ok n ->
  parseServerPushReply (pushReply gw ip mask peer) = Ok (mkTunnelInfo gw ip 0 mask n) /\
  parseServerPushReply (serverBadAuth ++ rest) = Err ErrBadAuth.
Proof.
  intros Hg Hi Hm Hp Hn. split.
  - unfold parseServerPushReply. rewrite pushReply_split by done. unfold pushReply. rewrite bytes_of_string_app.
    assert (forall t, bytes_HasPrefix (bytes_of_string "PUSH_REPLY" ++ t) serverBadAuth = false) as Hbad by reflexivity.
    assert (forall t, bytes_HasPrefix (bytes_of_string "PUSH_REPLY" ++ t) serverPushReply = true) as Hpush by reflexivity.
    rewrite <- app_assoc, Hbad, Hpush. cbn [negb]. do 2 f_equal.
    unfold newTunnelInfoFromPushedOptions, opt_lookup. simplify_map_eq. now rewrite Hn.
  - unfold parseServerPushReply, bytes_HasPrefix. rewrite take_app_length. unfold bytes_equal.
    now rewrite bool_decide_true.
Qed.

(** A push reply that carries a gateway, an address, a mask and a peer
    identifier is parsed to exactly that tunnel information; a reply that
    starts with AUTH_FAILED is an authentication error. *)
Theorem push_reply_parsed gw ip mask peer n rest :
  pushable gw = true -> pushable ip = true -> pushable mask = true -> pushable peer = true -> Atoi peer = Ok n ->
  parseServerPushReply (pushReply gw ip mask peer) = Ok (mkTunnelInfo gw ip 0 mask n) /\
  parseServerPushReply (serverBadAuth ++ rest) = Err ErrBadAuth.
Proof. apply parse_pushReply. Qed.

Lemma push_reply_parsed_witness :
  parseServerPushReply (pushReply "10.8.0.1" "10.8.0.2" "255.255.255.0" "3") =
    Ok (mkTunnelInfo "10.8.0.1" "10.8.0.2" 0 "255.255.255.0" 3) /\
  parseServerPushReply (serverBadAuth ++ []) = Err ErrBadAuth.
Proof. apply (push_reply_parsed "10.8.0.1" "10.8.0.2" "255.255.255.0" "3" 3 []); reflexivity. Defined.
