(* ===== verification/ReadBuffer.v ===== *)
(** * Reading a stream from a channel of byte slices

    The loop shared by [tlsBio.Read] (internal/tlssession/tlsbio.go) and
    [TUN.Read] (internal/tun/tun.go): serve from a [bytes.Buffer], refill it
    from a channel when it is empty. *)

From S2P Require Import Prelude.

(** How a read ends: with data, with an error, or waiting on the channel. *)
Inductive readResult : Type :=
  | Data (b : list byte)
  | Failed (e : error)
  | Blocked.

(** What else the select waits for: [Stop k e] is chosen after [k] slices
    were received, and the read then fails with [e]. *)
Inductive interruption : Type :=
  | Never
  | Stop (k : nat) (e : error).

Definition tick (i : interruption) : interruption :=
  match i with Never => Never | Stop k e => Stop (k - 1) e end.

(** The loop of [Read] with room for [n] bytes: the result, the buffer and the
    slices still in the channel. *)
Fixpoint readLoop (n : nat) (i : interruption) (buf : list byte) (pending : list (list byte))
  : readResult * list byte * list (list byte) :=
  if (0 <? n)%nat && (0 <? length buf)%nat then (Data (take n buf), drop n buf, pending)
  else match i with
       | Stop O e => (Failed e, buf, pending)
       | _ =>
           match pending with
           | extra :: pending' => readLoop n (tick i) (buf ++ extra) pending'
           | [] => match i with Stop _ e => (Failed e, buf, []) | Never => (Blocked, buf, []) end
           end
       end.

(** No byte is lost, duplicated or reordered by a read, whatever its outcome. *)
Lemma readLoop_conserves n i buf pending r buf' pending' :
  readLoop n i buf pending = (r, buf', pending') ->
  (match r with Data b => b | _ => [] end) ++ buf' ++ concat pending' = buf ++ concat pending.
Proof.
  revert i buf r buf' pending'. induction pending as [|x t IH]; intros i buf r buf' pending'; cbn [readLoop];
    (destruct ((0 <? n)%nat && (0 <? length buf)%nat); [intros [= <- <- <-]; now rewrite app_assoc, take_drop|]).
  - destruct i as [|[|k] e]; intros [= <- <- <-]; done.
  - destruct i as [|[|k] e]; [intros E%IH|intros [= <- <- <-]; done|intros E%IH];
      rewrite E; cbn [concat]; now rewrite app_assoc.
Qed.

(** A read with room that is not interrupted returns data as soon as there is
    any, at most as much as there is room for. *)
Lemma readLoop_progress n buf pending :
  (0 < n)%nat -> buf ++ concat pending <> [] ->
  exists b buf' pending', readLoop n Never buf pending = (Data b, buf', pending') /\ b <> [] /\ (length b <= n)%nat.
Proof.
  intros Hn. revert buf. induction pending as [|x t IH]; intros buf Hne; cbn [readLoop];
    (destruct (Nat.ltb_spec 0 n); [|lia]);
    (destruct (Nat.ltb_spec 0 (length buf)) as [Hb|Hb]; cbn [andb];
      [eexists _, _, _; (split; [reflexivity|]); split;
         [intros E%(f_equal length); rewrite length_take in E; cbn in E; lia | rewrite length_take; lia]|]).
  - destruct buf; [done | cbn in Hb; lia].
  - apply IH. cbn [concat] in Hne. now rewrite <- app_assoc.
Qed.

Lemma readLoop_blocks n buf : readLoop n Never buf [] = (Blocked, buf, []) <-> n = 0%nat \/ buf = [].
Proof.
  cbn [readLoop]. destruct (Nat.ltb_spec 0 n), (Nat.ltb_spec 0 (length buf)); cbn [andb].
  - split; [done|]. intros [?| ->]; [lia | cbn in *; lia].
  - split; [|done]. intros _. right. destruct buf; [done | cbn in *; lia].
  - split; [|done]. intros _. left. lia.
  - split; [|done]. intros _. left. lia.
Qed.
