(* ===== verification/TLSSession.v ===== *)
(** * internal/tlssession: the BIO, the certificates and the negotiation

    [tlsbio.go], [tlshandshake.go] and [tlssession.go].  Certificates, the TLS
    client and the peer are outside the repository: the certificate functions
    are parameters of the section that uses them, and the TLS connection is
    the record of the results its calls give. *)

From S2P Require Import Prelude Bytesx Packet GoStrings Session Config ControlMsg ReadBuffer.

(** ** The BIO *)

Record tlsBio : Type := mkTLSBio { bio_hangup : bool; bio_readBuffer : list byte; bio_down : list (list byte) }.

Definition newTLSBio : tlsBio := mkTLSBio false [] [].

(** [Close] closes the hang-up channel once. *)
Definition tlsBio_Close (t : tlsBio) : tlsBio := mkTLSBio true (bio_readBuffer t) (bio_down t).

(** [hangupAfter] is the number of slices received before the closed hang-up
    channel is selected, when it is. *)
Definition tlsBio_Read (n : nat) (hangupAfter : option nat) (t : tlsBio) (directionUp : list (list byte))
  : readResult * tlsBio * list (list byte) :=
  let i := match hangupAfter with Some k => if bio_hangup t then Stop k ErrClosed else Never | None => Never end in
  let '(r, buf, pending) := readLoop n i (bio_readBuffer t) directionUp in
  (r, mkTLSBio (bio_hangup t) buf (bio_down t), pending).

(** [sent] says that the send is selected; otherwise the hang-up is. *)
Definition tlsBio_Write (data : list byte) (sent : bool) (t : tlsBio) : outcome Z * tlsBio :=
  if sent || negb (bio_hangup t)
  then (Ok (len data), mkTLSBio (bio_hangup t) (bio_readBuffer t) (bio_down t ++ [data]))
  else (Err ErrClosed, t).

(** ** Certificates *)

Section Certificates.
Context {CertPool Certificate X509 : Type}.
Variable AppendCertsFromPEM : list byte -> option CertPool.
Variable LoadX509KeyPair : string -> string -> option Certificate.
Variable X509KeyPair : list byte -> list byte -> option Certificate.
Variable readFile : string -> option (list byte).

Record certPaths : Type := mkCertPaths { certPath : string; keyPath : string; caPath : string }.

(** The parsed client certificate, unless there is none, and the pool that
    holds the CA. *)
Record certConfig : Type := mkCertConfig { cert : option Certificate; ca : CertPool }.

Definition loadCertAndCAFromPath (pth : certPaths) : outcome certConfig :=
  match readFile (caPath pth) with
  | None => Err ErrBadCA
  | Some caData =>
      match AppendCertsFromPEM caData with
      | None => Err ErrBadCA
      | Some pool =>
          if isSet (certPath pth) && isSet (keyPath pth) then
            match LoadX509KeyPair (certPath pth) (keyPath pth) with
            | None => Err ErrBadKeypair
            | Some c => Ok (mkCertConfig (Some c) pool)
            end
          else Ok (mkCertConfig None pool)
      end
  end.

(** [None] is a nil slice. *)
Record certBytes : Type := mkCertBytes {
  cert_bytes : option (list byte); key_bytes : option (list byte); ca_bytes : option (list byte)
}.

(** A nil CA has no certificates to append. *)
Definition loadCertAndCAFromBytes (crt : certBytes) : outcome certConfig :=
  match AppendCertsFromPEM (default [] (ca_bytes crt)) with
  | None => Err ErrBadCA
  | Some pool =>
      match cert_bytes crt, key_bytes crt with
      | Some c, Some k =>
          match X509KeyPair c k with
          | None => Err ErrBadKeypair
          | Some c => Ok (mkCertConfig (Some c) pool)
          end
      | _, _ => Ok (mkCertConfig None pool)
      end
  end.

Definition newCertConfigFromOptions (o : OpenVPNOptions) : outcome certConfig :=
  if ShouldLoadCertsFromPath o
  then loadCertAndCAFromPath (mkCertPaths (CertPath o) (KeyPath o) (CAPath o))
  else loadCertAndCAFromBytes (mkCertBytes (Cert o) (Key o) (CA o)).

(** The interface [authorityPinner], which [certConfig] implements. *)
Class authorityPinner (P : Type) : Type := { authority : P -> CertPool }.
#[local] Instance certConfig_pins : authorityPinner certConfig := {| authority := ca |}.

(** What the program sets of [x509.VerifyOptions].  No roots are the
    system's. *)
Record VerifyOptions : Type := mkVerifyOptions { DNSName : string; Roots : option CertPool }.

Definition certVerifyOptionsNoCommonNameCheck : VerifyOptions := mkVerifyOptions "" None.
Definition certVerifyOptions : VerifyOptions := certVerifyOptionsNoCommonNameCheck.

Variable ParseCertificate : list byte -> option X509.
(** Whether [leaf.Verify] returns no error. *)
Variable Verify : X509 -> VerifyOptions -> bool.

(** [verifyFun]; the chains are not looked at. *)
Definition customVerifyFactory {P} `{authorityPinner P} (pinner : P) (rawCerts : list (list byte)) : outcome unit :=
  raw ← go_index rawCerts 0;
  match ParseCertificate raw with
  | None => Err ErrCannotVerifyCertChain
  | Some leaf =>
      let opts := certVerifyOptions in
      let opts := mkVerifyOptions (DNSName opts) (Some (authority pinner)) in
      if Verify leaf opts then Ok tt else Err ErrCannotVerifyCertChain
  end.

Record tlsConfig : Type := mkTLSConfig {
  Certificates : list (option Certificate);
  InsecureSkipVerify : bool;
  VerifyPeerCertificate : list (list byte) -> outcome unit;
  DynamicRecordSizingDisabled : bool;
  MinVersion : Z;
  MaxVersion : Z
}.

Definition VersionTLS12 : Z := 0x0303.
Definition VersionTLS13 : Z := 0x0304.

(** The configuration asserted not to be nil is the value it points to. *)
Definition initTLS (cfg : certConfig) : outcome tlsConfig :=
  Ok (mkTLSConfig [cert cfg] true (customVerifyFactory cfg) true VersionTLS12 VersionTLS13).

(** The peer is accepted exactly when its leaf certificate verifies against
    the configured CA alone, under no name, although the library's own
    verification is off; and the configuration is never one that verifies
    against the roots of the system. *)
Lemma initTLS_pins cfg conf rawCerts :
  initTLS cfg = Ok conf ->
  VerifyPeerCertificate conf rawCerts = Ok tt <->
  exists raw rest leaf, rawCerts = raw :: rest /\ ParseCertificate raw = Some leaf /\
    Verify leaf (mkVerifyOptions "" (Some (ca cfg))) = true.
Proof.
  intros [= <-]. cbn [VerifyPeerCertificate]. unfold customVerifyFactory. split.
  - intros (raw & Hraw & H)%bind_Ok. destruct rawCerts as [|raw' rest]; [done|]. cbn in Hraw. injection Hraw as ->.
    destruct (ParseCertificate raw) as [leaf|] eqn:Ep; [|done]. cbn in H.
    destruct (Verify leaf _) eqn:Ev; [|done]. by exists raw, rest, leaf.
  - intros (raw & rest & leaf & -> & Hp & Hv). assert (go_index (raw :: rest) 0 = Ok raw) as -> by done. go_step. rewrite Hp. cbn. by rewrite Hv.
Qed.
End Certificates.

(** ** The negotiation *)

(** What the calls on the TLS connection give: the handshake, the write of the
    key message, the read of the reply, and the write and read of the push
    exchange. *)
Record tlsPeer : Type := mkTLSPeer {
  tp_handshake : outcome unit;
  tp_writeAuth : outcome unit;
  tp_readAuth : outcome (list byte);
  tp_writePush : outcome unit;
  tp_readPush : outcome (list byte)
}.

(** The messages written, in order. *)
Definition sentLog : Type := list (list byte).

(** [activeKey.Local()] is dereferenced after the strings are encoded. *)
Definition sendAuthRequestMessage (tp : tlsPeer) (o : OpenVPNOptions) (dck : DataChannelKey) : outcome (list byte) :=
  msg ← match key_local dck with
        | Some k => encodeClientControlMessageAsBytes k o
        | None => _ ← encodeClientControlMessageAsBytes (mkKeySource [] [] []) o; Panic
        end;
  _ ← tp_writeAuth tp;
  Ok msg.

(** Both reads have room for 2^17 bytes. *)
Definition recvBufferSize : nat := 2 ^ 17.

Definition recvAuthReplyMessage (tp : tlsPeer) : outcome (KeySource * string) :=
  data ← tp_readAuth tp; parseServerControlMessage data.

Definition pushRequest : list byte := bytes_of_string "PUSH_REQUEST" ++ [Byte.x00].

Definition sendPushRequestMessage (tp : tlsPeer) : outcome (list byte) :=
  _ ← tp_writePush tp; Ok pushRequest.

Definition recvPushResponseMessage (tp : tlsPeer) : outcome TunnelInfo :=
  data ← tp_readPush tp; parseServerPushReply data.

(** The result of a negotiation: what is sent on [errorch], the manager, the
    messages written and the key sent on [keyUp]. *)
Record authResult : Type := mkAuthResult {
  ar_err : outcome unit;
  ar_manager : Manager;
  ar_sent : sentLog;
  ar_key : option DataChannelKey
}.

(** [failWith] is [errorch <- err; return]. *)
Definition failWith {A} (r : outcome A) (m : Manager) (sent : sentLog) : authResult :=
  mkAuthResult (match r with Ok _ => Ok tt | Err e => Err e | Panic => Panic end) m sent None.

(** [doTLSAuth].  The error of [AddRemoteKey] is not looked at. *)
Definition doTLSAuth (tp : tlsPeer) (o : OpenVPNOptions) (m : Manager) : authResult :=
  match tp_handshake tp with
  | Ok _ =>
      match ActiveKey m with
      | Ok (i, activeKey) =>
          match sendAuthRequestMessage tp o activeKey with
          | Ok msg =>
              let '(m, _) := SetNegotiationState m S_SENT_KEY in
              match recvAuthReplyMessage tp with
              | Ok (remoteKey, serverOptions) =>
                  match InitTunnelInfo m serverOptions with
                  | Ok m =>
                      let activeKey :=
                        match AddRemoteKey activeKey remoteKey with Ok k => k | _ => activeKey end in
                      let m := modifyKey i activeKey m in
                      let '(m, _) := SetNegotiationState m S_GOT_KEY in
                      match sendPushRequestMessage tp with
                      | Ok push =>
                          match recvPushResponseMessage tp with
                          | Ok tinfo =>
                              let m := UpdateTunnelInfo m tinfo in
                              let '(m, _) := SetNegotiationState m S_ACTIVE in
                              mkAuthResult (Ok tt) m [msg; push] (Some activeKey)
                          | r => failWith r m [msg; push]
                          end
                      | r => failWith r m [msg]
                      end
                  | r => failWith r m [msg]
                  end
              | r => failWith r m [msg]
              end
          | r => failWith r m []
          end
      | r => failWith r m []
      end
  | r => failWith r m []
  end.

(** One iteration of [worker] on a notification.  [certs] is the result of
    [newCertConfigFromOptions] and [initTLS]; no shutdown is selected while the
    negotiation runs. *)
Inductive workerFlow : Type := WContinue | WFailure (e : error) | WCrash.

Definition worker_step (certs : outcome unit) (tp : tlsPeer) (o : OpenVPNOptions)
    (notif : Notification) (m : Manager) : workerFlow * Manager * option DataChannelKey :=
  if Z.land (Flags notif) NotificationReset =? 0 then (WContinue, m, None)
  else
    match certs with
    | Ok _ =>
        let r := doTLSAuth tp o m in
        match ar_err r with
        | Err ErrBadCA => (WFailure ErrBadCA, ar_manager r, ar_key r)
        | Panic => (WCrash, ar_manager r, ar_key r)
        | _ => (WContinue, ar_manager r, ar_key r)
        end
    | Err ErrBadCA => (WFailure ErrBadCA, m, None)
    | Err _ => (WContinue, m, None)
    | Panic => (WCrash, m, None)
    end.

(** ** A negotiation that succeeds *)

(** With a fresh key and a server that answers with its random values,
    its options and a push reply, the negotiation writes the key message and
    the push request, and nothing else; it completes the active key with the
    server's random values, takes the MTU from the options and the rest of the
    tunnel information from the push reply, ends in [S_ACTIVE] and hands that
    key to the data channel. *)
Lemma negotiation_completes tp o m k loc msg r1 r2 opt data ti gw ip mask peer n :
  manager_inv m -> keys m = [k] -> key_ready k = false -> key_local k = Some loc ->
  tp_handshake tp = Ok tt -> tp_writeAuth tp = Ok tt -> tp_writePush tp = Ok tt ->
  encodeClientControlMessageAsBytes loc o = Ok msg ->
  length r1 = 32%nat -> length r2 = 32%nat -> EncodeOptionStringToBytes opt = Ok data ->
  newTunnelInfoFromRemoteOptionsString opt = Ok ti ->
  tp_readAuth tp = Ok (serverMessage r1 r2 data) -> tp_readPush tp = Ok (pushReply gw ip mask peer) ->
  pushable gw = true -> pushable ip = true -> pushable mask = true -> pushable peer = true -> Atoi peer = Ok n ->
  let key := mkDataChannelKey (key_index k) true (Some loc) (Some (mkKeySource r1 r2 (replicate 48 Byte.x00))) in
  exists m', doTLSAuth tp o m = mkAuthResult (Ok tt) m' [msg; pushRequest] (Some key) /\
    keys m' = [key] /\ negState m' = S_ACTIVE /\
    tunnelInfo m' = mkTunnelInfo gw ip (MTU ti) mask n /\
    localSessionID m' = localSessionID m /\ remoteSessionID m' = remoteSessionID m /\ keyID m' = keyID m /\
    localControlPacketID m' = localControlPacketID m /\ localDataPacketID m' = localDataPacketID m.
Proof.
  intros Hm Hk Hrdy Hloc Hhs Hw1 Hw2 Henc Hr1 Hr2 Hopt Hti Hra Hrp Hg Hi Hmk Hp Hn key.
  unfold doTLSAuth. rewrite Hhs. destruct (ActiveKey_Ok m Hm) as (k' & Hk' & ->).
  rewrite Hk in Hk'. injection Hk' as <-. unfold sendAuthRequestMessage. rewrite Hloc, Henc. go_step. rewrite Hw1. go_step.
  cbn [SetNegotiationState]. unfold recvAuthReplyMessage. rewrite Hra. go_step.
  destruct (parse_serverMessage r1 r2 opt data [] Hr1 Hr2 Hopt) as [-> _].
  unfold InitTunnelInfo. rewrite Hti. go_step. unfold AddRemoteKey. rewrite Hrdy, Hloc. cbn [SetNegotiationState].
  unfold sendPushRequestMessage. rewrite Hw2. go_step. unfold recvPushResponseMessage. rewrite Hrp. go_step.
  destruct (parse_pushReply gw ip mask peer n [] Hg Hi Hmk Hp Hn) as [-> _].
  eexists. split; [reflexivity|]. cbn. rewrite Hk. done.
Qed.

Definition samplePeer : tlsPeer :=
  mkTLSPeer (Ok tt) (Ok tt)
    (Ok (serverMessage (replicate 32 Byte.x04) (replicate 32 Byte.x05)
       (match EncodeOptionStringToBytes "V4,tun-mtu 1400" with Ok d => d | _ => [] end)))
    (Ok tt) (Ok (pushReply "10.8.0.1" "10.8.0.2" "255.255.255.0" "3")).

Lemma negotiation_completes_sample :
  exists m' msg key, doTLSAuth samplePeer sampleClientOptions sampleManager =
    mkAuthResult (Ok tt) m' [msg; pushRequest] (Some key) /\
    tunnelInfo m' = mkTunnelInfo "10.8.0.1" "10.8.0.2" 1400 "255.255.255.0" 3.
Proof.
  destruct (keys sampleManager) as [|k [|]] eqn:Ek; [vm_compute in Ek; discriminate Ek| |vm_compute in Ek; discriminate Ek].
  assert (exists loc, key_local k = Some loc) as [loc Hloc]
    by (vm_compute in Ek; injection Ek as <-; eexists; reflexivity).
  assert (key_ready k = false) as Hr by (vm_compute in Ek; injection Ek as <-; reflexivity).
  destruct (encodeClientControlMessageAsBytes loc sampleClientOptions) as [msg| |] eqn:Em.
  2,3: exfalso; vm_compute in Ek; injection Ek as <-; injection Hloc as <-; vm_compute in Em; discriminate Em.
  destruct (negotiation_completes samplePeer sampleClientOptions sampleManager k loc msg
    (replicate 32 Byte.x04) (replicate 32 Byte.x05) "V4,tun-mtu 1400"
    (match EncodeOptionStringToBytes "V4,tun-mtu 1400" with Ok d => d | _ => [] end)
    (mkTunnelInfo "" "" 1400 "" 0) "10.8.0.1" "10.8.0.2" "255.255.255.0" "3" 3)
    as (m' & Hrun & _ & _ & Hti & _);
    try reflexivity; try assumption; [apply sampleManager_inv|].
  eexists m', msg, _. split; [exact Hrun | exact Hti].
Defined.

(** ** Negotiations that fail, and the second one *)

(** A key is handed to the data channel only at the end of a negotiation that
    succeeded. *)
Lemma key_only_after_success tp o m k :
  ar_key (doTLSAuth tp o m) = Some k ->
  ar_err (doTLSAuth tp o m) = Ok tt /\ negState (ar_manager (doTLSAuth tp o m)) = S_ACTIVE.
Proof.
  unfold doTLSAuth, failWith. cbn [SetNegotiationState].
  repeat (case_match; try done).
Qed.

(** When a negotiation runs again on a key that is already complete, as
    after a reset, the new random values of the server are silently dropped:
    if a key is handed to the data channel it is the old one, although the
    server now uses its new values. *)
Theorem renegotiation_keeps_old_key tp o m k k' :
  manager_inv m -> keys m = [k] -> key_ready k = true ->
  ar_key (doTLSAuth tp o m) = Some k' -> k' = k.
Proof.
  intros Hm Hk Hr. unfold doTLSAuth, failWith. destruct (tp_handshake tp); [|done|done].
  destruct (ActiveKey_Ok m Hm) as (k0 & Hk0 & ->). rewrite Hk in Hk0. injection Hk0 as <-.
  destruct (sendAuthRequestMessage tp o k); [|done|done]. cbn [SetNegotiationState].
  destruct (recvAuthReplyMessage tp) as [[rk so]| |]; [|done|done].
  destruct (InitTunnelInfo _ so); [|done|done]. unfold AddRemoteKey. rewrite Hr. cbn [SetNegotiationState].
  destruct (sendPushRequestMessage tp); [|done|done].
  destruct (recvPushResponseMessage tp); [|done|done]. cbn. congruence.
Qed.

Lemma renegotiation_keeps_old_key_witness :
  exists k1 k2,
    ar_key (doTLSAuth samplePeer sampleClientOptions sampleManager) = Some k1 /\
    ar_key (doTLSAuth
      (mkTLSPeer (Ok tt) (Ok tt)
        (Ok (serverMessage (replicate 32 Byte.x0a) (replicate 32 Byte.x0b)
           (match EncodeOptionStringToBytes "V4" with Ok d => d | _ => [] end)))
        (Ok tt) (tp_readPush samplePeer)) sampleClientOptions
      (ar_manager (doTLSAuth samplePeer sampleClientOptions sampleManager))) = Some k2 /\ k2 = k1.
Proof.
  eexists _, _. split; [vm_compute; reflexivity|]. split; [vm_compute; reflexivity|].
  apply (renegotiation_keeps_old_key
    (mkTLSPeer (Ok tt) (Ok tt)
        (Ok (serverMessage (replicate 32 Byte.x0a) (replicate 32 Byte.x0b)
           (match EncodeOptionStringToBytes "V4" with Ok d => d | _ => [] end)))
        (Ok tt) (tp_readPush samplePeer)) sampleClientOptions
    (ar_manager (doTLSAuth samplePeer sampleClientOptions sampleManager)));
    [|vm_compute; reflexivity|reflexivity|vm_compute; reflexivity].
  constructor; vm_compute; try reflexivity; try (split; congruence); repeat constructor; congruence.
Defined.

(** ** Configurations without a client certificate *)

(** The options of a configuration file never have nil certificate bytes. *)
Definition inline_nonnil (o : OpenVPNOptions) : Prop :=
  is_Some (CA o) /\ is_Some (Cert o) /\ is_Some (Key o).

Lemma parseOption_inline fs o dir key p o' :
  parseOption fs o dir key p = Ok o' -> CA o' = CA o /\ Cert o' = Cert o /\ Key o' = Key o.
Proof.
  unfold parseOption, parseProto, parseRemote, parseCipher, parseAuth, parseCompress, parseCompLZO,
    parseTLSVerMax, parseProxyOBFS4, parseCA, parseCert, parseKey, parseAuthUser.
  intros E. repeat (case_match; try (injection E as <-; done); try discriminate E);
    go_inv E; repeat (case_match; try (injection E as <-; done); try discriminate E); done.
Qed.

Lemma parseLines_inline fs dir lines st st' :
  inline_nonnil (ps_opt st) -> parseLines fs dir st lines = Ok st' -> inline_nonnil (ps_opt st').
Proof.
  revert st. induction lines as [|l ls IH]; intros st Hst; cbn [parseLines]; [now intros [= <-]|].
  intros H. apply bind_Ok in H as (st1 & H1 & H2). apply IH in H2; [done|]. clear IH H2.
  unfold parseLine in H1. destruct (HasPrefix l "#"); [now injection H1 as <-|].
  destruct (isClosingTag _).
  { apply bind_Ok in H1 as (o1 & Ho1 & [= <-]). unfold parseInlineTag in Ho1. cbn [ps_opt].
    repeat (case_match; try discriminate Ho1); injection Ho1 as <-; destruct Hst as (? & ? & ?); split; cbn; eauto. }
  destruct (isSet _); [now injection H1 as <-|].
  destruct (isOpeningTag _); [destruct (negb _); [done | now injection H1 as <-]|].
  destruct (Split _ _); [now injection H1 as <-|]. apply bind_Ok in H1 as (o1 & Ho1 & [= <-]).
  apply parseOption_inline in Ho1 as (E1 & E2 & E3). unfold inline_nonnil in *. cbn [ps_opt]. now rewrite E1, E2, E3.
Qed.

(** A configuration file with an inline CA and a username and password
    but no client certificate passes [HasAuthInfo] and can still not be used:
    the empty certificate of the parsed options is not nil, so the TLS layer
    tries to load a key pair from nothing. *)
Theorem password_only_config_rejected {Pool C : Type} (pem : list byte -> option Pool)
    load (pair : list byte -> list byte -> option C) rf fs lines dir o :
  getOptionsFromLines fs lines dir = Ok o ->
  ShouldLoadCertsFromPath o = false -> bytes_len (Cert o) = 0 ->
  (forall key, pair [] key = None) -> is_Some (pem (default [] (CA o))) ->
  newCertConfigFromOptions pem load pair rf o = Err ErrBadKeypair.
Proof.
  intros Hopts Hpath Hcert Hpair [pool Hpool]. unfold getOptionsFromLines in Hopts.
  apply bind_Ok in Hopts as (st & Hst & [= <-]).
  apply parseLines_inline in Hst as (_ & [c Hc] & [k Hk]); [|repeat split; eexists; reflexivity].
  unfold newCertConfigFromOptions, loadCertAndCAFromBytes. cbn [cert_bytes key_bytes ca_bytes]. rewrite Hpath, Hpool, Hc, Hk.
  rewrite Hc in Hcert. cbn in Hcert. apply len_zero_iff in Hcert as ->. now rewrite Hpair.
Qed.

Lemma password_only_config_rejected_witness :
  exists o, getOptionsFromLines sampleFS sampleLines "/etc/vpn/" = Ok o /\ HasAuthInfo o = true /\
  newCertConfigFromOptions (fun b => Some b) (fun _ _ => Some tt)
    (fun c k => match c with [] => None | _ => Some tt end) (fun _ => None) o = Err ErrBadKeypair.
Proof.
  eexists. split; [vm_compute; reflexivity|]. split; [reflexivity|].
  apply (password_only_config_rejected (fun b => Some b) (fun _ _ => Some tt)
    (fun c k => match c with [] => None | _ => Some tt end) (fun _ => None) sampleFS sampleLines "/etc/vpn/");
    [vm_compute; reflexivity|reflexivity|reflexivity|reflexivity|eexists; reflexivity].
Defined.
