(* ===== verification/Establish.v ===== *)
(** * From the manager to a working tunnel

    The negotiation of [tlssession], the key worker of [datachannel] and the
    peer at the other end.  The peer is a server that follows key method 2: it
    reads the client's message as [serverParseClient] does, expands the same
    secrets, and uses the third and fourth slot to send where the client uses
    the first two.  Its data channel is the reference the client's is compared
    with. *)

From S2P Require Import Prelude Bytesx Packet GoStrings Session Config Crypto DataChannel DataChannelSpec ControlMsg TLSSession.

(** ** The server *)

Section Server.
Context `{Crypto}.

(** The key expansion of a server that drew [r1] and [r2]. *)
Definition serverExpansion (k : KeySource) (r1 r2 clientSID serverSID : list byte) : list byte :=
  PRF10
    (PRF10 (PreMaster k) (bytes_of_string "OpenVPN master secret" ++ R1 k ++ r1) 48)
    (bytes_of_string "OpenVPN key expansion" ++ R2 k ++ r2 ++ clientSID ++ serverSID) 256.

(** The server's data channel, from the message it received. *)
Definition serverChannel (opt : OpenVPNOptions) (msg r1 r2 clientSID serverSID : list byte) : option DataChannel :=
  '(k, _) ← serverParseClient msg;
  match NewDataChannelFromOptions opt with
  | Ok d =>
      alg ← hash (state d);
      Some (mirrorChannel (keyedChannel alg (serverExpansion k r1 r2 clientSID serverSID) d))
  | _ => None
  end.
End Server.

(** What the peer answers: its random values and options, and a push reply. *)
Record serverAnswers (tp : tlsPeer) (r1 r2 : list byte) (opt gw ip mask peer : string) (mtu pid : Z) : Prop := {
  sa_handshake : tp_handshake tp = Ok tt;
  sa_writeAuth : tp_writeAuth tp = Ok tt;
  sa_writePush : tp_writePush tp = Ok tt;
  sa_R1 : length r1 = 32%nat;
  sa_R2 : length r2 = 32%nat;
  sa_readAuth : exists data, EncodeOptionStringToBytes opt = Ok data /\ tp_readAuth tp = Ok (serverMessage r1 r2 data);
  sa_options : exists ti, newTunnelInfoFromRemoteOptionsString opt = Ok ti /\ MTU ti = mtu;
  sa_readPush : tp_readPush tp = Ok (pushReply gw ip mask peer);
  sa_pushable : pushable gw && pushable ip && pushable mask && pushable peer = true;
  sa_peer : Atoi peer = Ok pid
}.

(** A payload written by [d] is read by [e]: followed by the padding that the
    AEAD modes do not remove, or as it is by a peer that then remembers the
    packet identifier. *)
Definition crosses `{Crypto} (gen : Z -> outcome (list byte)) (c : dataCipherAES) (d e : DataChannel) (m n : Manager)
    (payload : list byte) : Prop :=
  exists p raw q,
    writePacket gen d m payload = (Ok p, set_localDataPacketID (localDataPacketID m + 1) m) /\
    Packet_Bytes p = Ok raw /\ ParsePacket raw = Ok q /\
    readPacket e n q =
      if isAEAD c then (Ok (payload ++ aeadTrailer (Compress (options d)) payload), e)
      else (Ok payload, atRemoteID (localDataPacketID m) e).

(** The modes in which payloads cross: the AEAD ones, and the others without a
    compression byte, when there is an initialisation vector. *)
Definition modeCarries (gen : Z -> outcome (list byte)) (c : dataCipherAES) (compress : Compression) : Prop :=
  isAEAD c = true \/ hasCompressionByte compress = false /\ exists iv, gen 16 = Ok iv /\ length iv = 16%nat.

(** ** The steps *)

(** Whether the client's message can be encoded depends on the options only. *)
Lemma encode_any_key k k' o msg :
  encodeClientControlMessageAsBytes k o = Ok msg -> exists msg', encodeClientControlMessageAsBytes k' o = Ok msg'.
Proof.
  unfold encodeClientControlMessageAsBytes. intros (so & -> & E)%bind_Ok. cbn [mbind outcome_bind].
  apply bind_Ok in E as (opt & -> & E). apply bind_Ok in E as (user & -> & E). apply bind_Ok in E as (pass & -> & _).
  eexists. reflexivity.
Qed.

Lemma encode_options k o msg :
  encodeClientControlMessageAsBytes k o = Ok msg -> exists so, ServerOptionsString o = Ok so.
Proof. intros (so & Hso & _)%bind_Ok. eauto. Qed.

(** A manager starts with a fresh key whose local part has full length. *)
Lemma NewManager_key randomFn m :
  NewManager randomFn = Ok m ->
  exists k loc, keys m = [k] /\ key_ready k = false /\ key_local k = Some loc /\
    length (PreMaster loc) = 48%nat /\ length (R1 loc) = 32%nat /\ length (R2 loc) = 32%nat.
Proof.
  unfold NewManager. intros (b & _ & E)%bind_Ok. apply bind_Ok in E as (sid & _ & E).
  apply bind_Ok in E as (loc & Hloc & E). cbn in E. injection E as <-.
  unfold NewKeySource in Hloc. apply bind_Ok in Hloc as (b1 & _ & Hloc). apply bind_Ok in Hloc as (b2 & _ & Hloc).
  apply bind_Ok in Hloc as (b3 & _ & Hloc). injection Hloc as <-.
  eexists _, _. repeat split; apply length_copy_zeroed.
Qed.

Lemma keyed_mirrored `{CryptoLaws} opt d alg ks m n :
  NewDataChannelFromOptions opt = Ok d -> length ks = 256%nat -> dataHeader n = dataHeader m ->
  let k := keyedChannel alg ks d in
  exists c, dataCipher (state d) = Some c /\ mirrored k (mirrorChannel k) m n c /\ mirrored (mirrorChannel k) k n m c.
Proof.
  intros Hd Hk Hn k. destruct (keyedChannel_ready _ _ alg _ Hd Hk) as (c & Hc). exists c.
  split; [exact (cr_cipher _ _ _ _ Hc)|]. split; constructor; try reflexivity; try done.
  - eexists _, _, _. split; [exact Hc|]. destruct Hc. by constructor.
  - eexists _, _, _. split; [|exact Hc]. destruct Hc. by constructor.
Qed.

(** Between fresh channels every payload crosses. *)
Lemma mirrored_crosses `{CryptoLaws} gen c d e m n payload :
  mirrored d e m n c -> modeCarries gen c (Compress (options d)) -> manager_inv m -> localDataPacketID m < MaxUint32 ->
  remotePacketID (state e) = 0 -> payload <> [] -> crosses gen c d e m n payload.
Proof.
  intros Hmi Hmode Hm Hid Hr Hne. unfold crosses. destruct (isAEAD c) eqn:Ha.
  - by apply (aead_wire_roundtrip _ _ _ _ _ c).
  - destruct Hmode as [?|(Hc & iv & Hgen & Hiv)]; [congruence|].
    destruct (nonaead_packet gen d e m n c payload iv Hmi Ha Hc Hm Hid Hgen Hiv) as (p & raw & q & H1 & H2 & H3 & _ & H4).
    exists p, raw, q. split; [done|]. split; [done|]. split; [done|].
    specialize (H4 0 ltac:(done)). rewrite <- Hr in H4 at 1. rewrite atRemoteID_self in H4. rewrite H4.
    pose proof (inv_data _ Hm). destruct (Z.leb_spec (localDataPacketID m) 0); [lia|done].
Qed.

(** The negotiation and the key worker on a manager with a fresh key. *)
Lemma keys_established `{CryptoLaws} m0 randomFn m tp o d sid r1 r2 opt gw ip mask peer mtu pid :
  NewManager randomFn = Ok m0 -> keys m = keys m0 -> manager_inv m -> remoteSessionID m = Some sid ->
  NewDataChannelFromOptions o = Ok d ->
  (exists k msg, encodeClientControlMessageAsBytes k o = Ok msg) ->
  serverAnswers tp r1 r2 opt gw ip mask peer mtu pid ->
  exists m' msg key alg loc,
    doTLSAuth tp o m = mkAuthResult (Ok tt) m' [msg; pushRequest] (Some key) /\
    tunnelInfo m' = mkTunnelInfo gw ip mtu mask pid /\ localDataPacketID m' = localDataPacketID m /\ manager_inv m' /\
    (exists rest, serverParseClient msg = Some (loc, rest)) /\ hash (state d) = Some alg /\
    keyWorker_step (mkWorkersState d m' false) key =
      Ok (mkWorkersState (keyedChannel alg (serverExpansion loc r1 r2 (localSessionID m) sid) d)
            (set_negState S_GENERATED_KEYS m') true, true).
Proof.
  intros Hm0 Hkeys Hm Hsid Hd (k0 & msg0 & Henc0) [Hhs Hw1 Hw2 Hr1 Hr2 (data & Hdata & Hra) (ti & Hti & Hmtu) Hrp Hpush Hpid].
  destruct (NewManager_key _ _ Hm0) as (k & loc & Hk & Hfresh & Hloc & Hpm & Hl1 & Hl2).
  destruct (encode_any_key _ loc _ _ Henc0) as (msg & Henc). destruct (encode_options _ _ _ Henc) as (so & Hso).
  rewrite !andb_true_iff in Hpush. destruct Hpush as [[[Hgw Hip] Hmask] Hpeer].
  destruct (negotiation_completes tp o m k loc msg r1 r2 opt data ti gw ip mask peer pid Hm ltac:(congruence) Hfresh Hloc
    Hhs Hw1 Hw2 Henc Hr1 Hr2 Hdata Hti Hra Hrp Hgw Hip Hmask Hpeer Hpid) as (m' & Hrun & Hk' & _ & Htun & Hls & Hrs & Hkid & Hcid & Hdid).
  set (key := mkDataChannelKey (key_index k) true (Some loc) (Some (mkKeySource r1 r2 (replicate 48 Byte.x00)))) in *.
  destruct (setupKeys_keyed o d m' key loc _ Hd eq_refl eq_refl eq_refl) as (alg & Halg & Hset).
  exists m', msg, key, alg, loc. split; [exact Hrun|]. split; [by rewrite Htun, Hmtu|]. split; [exact Hdid|].
  split; [|split; [|split; [exact Halg|]]].
  - destruct Hm as [I1 I2 I3 I4 I5 I6 I7]. constructor; rewrite ?Hk', ?Hkid, ?Hcid, ?Hdid, ?Hls; try done;
      repeat constructor; done.
  - eexists. by apply serverParseClient_encoded.
  - unfold keyWorker_step. cbn [dataChannel sessionManager]. rewrite Hset. cbn [SetNegotiationState].
    unfold keyExpansion, GetLocalSessionID, GetRemoteSessionID. rewrite Hls, Hrs, Hsid. reflexivity.
Qed.

(** C4: a manager with a fresh key negotiates with a server that follows key
    method 2 and answers with its random values, its options and a push reply.
    The negotiation writes the key message and the push request and takes MTU,
    addresses and peer identifier from the answers; the key it hands over makes
    the data channel ready and signals the session; and the channel that the
    server derives from the message it read is the mirror of the client's, in
    every mode and for both directions.  A payload then crosses, from the client
    to the server and back, in the AEAD modes, where it arrives followed by the
    padding that nobody removes, and in the other modes without a compression
    byte; in a non-AEAD mode with one the two ends disagree on the framing
    ([nonaead_lzo_misframed]). *)
Theorem tunnel_established `{CryptoLaws} gen m0 randomFn m tp o d sid r1 r2 opt gw ip mask peer mtu pid :
  NewManager randomFn = Ok m0 -> keys m = keys m0 -> manager_inv m -> remoteSessionID m = Some sid ->
  localDataPacketID m < MaxUint32 -> NewDataChannelFromOptions o = Ok d ->
  (exists k msg, encodeClientControlMessageAsBytes k o = Ok msg) ->
  serverAnswers tp r1 r2 opt gw ip mask peer mtu pid ->
  exists m' msg key ws srv,
    doTLSAuth tp o m = mkAuthResult (Ok tt) m' [msg; pushRequest] (Some key) /\
    tunnelInfo m' = mkTunnelInfo gw ip mtu mask pid /\
    keyWorker_step (mkWorkersState d m' false) key = Ok (ws, true) /\
    firstKeyReady ws = true /\ sessionManager ws = set_negState S_GENERATED_KEYS m' /\
    manager_inv (sessionManager ws) /\ localDataPacketID (sessionManager ws) = localDataPacketID m /\
    serverChannel o msg r1 r2 (localSessionID m) sid = Some srv /\
    forall n, dataHeader n = dataHeader (sessionManager ws) ->
      exists c, dataCipher (state d) = Some c /\
        mirrored (dataChannel ws) srv (sessionManager ws) n c /\ mirrored srv (dataChannel ws) n (sessionManager ws) c /\
        (modeCarries gen c (Compress o) -> manager_inv n -> localDataPacketID n < MaxUint32 -> forall payload, payload <> [] ->
         crosses gen c (dataChannel ws) srv (sessionManager ws) n payload /\
         crosses gen c srv (dataChannel ws) n (sessionManager ws) payload).
Proof.
  intros Hm0 Hkeys Hm Hsid Hid Hd Henc Hsrv.
  destruct (keys_established _ _ _ _ _ _ _ _ _ _ _ _ _ _ _ _ Hm0 Hkeys Hm Hsid Hd Henc Hsrv)
    as (m' & msg & key & alg & loc & Hrun & Htun & Hdid & Hinv & (rest & Hparse) & Halg & Hkey).
  set (k := keyedChannel alg (serverExpansion loc r1 r2 (localSessionID m) sid) d) in *.
  exists m', msg, key, (mkWorkersState k (set_negState S_GENERATED_KEYS m') true), (mirrorChannel k).
  assert (manager_inv (set_negState S_GENERATED_KEYS m')) as Hinv' by (destruct Hinv; by constructor).
  split; [exact Hrun|]. split; [exact Htun|]. split; [exact Hkey|]. split; [reflexivity|]. split; [reflexivity|].
  split; [exact Hinv'|]. split; [exact Hdid|]. split; [unfold serverChannel; rewrite Hparse; cbn [mbind option_bind]; rewrite Hd, Halg; reflexivity|].
  intros n Hn. cbn [dataChannel sessionManager] in *.
  destruct (keyed_mirrored _ _ alg (serverExpansion loc r1 r2 (localSessionID m) sid) _ n Hd (length_PRF10 _ _ _) Hn)
    as (c & Hc & H1 & H2).
  exists c. split; [exact Hc|]. split; [exact H1|]. split; [exact H2|]. intros Ha Hni Hnid payload Hne.
  assert (remotePacketID (state k) = 0 /\ options k = o) as [Hr0 Ho]
    by (apply NewDataChannel_fields in Hd as (c' & alg' & _ & _ & ->); split; reflexivity).
  split; apply mirrored_crosses; try done; [by rewrite Ho|cbn; lia|cbn [options mirrorChannel set_state]; by rewrite Ho].
Qed.

Definition sampleSession : Manager := set_remoteSessionID (Some (replicate 8 Byte.x09)) sampleManager.

Lemma sampleAnswers :
  serverAnswers samplePeer (replicate 32 Byte.x04) (replicate 32 Byte.x05) "V4,tun-mtu 1400"
    "10.8.0.1" "10.8.0.2" "255.255.255.0" "3" 1400 3.
Proof.
  constructor; try reflexivity; [|exists (mkTunnelInfo "" "" 1400 "" 0); split; reflexivity].
  eexists. split; vm_compute; reflexivity.
Qed.

Lemma tunnel_established_witness :
  exists d m' msg key ws srv,
    NewDataChannelFromOptions sampleClientOptions = Ok d /\
    doTLSAuth samplePeer sampleClientOptions sampleSession = mkAuthResult (Ok tt) m' [msg; pushRequest] (Some key) /\
    tunnelInfo m' = mkTunnelInfo "10.8.0.1" "10.8.0.2" 1400 "255.255.255.0" 3 /\
    keyWorker_step (mkWorkersState d m' false) key = Ok (ws, true) /\
    crosses (fun _ => Panic) (mkDataCipherAES 32 "gcm") (dataChannel ws) srv (sessionManager ws) (sessionManager ws) samplePayload /\
    crosses (fun _ => Panic) (mkDataCipherAES 32 "gcm") srv (dataChannel ws) (sessionManager ws) (sessionManager ws) samplePayload.
Proof.
  destruct (NewDataChannelFromOptions sampleClientOptions) as [d| |] eqn:Ed; [|vm_compute in Ed; discriminate Ed..].
  destruct (tunnel_established (fun _ => Panic) sampleManager sampleRandom sampleSession samplePeer sampleClientOptions d
    (replicate 8 Byte.x09) (replicate 32 Byte.x04) (replicate 32 Byte.x05) "V4,tun-mtu 1400"
    "10.8.0.1" "10.8.0.2" "255.255.255.0" "3" 1400 3)
    as (m' & msg & key & ws & srv & Hrun & Htun & Hkey & _ & Hws & Hinv & Hid & _ & Hall);
    [reflexivity|reflexivity|by destruct sampleManager_inv|reflexivity|vm_compute; reflexivity|exact Ed| |exact sampleAnswers|].
  { exists sampleClientKey. eexists. vm_compute. reflexivity. }
  destruct (Hall (sessionManager ws) eq_refl) as (c & Hc & _ & _ & Hcross).
  assert (c = mkDataCipherAES 32 "gcm") as -> by (vm_compute in Ed; injection Ed as <-; injection Hc as <-; reflexivity).
  exists d, m', msg, key, ws, srv. split; [reflexivity|]. split; [exact Hrun|]. split; [exact Htun|]. split; [exact Hkey|].
  apply Hcross; [left; reflexivity|exact Hinv|rewrite Hid; vm_compute; reflexivity|done].
Defined.
