(* ===== verification/Tun.v ===== *)
(** * internal/tun

    The deadlines of [tundeadline.go], the TUN device of [tun.go] and the
    result of [StartTUN].  Times are nanoseconds on one clock; the zero
    [time.Time] is [None]. *)

From S2P Require Import Prelude Session Packet ReadBuffer NetworkIO.

(** ** Deadlines *)

(** [timer] is when the timer is due; [channel] numbers the channel in
    [cancel], so that a new one is a new number, and [closed] says that it is
    closed. *)
Record tunDeadline : Type := mkTunDeadline { timer : option Z; channel : nat; closed : bool }.

Definition makeTUNDeadline : tunDeadline := mkTunDeadline None 0 false.

(** The runtime runs the timer's callback, which closes the channel, when it
    is due. *)
Definition deadline_at (now : Z) (d : tunDeadline) : tunDeadline :=
  match timer d with
  | Some due => if due <=? now then mkTunDeadline (timer d) (channel d) true else d
  | None => d
  end.

(** [d.timer.Stop()] is false when the timer has fired; receiving from
    [cancel] then waits for the callback to close it.  The timer is nil
    afterwards. *)
Definition stopTimer (now : Z) (d : tunDeadline) : tunDeadline :=
  let d := deadline_at now d in mkTunDeadline None (channel d) (closed d).

(** [if closed { d.cancel = make(chan struct{}) }] *)
Definition renewChannel (d : tunDeadline) : tunDeadline :=
  if closed d then mkTunDeadline (timer d) (S (channel d)) false else d.

(** [t] is [None] for the zero time. *)
Definition set (t : option Z) (now : Z) (d : tunDeadline) : tunDeadline :=
  let d := stopTimer now d in
  match t with
  | None => renewChannel d
  | Some t =>
      if 0 <? t - now then
        let d := renewChannel d in mkTunDeadline (Some t) (channel d) (closed d)
      else if negb (closed d) then mkTunDeadline (timer d) (channel d) true
      else d
  end.

(** [isClosedChan(d.wait())] *)
Definition expired (now : Z) (d : tunDeadline) : bool := closed (deadline_at now d).

(** After [set t], whatever was set before and whether or not it had expired,
    the deadline is expired exactly from the time [t] on, and never when [t]
    is the zero time. *)
Lemma deadline_expired_iff t now now' d :
  now <= now' -> expired now' (set t now d) = match t with Some t => t <=? now' | None => false end.
Proof.
  intros Hn. unfold expired, set, renewChannel. destruct (stopTimer now d) as [tm ch cl] eqn:E.
  assert (tm = None) as -> by (unfold stopTimer in E; congruence).
  destruct t as [t|]; [destruct (Z.ltb_spec 0 (t - now))|]; destruct cl; cbn; try done.
  all: destruct (Z.leb_spec t now'); (done || lia).
Qed.

(** A reader that waits on the channel of a deadline that has not expired is
    not cut off from a later [set]: the channel stays the same one. *)
Lemma set_keeps_channel t now d : expired now d = false -> channel (set t now d) = channel d.
Proof.
  unfold expired, set, stopTimer, renewChannel. intros E. cbn [closed channel timer].
  assert (channel (deadline_at now d) = channel d) as Hc
    by (unfold deadline_at; destruct (timer d); [destruct (_ <=? _)|]; done).
  rewrite E. destruct t as [t|]; [destruct (0 <? t - now)|]; cbn; done.
Qed.

(** ** The device *)

(** What the callback registered by [StartTUN] calls. *)
Inductive shutdownCall : Type := StartShutdownCall | WaitWorkersShutdownCall.

Record TUN : Type := mkTUN {
  closeOnce : bool;
  hangup : bool;
  conn_closed : nat;
  callbacks : list shutdownCall;     (* made so far *)
  readBuffer : list byte;
  readDeadline : tunDeadline;
  writeDeadline : tunDeadline;
  tunDown : list (list byte);
  tun_session : Manager;
  tun_network : string;
  whenDoneFn : list shutdownCall
}.

Definition newTUN (network : string) (m : Manager) : TUN :=
  mkTUN false false 0 [] [] makeTUNDeadline makeTUNDeadline [] m network [].

Definition whenDone (fn : list shutdownCall) (t : TUN) : TUN :=
  mkTUN (closeOnce t) (hangup t) (conn_closed t) (callbacks t) (readBuffer t) (readDeadline t) (writeDeadline t)
    (tunDown t) (tun_session t) (tun_network t) fn.

(** [Close]: the closes of the connection are counted, and the registered
    callback runs. *)
Definition TUN_Close (t : TUN) : TUN :=
  if closeOnce t then t
  else mkTUN true true (S (conn_closed t)) (callbacks t ++ whenDoneFn t) (readBuffer t) (readDeadline t) (writeDeadline t)
         (tunDown t) (tun_session t) (tun_network t) (whenDoneFn t).

Definition with_buffer (b : list byte) (t : TUN) : TUN :=
  mkTUN (closeOnce t) (hangup t) (conn_closed t) (callbacks t) b (readDeadline t) (writeDeadline t)
    (tunDown t) (tun_session t) (tun_network t) (whenDoneFn t).

(** [Read] with room for [n] bytes, at time [now].  The deadline is looked at
    only when the buffer is empty.  [interrupt] is the case other than the
    channel the select takes, and after how many slices; it must be enabled. *)
Definition TUN_Read (n : nat) (now : Z) (interrupt : interruption) (t : TUN) (tunUp : list (list byte))
  : readResult * TUN * list (list byte) :=
  let i :=
    if expired now (readDeadline t) then Stop 0 ErrDeadlineExceeded
    else match interrupt with
         | Stop k ErrClosed => if hangup t then Stop k ErrClosed else Never
         | Stop k ErrDeadlineExceeded =>
             if bool_decide (is_Some (timer (readDeadline t))) then Stop k ErrDeadlineExceeded else Never
         | _ => Never
         end in
  let '(r, buf, pending) := readLoop n i (readBuffer t) tunUp in
  (r, with_buffer buf t, pending).

(** The case the select of [Write] takes: the data channel receives the
    slice, the device is closed, or the deadline passes. *)
Inductive writeCase : Type := SliceTaken | HungUp | DeadlinePassed.

(** [None] when the chosen case is not enabled. *)
Definition TUN_Write (data : list byte) (now : Z) (case : writeCase) (t : TUN) : option (outcome Z * TUN) :=
  if expired now (writeDeadline t) then Some (Err ErrDeadlineExceeded, t)
  else match case with
       | SliceTaken =>
           Some (Ok (len data),
                 mkTUN (closeOnce t) (hangup t) (conn_closed t) (callbacks t) (readBuffer t) (readDeadline t)
                   (writeDeadline t) (tunDown t ++ [data]) (tun_session t) (tun_network t) (whenDoneFn t))
       | HungUp => if hangup t then Some (Err ErrClosed, t) else None
       | DeadlinePassed =>
           if bool_decide (is_Some (timer (writeDeadline t))) then Some (Err ErrDeadlineExceeded, t) else None
       end.

Definition SetReadDeadline (tm : option Z) (now : Z) (t : TUN) : TUN :=
  mkTUN (closeOnce t) (hangup t) (conn_closed t) (callbacks t) (readBuffer t) (set tm now (readDeadline t))
    (writeDeadline t) (tunDown t) (tun_session t) (tun_network t) (whenDoneFn t).

Definition SetWriteDeadline (tm : option Z) (now : Z) (t : TUN) : TUN :=
  mkTUN (closeOnce t) (hangup t) (conn_closed t) (callbacks t) (readBuffer t) (readDeadline t)
    (set tm now (writeDeadline t)) (tunDown t) (tun_session t) (tun_network t) (whenDoneFn t).

Definition SetDeadline (tm : option Z) (now : Z) (t : TUN) : TUN :=
  SetWriteDeadline tm now (SetReadDeadline tm now t).

Definition LocalAddr (t : TUN) : string * string := (IP (GetTunnelInfo (tun_session t)), tun_network t).
Definition RemoteAddr (t : TUN) : string * string := (GW (GetTunnelInfo (tun_session t)), tun_network t).

(** What [StartTUN] waits for, and what it returns: the tunnel is closed on
    every failure. *)
Inductive startEvent : Type := SessionReady | SessionFailure (e : error) | HandshakeTimeout | ContextDone.

Definition tlsHandshakeTimeoutSeconds : Z := 60.

(** The TUN that [StartTUN] builds: closing it stops the workers and waits for
    them. *)
Definition StartTUN_device (network : string) (m : Manager) : TUN :=
  whenDone [StartShutdownCall; WaitWorkersShutdownCall] (newTUN network m).

Definition StartTUN_result (t : TUN) (ev : startEvent) : option TUN * TUN :=
  match ev with
  | SessionReady => (Some t, t)
  | SessionFailure _ | HandshakeTimeout | ContextDone => (None, TUN_Close t)
  end.

(** ** Closing is idempotent *)

Lemma TUN_Close_idempotent t : TUN_Close (TUN_Close t) = TUN_Close t.
Proof. unfold TUN_Close at 2 3. destruct (closeOnce t) eqn:E; unfold TUN_Close; [now rewrite E | done]. Qed.

(** Closed any positive number of times, the device closes the connection once
    and makes the calls of the callback once, in order. *)
Lemma StartTUN_device_closed network m n :
  let t := Nat.iter (S n) TUN_Close (StartTUN_device network m) in
  conn_closed t = 1%nat /\ callbacks t = [StartShutdownCall; WaitWorkersShutdownCall] /\ hangup t = true.
Proof.
  cbv zeta. assert (Nat.iter (S n) TUN_Close (StartTUN_device network m) = TUN_Close (StartTUN_device network m)) as ->; [|done].
  induction n as [|n IH]; [done|]. rewrite Nat.iter_succ, IH. apply TUN_Close_idempotent.
Qed.

(** ** The byte stream *)

(** A run of reads with the sizes [ns] at the time [now], none interrupted. *)
Fixpoint readAll (ns : list nat) (now : Z) (t : TUN) (tunUp : list (list byte)) : list byte * TUN * list (list byte) :=
  match ns with
  | [] => ([], t, tunUp)
  | n :: ns' =>
      let '(r, t, tunUp) := TUN_Read n now Never t tunUp in
      let '(bs, t, tunUp) := readAll ns' now t tunUp in
      ((match r with Data b => b | _ => [] end) ++ bs, t, tunUp)
  end.

Lemma TUN_Read_conserves n now i t tunUp r t' tunUp' :
  TUN_Read n now i t tunUp = (r, t', tunUp') ->
  (match r with Data b => b | _ => [] end) ++ readBuffer t' ++ concat tunUp' = readBuffer t ++ concat tunUp.
Proof.
  unfold TUN_Read. destruct (readLoop n _ (readBuffer t) tunUp) as [[r1 b1] p1] eqn:E. intros [= <- <- <-].
  now apply readLoop_conserves in E.
Qed.

Lemma readAll_conserves ns now t tunUp bs t' tunUp' :
  readAll ns now t tunUp = (bs, t', tunUp') ->
  bs ++ readBuffer t' ++ concat tunUp' = readBuffer t ++ concat tunUp.
Proof.
  revert t tunUp bs t' tunUp'. induction ns as [|n ns IH]; intros t tunUp bs t' tunUp'; cbn [readAll].
  - now intros [= <- <- <-].
  - destruct (TUN_Read n now Never t tunUp) as [[r t1] p1] eqn:E1.
    destruct (readAll ns now t1 p1) as [[bs2 t2] p2] eqn:E2. intros [= <- <- <-].
    apply TUN_Read_conserves in E1. apply IH in E2. now rewrite <- app_assoc, E2.
Qed.

Lemma TUN_Read_progress n now t tunUp :
  expired now (readDeadline t) = false -> (0 < n)%nat -> readBuffer t ++ concat tunUp <> [] ->
  exists b t' tunUp', TUN_Read n now Never t tunUp = (Data b, t', tunUp') /\ b <> [] /\ (length b <= n)%nat.
Proof.
  intros He Hn Hne. unfold TUN_Read. rewrite He.
  destruct (readLoop_progress n (readBuffer t) tunUp Hn Hne) as (b & buf & p & -> & Hb & Hl). eauto 10.
Qed.

(** C33: the device is a faithful byte stream: over any sequence of reads, of
    whatever sizes, the bytes returned are, in order and without loss or
    repetition, a prefix of the concatenation of the payloads the data channel
    delivered; and a read with room returns some of them as soon as there is
    one, unless its deadline has expired. *)
Theorem tun_reads_stream ns now network m tunUp bs t' tunUp' n :
  readAll ns now (newTUN network m) tunUp = (bs, t', tunUp') ->
  bs ++ readBuffer t' ++ concat tunUp' = concat tunUp /\
  (expired now (readDeadline t') = false -> (0 < n)%nat -> readBuffer t' ++ concat tunUp' <> [] ->
   exists b t2 up2, TUN_Read n now Never t' tunUp' = (Data b, t2, up2) /\ b <> [] /\ (length b <= n)%nat).
Proof.
  intros E. split; [now apply readAll_conserves in E|]. apply TUN_Read_progress.
Qed.

Lemma tun_reads_stream_witness :
  exists bs t' tunUp',
    readAll [3; 100; 2]%nat 0 (newTUN "udp" sampleManager) [bytes_of_string "hello"; []; bytes_of_string "world"] =
      (bs, t', tunUp') /\
    bs = bytes_of_string "hellowo" /\
    bs ++ readBuffer t' ++ concat tunUp' = bytes_of_string "helloworld".
Proof.
  destruct (readAll [3; 100; 2]%nat 0 (newTUN "udp" sampleManager)
    [bytes_of_string "hello"; []; bytes_of_string "world"]) as [[bs t'] tunUp'] eqn:E.
  exists bs, t', tunUp'. split; [done|]. split; [vm_compute in E; injection E as <- _ _; reflexivity|].
  apply (tun_reads_stream [3; 100; 2]%nat 0 "udp" sampleManager
    [bytes_of_string "hello"; []; bytes_of_string "world"] bs t' tunUp' 1 E).
Defined.
