(* ===== verification/Tracex.v ===== *)
(** * pkg/tracex and internal/optional

    The handshake tracer of [trace.go] and the optional values it logs
    ([optional.go], without the JSON methods).  The tracer reads the clock
    through an argument, in nanoseconds; events carry seconds as a [float64]. *)

From S2P Require Import Prelude Packet GoFloat.
From S2P Require Sender.

(** ** internal/optional *)

Definition Unwrap {T} (v : option T) : outcome T :=
  match v with Some x => Ok x | None => Panic end.

Definition IsNone {T} (v : option T) : bool := match v with Some _ => false | None => true end.

Definition UnwrapOr {T} (v : option T) (fallback : T) : outcome T :=
  if IsNone v then Ok fallback else Unwrap v.

(** ** internal/model/trace.go *)

Definition DirectionIncoming : Z := 0.
Definition DirectionOutgoing : Z := 1.

Definition Direction_String (d : Z) : string :=
  if d =? DirectionIncoming then "read" else if d =? DirectionOutgoing then "write" else "undefined".

(** ** Events *)

Definition handshakeEventStateChange : Z := 0.
Definition handshakeEventPacketIn : Z := 1.
Definition handshakeEventPacketOut : Z := 2.
Definition handshakeEventPacketDropped : Z := 3.

Definition HandshakeEventType_String (e : Z) : string :=
  if e =? handshakeEventStateChange then "state"
  else if e =? handshakeEventPacketIn then "packet_in"
  else if e =? handshakeEventPacketOut then "packet_out"
  else if e =? handshakeEventPacketDropped then "packet_dropped"
  else "unknown".

Record LoggedPacket : Type := mkLoggedPacket {
  lp_direction : string;
  lp_opcode : string;
  lp_id : Z;
  lp_acks : option (list Z);
  lp_payloadSize : Z;
  lp_retries : option Z
}.

Record Event : Type := mkEvent {
  EventType : string;
  Stage : string;
  AtTime : float64;
  Tags : list string;
  loggedPacket : option LoggedPacket;
  TransactionID : Z
}.

(** [s[2:]] *)
Definition string_from2 (s : string) : outcome string :=
  match s with String _ (String _ t) => Ok t | _ => Panic end.

Definition newEvent (etype st t t0 txid : Z) : outcome Event :=
  stage ← string_from2 (NegotiationState_String st);
  Ok (mkEvent (HandshakeEventType_String etype) stage (Duration_Seconds (Sender.time_Sub t t0)) [] None txid).

Definition logPacket (p : Packet) (retries : option Z) (direction : Z) : option LoggedPacket :=
  Some (mkLoggedPacket (Direction_String direction) (Opcode_String (Opcode p)) (ID p)
          (if negb (len (ACKs p) =? 0) then Some (ACKs p) else None) (len (Payload p)) retries).

(** The tags of a payload: a TLS handshake record with a client or a server
    hello. *)
Definition payloadTags (p : list byte) : list string :=
  match p with
  | b0 :: _ :: _ :: _ :: _ :: b5 :: _ =>
      if (b2z b0 =? 0x16) && (b2z b5 =? 0x01) then ["client_hello"]
      else if (b2z b0 =? 0x16) && (b2z b5 =? 0x02) then ["server_hello"]
      else []
  | _ => []
  end.

Definition set_packet (lp : option LoggedPacket) (e : Event) : Event :=
  mkEvent (EventType e) (Stage e) (AtTime e) (Tags e) lp (TransactionID e).

Definition maybeAddTagsFromPacket (e : Event) (packet : Packet) : Event :=
  mkEvent (EventType e) (Stage e) (AtTime e) (Tags e ++ payloadTags (Payload packet)) (loggedPacket e) (TransactionID e).

Record Tracer : Type := mkTracer { events : list Event; transactionID : Z; zeroTime : Z }.

Definition NewTracer (start : Z) : Tracer := mkTracer [] 0 start.
Definition NewTracerWithTransactionID (start txid : Z) : Tracer := mkTracer [] txid start.

Definition appendEvent (e : Event) (t : Tracer) : Tracer := mkTracer (events t ++ [e]) (transactionID t) (zeroTime t).

Definition OnStateChange (now state : Z) (t : Tracer) : outcome Tracer :=
  e ← newEvent handshakeEventStateChange state now (zeroTime t) (transactionID t);
  Ok (appendEvent e t).

Definition OnIncomingPacket (now : Z) (packet : Packet) (stage : Z) (t : Tracer) : outcome Tracer :=
  e ← newEvent handshakeEventPacketIn stage now (zeroTime t) (transactionID t);
  let e := set_packet (logPacket packet None DirectionIncoming) e in
  Ok (appendEvent (maybeAddTagsFromPacket e packet) t).

Definition OnOutgoingPacket (now : Z) (packet : Packet) (stage retries : Z) (t : Tracer) : outcome Tracer :=
  e ← newEvent handshakeEventPacketOut stage now (zeroTime t) (transactionID t);
  let e := set_packet (logPacket packet (Some retries) DirectionOutgoing) e in
  Ok (appendEvent (maybeAddTagsFromPacket e packet) t).

Definition OnDroppedPacket (now direction stage : Z) (packet : Packet) (t : Tracer) : outcome Tracer :=
  e ← newEvent handshakeEventPacketDropped stage now (zeroTime t) (transactionID t);
  let e := set_packet (logPacket packet None direction) e in
  Ok (appendEvent e t).

Definition Trace (t : Tracer) : list Event := events t.

(** ** The calls of a handshake *)

Inductive call : Type :=
  | StateChange (now state : Z)
  | Incoming (now : Z) (p : Packet) (stage : Z)
  | Outgoing (now : Z) (p : Packet) (stage retries : Z)
  | Dropped (now direction stage : Z) (p : Packet).

Definition exec_call (c : call) (t : Tracer) : outcome Tracer :=
  match c with
  | StateChange now s => OnStateChange now s t
  | Incoming now p s => OnIncomingPacket now p s t
  | Outgoing now p s r => OnOutgoingPacket now p s r t
  | Dropped now d s p => OnDroppedPacket now d s p t
  end.

Fixpoint exec_calls (cs : list call) (t : Tracer) : outcome Tracer :=
  match cs with
  | [] => Ok t
  | c :: cs' => t ← exec_call c t; exec_calls cs' t
  end.

Definition callTime (c : call) : Z :=
  match c with StateChange n _ | Incoming n _ _ | Outgoing n _ _ _ | Dropped n _ _ _ => n end.
Definition callType (c : call) : string :=
  match c with
  | StateChange _ _ => "state" | Incoming _ _ _ => "packet_in"
  | Outgoing _ _ _ _ => "packet_out" | Dropped _ _ _ _ => "packet_dropped"
  end.
Definition callPacketID (c : call) : option Z :=
  match c with StateChange _ _ => None | Incoming _ p _ | Outgoing _ p _ _ | Dropped _ _ _ p => Some (ID p) end.

Lemma stage_ok st : exists s, string_from2 (NegotiationState_String st) = Ok s.
Proof. unfold NegotiationState_String. repeat case_match; eexists; reflexivity. Qed.

Lemma exec_call_spec c t :
  exists e, exec_call c t = Ok (appendEvent e t) /\ EventType e = callType c /\
    AtTime e = Duration_Seconds (Sender.time_Sub (callTime c) (zeroTime t)) /\ TransactionID e = transactionID t /\
    option_map lp_id (loggedPacket e) = callPacketID c.
Proof.
  destruct c as [now st|now p st|now p st r|now d st p]; cbn [exec_call];
    unfold OnStateChange, OnIncomingPacket, OnOutgoingPacket, OnDroppedPacket, newEvent;
    destruct (stage_ok st) as [s ->]; go_step; eexists; (split; [reflexivity|]); done.
Qed.

(** Tracing never panics and records exactly one event per call, in order,
    with its kind, its time relative to the start, the transaction and the
    packet it is about. *)
Lemma trace_records cs t :
  exists t', exec_calls cs t = Ok t' /\ zeroTime t' = zeroTime t /\ transactionID t' = transactionID t /\
    map EventType (Trace t') = map EventType (Trace t) ++ map callType cs /\
    map AtTime (Trace t') = map AtTime (Trace t) ++ map (fun c => Duration_Seconds (Sender.time_Sub (callTime c) (zeroTime t))) cs /\
    map (fun e => option_map lp_id (loggedPacket e)) (Trace t') =
      map (fun e => option_map lp_id (loggedPacket e)) (Trace t) ++ map callPacketID cs.
Proof.
  revert t. induction cs as [|c cs IH]; intros t; cbn [exec_calls map].
  - exists t. rewrite !app_nil_r. done.
  - destruct (exec_call_spec c t) as (e & -> & H1 & H2 & _ & H4). go_step.
    destruct (IH (appendEvent e t)) as (t' & -> & Hz & Ht & E1 & E2 & E3). exists t'.
    unfold Trace in *. cbn [appendEvent events zeroTime transactionID] in *.
    rewrite E1, E2, E3, !map_app, <- !app_assoc. cbn [map app]. rewrite H1, H2, H4. done.
Qed.
