(* ===== verification/Tracing.v ===== *)
(** * What the handshake tracer is told

    The interface [HandshakeTracer] of internal/model/trace.go with its two
    implementations, the [DummyTracer] and the [Tracer] of pkg/tracex, and the
    calls that the session manager, the muxer and the reliable transport make
    on it.  The calls of a step are computed from the same state and input as
    the step itself; a call reads the clock when it is made. *)

From S2P Require Import Prelude Bytesx Packet Session Sender GoFloat Tracex.
From S2P Require Receiver Muxer.

(** ** The interface *)

(** A call, without the time at which it is made. *)
Inductive tcall : Type :=
  | TStateChange (state : Z)
  | TIncoming (p : Packet) (stage : Z)
  | TOutgoing (p : Packet) (stage retries : Z)
  | TDropped (direction stage : Z) (p : Packet).

Class HandshakeTracer (T : Type) : Type := {
  traceStateChange : Z -> Z -> T -> outcome T;
  traceIncoming : Z -> Packet -> Z -> T -> outcome T;
  traceOutgoing : Z -> Packet -> Z -> Z -> T -> outcome T;
  traceDropped : Z -> Z -> Z -> Packet -> T -> outcome T
}.

#[export] Instance DummyTracer : HandshakeTracer unit := {|
  traceStateChange := fun _ _ t => Ok t;
  traceIncoming := fun _ _ _ t => Ok t;
  traceOutgoing := fun _ _ _ _ t => Ok t;
  traceDropped := fun _ _ _ _ t => Ok t
|}.

#[export] Instance Tracer_tracer : HandshakeTracer Tracer := {|
  traceStateChange := OnStateChange;
  traceIncoming := OnIncomingPacket;
  traceOutgoing := OnOutgoingPacket;
  traceDropped := OnDroppedPacket
|}.

(** The calls [cs], made at the times [clock 0], [clock 1], ... *)
Fixpoint tell `{HandshakeTracer T} (clock : nat -> Z) (cs : list tcall) (t : T) : outcome T :=
  match cs with
  | [] => Ok t
  | c :: cs' =>
      t ← match c with
          | TStateChange s => traceStateChange (clock 0%nat) s t
          | TIncoming p s => traceIncoming (clock 0%nat) p s t
          | TOutgoing p s r => traceOutgoing (clock 0%nat) p s r t
          | TDropped d s p => traceDropped (clock 0%nat) d s p t
          end;
      tell (fun i => clock (S i)) cs' t
  end.

(** ** The session manager and the muxer *)

Definition SetNegotiationState_calls (sns : Z) : list tcall := [TStateChange sns].

(** The tracer is called before the select of the send. *)
Definition serializeAndEmit_calls (m : Manager) (count : Z) (packet : Packet) : list tcall :=
  match Packet_Bytes packet with
  | Ok _ => [TOutgoing packet (negState m) count]
  | _ => []
  end.

Definition startHardReset_calls (ws : Muxer.workersState) : list tcall :=
  let m := (SetNegotiationState (Muxer.sessionManager ws) S_PRE_START).1 in
  SetNegotiationState_calls S_PRE_START ++
  serializeAndEmit_calls m (Muxer.hardResetCount ws + 1) (NewHardResetPacket m).

Definition finishThreeWayHandshake_calls (ws : Muxer.workersState) (packet : Packet) : list tcall :=
  match SetRemoteSessionID (Muxer.sessionManager ws) (LocalSessionID packet) with
  | Ok _ => SetNegotiationState_calls S_START
  | _ => []
  end.

Definition handleRawPacket_calls (ws : Muxer.workersState) (rawPacket : list byte) : list tcall :=
  match ParsePacket rawPacket with
  | Ok packet =>
      if (negState (Muxer.sessionManager ws) =? S_PRE_START) && (Opcode packet =? P_CONTROL_HARD_RESET_SERVER_V2)
      then finishThreeWayHandshake_calls ws packet else []
  | _ => []
  end.

Definition muxer_calls (ws : Muxer.workersState) (ev : Muxer.event) : list tcall :=
  match ev with
  | Muxer.EvRaw _ raw => handleRawPacket_calls ws raw
  | Muxer.EvTick _ => if Muxer.pendingTick (Muxer.hardResetTicker ws) then startHardReset_calls ws else []
  | Muxer.EvHardReset _ => startHardReset_calls ws
  | Muxer.EvFire | Muxer.EvShutdown => []
  end.

(** ** The reliable transport *)

Definition receiver_calls (mgr : Manager) (r : Receiver.reliableReceiver) (p : Packet) : list tcall :=
  TIncoming p (negState mgr) ::
  (if Receiver.incomingSanityChecks mgr p && (Opcode p =? P_CONTROL_V1) && negb (Receiver.MaybeInsertIncoming r p).1
   then [TDropped DirectionIncoming (negState mgr) p] else []).

(** The loop of [blockOnTryingToSend]: the packet is reported before the
    select in which a shutdown may win. *)
Fixpoint flush_calls (mgr : Manager) (now : Z) (budget : option nat) (l : list inFlightPacket) (acks : gset Z) : list tcall :=
  match l with
  | [] => []
  | p :: t =>
      if isReady now p then
        let p := ScheduleForRetransmission p now in
        let '(next, acks) := nextToACK acks in
        TOutgoing (set_ACKs next (packet p)) (negState mgr) (retries p) ::
        match budget with
        | Some O => []
        | _ => flush_calls mgr now (pred <$> budget) t acks
        end
      else flush_calls mgr now budget t acks
  end.

Definition sender_calls (mgr : Manager) (r : reliableSender) (ev : senderEvent) : list tcall :=
  match ev with
  | Tick now budget => flush_calls mgr now budget (inFlight r) (pendingACKsToSend r)
  | FromControl _ | SeenPacket _ _ => []
  end.

(** ** The log *)

(** The kind, stage, opcode, identifier and attempt an event records. *)
Definition summary (e : Event) : string * string * option (string * Z * option Z) :=
  (EventType e, Stage e, (fun lp => (lp_opcode lp, lp_id lp, lp_retries lp)) <$> loggedPacket e).

(** [st.String()[2:]] *)
Definition stageOf (st : Z) : string :=
  match string_from2 (NegotiationState_String st) with Ok s => s | _ => EmptyString end.

Definition tcallSummary (c : tcall) : string * string * option (string * Z * option Z) :=
  match c with
  | TStateChange s => ("state", stageOf s, None)
  | TIncoming p s => ("packet_in", stageOf s, Some (Opcode_String (Opcode p), ID p, None))
  | TOutgoing p s r => ("packet_out", stageOf s, Some (Opcode_String (Opcode p), ID p, Some r))
  | TDropped _ s p => ("packet_dropped", stageOf s, Some (Opcode_String (Opcode p), ID p, None))
  end.

Definition unwrapTracer (t : Tracer) (m : outcome Tracer) : Tracer := match m with Ok t' => t' | _ => t end.

(** The tracer never panics and logs one event per call, in order, with the
    facts of the call. *)
Lemma tell_records clock cs (t : Tracer) :
  exists t', tell clock cs t = Ok t' /\
    map summary (Trace t') = map summary (Trace t) ++ map tcallSummary cs /\
    zeroTime t' = zeroTime t /\ transactionID t' = transactionID t.
Proof.
  revert clock t. induction cs as [|c cs IH]; intros clock t; [exists t; by rewrite app_nil_r|].
  cbn [tell]. destruct (IH (fun i => clock (S i)) (match c with
    | TStateChange s => unwrapTracer t (OnStateChange (clock 0%nat) s t)
    | TIncoming p s => unwrapTracer t (OnIncomingPacket (clock 0%nat) p s t)
    | TOutgoing p s r => unwrapTracer t (OnOutgoingPacket (clock 0%nat) p s r t)
    | TDropped d s p => unwrapTracer t (OnDroppedPacket (clock 0%nat) d s p t)
    end)) as (t' & Ht' & Hs & Hz & Hx).
  exists t'. unfold Trace in *. cbn [traceStateChange traceIncoming traceOutgoing traceDropped Tracer_tracer].
  unfold OnStateChange, OnIncomingPacket, OnOutgoingPacket, OnDroppedPacket, newEvent, unwrapTracer in *.
  destruct c as [st|p st|p st r|d st p]; destruct (stage_ok st) as [sg Hsg]; cbn [map tcallSummary];
    unfold stageOf; rewrite Hsg in *; go_step; cbn [mbind outcome_bind] in *;
    (split; [exact Ht'|]); (split; [rewrite Hs; unfold appendEvent; cbn [events]; rewrite map_app, <- app_assoc; reflexivity|done]).
Qed.

(** The packet a call is about *)
Definition tcallPacket (c : tcall) : option Packet :=
  match c with TStateChange _ => None | TIncoming p _ | TOutgoing p _ _ | TDropped _ _ p => Some p end.

Lemma flush_traced mgr now l acks :
  omap tcallPacket (flush_calls mgr now None l acks) = (flush now None l acks).2.
Proof.
  revert acks. induction l as [|p l IH]; intros acks; [done|]. cbn [flush flush_calls].
  destruct (isReady now p).
  - destruct (nextToACK acks) as [next acks']. cbn. rewrite IH. by destruct (flush now None l acks') as [[? ?] ?].
  - rewrite IH. by destruct (flush now None l acks) as [[? ?] ?].
Qed.

(** A packet that is transmitted is reported with the stage of the
    negotiation and the number of this transmission. *)
Lemma flush_calls_attempts mgr now l acks :
  Forall2 (fun c p => exists q, c = TOutgoing q (negState mgr) (retries p + 1) /\ ID q = ID (packet p))
    (flush_calls mgr now None l acks) (readyToSend l now).
Proof.
  rewrite readyToSend_filter. revert acks. induction l as [|p l IH]; intros acks; cbn [flush_calls List.filter]; [constructor|].
  destruct (isReady now p); [|apply IH]. destruct (nextToACK acks) as [next acks']. constructor; [|apply IH].
  eexists. split; [reflexivity|done].
Qed.

Lemma flush_none_ready mgr now l acks : readyToSend l now = [] -> flush_calls mgr now None l acks = [].
Proof. intros E. pose proof (flush_calls_attempts mgr now l acks) as H. rewrite E in H. by inversion H. Qed.

(** A tick of the sender reports each control packet it sends, once and in the
    order of sending, with the number of the transmission.  When there is
    nothing to send but acknowledgements, the packet that carries them is sent
    without a report. *)
Theorem tick_traced mgr r now d r' out :
  blockOnTryingToSend mgr r now None = Ok (d, r', out) ->
  omap tcallPacket (sender_calls mgr r (Tick now None)) = (if 0 <? len (readyToSend (inFlight r) now) then out else []) /\
  Forall2 (fun c p => exists q, c = TOutgoing q (negState mgr) (retries p + 1) /\ ID q = ID (packet p))
    (sender_calls mgr r (Tick now None)) (readyToSend (inFlight r) now) /\
  (readyToSend (inFlight r) now = [] -> sender_calls mgr r (Tick now None) = [] /\ Forall (fun p => Opcode p = P_ACK_V1) out).
Proof.
  cbn [sender_calls]. unfold blockOnTryingToSend. destruct (ticker_Reset _) as [d0| |]; [|done|done]. go_step.
  intros H. split; [|split; [apply flush_calls_attempts|]].
  - destruct (Z.ltb_spec 0 (len (readyToSend (inFlight r) now))) as [Hlt|Hge].
    + rewrite flush_traced. destruct (flush now None (inFlight r) (pendingACKsToSend r)) as [[l acks] o].
      injection H as _ _ <-. done.
    + rewrite flush_none_ready; [done|]. apply len_zero_iff. pose proof (len_nonneg (readyToSend (inFlight r) now)). lia.
  - intros E. split; [by apply flush_none_ready|]. rewrite E in H. change (0 <? len []) with false in H. cbn iota in H.
    destruct (negb (hasPendingACKs r)); [injection H as _ _ <-; constructor|].
    destruct (NextPacketIDsToACK r) as [ids r1]. unfold NewACKForPacketIDs in H.
    destruct (remoteSessionID mgr); injection H as _ _ <-; repeat constructor.
Qed.

Lemma tick_traced_witness :
  exists d r' out, blockOnTryingToSend sampleMgr sampleSender Minute None = Ok (d, r', out) /\
  omap tcallPacket (sender_calls sampleMgr sampleSender (Tick Minute None)) = out /\ length out = 4%nat.
Proof.
  do 3 eexists. split; [reflexivity|]. split; [|reflexivity].
  edestruct (tick_traced sampleMgr sampleSender Minute) as [-> _]; reflexivity.
Defined.

(** ** The opening of a session, as the log shows it *)

(** The calls of a run of the muxer's up-worker *)
Fixpoint muxer_run_calls (ws : Muxer.workersState) (evs : list Muxer.event) : list tcall :=
  match evs with
  | [] => []
  | ev :: evs' =>
      muxer_calls ws ev ++
      match Muxer.moveUpWorker_step ws ev with
      | Some (Muxer.Continue, ws1, _) => muxer_run_calls ws1 evs'
      | _ => []
      end
  end.

Lemma set_negState_same m : set_negState (negState m) m = m.
Proof. by destruct m. Qed.

(** The timer of the hard reset fires and is served, [n] times. *)
Definition retriesOf (n : nat) : list Muxer.event := concat (replicate n [Muxer.EvFire; Muxer.EvTick None]).

(** What one attempt reports *)
Definition attempt (m : Manager) (count : Z) : list tcall :=
  [TStateChange S_PRE_START; TOutgoing (NewHardResetPacket m) S_PRE_START count].

Lemma startHardReset_calls_spec ws :
  manager_inv (Muxer.sessionManager ws) ->
  startHardReset_calls ws = attempt (Muxer.sessionManager ws) (Muxer.hardResetCount ws + 1).
Proof.
  intros Hm. destruct (Muxer.startHardReset_spec ws Hm) as (raw & Hraw & _).
  unfold startHardReset_calls, serializeAndEmit_calls, attempt. cbn [SetNegotiationState fst].
  change (NewHardResetPacket (set_negState S_PRE_START (Muxer.sessionManager ws)))
    with (NewHardResetPacket (Muxer.sessionManager ws)). by rewrite Hraw.
Qed.

Lemma retries_run n ws rest :
  manager_inv (Muxer.sessionManager ws) -> negState (Muxer.sessionManager ws) = S_PRE_START ->
  Muxer.running (Muxer.hardResetTicker ws) = true ->
  exists ws1 es1,
    Muxer.moveUpWorker_run ws (retriesOf n ++ rest) =
      match Muxer.moveUpWorker_run ws1 rest with Some (f, ws2, es2) => Some (f, ws2, es1 ++ es2) | None => None end /\
    muxer_run_calls ws (retriesOf n ++ rest) =
      concat (map (fun j => attempt (Muxer.sessionManager ws) (Muxer.hardResetCount ws + Z.of_nat j)) (seq 1 n)) ++
      muxer_run_calls ws1 rest /\
    Muxer.sessionManager ws1 = Muxer.sessionManager ws.
Proof.
  revert ws. induction n as [|n IH]; intros ws Hm Hs Hr.
  - exists ws, []. cbn [retriesOf replicate concat app seq map]. split; [|done].
    by destruct (Muxer.moveUpWorker_run ws rest) as [[[? ?] ?]|].
  - set (wf := Muxer.set_ticker (Muxer.Ticker_receive (Muxer.Ticker_fire (Muxer.hardResetTicker ws))) ws).
    destruct (Muxer.startHardReset_spec wf Hm) as (raw & Hraw & Hstart).
    set (w1 := Muxer.mkWorkersState _ _ _) in Hstart.
    assert (Muxer.sessionManager w1 = Muxer.sessionManager ws) as Hw1
      by (subst w1 wf; cbn; rewrite <- Hs; apply set_negState_same).
    destruct (IH w1) as (ws2 & es2 & Hrun & Hcalls & Hm2); [by rewrite Hw1|by rewrite Hw1|done|].
    exists ws2, (Muxer.ToNetwork raw :: es2).
    change (retriesOf (S n) ++ rest) with (Muxer.EvFire :: Muxer.EvTick None :: retriesOf n ++ rest).
    split; [|split; [|congruence]].
    + cbn [Muxer.moveUpWorker_run Muxer.moveUpWorker_step]. rewrite Hr. cbn [Muxer.hardResetTicker Muxer.set_ticker Muxer.pendingTick Muxer.Ticker_fire].
      change (Muxer.set_ticker (Muxer.Ticker_receive (Muxer.Ticker_fire (Muxer.hardResetTicker ws)))
        (Muxer.set_ticker (Muxer.Ticker_fire (Muxer.hardResetTicker ws)) ws)) with wf.
      rewrite Hstart, Hrun. by destruct (Muxer.moveUpWorker_run ws2 rest) as [[[? ?] ?]|].
    + cbn [muxer_run_calls muxer_calls Muxer.moveUpWorker_step]. rewrite Hr.
      cbn [Muxer.hardResetTicker Muxer.set_ticker Muxer.pendingTick Muxer.Ticker_fire app].
      change (Muxer.set_ticker (Muxer.Ticker_receive (Muxer.Ticker_fire (Muxer.hardResetTicker ws)))
        (Muxer.set_ticker (Muxer.Ticker_fire (Muxer.hardResetTicker ws)) ws)) with wf.
      rewrite startHardReset_calls_spec by done. rewrite Hstart, Hcalls, Hw1.
      cbn [seq map concat]. rewrite <- (seq_shift n 1), map_map, <- app_assoc. f_equal. f_equal. f_equal. apply map_ext. intros j.
      subst w1 wf. cbn. f_equal. lia.
Qed.

(** C39: the opening of a session as the log shows it, whatever it held before and
    however often the first packet has to be sent again: for each attempt the
    state and the client's reset with the number of the attempt, then the new
    state and the server's reset, each once and in this order. *)
Theorem opening_trace ws reply rawReply n r clock (t : Tracer) :
  manager_inv (Muxer.sessionManager ws) -> remoteSessionID (Muxer.sessionManager ws) = None ->
  Packet_Bytes reply = Ok rawReply -> ParsePacket rawReply = Ok reply ->
  Opcode reply = P_CONTROL_HARD_RESET_SERVER_V2 ->
  let evs := Muxer.EvHardReset None :: retriesOf n ++ [Muxer.EvRaw None rawReply] in
  exists ws' es t',
    Muxer.moveUpWorker_run ws evs = Some (Muxer.Continue, ws', es) /\
    tell clock (muxer_run_calls ws evs ++ receiver_calls (Muxer.sessionManager ws') r reply) t = Ok t' /\
    map summary (Trace t') = map summary (Trace t) ++
      concat (map (fun j => [("state", "PRE_START", None);
        ("packet_out", "PRE_START", Some ("P_CONTROL_HARD_RESET_CLIENT_V2", 0, Some (Muxer.hardResetCount ws + Z.of_nat j)))])
        (seq 1 (S n))) ++
      [("state", "START", None); ("packet_in", "START", Some ("P_CONTROL_HARD_RESET_SERVER_V2", ID reply, None))].
Proof.
  intros Hm Hrs Hb Hp Hop evs. destruct (Muxer.startHardReset_spec ws Hm) as (raw & Hraw & Hstart).
  set (w1 := Muxer.mkWorkersState _ _ _) in Hstart.
  destruct (retries_run n w1 [Muxer.EvRaw None rawReply]) as (ws2 & es2 & Hrun & Hcalls & Hm2);
    [by destruct Hm|done|done|].
  assert (exists ws3 es3, Muxer.moveUpWorker_run ws2 [Muxer.EvRaw None rawReply] = Some (Muxer.Continue, ws3, es3) /\
    muxer_run_calls ws2 [Muxer.EvRaw None rawReply] = [TStateChange S_START] /\
    negState (Muxer.sessionManager ws3) = S_START) as (ws3 & es3 & Hr3 & Hc3 & Hn3).
  { cbn [Muxer.moveUpWorker_run Muxer.moveUpWorker_step muxer_run_calls muxer_calls].
    unfold Muxer.handleRawPacket, handleRawPacket_calls. rewrite Hp, Hm2, Hop.
    change ((negState (Muxer.sessionManager w1) =? S_PRE_START) && _) with true. cbn iota.
    unfold Muxer.finishThreeWayHandshake, finishThreeWayHandshake_calls. cbn [Muxer.sessionManager Muxer.set_ticker].
    assert (remoteSessionID (Muxer.sessionManager w1) = None) as Hrs1 by exact Hrs.
    rewrite Hm2. unfold SetRemoteSessionID, IsRemoteSessionIDSet. rewrite Hrs1. cbn. eauto. }
  exists ws3, (Muxer.ToNetwork raw :: es2 ++ es3).
  destruct (tell_records clock (muxer_run_calls ws evs ++ receiver_calls (Muxer.sessionManager ws3) r reply) t) as (t' & Ht & Hsum & _).
  exists t'. split; [|split; [exact Ht|]].
  - unfold evs. cbn [Muxer.moveUpWorker_run Muxer.moveUpWorker_step]. by rewrite Hstart, Hrun, Hr3.
  - rewrite Hsum. f_equal. unfold evs. cbn [muxer_run_calls muxer_calls Muxer.moveUpWorker_step].
    rewrite Hstart, startHardReset_calls_spec, Hcalls, Hc3 by done.
    unfold receiver_calls. rewrite Hn3, Hop. change (P_CONTROL_HARD_RESET_SERVER_V2 =? P_CONTROL_V1) with false.
    rewrite andb_false_r. cbn [andb]. rewrite !map_app, concat_map, map_map. cbn [map tcallSummary attempt seq concat].
    rewrite Hop, <- (seq_shift n 1), map_map, <- !app_assoc. cbn [app]. do 2 f_equal. f_equal. f_equal. apply map_ext. intros j.
    unfold w1. cbn [Muxer.hardResetCount map tcallSummary attempt]. do 6 f_equal. lia.
Qed.

(** The server answers the second attempt. *)
Lemma opening_trace_witness :
  exists t', map summary (Trace t') =
    [("state", "PRE_START", None); ("packet_out", "PRE_START", Some ("P_CONTROL_HARD_RESET_CLIENT_V2", 0, Some 1));
     ("state", "PRE_START", None); ("packet_out", "PRE_START", Some ("P_CONTROL_HARD_RESET_CLIENT_V2", 0, Some 2));
     ("state", "START", None); ("packet_in", "START", Some ("P_CONTROL_HARD_RESET_SERVER_V2", 0, None))].
Proof.
  destruct (opening_trace (Muxer.StartWorkers sampleManager) (Muxer.serverReset (replicate 8 Byte.x05)) Muxer.rawServerReset
    1 Receiver.newReliableReceiver (fun i => 1000 + Z.of_nat i) (NewTracer 1000)) as (ws' & es & t' & _ & _ & Hlog);
    [apply sampleManager_inv|reflexivity|vm_compute; reflexivity|vm_compute; reflexivity|reflexivity|].
  exists t'. exact Hlog.
Defined.
