(* ===== verification/EndToEnd.v ===== *)
(** * Two peers over an unreliable network

    The control plane of two peers, each with the stack of this program:
    [controlchannel] above [reliabletransport] above [packetmuxer], sharing a
    session manager, between the TLS layer and a network that loses,
    duplicates and reorders packets.  Third parties may add packets too, as
    long as these do not carry the session identifiers: the control channel of
    this program is not authenticated below TLS, and a forged packet with the
    identifiers, which travel in clear, is taken for one of the peer
    ([forged_record_delivered]).

    The state of a peer is that of its workers, the buffered channel
    [incomingSeen], and three histories: the raw packets it has put on the
    network, the records its TLS layer has written and the records its TLS
    layer has been given.  A step is one iteration of a worker; a packet on
    its way up passes muxer, receiver and control channel, which are connected
    by unbuffered channels with one reader each, in one step.  The network is
    the set of raw packets ever sent. *)

From S2P Require Import Prelude Bytesx Packet Session Sender Receiver ControlChannel.
From S2P Require Muxer.

Record endpoint : Type := mkEndpoint {
  mux : Muxer.workersState;
  sndr : reliableSender * Z;
  rcv : reliableReceiver;
  seenQueue : list incomingPacketSeen;
  wire : list (list byte);
  written : list (list byte);
  delivered : list (list byte)
}.

Definition mgr (e : endpoint) : Manager := Muxer.sessionManager (mux e).
Definition inFlightOf (e : endpoint) : list inFlightPacket := inFlight (fst (sndr e)).
Definition pendingOf (e : endpoint) : gset Z := pendingACKsToSend (fst (sndr e)).

Definition set_mgr (m : Manager) (e : endpoint) : endpoint :=
  mkEndpoint (Muxer.set_manager m (mux e)) (sndr e) (rcv e) (seenQueue e) (wire e) (written e) (delivered e).

(** The capacity given to [incomingSeen] by [StartWorkers]. *)
Definition incomingSeenCapacity : Z := 100.

(** The control channel wraps a TLS record and hands it to the sender. *)
Definition writeRecord (record : list byte) (e : endpoint) : outcome endpoint :=
  let '(m, r) := Control.moveDownWorker_step (mgr e) record in
  match r with
  | None => Err ErrShutdown
  | Some p =>
      '(st, _) ← moveDownWorker_step m (sndr e) (FromControl p);
      Ok (mkEndpoint (Muxer.set_manager m (mux e)) st (rcv e) (seenQueue e) (wire e)
            (written e ++ [record]) (delivered e))
  end.

(** What the muxer's down-worker puts on the network for a list of packets. *)
Definition rawOf (eff : Muxer.effect) : list (list byte) :=
  match eff with Muxer.ToNetwork raw => [raw] | _ => [] end.
Definition emit (ps : list Packet) : list (list byte) :=
  concat (map (fun p => concat (map rawOf (Muxer.moveDownWorker_step None p).2)) ps).

(** The sender's ticker fires at [now]. *)
Definition tick (now : Z) (budget : option nat) (e : endpoint) : outcome endpoint :=
  '(st, out) ← moveDownWorker_step (mgr e) (sndr e) (Tick now budget);
  Ok (mkEndpoint (mux e) st (rcv e) (seenQueue e) (wire e ++ emit out) (written e) (delivered e)).

(** The sender reads [incomingSeen]. *)
Definition readSeen (now : Z) (e : endpoint) : outcome endpoint :=
  match seenQueue e with
  | [] => Err ErrShutdown
  | s :: q =>
      '(st, _) ← moveDownWorker_step (mgr e) (sndr e) (SeenPacket s now);
      Ok (mkEndpoint (mux e) st (rcv e) q (wire e) (written e) (delivered e))
  end.

Definition reliableOf (eff : Muxer.effect) : list Packet :=
  match eff with Muxer.ToReliable p => [p] | _ => [] end.
Definition recordOf (eff : Control.effect) : list (list byte) :=
  match eff with Control.TLSRecord r => [r] | _ => [] end.

(** One packet passed up by the muxer, through receiver and control channel. *)
Definition passUp (e : endpoint) (p : Packet) : endpoint :=
  let '(r, seen, out) := moveUpWorker_step (mgr e) None (rcv e) p in
  let '(m, effs) := Control.moveUpWorker_run (mgr e) out in
  mkEndpoint (Muxer.set_manager m (mux e)) (sndr e) r (seenQueue e ++ option_list seen)
    (wire e) (written e) (delivered e ++ concat (map recordOf effs)).

(** A raw packet arrives. *)
Definition receive (raw : list byte) (e : endpoint) : outcome endpoint :=
  let '(r, ws, effs) := Muxer.handleRawPacket None (mux e) raw in
  match r with
  | Panic => Panic
  | _ =>
      let e := mkEndpoint ws (sndr e) (rcv e) (seenQueue e) (wire e) (written e) (delivered e) in
      Ok (fold_left passUp (concat (map reliableOf effs)) e)
  end.

(** The hard reset request and the ticker of the muxer: the timer fires, and
    a reset is sent (again).  [Stop] does not take back a tick that was already
    delivered, so this happens in an established session too. *)
Definition isTimer (ev : Muxer.event) : bool :=
  match ev with Muxer.EvFire | Muxer.EvTick None | Muxer.EvHardReset None => true | _ => false end.

Definition timer (ev : Muxer.event) (e : endpoint) : outcome endpoint :=
  match Muxer.moveUpWorker_step (mux e) ev with
  | None => Err ErrShutdown
  | Some (Muxer.Crash, _, _) => Panic
  | Some (_, ws, effs) =>
      Ok (mkEndpoint ws (sndr e) (rcv e) (seenQueue e) (wire e ++ concat (map rawOf effs)) (written e) (delivered e))
  end.

(** The packets that third parties may add: control packets and
    acknowledgements that fail the receiver's checks of the session
    identifiers, packets of the data channel, and anything that does not
    parse. *)
Definition foreign (m : Manager) (raw : list byte) : bool :=
  match ParsePacket raw with
  | Ok p => negb (Packet_IsControl p || (Opcode p =? P_ACK_V1)) || negb (incomingSanityChecks m p)
  | _ => true
  end.

(** What the other users of the session manager do once the session is
    established: the TLS session and the data channel. *)
Definition otherWorkers (op : session_op) : bool :=
  match op with
  | OpNewPacket opcode _ => negb (Opcode_IsControl opcode)
  | OpSetRemoteSessionID _ => false
  | _ => true
  end.

Inductive label : Type := LWrite | LTick | LSeen | LReceive | LForeign | LSession | LTimer.

(** One step of a peer, given what the other one has sent. *)
Inductive local_step (peerWire : list (list byte)) (e : endpoint) : label -> endpoint -> Prop :=
  | ls_write record e' : writeRecord record e = Ok e' -> local_step peerWire e LWrite e'
  | ls_tick now budget e' : tick now budget e = Ok e' -> local_step peerWire e LTick e'
  | ls_seen now e' : readSeen now e = Ok e' -> local_step peerWire e LSeen e'
  | ls_receive raw e' :
      raw ∈ peerWire -> len (seenQueue e) < incomingSeenCapacity ->
      receive raw e = Ok e' -> local_step peerWire e LReceive e'
  | ls_foreign raw e' :
      foreign (mgr e) raw = true -> receive raw e = Ok e' -> local_step peerWire e LForeign e'
  | ls_session op :
      otherWorkers op = true ->
      local_step peerWire e LSession (set_mgr (session_exec op (mgr e)).1 e)
  | ls_timer ev e' : isTimer ev = true -> timer ev e = Ok e' -> local_step peerWire e LTimer e'.

Definition world : Type := endpoint * endpoint.

Inductive side : Type := Left | Right.

Inductive world_step : world -> side * label -> world -> Prop :=
  | ws_left a b l a' : local_step (wire b) a l a' -> world_step (a, b) (Left, l) (a', b)
  | ws_right a b l b' : local_step (wire a) b l b' -> world_step (a, b) (Right, l) (a, b').

(** A peer whose muxer has finished the three-way handshake. *)
Definition establishedEndpoint (m : Manager) (ticker : Z) : endpoint :=
  mkEndpoint (Muxer.StartWorkers m) (newReliableSender, ticker) newReliableReceiver [] [] [] [].

(** Two managers that know each other's session and have sent nothing. *)
Record paired (m1 m2 : Manager) : Prop := {
  pa_inv1 : manager_inv m1;
  pa_inv2 : manager_inv m2;
  pa_fresh1 : localControlPacketID m1 = 1;
  pa_fresh2 : localControlPacketID m2 = 1;
  pa_remote1 : remoteSessionID m1 = Some (localSessionID m2);
  pa_remote2 : remoteSessionID m2 = Some (localSessionID m1)
}.

Definition initial (w : world) : Prop :=
  exists m1 m2 t1 t2, paired m1 m2 /\ w = (establishedEndpoint m1 t1, establishedEndpoint m2 t2).

(** Runs whose steps all satisfy [P]. *)
Inductive run (P : world -> side * label -> Prop) : world -> world -> Prop :=
  | run_refl w : run P w w
  | run_step w1 w2 l w3 : run P w1 w2 -> P w2 l -> world_step w2 l w3 -> run P w1 w3.

Definition anyStep (w : world) (l : side * label) : Prop := True.

(** ** The promise: two reliable first-in first-out channels *)

Record fifo : Type := mkFifo { fifo_in : list (list byte); fifo_out : list (list byte) }.

Inductive fifo_step : fifo -> fifo -> Prop :=
  | fs_write r f : fifo_step f (mkFifo (fifo_in f ++ [r]) (fifo_out f))
  | fs_read r f :
      fifo_in f !! length (fifo_out f) = Some r ->
      fifo_step f (mkFifo (fifo_in f) (fifo_out f ++ [r])).

Inductive duplex_step : fifo * fifo -> fifo * fifo -> Prop :=
  | ds_left f f' g : fifo_step f f' -> duplex_step (f, g) (f', g)
  | ds_right f g g' : fifo_step g g' -> duplex_step (f, g) (f, g').

(** What the promise sees of two peers. *)
Definition abstraction (w : world) : fifo * fifo :=
  (mkFifo (written w.1) (delivered w.2), mkFifo (written w.2) (delivered w.1)).

(** ** What travels *)

(** A control packet that carries the record of its number. *)
Definition carries (W : list (list byte)) (p : Packet) : Prop :=
  Opcode p = P_CONTROL_V1 /\ 1 <= ID p /\ W !! Z.to_nat (ID p - 1) = Some (Payload p).

(** A packet of the session [loc] addressed to the session [rem]. *)
Definition addressed (loc rem : list byte) (p : Packet) : Prop :=
  KeyID p = 0 /\ PeerID p = zeroPeerID /\ LocalSessionID p = loc /\ RemoteSessionID p = rem.

(** What the peer makes of a packet of ours: without acknowledgements the
    remote session is not on the wire. *)
Definition wireForm (p : Packet) : Packet :=
  if len (ACKs p) =? 0 then set_RemoteSessionID zeroSessionID p else p.

(** Packets that carry no record: acknowledgements, and the hard resets that
    opened the session and may still be under way. *)
Definition unnumbered (q : Packet) : Prop :=
  Opcode q = P_ACK_V1 \/
  (Opcode q = P_CONTROL_HARD_RESET_CLIENT_V2 \/ Opcode q = P_CONTROL_HARD_RESET_SERVER_V2) /\ ID q = 0.

Lemma unnumbered_not_V1 q : unnumbered q -> Opcode q =? P_CONTROL_V1 = false.
Proof. by intros [->|[[->| ->] _]]. Qed.

(** A parsed packet of the peer whose session is [loc] and whose records are
    [W]; the acknowledgements in it satisfy [A]. *)
Record fromPeer (loc rem : list byte) (W : list (list byte)) (q : Packet) : Prop := {
  fp_kind : carries W q \/ unnumbered q;
  fp_local : LocalSessionID q = loc;
  fp_remote : ACKs q <> [] -> RemoteSessionID q = rem
}.

(** The muxer passes them to the reliable transport. *)
Lemma fromPeer_reliable loc rem W q : fromPeer loc rem W q -> Packet_IsControl q || (Opcode q =? P_ACK_V1) = true.
Proof. unfold Packet_IsControl. by intros [[[-> _]|[->|[[->| ->] _]]] _ _]. Qed.

Definition wireFrom (loc rem : list byte) (W : list (list byte)) (raw : list byte) : Prop :=
  exists q, ParsePacket raw = Ok q /\ fromPeer loc rem W q.

(** The muxer of the other side reads back what was sent. *)
Lemma wire_roundtrip loc rem p :
  length loc = 8%nat -> length rem = 8%nat -> addressed loc rem p ->
  Opcode p = P_CONTROL_V1 \/ Opcode p = P_ACK_V1 /\ ID p = 0 -> is_u32 (ID p) ->
  Forall is_u32 (ACKs p) -> len (ACKs p) <= 4 ->
  exists raw, emit [p] = [raw] /\ ParsePacket raw = Ok (wireForm p).
Proof.
  intros Hl Hr (Hk & Hp & Hloc & Hrem) Hop Hid Hacks Hn.
  assert (Opcode p <> P_DATA_V2 /\ Opcode_IsControl (Opcode p) || (Opcode p =? P_ACK_V1) = true) as [Hd Hc]
    by (destruct Hop as [->|[-> _]]; done).
  assert (canonical (wireForm p)) as Hcan.
  { unfold wireForm. destruct (Z.eqb_spec (len (ACKs p)) 0) as [E|E]; constructor; cbn; try done;
      rewrite ?Hk, ?Hloc, ?Hrem; unfold MaxUint8; try (done || lia); try (rewrite len_zero_iff in E; done).
    all: intros Hack; destruct Hop as [Hop|[_ ?]]; [rewrite Hack in Hop; discriminate Hop | done]. }
  destruct (canonical_roundtrip _ Hcan) as (raw & Hraw & Hparse).
  exists raw. split; [|done]. unfold emit. cbn. rewrite app_nil_r. unfold Muxer.moveDownWorker_step.
  assert (Packet_Bytes p = Packet_Bytes (wireForm p)) as ->; [|now rewrite Hraw].
  assert (Opcode (wireForm p) = Opcode p /\ KeyID (wireForm p) = KeyID p /\ ACKs (wireForm p) = ACKs p /\
    ID (wireForm p) = ID p /\ wireBody (wireForm p) = wireBody p) as (E1 & E2 & E3 & E4 & E5).
  { unfold wireForm. destruct (Z.eqb_spec (len (ACKs p)) 0) as [E|E]; [|done].
    repeat split. unfold wireBody. cbn. now rewrite E. }
  rewrite !Packet_Bytes_wire; rewrite ?E1, ?E3, ?E4; unfold MaxUint8; try (done || lia).
  now rewrite E2, E5.
Qed.

Lemma emit_cons p ps : emit (p :: ps) = emit [p] ++ emit ps.
Proof. unfold emit. cbn [map concat]. now rewrite app_nil_r. Qed.

Lemma carries_ID W p : carries W p -> 1 <= ID p <= len W.
Proof. intros (_ & H1 & H%lookup_lt_Some). unfold len. lia. Qed.

Lemma carries_mono W W' p : W `prefix_of` W' -> carries W p -> carries W' p.
Proof.
  intros Hp (H1 & H2 & H3). split; [done|]. split; [done|]. eapply prefix_lookup_Some; eassumption.
Qed.

Lemma carries_ACKs W ks p : carries W p -> carries W (set_ACKs ks p).
Proof. done. Qed.

Lemma fromPeer_mono loc rem W W' q : W `prefix_of` W' -> fromPeer loc rem W q -> fromPeer loc rem W' q.
Proof. intros Hp [[H|H] H2 H3]; constructor; eauto using carries_mono. Qed.

Lemma wireFrom_mono loc rem W W' raw : W `prefix_of` W' -> wireFrom loc rem W raw -> wireFrom loc rem W' raw.
Proof. intros Hp (q & Hq & Hf). exists q. eauto using fromPeer_mono. Qed.

(** ** The sender's steps *)

(** Transmission only sets acknowledgements, taken from the pending ones. *)
Lemma flush_packets now budget l acks l' acks' out (P : Packet -> Prop) :
  (forall p ks, P p -> P (set_ACKs ks p)) ->
  Forall (fun f => P (packet f)) l -> flush now budget l acks = (l', acks', out) ->
  Forall (fun f => P (packet f)) l' /\ acks' ⊆ acks /\
  Forall (fun p => P p /\ len (ACKs p) <= 4 /\ forall i, i ∈ ACKs p -> i ∈ acks) out.
Proof.
  intros HP. revert budget acks l' acks' out.
  induction l as [|f l IH]; intros budget acks l' acks' out Hl; cbn [flush].
  - intros [= <- <- <-]. split; [constructor|]. split; [done | constructor].
  - apply Forall_cons in Hl as [Hf Hl]. destruct (isReady now f).
    + destruct (nextToACK acks) as [next rest] eqn:En. cbn.
      destruct (nextToACK_sorted _ _ _ En) as (_ & Hn & -> & _ & _).
      destruct (flush now (pred <$> budget) l rest) as [[t' a'] o'] eqn:Ef.
      destruct (IH _ _ _ _ _ Hl Ef) as (H1 & H2 & H3).
      assert (P (set_ACKs next (packet f)) /\ len next <= 4 /\
        forall i, i ∈ next -> i ∈ (list_to_set next ∪ rest : gset Z)) as Hp
        by (split; [auto|]; split; [lia | set_solver]).
      assert (Forall (fun p => P p /\ len (ACKs p) <= 4 /\
        forall i, i ∈ ACKs p -> i ∈ (list_to_set next ∪ rest : gset Z)) o') as Ho.
      { eapply Forall_impl; [exact H3|]. cbn. intros p (? & ? & Hi). split; [done|]. split; [done|].
        intros i Hin. specialize (Hi i Hin). set_solver. }
      destruct budget as [[|n]|]; intros [= <- <- <-].
      * split; [constructor; [now apply HP | done]|]. split; [set_solver | constructor].
      * split; [constructor; [now apply HP | done]|]. split; [set_solver | now constructor].
      * split; [constructor; [now apply HP | done]|]. split; [set_solver | now constructor].
    + destruct (flush now budget l acks) as [[t' a'] o'] eqn:Ef. intros [= <- <- <-].
      destruct (IH _ _ _ _ _ Hl Ef) as (H1 & H2 & H3). split; [now constructor | done].
Qed.

(** What a tick writes: packets of the queue with new acknowledgements, or
    one ACK packet. *)
Lemma tick_packets m r now budget d r' out (P : Packet -> Prop) :
  (forall p ks, P p -> P (set_ACKs ks p)) -> Forall (fun f => P (packet f)) (inFlight r) ->
  blockOnTryingToSend m r now budget = Ok (d, r', out) ->
  Forall (fun f => P (packet f)) (inFlight r') /\ pendingACKsToSend r' ⊆ pendingACKsToSend r /\
  Forall (fun p => (P p \/ exists ids, NewACKForPacketIDs m ids = Ok p) /\ len (ACKs p) <= 4 /\
            forall i, i ∈ ACKs p -> i ∈ pendingACKsToSend r) out /\
  map inflight_key (inFlight r') = map inflight_key (inFlight r).
Proof.
  intros HP Hl. unfold blockOnTryingToSend. intros (d' & _ & H)%bind_Ok. destruct (0 <? _).
  - destruct (flush now budget (inFlight r) (pendingACKsToSend r)) as [[l a] o] eqn:Ef.
    injection H as <- <- <-. destruct (flush_keys _ _ _ _ _ _ _ Ef) as (Hk & _ & _).
    destruct (flush_packets _ _ _ _ _ _ _ P HP Hl Ef) as (H1 & H2 & H3). split; [done|]. split; [done|].
    split; [|done]. eapply Forall_impl; [exact H3|]. cbn. tauto.
  - destruct (hasPendingACKs r); cbn [negb] in H; [|injection H as <- <- <-; repeat split; (done || constructor)].
    unfold NextPacketIDsToACK in H. destruct (nextToACK (pendingACKsToSend r)) as [ids a] eqn:En.
    destruct (nextToACK_sorted _ _ _ En) as (_ & Hn & Ha & _ & _).
    destruct (NewACKForPacketIDs m ids) as [ack|e|] eqn:Ea; [|injection H as <- <- <-|discriminate H].
    + assert (ACKs ack = ids) as Hids by (unfold NewACKForPacketIDs in Ea; destruct (remoteSessionID m); now simplify_eq).
      injection H as <- <- <-. cbn. split; [done|]. split; [set_solver|]. split; [|done].
      assert (Forall (fun p => (P p \/ exists ids, NewACKForPacketIDs m ids = Ok p) /\ len (ACKs p) <= 4 /\
            forall i, i ∈ ACKs p -> i ∈ pendingACKsToSend r) [ack]) as Hack
        by (constructor; [rewrite Hids; split; [eauto|]; split; [lia | set_solver] | constructor]).
      destruct budget as [[|]|]; (exact Hack || constructor).
    + cbn. split; [done|]. split; [set_solver|]. split; [constructor | done].
Qed.

(** Acknowledgements only remove packets from the queue, and only the
    acknowledged ones. *)
Lemma evictSpec_packets acked l :
  (forall f, f ∈ evictSpec acked l -> exists g, g ∈ l /\ packet f = packet g) /\
  (forall i, i ∈ map inflight_key l -> i = acked \/ i ∈ map inflight_key (evictSpec acked l)).
Proof.
  unfold evictSpec. split.
  - intros f (g & Hg & Hf)%list_elem_of_omap. exists g. split; [done|].
    destruct (ID (packet g) =? acked); [done|]. destruct (ID (packet g) <? acked); injection Hf as <-; done.
  - intros i (g & -> & Hg)%list_elem_of_fmap. unfold inflight_key at 1.
    destruct (Z.eqb_spec (ID (packet g)) acked) as [|Hne]; [now left | right].
    apply list_elem_of_fmap.
    exists (if ID (packet g) <? acked then ACKForHigherPacket g else g). split; [now destruct (_ <? _)|].
    apply list_elem_of_omap. exists g. split; [done|].
    destruct (Z.eqb_spec (ID (packet g)) acked); [done|]. now destruct (_ <? _).
Qed.

Lemma seen_packets next r s :
  sender_inv next r ->
  let r' := OnIncomingPacketSeen r s in
  (forall f, f ∈ inFlight r' -> exists g, g ∈ inFlight r /\ packet f = packet g) /\
  (forall i, i ∈ map inflight_key (inFlight r) ->
     i ∈ default [] (seen_acks s) \/ i ∈ map inflight_key (inFlight r')) /\
  (forall i, i ∈ pendingACKsToSend r' -> i ∈ pendingACKsToSend r \/ seen_id s = Some i).
Proof.
  intros Hinv. unfold OnIncomingPacketSeen. set (r0 := mkReliableSender _ _).
  assert (forall i, i ∈ pendingACKsToSend r0 -> i ∈ pendingACKsToSend r \/ seen_id s = Some i) as H0.
  { cbn. unfold maybeAdd. destruct (_ <=? _); [auto|]. destruct (seen_id s); set_solver. }
  assert (sender_inv next r0) as Hinv0.
  { pose proof (seen_inv next r (mkIncomingPacketSeen (seen_id s) None) Hinv) as H. exact H. }
  change (inFlight r) with (inFlight r0). clearbody r0.
  destruct (seen_acks s) as [acks|]; cbn [default]; [|repeat split; eauto].
  revert r0 Hinv0 H0. induction acks as [|a acks IH]; cbn [fold_left]; intros r0 Hinv0 H0; [repeat split; eauto|].
  pose proof (evict_inv next r0 a Hinv0) as Hinv1. pose proof Hinv0 as [Hs _ _ _]. rewrite maybeEvict_spec in * by done.
  destruct (evictSpec_packets a (inFlight r0)) as [E1 E2].
  destruct (IH _ Hinv1 H0) as (H1 & H2 & H3). cbn [inFlight pendingACKsToSend] in *. repeat split.
  - intros f Hf. destruct (H1 f Hf) as (g & Hg & ->). destruct (E1 g Hg) as (h & Hh & ->). eauto.
  - intros i Hi. destruct (E2 i Hi) as [->|Hi']; [left; left|]. destruct (H2 i Hi'); [left; now right | now right].
  - exact H3.
Qed.

(** ** The invariant *)

(** A peer with session [loc] that talks to the session [rem]. *)
Record peer_inv (loc rem : list byte) (e : endpoint) : Prop := {
  pi_mgr : manager_inv (mgr e);
  pi_local : localSessionID (mgr e) = loc;
  pi_remote : remoteSessionID (mgr e) = Some rem;
  pi_rlen : length rem = 8%nat;
  pi_count : localControlPacketID (mgr e) = len (written e) + 1;
  pi_sender : sender_inv (localControlPacketID (mgr e)) (fst (sndr e));
  pi_flight : Forall (fun f => carries (written e) (packet f) /\ addressed loc rem (packet f)) (inFlightOf e);
  pi_pending : forall i, i ∈ pendingOf e -> is_u32 i;
  pi_seen : Forall (fun s => forall i, seen_id s = Some i -> is_u32 i) (seenQueue e);
  pi_wire : Forall (wireFrom loc rem (written e)) (wire e)
}.

(** A peer that receives from one that has written the records [W]. *)
Record link_inv (W : list (list byte)) (e : endpoint) : Prop := {
  li_recv : receiver_inv (rcv e);
  li_queue : Forall (carries W) (incomingPackets (rcv e));
  li_last : lastConsumed (rcv e) <= len W;
  li_got : delivered e = take (Z.to_nat (lastConsumed (rcv e))) W
}.

Lemma link_inv_mono W W' e : W `prefix_of` W' -> link_inv W e -> link_inv W' e.
Proof.
  intros Hp [H1 H2 H3 H4]. destruct Hp as [k ->]. constructor; [done| | |].
  - eapply Forall_impl; [exact H2|]. intros p Hc. eapply carries_mono; [|exact Hc]. by exists k.
  - rewrite len_app. pose proof (len_nonneg k). lia.
  - rewrite H4. destruct H1 as [_ ? _ _]. rewrite take_app_le; [done|]. unfold len in *. lia.
Qed.

Lemma peer_room loc rem e : peer_inv loc rem e -> len (written e) < MaxUint32.
Proof. intros [Hm _ _ _ Hc _ _ _ _ _]. destruct Hm as [_ _ _ _ Hm _ _]. lia. Qed.

Lemma peer_loc_len loc rem e : peer_inv loc rem e -> length loc = 8%nat.
Proof. intros []. destruct pi_mgr0. congruence. Qed.

Lemma peer_session loc rem e : peer_inv loc rem e -> remoteSessionID (mgr e) <> None.
Proof. intros Hp. by rewrite (pi_remote _ _ _ Hp). Qed.

Lemma Control_down_spec m record :
  manager_inv m -> remoteSessionID m <> None ->
  Control.moveDownWorker_step m record = (m, None) /\ localControlPacketID m = MaxUint32 \/
  exists rs, remoteSessionID m = Some rs /\ localControlPacketID m < MaxUint32 /\
    Control.moveDownWorker_step m record =
      (set_localControlPacketID (localControlPacketID m + 1) m,
       Some (mkPacket P_CONTROL_V1 0 zeroPeerID (localSessionID m) [] rs (localControlPacketID m) record)).
Proof.
  intros Hm Hrs. unfold Control.moveDownWorker_step, Manager_NewPacket.
  change (Opcode_IsControl P_CONTROL_V1) with true. cbn iota.
  destruct (localControlPacketIDLocked_spec m Hm) as [[? ->]|[? ->]]; [now left | right].
  cbn [remoteSessionID set_localControlPacketID]. destruct (remoteSessionID m) as [rs|]; [|done].
  exists rs. split; [done|]. split; [done|]. unfold set_RemoteSessionID, set_ID, set_LocalSessionID, NewPacket. cbn.
  destruct Hm as [-> _ _ _ _ _ ?]. now rewrite copy_zeroed_exact.
Qed.

Lemma prefix_snoc {A} (l : list A) x : l `prefix_of` l ++ [x].
Proof. by exists [x]. Qed.

Lemma write_inv loc rem record e e' :
  peer_inv loc rem e -> writeRecord record e = Ok e' ->
  peer_inv loc rem e' /\ rcv e' = rcv e /\ delivered e' = delivered e /\ wire e' = wire e /\
  written e' = written e ++ [record].
Proof.
  intros Hp. pose proof (peer_room _ _ _ Hp) as Hroom. destruct Hp as [Hm Hl Hr Hrl Hc Hs Hf Hpend Hseen Hw].
  unfold writeRecord.
  destruct (Control_down_spec (mgr e) record Hm) as [[-> _]|(rs & Hrs & Hmax & ->)]; [congruence|done|].
  rewrite Hr in Hrs. injection Hrs as <-. rewrite Hl. unfold inFlightOf, pendingOf in *.
  destruct (sndr e) as [r tk]. cbn [fst] in *.
  set (p := mkPacket _ _ _ _ _ _ _ _). cbn [moveDownWorker_step].
  destruct (TryInsertOutgoingPacket r p) as [b r'] eqn:Ei.
  destruct (insert_inv (localControlPacketID (mgr e)) r p b r' Hs (Z.le_refl _) Ei) as [Hs' Hb].
  assert (Forall (fun f => carries (written e ++ [record]) (packet f) /\ addressed loc rem (packet f)) (inFlight r)) as Hf'.
  { eapply Forall_impl; [exact Hf|]. cbn. intros f [? ?]. split; [|done].
    eapply carries_mono; [apply prefix_snoc | done]. }
  assert (carries (written e ++ [record]) p /\ addressed loc rem p) as Hcp.
  { split; [|done]. split; [done|]. cbn. rewrite Hc. pose proof (len_nonneg (written e)). split; [lia|].
    apply list_lookup_middle. unfold len. lia. }
  assert (Forall (fun f => carries (written e ++ [record]) (packet f) /\ addressed loc rem (packet f)) (inFlight r') /\
    pendingACKsToSend r' = pendingACKsToSend r) as [Hf1 Hp1].
  { unfold TryInsertOutgoingPacket in Ei. destruct (_ <=? _); injection Ei as <- <-; [done|].
    split; [|done]. cbn. apply Forall_app. split; [done | now constructor]. }
  assert (forall tk', peer_inv loc rem (mkEndpoint
      (Muxer.set_manager (set_localControlPacketID (localControlPacketID (mgr e) + 1) (mgr e)) (mux e))
      (r', tk') (rcv e) (seenQueue e) (wire e) (written e ++ [record]) (delivered e))) as Hall.
  { intros tk'. constructor; cbn; try done.
    - apply manager_inv_set_control; [done|]. destruct Hm as [_ _ _ _ ? _ _]. lia.
    - rewrite len_app, len_cons, len_nil. lia.
    - unfold pendingOf. cbn. now rewrite Hp1.
    - eapply Forall_impl; [exact Hw|]. intros raw. apply wireFrom_mono, prefix_snoc. }
  destruct b; cbn; intros [= <-]; cbn; auto.
Qed.

(** A packet of ours as the peer reads it: its acknowledgements satisfy [A],
    and the number of a control packet satisfies [Q]. *)
Definition sentNow (loc rem : list byte) (W : list (list byte)) (A Q : Z -> Prop) (q : Packet) : Prop :=
  fromPeer loc rem W q /\ (forall i, i ∈ ACKs q -> A i) /\ (Opcode q = P_CONTROL_V1 -> Q (ID q)).

(** What the muxer makes of the packets of a tick. *)
Lemma emit_wireFrom loc rem W (A Q : Z -> Prop) ps :
  length loc = 8%nat -> length rem = 8%nat -> len W < MaxUint32 ->
  Forall (fun p => (carries W p /\ Q (ID p) \/ Opcode p = P_ACK_V1 /\ ID p = 0) /\ addressed loc rem p /\
            len (ACKs p) <= 4 /\ forall i, i ∈ ACKs p -> is_u32 i /\ A i) ps ->
  exists qs, Forall2 (fun raw q => ParsePacket raw = Ok q) (emit ps) qs /\ qs = map wireForm ps /\
    Forall (sentNow loc rem W A Q) qs.
Proof.
  intros Hl Hr HW. induction 1 as [|p ps (Hk & Ha & Hn & Hi) _ (qs & IH1 & -> & IH2)].
  - exists []. split; [constructor|]. split; [done | constructor].
  - destruct (wire_roundtrip loc rem p) as (raw & Hraw & Hparse); try done.
    + destruct Hk as [[[? _] _]|?]; auto.
    + unfold is_u32, MaxUint32 in *. destruct Hk as [[Hc%carries_ID _]|[_ ->]]; lia.
    + apply Forall_forall. intros i Hin. now apply Hi.
    + exists (wireForm p :: map wireForm ps). rewrite emit_cons, Hraw. split; [now constructor|].
      split; [done|]. constructor; [|done].
      assert (Opcode (wireForm p) = Opcode p /\ ACKs (wireForm p) = ACKs p /\ ID (wireForm p) = ID p /\
        Payload (wireForm p) = Payload p /\ LocalSessionID (wireForm p) = LocalSessionID p) as (E1 & E2 & E3 & E4 & E5)
        by (unfold wireForm; now destruct (_ =? _)).
      destruct Ha as (_ & _ & Hloc & Hrem). split; [constructor|split].
      * unfold unnumbered, carries. rewrite E1, E3, E4. destruct Hk as [[? _]|[? _]]; auto.
      * congruence.
      * rewrite E2. intros Hne. unfold wireForm. destruct (Z.eqb_spec (len (ACKs p)) 0) as [E|E]; [|done].
        now apply len_zero_iff in E.
      * rewrite E2. intros i Hin. now apply Hi.
      * rewrite E1, E3. destruct Hk as [[_ ?]|[-> _]]; done.
Qed.

Lemma NewACK_spec loc rem m ids ack :
  manager_inv m -> localSessionID m = loc -> remoteSessionID m = Some rem ->
  NewACKForPacketIDs m ids = Ok ack -> Opcode ack = P_ACK_V1 /\ ID ack = 0 /\ addressed loc rem ack.
Proof.
  intros [Hk _ _ _ _ _ _] <- Hr. unfold NewACKForPacketIDs. rewrite Hr. intros [= <-]. repeat split; done.
Qed.

(** A tick: what it puts on the network comes from the queue or is an ACK. *)
Lemma tick_spec loc rem now budget e e' (A Q : Z -> Prop) :
  peer_inv loc rem e -> (forall i, i ∈ pendingOf e -> A i) ->
  (forall i, i ∈ map inflight_key (inFlightOf e) -> Q i) -> tick now budget e = Ok e' ->
  peer_inv loc rem e' /\ rcv e' = rcv e /\ delivered e' = delivered e /\ written e' = written e /\
  seenQueue e' = seenQueue e /\ mux e' = mux e /\ pendingOf e' ⊆ pendingOf e /\
  map inflight_key (inFlightOf e') = map inflight_key (inFlightOf e) /\
  exists ps, wire e' = wire e ++ emit ps /\
    (exists d, blockOnTryingToSend (mgr e) (fst (sndr e)) now budget = Ok (d, fst (sndr e'), ps)) /\
    Forall2 (fun raw q => ParsePacket raw = Ok q) (emit ps) (map wireForm ps) /\
    Forall (sentNow loc rem (written e) A Q) (map wireForm ps).
Proof.
  intros Hp HA HQ. pose proof (peer_room _ _ _ Hp) as Hroom. pose proof (peer_loc_len _ _ _ Hp) as Hll.
  destruct Hp as [Hm Hl Hr Hrl Hc Hs Hf Hpend Hseen Hw]. unfold tick, inFlightOf, pendingOf in *.
  destruct (sndr e) as [r tk] eqn:Esnd. cbn [moveDownWorker_step fst] in *.
  intros ([st ps] & Hb & [= <-])%bind_Ok. apply bind_Ok in Hb as ([[d r'] out] & Hb & [= <- <-]).
  pose proof (tick_inv _ _ _ _ _ _ _ _ Hs Hb) as [Hs' _].
  assert (Forall (fun f => (carries (written e) (packet f) /\ addressed loc rem (packet f)) /\ Q (ID (packet f)))
    (inFlight r)) as HfQ.
  { rewrite Forall_forall in Hf. apply Forall_forall. intros f Hin. split; [auto|].
    apply HQ, list_elem_of_fmap. eauto. }
  destruct (tick_packets _ _ _ _ _ _ _ (fun p => (carries (written e) p /\ addressed loc rem p) /\ Q (ID p))
    ltac:(intros p ks Hck; exact Hck) HfQ Hb) as (H1 & H2 & H3 & H4).
  destruct (emit_wireFrom loc rem (written e) A Q out Hll Hrl Hroom) as (qs & E1 & -> & E3).
  { eapply Forall_impl; [exact H3|]. cbn. intros p ([[[? ?] ?]|(ids & Hack)] & Hn & Hi).
    - split; [auto|]. split; [done|]. split; [done|]. intros i Hin. specialize (Hi i Hin). auto.
    - apply (NewACK_spec loc rem) in Hack as (? & ? & ?); [|done|done|done].
      split; [auto|]. split; [done|]. split; [done|]. intros i Hin. specialize (Hi i Hin). auto. }
  cbn [fst snd sndr wire written rcv delivered seenQueue mux].
  split; [|repeat (split; [done|]); exists out; repeat split; eauto].
  constructor; cbn; try done; unfold pendingOf; cbn.
  - eapply Forall_impl; [exact H1|]. cbn. intros f [? _]. done.
  - intros i Hi. apply Hpend. set_solver.
  - apply Forall_app. split; [done|].
    rewrite Forall_forall in E3. apply Forall_forall. intros raw Hraw.
    apply list_elem_of_lookup in Hraw as [k Hk]. destruct (Forall2_lookup_l _ _ _ _ _ E1 Hk) as (q & Hq & Hpq).
    exists q. split; [done|]. apply E3. exact (list_elem_of_lookup_2 _ _ _ Hq).
Qed.

Lemma readSeen_spec loc rem now e e' :
  peer_inv loc rem e -> readSeen now e = Ok e' ->
  exists s, seenQueue e = s :: seenQueue e' /\
  peer_inv loc rem e' /\ rcv e' = rcv e /\ delivered e' = delivered e /\ written e' = written e /\
  wire e' = wire e /\ mux e' = mux e /\
  (forall i, i ∈ map inflight_key (inFlightOf e) ->
     i ∈ default [] (seen_acks s) \/ i ∈ map inflight_key (inFlightOf e')) /\
  (forall i, i ∈ pendingOf e' -> i ∈ pendingOf e \/ seen_id s = Some i) /\
  (forall i, i ∈ map inflight_key (inFlightOf e') -> i ∈ map inflight_key (inFlightOf e)).
Proof.
  intros [Hm Hl Hr Hrl Hc Hs Hf Hpend Hseen Hw]. unfold readSeen, inFlightOf, pendingOf in *.
  destruct (seenQueue e) as [|s q] eqn:Eq; [done|]. destruct (sndr e) as [r tk]. cbn [moveDownWorker_step fst] in *.
  apply Forall_cons in Hseen as [Hs1 Hseen].
  destruct (seen_packets _ r s Hs) as (H1 & H2 & H3). pose proof (seen_inv _ r s Hs) as Hs'.
  set (r' := OnIncomingPacketSeen r s) in *.
  intros ([st out] & Hst' & [= <-])%bind_Ok. exists s. cbn.
  assert (fst st = r') as Er by (destruct (shouldWakeupAfterACK r' now) as [[|] w];
    [apply bind_Ok in Hst' as (d & _ & [= <- _]) | injection Hst' as <- _]; done).
  rewrite Er. split; [done|]. split.
  2:{ do 7 (split; [done|]). intros i (f & -> & Hf')%list_elem_of_fmap. destruct (H1 f Hf') as (g & Hg & E).
      unfold inflight_key. rewrite E. apply list_elem_of_fmap. by exists g. }
  constructor; cbn; rewrite ?Er; try done; unfold inFlightOf, pendingOf; cbn; rewrite Er.
  - apply Forall_forall. intros f Hf'. destruct (H1 f Hf') as (g & Hg & ->).
    rewrite Forall_forall in Hf. exact (Hf g Hg).
  - intros i Hi. destruct (H3 i Hi); auto.
Qed.

Lemma session_exec_established op m :
  otherWorkers op = true -> manager_inv m -> remoteSessionID m <> None ->
  let m' := (session_exec op m).1 in
  manager_inv m' /\ localSessionID m' = localSessionID m /\ remoteSessionID m' = remoteSessionID m /\
  localControlPacketID m' = localControlPacketID m.
Proof.
  intros Hop Hm Hr m'. destruct (session_exec op m) as [m1 ev] eqn:E. cbn in m'. subst m'.
  destruct (session_exec_spec op m m1 ev Hm E) as [Hm1 _]. split; [done|].
  assert (forall m0, (if true then localDataPacketIDLocked m else localDataPacketIDLocked m).2 = m0 ->
    localSessionID m0 = localSessionID m /\ remoteSessionID m0 = remoteSessionID m /\
    localControlPacketID m0 = localControlPacketID m) as Hd.
  { intros m0 <-. unfold localDataPacketIDLocked. now destruct (_ =? _). }
  cbn iota in Hd. destruct op as [op payload| |s|rs|s|ti|k]; cbn in Hop, E; try done.
  - unfold Manager_NewPacket in E. apply negb_true_iff in Hop. rewrite Hop in E.
    destruct (localDataPacketIDLocked m) as [r m0]. specialize (Hd m0 eq_refl) as (H1 & H2 & H3).
    destruct r as [pid|e|]; injection E as <- _; auto.
  - unfold LocalDataPacketID in E. destruct (localDataPacketIDLocked m) as [r m0].
    specialize (Hd m0 eq_refl) as (H1 & H2 & H3). destruct r as [pid|e|]; injection E as <- _; auto.
  - injection E as <- _. cbn. auto.
  - destruct (InitTunnelInfo m s) as [m0|e|] eqn:Ei; injection E as <- _; auto.
    unfold InitTunnelInfo in Ei. apply bind_Ok in Ei as (ti & _ & [= <-]). cbn. auto.
  - injection E as <- _. auto.
  - destruct (ActiveKey m) as [[i dck]|e|]; [destruct (AddRemoteKey dck k)|..]; injection E as <- _; auto.
Qed.

Lemma session_step_inv loc rem op e :
  otherWorkers op = true -> peer_inv loc rem e ->
  peer_inv loc rem (set_mgr (session_exec op (mgr e)).1 e).
Proof.
  intros Hop [Hm Hl Hr Hrl Hc Hs Hf Hpend Hseen Hw].
  destruct (session_exec_established op (mgr e) Hop Hm) as (H1 & H2 & H3 & H4); [congruence|].
  constructor; cbn; rewrite ?H4; try done; congruence.
Qed.

(** ** Packets on their way up *)

(** With a session recorded, a control packet that does not crash the muxer is
    passed on. *)
Lemma handleRawPacket_established ws raw p :
  remoteSessionID (Muxer.sessionManager ws) <> None -> ParsePacket raw = Ok p ->
  Packet_IsControl p || (Opcode p =? P_ACK_V1) = true ->
  Muxer.handleRawPacket None ws raw = (Ok tt, ws, [Muxer.ToReliable p]) \/
  Opcode p = P_CONTROL_HARD_RESET_SERVER_V2 /\ (Muxer.handleRawPacket None ws raw).1.1 = Panic.
Proof.
  intros Hr Hp Hk. unfold Muxer.handleRawPacket. rewrite Hp.
  destruct (_ && (Opcode p =? P_CONTROL_HARD_RESET_SERVER_V2)) eqn:E; [right | left; by rewrite Hk].
  apply andb_true_iff in E as [_ ->%Z.eqb_eq]. split; [done|].
  unfold Muxer.finishThreeWayHandshake, SetRemoteSessionID, IsRemoteSessionIDSet. cbn [Muxer.sessionManager Muxer.set_ticker].
  by destruct (remoteSessionID (Muxer.sessionManager ws)).
Qed.

Lemma receive_established raw p e e' :
  remoteSessionID (mgr e) <> None -> ParsePacket raw = Ok p ->
  Packet_IsControl p || (Opcode p =? P_ACK_V1) = true -> receive raw e = Ok e' -> e' = passUp e p.
Proof.
  intros Hr Hp Hk. unfold receive.
  destruct (handleRawPacket_established (mux e) raw p Hr Hp Hk) as [->|[_ Hpanic]].
  - cbn. intros [= <-]. by destruct e.
  - destruct (Muxer.handleRawPacket None (mux e) raw) as [[r ws] effs]. cbn in Hpanic. by subst r.
Qed.

(** A packet of a third party changes nothing. *)
Lemma receive_foreign raw e e' :
  remoteSessionID (mgr e) <> None -> foreign (mgr e) raw = true -> receive raw e = Ok e' -> e' = e.
Proof.
  intros Hr Hf H. unfold foreign in Hf. destruct (ParsePacket raw) as [p|err|] eqn:Hp.
  2,3: unfold receive, Muxer.handleRawPacket in H; rewrite Hp in H; (discriminate H || (injection H as <-; now destruct e)).
  destruct (Packet_IsControl p || (Opcode p =? P_ACK_V1)) eqn:Ek; cbn [negb orb] in Hf.
  - rewrite (receive_established raw p e e' Hr Hp Ek H). unfold passUp, moveUpWorker_step, mgr. cbn.
    unfold mgr in Hf. rewrite Hf. cbn. rewrite !app_nil_r. destruct e as [ws ? ? ? ? ? ?]. destruct ws. done.
  - unfold receive, Muxer.handleRawPacket in H. rewrite Hp in H.
    destruct (_ && (Opcode p =? P_CONTROL_HARD_RESET_SERVER_V2)) eqn:E.
    { apply andb_true_iff in E as [_ E%Z.eqb_eq]. unfold Packet_IsControl in Ek. by rewrite E in Ek. }
    rewrite Ek in H. destruct (_ <? _); [destruct (Packet_IsData p)|]; cbn in H; injection H as <-; now destruct e.
Qed.

(** What the receiver's worker does with a packet, and how it reaches TLS. *)
Lemma passUp_spec e p :
  Forall (fun q => Opcode q = P_CONTROL_V1) (incomingPackets (rcv e)) ->
  exists r seen out, moveUpWorker_step (mgr e) None (rcv e) p = (r, seen, out) /\
    passUp e p = mkEndpoint (mux e) (sndr e) r (seenQueue e ++ option_list seen) (wire e) (written e)
                   (delivered e ++ map Payload out).
Proof.
  intros Hq. unfold passUp. destruct (moveUpWorker_step (mgr e) None (rcv e) p) as [[r seen] out] eqn:E.
  exists r, seen, out. split; [done|]. rewrite control_run_records.
  - unfold mgr, Muxer.set_manager. destruct (mux e). cbn. f_equal. f_equal.
    clear. induction out as [|q out IH]; cbn; [done|]. now rewrite IH.
  - apply (receiver_delivers_control (mgr e) [p] (rcv e) r (option_list seen) out); [exact Hq|].
    cbn. rewrite E, !app_nil_r. done.
Qed.

Lemma receive_peer loc W e raw e' :
  remoteSessionID (mgr e) <> None -> Forall (fun q => Opcode q = P_CONTROL_V1) (incomingPackets (rcv e)) ->
  wireFrom loc (localSessionID (mgr e)) W raw -> receive raw e = Ok e' ->
  exists p r seen out, ParsePacket raw = Ok p /\ fromPeer loc (localSessionID (mgr e)) W p /\
    moveUpWorker_step (mgr e) None (rcv e) p = (r, seen, out) /\
    e' = mkEndpoint (mux e) (sndr e) r (seenQueue e ++ option_list seen) (wire e) (written e)
           (delivered e ++ map Payload out).
Proof.
  intros Hst Hq (p & Hp & Hf) He.
  rewrite (receive_established raw p e e' Hst Hp (fromPeer_reliable _ _ _ _ Hf) He).
  destruct (passUp_spec e p Hq) as (r & seen & out & E & ->).
  exists p, r, seen, out. auto.
Qed.

Lemma carried_payloads W out k :
  0 <= k -> Forall (carries W) out -> map ID out = seqZ (k + 1) (len out) ->
  take (Z.to_nat k) W ++ map Payload out = take (Z.to_nat (k + len out)) W.
Proof.
  intros Hk Hc. revert k Hk. induction Hc as [|p out (_ & Hp & Hl) _ IH]; intros k Hk Hid.
  - cbn. now rewrite app_nil_r, len_nil, Z.add_0_r.
  - pose proof (len_nonneg out). rewrite len_cons in *. rewrite seqZ_cons in Hid by lia.
    cbn [map] in Hid |- *. injection Hid as Hid1 Hid2. rewrite Hid1 in Hl.
    replace (k + 1 - 1) with k in Hl by lia.
    replace (Z.succ (k + 1)) with (k + 1 + 1) in Hid2 by lia. replace (Z.pred (len out + 1)) with (len out) in Hid2 by lia.
    specialize (IH (k + 1) ltac:(lia) Hid2). replace (k + (len out + 1)) with (k + 1 + len out) by lia.
    rewrite <- IH. replace (Z.to_nat (k + 1)) with (S (Z.to_nat k)) by lia.
    rewrite (take_S_r _ _ _ Hl), <- app_assoc. done.
Qed.

(** The receiving side: one packet of the peer. *)
Lemma link_receive W e p r seen out :
  link_inv W e -> len W < MaxUint32 -> carries W p \/ unnumbered p ->
  moveUpWorker_step (mgr e) None (rcv e) p = (r, seen, out) ->
  link_inv W (mkEndpoint (mux e) (sndr e) r (seenQueue e ++ option_list seen) (wire e) (written e)
                (delivered e ++ map Payload out)) /\
  lastConsumed (rcv e) <= lastConsumed r /\
  (forall s i, seen = Some s -> seen_id s = Some i -> is_u32 i).
Proof.
  intros [Hri Hq Hl Hg] HW Hk E.
  assert (forall s i, seen = Some s -> seen_id s = Some i -> is_u32 i) as Hseen.
  { unfold moveUpWorker_step in E. intros s i -> Hi.
    assert (s = newIncomingPacketSeen p) as ->.
    { destruct (negb (incomingSanityChecks _ _)); [done|]. destruct (negb (_ =? _)); [congruence|].
      destruct (MaybeInsertIncoming _ _) as [ins r0]. destruct (negb ins); [congruence|].
      destruct (NextIncomingSequence r0). congruence. }
    unfold newIncomingPacketSeen in Hi. destruct (Z.eqb_spec (Opcode p) P_ACK_V1); [done|].
    injection Hi as <-. destruct Hk as [Hc%carries_ID|[?|[_ ->]]]; [|done|done]. unfold is_u32, MaxUint32 in *. lia. }
  destruct Hk as [Hc|Hack].
  - pose proof (carries_ID _ _ Hc). destruct (Hri) as [_ Hlast _ _].
    apply moveUpWorker_step_spec in E as (H1 & H2 & H3 & _ & H5 & H6);
      [|done|unfold is_u32, MaxUint32 in *; lia|lia].
    pose proof (len_nonneg out). split; [|split; [lia | done]].
    assert (Forall (carries W) out) as Hout.
    { rewrite Forall_forall in H5, Hq |- *. intros q Hin. destruct (H5 q Hin) as [->|?]; auto. }
    assert (Forall (carries W) (incomingPackets r)) as Hq'.
    { rewrite Forall_forall in Hq |- *. intros q Hin. destruct (H6 q Hin) as [->|?]; auto. }
    constructor; cbn; try done.
    + rewrite H3. destruct (Z.lt_ge_cases 0 (len out)); [|lia].
      destruct out as [|q out _] using rev_ind; [done|].
      apply Forall_app in Hout as [_ [Hq1%carries_ID _]%Forall_cons].
      rewrite map_app, len_app, len_cons, len_nil in H2. pose proof (len_nonneg out).
      rewrite seqZ_app in H2 by lia. apply app_inj_tail in H2 as [_ H2]. rewrite len_app, len_cons, len_nil. lia.
    + rewrite Hg, H3. now apply carried_payloads.
  - apply moveUpWorker_step_cases in E as [(_ & -> & ->)|(Hacc & _)].
    + split; [|split; [lia | done]]. constructor; cbn; rewrite ?app_nil_r; done.
    + unfold accepts in Hacc. rewrite (unnumbered_not_V1 _ Hack) in Hacc. by rewrite andb_false_r in Hacc.
Qed.

Lemma peer_inv_up loc rem e r seen d :
  peer_inv loc rem e -> (forall s i, seen = Some s -> seen_id s = Some i -> is_u32 i) ->
  peer_inv loc rem (mkEndpoint (mux e) (sndr e) r (seenQueue e ++ option_list seen) (wire e) (written e) d).
Proof.
  intros [] Hs. constructor; try done. cbn. apply Forall_app. split; [done|].
  destruct seen as [s|]; constructor; [eauto | constructor].
Qed.

(** The timer of an established session only adds a reset of ours to the
    network and sets the negotiation state. *)
Lemma timer_spec loc rem ev e e' :
  peer_inv loc rem e -> isTimer ev = true -> timer ev e = Ok e' ->
  peer_inv loc rem e' /\ sndr e' = sndr e /\ rcv e' = rcv e /\ seenQueue e' = seenQueue e /\ written e' = written e /\
  delivered e' = delivered e /\ localControlPacketID (mgr e') = localControlPacketID (mgr e) /\
  exists raws, wire e' = wire e ++ raws /\
    Forall (fun raw => exists q, ParsePacket raw = Ok q /\ Opcode q = P_CONTROL_HARD_RESET_CLIENT_V2 /\ ACKs q = []) raws.
Proof.
  intros [Hm Hl Hr Hrl Hc Hs Hf Hpend Hseen Hw] Hev. unfold timer.
  assert (forall raws, Forall (fun raw => exists q, ParsePacket raw = Ok q /\ Opcode q = P_CONTROL_HARD_RESET_CLIENT_V2 /\
      ID q = 0 /\ LocalSessionID q = loc /\ ACKs q = []) raws -> forall ws,
    manager_inv (Muxer.sessionManager ws) -> localSessionID (Muxer.sessionManager ws) = loc ->
    remoteSessionID (Muxer.sessionManager ws) = Some rem ->
    localControlPacketID (Muxer.sessionManager ws) = localControlPacketID (mgr e) ->
    let e1 := mkEndpoint ws (sndr e) (rcv e) (seenQueue e) (wire e ++ raws) (written e) (delivered e) in
    peer_inv loc rem e1 /\ exists raws, wire e1 = wire e ++ raws /\
      Forall (fun raw => exists q, ParsePacket raw = Ok q /\ Opcode q = P_CONTROL_HARD_RESET_CLIENT_V2 /\ ACKs q = []) raws) as Hgen.
  { intros raws Hraws ws W1 W2 W3 W4 e1. split.
    - unfold mgr in *. constructor; unfold mgr; cbn; rewrite ?W4; try done. apply Forall_app. split; [done|].
      eapply Forall_impl; [exact Hraws|]. intros raw (q & Hq & Q1 & Q2 & Q3 & Q4). exists q. split; [done|].
      constructor; [right; right; auto|done|by rewrite Q4].
    - exists raws. split; [done|]. eapply Forall_impl; [exact Hraws|]. intros raw (q & Hq & Q1 & _ & _ & Q4). eauto. }
  assert (forall ws r ws' es, Muxer.sessionManager ws = mgr e -> Muxer.startHardReset None ws = (r, ws', es) ->
    r = Ok tt /\ Muxer.sessionManager ws' = set_negState S_PRE_START (mgr e) /\
    Forall (fun raw => exists q, ParsePacket raw = Ok q /\ Opcode q = P_CONTROL_HARD_RESET_CLIENT_V2 /\
      ID q = 0 /\ LocalSessionID q = loc /\ ACKs q = []) (concat (map rawOf es))) as Hreset.
  { intros ws r ws' es Hws. destruct (Muxer.startHardReset_spec ws) as (raw & Hraw & ->); [by rewrite Hws|].
    intros [= <- <- <-]. split; [done|]. cbn. split; [by rewrite Hws|]. constructor; [|constructor]. rewrite Hws in Hraw.
    destruct (canonical_roundtrip _ (Muxer.NewHardResetPacket_canonical _ Hm)) as (raw2 & Hraw2 & Hp).
    rewrite Hraw in Hraw2. injection Hraw2 as <-. eexists. split; [exact Hp|]. do 2 (split; [done|]). split; [|done].
    cbn. rewrite Hl. destruct Hm. apply copy_zeroed_exact. congruence. }
  assert (manager_inv (set_negState S_PRE_START (mgr e))) as Hm' by (destruct Hm; by constructor).
  destruct ev as [| |[]|[]|]; try discriminate Hev; cbn [Muxer.moveUpWorker_step].
  - destruct (Muxer.running _); [|done]. intros [= <-]. rewrite app_nil_r.
    destruct (Hgen [] ltac:(constructor) (Muxer.set_ticker (Muxer.Ticker_fire (Muxer.hardResetTicker (mux e))) (mux e)))
      as [H1 H2]; try done. cbn in H1, H2. rewrite app_nil_r in H1, H2. auto 10.
  - destruct (Muxer.pendingTick _); [|done].
    destruct (Muxer.startHardReset None _) as [[r ws] es] eqn:E. apply Hreset in E as (-> & Ews & Hraws); [|done].
    intros [= <-]. destruct (Hgen _ Hraws ws) as [H1 H2]; rewrite ?Ews; try done.
    split; [exact H1|]. do 5 (split; [done|]). split; [unfold mgr at 1; cbn; by rewrite Ews | exact H2].
  - destruct (Muxer.startHardReset None _) as [[r ws] es] eqn:E. apply Hreset in E as (-> & Ews & Hraws); [|done].
    intros [= <-]. destruct (Hgen _ Hraws ws) as [H1 H2]; rewrite ?Ews; try done.
    split; [exact H1|]. do 5 (split; [done|]). split; [unfold mgr at 1; cbn; by rewrite Ews | exact H2].
Qed.

(** One step of a peer keeps its side of the invariant, and delivers more of
    what the other one has written. *)
Lemma local_step_inv loc rem W peerWire e l e' :
  peer_inv loc rem e -> link_inv W e -> len W < MaxUint32 -> Forall (wireFrom rem loc W) peerWire ->
  local_step peerWire e l e' ->
  peer_inv loc rem e' /\ link_inv W e' /\ lastConsumed (rcv e) <= lastConsumed (rcv e') /\
  (written e' = written e \/ exists r, written e' = written e ++ [r]).
Proof.
  intros Hp Hli HW Hpw Hstep. pose proof (peer_session _ _ _ Hp) as Hst.
  destruct Hstep as [record e' H|now budget e' H|now e' H|raw e' Hraw _ H|raw e' Hf H|op Hop|ev e' Hev H].
  - destruct (write_inv _ _ _ _ _ Hp H) as (Hp' & Hr & Hd & _ & Hw). split; [done|].
    rewrite Hr. split; [|split; [lia | eauto]]. destruct Hli; constructor; rewrite ?Hr, ?Hd; done.
  - destruct (tick_spec _ _ _ _ _ _ (fun _ => True) (fun _ => True) Hp ltac:(done) ltac:(done) H) as (Hp' & Hr & Hd & Hw & _). split; [done|].
    rewrite Hr. split; [|split; [lia | auto]]. destruct Hli; constructor; rewrite ?Hr, ?Hd; done.
  - destruct (readSeen_spec _ _ _ _ _ Hp H) as (s & _ & Hp' & Hr & Hd & Hw & _). split; [done|].
    rewrite Hr. split; [|split; [lia | auto]]. destruct Hli; constructor; rewrite ?Hr, ?Hd; done.
  - rewrite Forall_forall in Hpw. specialize (Hpw raw Hraw). pose proof (pi_local _ _ _ Hp) as Hloc.
    rewrite <- Hloc in Hpw.
    destruct (receive_peer rem W e raw e' Hst) as (p & r & seen & out & _ & [Hk _ _] & E & ->); try done.
    { eapply Forall_impl; [exact (li_queue _ _ Hli)|]. intros q [? _]. done. }
    destruct (link_receive _ _ _ _ _ _ Hli HW Hk E) as (Hli' & Hle & Hs).
    split; [now apply peer_inv_up|]. auto.
  - rewrite (receive_foreign raw e e' Hst Hf H). split; [done|]. split; [done|]. split; [lia | auto].
  - split; [now apply session_step_inv|]. split; [|split; [cbn; lia | auto]]. destruct Hli; constructor; done.
  - destruct (timer_spec _ _ _ _ _ Hp Hev H) as (Hp' & _ & Hr & _ & Hw & Hd & _). split; [done|].
    rewrite Hr. split; [|split; [lia | auto]]. destruct Hli; constructor; rewrite ?Hr, ?Hd; done.
Qed.

(** ** The refinement *)

Record world_inv (w : world) : Prop := {
  wi_sessions : exists s1 s2, peer_inv s1 s2 w.1 /\ peer_inv s2 s1 w.2;
  wi_right : link_inv (written w.1) w.2;
  wi_left : link_inv (written w.2) w.1
}.

Lemma grown_prefix {A} (l l' : list A) : l' = l \/ (exists x, l' = l ++ [x]) -> l `prefix_of` l'.
Proof. intros [->|(x & ->)]; [done | apply prefix_snoc]. Qed.

(** Delivering a longer part of the same records is a run of the channel. *)
Lemma fifo_deliver W n m :
  (n <= m)%nat -> (m <= length W)%nat -> rtc fifo_step (mkFifo W (take n W)) (mkFifo W (take m W)).
Proof.
  intros Hn. induction Hn as [|m Hn IH]; intros Hm; [constructor|].
  eapply rtc_r; [apply IH; lia|]. destruct (lookup_lt_is_Some_2 W m) as [r Hr]; [lia|].
  rewrite (take_S_r _ _ _ Hr).
  apply (fs_read r (mkFifo W (take m W))). cbn. now rewrite length_take_le by lia.
Qed.

Lemma duplex_left f f' g : rtc fifo_step f f' -> rtc duplex_step (f, g) (f', g).
Proof. induction 1; [constructor|]. eapply rtc_l; [apply ds_left; eassumption | done]. Qed.
Lemma duplex_right f g g' : rtc fifo_step g g' -> rtc duplex_step (f, g) (f, g').
Proof. induction 1; [constructor|]. eapply rtc_l; [apply ds_right; eassumption | done]. Qed.

(** The two effects of a peer's step on the promise: it may write a record,
    and it may read more of what the other side has written. *)
Lemma link_deliver W e e' :
  link_inv W e -> link_inv W e' -> lastConsumed (rcv e) <= lastConsumed (rcv e') ->
  rtc fifo_step (mkFifo W (delivered e)) (mkFifo W (delivered e')).
Proof.
  intros [_ _ _ ->] [_ _ Hl ->] Hle. apply fifo_deliver; unfold len in *; lia.
Qed.

Lemma grown_write W W' d :
  W' = W \/ (exists r, W' = W ++ [r]) -> rtc fifo_step (mkFifo W d) (mkFifo W' d).
Proof. intros [->|(r & ->)]; [constructor|]. apply rtc_once, (fs_write r (mkFifo W d)). Qed.

Lemma world_step_refines w l w' :
  world_inv w -> world_step w l w' -> world_inv w' /\ rtc duplex_step (abstraction w) (abstraction w').
Proof.
  intros [(s1 & s2 & Hp1 & Hp2) Hr Hl] Hstep.
  destruct Hstep as [a b l a' Hs|a b l b' Hs]; cbn [fst snd] in *; unfold abstraction; cbn [fst snd].
  - destruct (local_step_inv _ _ _ _ _ _ _ Hp1 Hl (peer_room _ _ _ Hp2) (pi_wire _ _ _ Hp2) Hs) as (Hp1' & Hl' & Hle & Hw).
    split.
    + constructor; cbn; [eauto | | done]. eapply link_inv_mono; [apply grown_prefix, Hw | done].
    + etrans; [apply duplex_left, grown_write, Hw | apply duplex_right; now apply link_deliver].
  - destruct (local_step_inv _ _ _ _ _ _ _ Hp2 Hr (peer_room _ _ _ Hp1) (pi_wire _ _ _ Hp1) Hs) as (Hp2' & Hr' & Hle & Hw).
    split.
    + constructor; cbn; [eauto | done |]. eapply link_inv_mono; [apply grown_prefix, Hw | done].
    + etrans; [apply duplex_right, grown_write, Hw | apply duplex_left; now apply link_deliver].
Qed.

Lemma established_inv m1 m2 t :
  manager_inv m1 -> localControlPacketID m1 = 1 -> remoteSessionID m1 = Some (localSessionID m2) ->
  length (localSessionID m2) = 8%nat ->
  peer_inv (localSessionID m1) (localSessionID m2) (establishedEndpoint m1 t) /\
  link_inv [] (establishedEndpoint m1 t).
Proof.
  intros Hm Hc Hr Hl. split.
  - constructor; cbn; try done; try constructor; cbn; try done; try constructor; try lia.
  - constructor; cbn; [apply new_receiver_inv | apply Forall_nil_2 | unfold len; cbn; lia | done].
Qed.

Lemma initial_inv w : initial w -> world_inv w /\ abstraction w = (mkFifo [] [], mkFifo [] []).
Proof.
  intros (m1 & m2 & t1 & t2 & [H1 H2 F1 F2 R1 R2] & ->). split; [|done].
  destruct (established_inv m1 m2 t1) as [Hp1 Hl1]; [done..|apply H2|].
  destruct (established_inv m2 m1 t2) as [Hp2 Hl2]; [done..|apply H1|].
  constructor; cbn; [eauto | exact Hl2 | exact Hl1].
Qed.

Lemma run_inv P w0 w : initial w0 -> run P w0 w -> world_inv w /\ rtc duplex_step (mkFifo [] [], mkFifo [] []) (abstraction w).
Proof.
  intros Hi%initial_inv. destruct Hi as [Hinv Habs].
  induction 1 as [w|w1 w2 l w3 _ IH _ Hstep]; [rewrite Habs; split; [done | constructor]|].
  destruct (IH Hinv Habs) as [Hinv2 Hr]. destruct (world_step_refines _ _ _ Hinv2 Hstep) as [? ?].
  split; [done | etrans; [exact Hr | done]].
Qed.

(** C3: the control plane of two peers implements two reliable first-in
    first-out channels.  Whatever the network loses, duplicates and reorders,
    whichever packets without the session's identifiers third parties add,
    however the workers of the two stacks interleave, the timer of the hard
    reset included, and whatever the other users of the session managers do,
    every state that is reached without a crash abstracts to a state that the
    pair of channels can reach: the records given to one side's TLS layer are,
    in order and unchanged, an initial part of the records written by the other
    side. *)
Theorem two_peers_refine_fifo w0 w :
  initial w0 -> run anyStep w0 w ->
  rtc duplex_step (mkFifo [] [], mkFifo [] []) (abstraction w) /\
  delivered w.2 `prefix_of` written w.1 /\ delivered w.1 `prefix_of` written w.2.
Proof.
  intros Hi Hr. destruct (run_inv _ _ _ Hi Hr) as [[_ [_ _ _ ->] [_ _ _ ->]] Habs].
  split; [done|]. split; apply prefix_take.
Qed.

(** ** An executable scheduler

    A script chooses the next worker iteration, and for a delivery which
    packet of the other side's history arrives. *)
Inductive action : Type :=
  | AWrite (record : list byte)
  | ATick (now : Z)
  | ASeen (now : Z)
  | AReceive (n : nat).

Definition act (peerWire : list (list byte)) (a : action) (e : endpoint) : option (label * endpoint) :=
  match a with
  | AWrite record => match writeRecord record e with Ok e' => Some (LWrite, e') | _ => None end
  | ATick now => match tick now None e with Ok e' => Some (LTick, e') | _ => None end
  | ASeen now => match readSeen now e with Ok e' => Some (LSeen, e') | _ => None end
  | AReceive n =>
      if len (seenQueue e) <? incomingSeenCapacity then
        raw ← peerWire !! n;
        match receive raw e with Ok e' => Some (LReceive, e') | _ => None end
      else None
  end.

Definition perform (s : side) (a : action) (w : world) : option (label * world) :=
  match s with
  | Left => '(l, e) ← act (wire w.2) a w.1; Some (l, (e, w.2))
  | Right => '(l, e) ← act (wire w.1) a w.2; Some (l, (w.1, e))
  end.

Lemma act_sound pw a e l e' : act pw a e = Some (l, e') -> local_step pw e l e'.
Proof.
  destruct a as [r|now|now|n]; cbn.
  - destruct (writeRecord r e) eqn:E; intros [= <- <-]. econstructor; exact E.
  - destruct (tick now None e) eqn:E; intros [= <- <-]. econstructor; exact E.
  - destruct (readSeen now e) eqn:E; intros [= <- <-]. econstructor; exact E.
  - destruct (Z.ltb_spec (len (seenQueue e)) incomingSeenCapacity); [|done].
    destruct (pw !! n) as [raw|] eqn:En; [|done]. cbn. destruct (receive raw e) eqn:E; intros [= <- <-].
    econstructor; [exact (list_elem_of_lookup_2 _ _ _ En) | done | exact E].
Qed.

Lemma perform_sound s a w l w' : perform s a w = Some (l, w') -> world_step w (s, l) w'.
Proof.
  destruct w as [x y], s; cbn; destruct (act _ a _) as [[l0 e0]|] eqn:E; cbn; intros [= <- <-];
    [apply ws_left | apply ws_right]; exact (act_sound _ _ _ _ _ E).
Qed.

(** A script whose steps all satisfy [ok]. *)
Fixpoint runScript (ok : world -> side * label -> bool) (script : list (side * action)) (w : world) : option world :=
  match script with
  | [] => Some w
  | (s, a) :: script' =>
      '(l, w') ← perform s a w;
      if ok w (s, l) then runScript ok script' w' else None
  end.

Lemma run_trans P w1 w2 w3 : run P w1 w2 -> run P w2 w3 -> run P w1 w3.
Proof. intros H1 H2. induction H2 as [|w2 w3 l w4 _ IH HP Hs]; [done|].
  eapply run_step; [exact (IH H1) | exact HP | exact Hs].
Qed.

Lemma runScript_sound ok script w w' :
  runScript ok script w = Some w' -> run (fun w l => ok w l = true) w w'.
Proof.
  revert w. induction script as [|[s a] script IH]; intros w; cbn; [intros [= <-]; constructor|].
  destruct (perform s a w) as [[l w1]|] eqn:E; [|done]. cbn. destruct (ok w (s, l)) eqn:Eok; [|done].
  intros H%IH. eapply run_trans; [|exact H]. econstructor; [constructor | exact Eok | now apply perform_sound in E].
Qed.

Lemma run_impl (P Q : world -> side * label -> Prop) w w' :
  (forall w l, P w l -> Q w l) -> run P w w' -> run Q w w'.
Proof. intros HPQ. induction 1; [apply run_refl | eapply run_step; eauto]. Qed.

(** Two peers for the witnesses. *)
Definition sessionB : list byte := replicate 8 Byte.x05.
Definition mgrA : Manager := set_remoteSessionID (Some sessionB) (set_negState S_START sampleManager).
Definition mgrB : Manager :=
  set_localSessionID sessionB
    (set_remoteSessionID (Some (localSessionID sampleManager)) (set_negState S_START sampleManager)).
Definition sampleWorld : world := (establishedEndpoint mgrA Minute, establishedEndpoint mgrB Minute).

Lemma sampleWorld_initial : initial sampleWorld.
Proof.
  exists mgrA, mgrB, Minute, Minute. split; [|done].
  destruct sampleManager_inv. constructor; try done; constructor; done.
Qed.

(** Two records, transmitted together; the second arrives first, twice. *)
Definition sampleScript : list (side * action) :=
  [(Left, AWrite [z2b 1; z2b 2]); (Left, AWrite [z2b 3]); (Left, ATick Minute);
   (Right, AReceive 1); (Right, AReceive 1); (Right, AReceive 0);
   (Right, ASeen Minute); (Right, AWrite [z2b 9]); (Right, ATick Minute); (Left, AReceive 0)].

Lemma two_peers_refine_fifo_witness :
  exists w, run anyStep sampleWorld w /\ delivered w.2 = [[z2b 1; z2b 2]; [z2b 3]] /\
    delivered w.1 = [[z2b 9]] /\
    rtc duplex_step (mkFifo [] [], mkFifo [] []) (abstraction w).
Proof.
  destruct (runScript (fun _ _ => true) sampleScript sampleWorld) as [w|] eqn:E; [|vm_compute in E; discriminate E].
  exists w. assert (run anyStep sampleWorld w) as Hrun
    by (eapply run_impl; [|exact (runScript_sound _ _ _ _ E)]; done).
  split; [exact Hrun|].
  split; [vm_compute in E; injection E as <-; reflexivity|].
  split; [vm_compute in E; injection E as <-; reflexivity|].
  apply (two_peers_refine_fifo sampleWorld w sampleWorld_initial Hrun).
Defined.

(** ** A record dropped by the sender *)

(** The record numbered [i] of the left peer is nowhere: not in flight, not
    on the network, not in the other side's queue, and not delivered. *)
Record gap (i : Z) (a b : endpoint) : Prop := {
  gap_flight : i ∉ map inflight_key (inFlightOf a);
  gap_wire : Forall (fun raw => forall q, ParsePacket raw = Ok q -> Opcode q = P_CONTROL_V1 -> ID q <> i) (wire a);
  gap_queue : Forall (fun p => ID p <> i) (incomingPackets (rcv b));
  gap_last : lastConsumed (rcv b) < i;
  gap_next : i < localControlPacketID (mgr a)
}.

Lemma parses_of_Forall2 raws qs (P : Packet -> Prop) :
  Forall2 (fun raw q => ParsePacket raw = Ok q) raws qs -> Forall P qs ->
  Forall (fun raw => forall q, ParsePacket raw = Ok q -> P q) raws.
Proof.
  induction 1 as [|raw q raws qs Hq _ IH]; intros HP; constructor.
  - intros q' Hq'. apply Forall_cons in HP as [HP _]. congruence.
  - apply Forall_cons in HP as [_ HP]. auto.
Qed.

(** A received packet touches nothing of the sender. *)
Lemma up_step_sender loc rem W pw e l e' :
  peer_inv loc rem e -> link_inv W e -> Forall (wireFrom rem loc W) pw -> local_step pw e l e' ->
  l = LReceive \/ l = LForeign \/ l = LSession ->
  sndr e' = sndr e /\ wire e' = wire e /\ written e' = written e /\
  localControlPacketID (mgr e') = localControlPacketID (mgr e).
Proof.
  intros Hp Hli Hpw Hstep Hl. pose proof (peer_session _ _ _ Hp) as Hst.
  destruct Hstep as [record e' H|now budget e' H|now e' H|raw e' Hraw _ H|raw e' Hf H|op Hop|ev e' Hev H];
    try (now destruct Hl as [|[|]]).
  - rewrite Forall_forall in Hpw. specialize (Hpw raw Hraw). rewrite <- (pi_local _ _ _ Hp) in Hpw.
    destruct (receive_peer rem W e raw e' Hst) as (p & r & seen & out & _ & _ & _ & ->); try done.
    eapply Forall_impl; [exact (li_queue _ _ Hli)|]. intros q [? _]. done.
  - now rewrite (receive_foreign raw e e' Hst Hf H).
  - cbn. repeat split. apply session_exec_established; try done; apply Hp.
Qed.

Lemma gap_sender loc rem W pw i a l a' b :
  peer_inv loc rem a -> link_inv W a -> Forall (wireFrom rem loc W) pw -> local_step pw a l a' ->
  gap i a b -> gap i a' b.
Proof.
  intros Hp Hli Hpw Hstep Hgap. pose proof (up_step_sender _ _ _ _ _ _ _ Hp Hli Hpw Hstep) as Hup.
  destruct Hgap as [G1 G2 G3 G4 G5].
  assert (l = LReceive \/ l = LForeign \/ l = LSession -> gap i a' b) as Hup'.
  { intros Hl. destruct (Hup Hl) as (E1 & E2 & _ & E4). constructor; unfold inFlightOf; rewrite ?E1, ?E2, ?E4; done. }
  destruct Hstep as [record a' H|now budget a' H|now a' H|raw a' Hraw _ H|raw a' Hf H|op Hop|ev a' Hev H]; auto.
  - pose proof (write_inv _ _ _ _ _ Hp H) as (Hp' & _ & _ & Hw & Hwr).
    assert (i < localControlPacketID (mgr a')) as G5'.
    { rewrite (pi_count _ _ _ Hp'), Hwr, len_app, len_cons, len_nil. rewrite (pi_count _ _ _ Hp) in G5. lia. }
    constructor; rewrite ?Hw; try done. clear Hup' Hup. intros Hin.
    unfold writeRecord in H. destruct (Control_down_spec (mgr a) record (pi_mgr _ _ _ Hp)) as [[E _]|(rs & _ & _ & E)];
      [rewrite (pi_remote _ _ _ Hp); done|rewrite E in H; done|rewrite E in H]. clear E.
    apply G1. unfold inFlightOf in *. destruct (sndr a) as [r tk]. cbn [moveDownWorker_step] in H.
    unfold TryInsertOutgoingPacket in H. destruct (_ <=? len (inFlight r)); cbn in H; injection H as <-; cbn in Hin |- *; [done|].
    rewrite map_app in Hin. apply elem_of_app in Hin as [?|Hin]; [done|].
    apply list_elem_of_singleton in Hin. cbn in Hin. lia.
  - destruct (tick_spec _ _ _ _ _ _ (fun _ => True) (fun j => j <> i) Hp ltac:(done)
      ltac:(intros j Hj ->; done) H) as (_ & _ & _ & _ & _ & Hmux & _ & Hk & ps & Hw & _ & E2 & E3).
    constructor; rewrite ?Hk, ?Hw; try done; [|unfold mgr in *; now rewrite Hmux].
    apply Forall_app. split; [done|]. eapply parses_of_Forall2; [exact E2|].
    eapply Forall_impl; [exact E3|]. intros q (_ & _ & HQ). exact HQ.
  - destruct (readSeen_spec _ _ _ _ _ Hp H) as (s & _ & Hp' & _ & _ & _ & Hw & Hmux & _ & _ & Hsub).
    constructor; rewrite ?Hw; try done; [auto | unfold mgr in *; now rewrite Hmux].
  - destruct (timer_spec _ _ _ _ _ Hp Hev H) as (_ & Hs & _ & _ & _ & _ & Hc & raws & Hw & Hraws).
    constructor; unfold inFlightOf; rewrite ?Hs, ?Hw, ?Hc; try done. apply Forall_app. split; [done|].
    eapply Forall_impl; [exact Hraws|]. intros raw (q & Hq & Q1 & _) q' Hq' Hop. rewrite Hq in Hq'. injection Hq' as <-.
    by rewrite Q1 in Hop.
Qed.

(** A worker of the receiving side does not reach past the gap. *)
Lemma gap_receiver loc rem i a b l b' :
  peer_inv loc rem b -> link_inv (written a) b -> peer_inv rem loc a ->
  local_step (wire a) b l b' -> gap i a b -> gap i a b'.
Proof.
  intros Hp Hli Ha Hstep [G1 G2 G3 G4 G5]. pose proof (peer_session _ _ _ Hp) as Hst.
  assert (rcv b' = rcv b -> gap i a b') as Hsame by (intros E; constructor; rewrite ?E; done).
  destruct Hstep as [record b' H|now budget b' H|now b' H|raw b' Hraw _ H|raw b' Hf H|op Hop|ev b' Hev H].
  - apply Hsame. now destruct (write_inv _ _ _ _ _ Hp H) as (_ & ? & _).
  - apply Hsame. now destruct (tick_spec _ _ _ _ _ _ (fun _ => True) (fun _ => True) Hp ltac:(done) ltac:(done) H) as (_ & ? & _).
  - apply Hsame. now destruct (readSeen_spec _ _ _ _ _ Hp H) as (s & _ & _ & ? & _).
  - pose proof (pi_wire _ _ _ Ha) as Hw. pose proof G2 as Gw. rewrite Forall_forall in Hw, G2.
    specialize (Hw raw Hraw). specialize (G2 raw Hraw). rewrite <- (pi_local _ _ _ Hp) in Hw.
    destruct (receive_peer rem (written a) b raw b' Hst) as (p & r & seen & out & Hparse & [Hk _ _] & E & ->); try done.
    { eapply Forall_impl; [exact (li_queue _ _ Hli)|]. intros q [? _]. done. }
    specialize (G2 p Hparse). destruct Hk as [Hc|Hack].
    + pose proof (carries_ID _ _ Hc). pose proof (peer_room _ _ _ Ha). destruct Hc as [Hop _]. specialize (G2 Hop).
      pose proof Hli as [Hri _ Hlast _]. rewrite Forall_forall in G3.
      apply moveUpWorker_step_spec in E as (_ & H2 & H3 & _ & H5 & H6);
        [|done|unfold is_u32, MaxUint32 in *; lia|lia].
      constructor; cbn; try done.
      * apply Forall_forall. intros q Hq. destruct (H6 q Hq) as [->|?]; auto.
      * destruct (Z.lt_ge_cases (lastConsumed r) i) as [|Hge]; [done|exfalso].
        assert (i ∈ map ID out) as (q & -> & Hq)%list_elem_of_fmap by (rewrite H2; apply elem_of_seqZ; lia).
        rewrite Forall_forall in H5. destruct (H5 q Hq) as [->|Hq']; [done | now apply (G3 q)].
    + apply moveUpWorker_step_cases in E as [(_ & -> & ->)|(Hacc & _)]; [now apply Hsame|].
      unfold accepts in Hacc. rewrite (unnumbered_not_V1 _ Hack) in Hacc. by rewrite andb_false_r in Hacc.
  - apply Hsame. now rewrite (receive_foreign raw b b' Hst Hf H).
  - now apply Hsame.
  - apply Hsame. now destruct (timer_spec _ _ _ _ _ Hp Hev H) as (_ & _ & ? & _).
Qed.

Lemma gap_run P i w w' : world_inv w -> run P w w' -> gap i w.1 w.2 -> world_inv w' /\ gap i w'.1 w'.2.
Proof.
  intros Hinv Hr. revert Hinv. induction Hr as [w|w1 w2 l w3 _ IH _ Hstep]; intros Hinv Hgap; [done|].
  destruct (IH Hinv Hgap) as [Hinv2 Hgap2]. split; [exact (proj1 (world_step_refines _ _ _ Hinv2 Hstep))|].
  destruct Hinv2 as [(s1 & s2 & Hp1 & Hp2) Hri Hle].
  destruct Hstep as [a b l a' Hs|a b l b' Hs]; cbn [fst snd] in *.
  - eapply (gap_sender s1 s2 (written b)); [done|done|apply Hp2|exact Hs|done].
  - eapply (gap_receiver s2 s1); [done|done|done|exact Hs|done].
Qed.

(** C34: a record that TLS writes while six packets are in flight is lost for
    good, and with it everything after it.  The packet is numbered and then
    dropped ([TryInsertOutgoingPacket] returns false and nothing retries), so
    whatever happens afterwards the other side never delivers a record beyond
    those written before it. *)
Theorem dropped_record_stalls w0 a b record a' w :
  initial w0 -> run anyStep w0 (a, b) ->
  RELIABLE_SEND_BUFFER_SIZE <= len (inFlightOf a) -> writeRecord record a = Ok a' ->
  run anyStep (a', b) w ->
  len (delivered w.2) <= len (written a) < len (written w.1).
Proof.
  intros Hi Hr Hfull Hwrite Hrun. destruct (run_inv _ _ _ Hi Hr) as [Hinv _].
  pose proof Hinv as [(s1 & s2 & Hp1 & Hp2) Hri Hle]. cbn [fst snd] in *.
  assert (world_inv (a', b)) as Hinv'
    by (eapply (world_step_refines _ (Left, LWrite)); [exact Hinv | constructor; econstructor; exact Hwrite]).
  assert (gap (len (written a) + 1) a' b) as Hgap.
  { pose proof (write_inv _ _ _ _ _ Hp1 Hwrite) as (Hp' & _ & _ & Hw & Hwr).
    pose proof (pi_sender _ _ _ Hp1) as [_ Hlt _ _]. pose proof (pi_count _ _ _ Hp1) as Hc.
    constructor.
    - assert (inFlightOf a' = inFlightOf a) as ->.
      { unfold writeRecord in Hwrite.
        destruct (Control_down_spec (mgr a) record (pi_mgr _ _ _ Hp1)) as [[E _]|(rs & _ & _ & E)];
          [rewrite (pi_remote _ _ _ Hp1); done|rewrite E in Hwrite; done|rewrite E in Hwrite].
        unfold inFlightOf in *. destruct (sndr a) as [r tk]. cbn [moveDownWorker_step fst] in *.
        unfold TryInsertOutgoingPacket in Hwrite.
        destruct (Z.leb_spec RELIABLE_SEND_BUFFER_SIZE (len (inFlight r))); [|lia]. cbn in Hwrite. now injection Hwrite as <-. }
      intros (f & Hf & Hin)%list_elem_of_fmap. unfold inFlightOf in Hin. rewrite Forall_forall in Hlt.
      specialize (Hlt f Hin). unfold inflight_key in Hf. cbn in Hlt. lia.
    - rewrite Hw. eapply Forall_impl; [exact (pi_wire _ _ _ Hp1)|].
      intros raw (q & Hq & [[Hcar|Hack] _ _]) q' Hq' Hop; rewrite Hq in Hq'; injection Hq' as <-.
      + apply carries_ID in Hcar. lia.
      + apply unnumbered_not_V1, Z.eqb_neq in Hack. done.
    - eapply Forall_impl; [exact (li_queue _ _ Hri)|]. intros q Hcar%carries_ID. lia.
    - pose proof (li_last _ _ Hri). lia.
    - rewrite (pi_count _ _ _ Hp'), Hwr, len_app, len_cons, len_nil. lia. }
  destruct (gap_run _ _ _ _ Hinv' Hrun Hgap) as [[(t1 & t2 & Q1 & Q2) Hri2 _] [_ _ _ G4 G5]].
  rewrite (pi_count _ _ _ Q1) in G5. destruct Hri2 as [[_ Hl0 _ _] _ Hl ->].
  unfold len in *. rewrite length_take_le; lia.
Qed.

(** Seven records written before the first transmission. *)
Definition burst : list (side * action) :=
  map (fun i => (Left, AWrite [z2b i])) (seqZ 1 6).

Lemma dropped_record_stalls_witness :
  exists a b a' w, run anyStep sampleWorld (a, b) /\ writeRecord [z2b 7] a = Ok a' /\ run anyStep (a', b) w /\
    delivered w.2 = map (fun i => [z2b i]) (seqZ 1 6) /\ length (written w.1) = 8%nat /\
    len (delivered w.2) <= len (written a) < len (written w.1).
Proof.
  destruct (runScript (fun _ _ => true) burst sampleWorld) as [[a b]|] eqn:E1; [|vm_compute in E1; discriminate E1].
  destruct (writeRecord [z2b 7] a) as [a'| |] eqn:Ew; [|vm_compute in E1; injection E1 as <- <-; vm_compute in Ew; discriminate Ew..].
  destruct (runScript (fun _ _ => true)
    ([(Left, ATick Minute)] ++ map (fun n => (Right, AReceive n)) (seq 0 6) ++
     [(Right, ASeen Minute); (Right, ASeen Minute); (Right, ATick Minute); (Left, AReceive 0); (Left, ASeen Minute);
      (Left, AWrite [z2b 8]); (Left, ATick (10 * Minute)); (Right, AReceive 6)]) (a', b)) as [w|] eqn:E2;
    [|vm_compute in E1; injection E1 as <- <-; vm_compute in Ew; injection Ew as <-; vm_compute in E2; discriminate E2].
  assert (run anyStep sampleWorld (a, b)) as R1 by (eapply run_impl; [|exact (runScript_sound _ _ _ _ E1)]; done).
  assert (run anyStep (a', b) w) as R2 by (eapply run_impl; [|exact (runScript_sound _ _ _ _ E2)]; done).
  exists a, b, a', w. split; [done|]. split; [done|]. split; [done|].
  split; [|split].
  3:{ apply (dropped_record_stalls sampleWorld a b [z2b 7] a' w sampleWorld_initial R1); [|exact Ew|exact R2].
      vm_compute in E1. injection E1 as <- <-. vm_compute. congruence. }
  all: vm_compute in E1; injection E1 as <- <-; vm_compute in Ew; injection Ew as <-;
    vm_compute in E2; injection E2 as <-; reflexivity.
Defined.

(** ** A forged record *)

(** The packet with the next number is delivered at once. *)
Lemma next_delivered m r p r' seen out :
  receiver_inv r -> lastConsumed r < MaxUint32 -> accepts m p = true -> hasRoom r = true -> ID p = lastConsumed r + 1 ->
  moveUpWorker_step m None r p = (r', seen, out) -> exists rest, out = p :: rest.
Proof.
  intros [Hu Hl Hg _] Hmax Hacc Hroom Hid E.
  apply moveUpWorker_step_cases in E as [(Hrej & _)|(_ & _ & E)]; [by rewrite Hacc, Hroom in Hrej|].
  assert (Forall (fun q => is_u32 (ID q)) (incomingPackets r ++ [p])) as Hall.
  { apply Forall_app. split; [exact Hu|]. constructor; [unfold is_u32, MaxUint32 in *; lia | apply Forall_nil_2]. }
  destruct (NextIncomingSequence_spec (mkReliableReceiver (incomingPackets r ++ [p]) (lastConsumed r)) _ _ Hall
    ltac:(cbn; lia) E) as (Hseq & Hlast & Hsub & Hperm & Hgap & _).
  cbn [incomingPackets lastConsumed] in *. destruct out as [|q rest].
  - exfalso. rewrite len_nil in Hlast. rewrite Forall_forall in Hgap. specialize (Hgap p). rewrite Hperm in Hgap.
    enough (lastConsumed r' + 1 < ID p) by lia. apply Hgap, list_elem_of_In, filter_In.
    split; [apply in_app_iff; right; by left | apply Z.ltb_lt; lia].
  - exists rest. f_equal. pose proof (len_nonneg rest). rewrite len_cons, seqZ_cons in Hseq by lia. injection Hseq as Hq _.
    specialize (Hsub q ltac:(left)). apply elem_of_app in Hsub as [Hin|Hin%list_elem_of_singleton]; [|done].
    rewrite Forall_forall in Hg. specialize (Hg q Hin). cbn in Hg. lia.
Qed.

(** A control packet that anyone can write who has seen a packet of the
    session [sid]: no acknowledgements, hence no second identifier. *)
Definition forgedPacket (sid : list byte) (i : Z) (record : list byte) : Packet :=
  mkPacket P_CONTROL_V1 0 zeroPeerID sid [] zeroSessionID i record.

(** C28: below TLS the control channel is not authenticated.  In every state
    that two peers can reach, whoever knows the session identifier of one of
    them, which is in clear in each of its packets, can make the other one's
    TLS layer be given any bytes as the next record, as long as the reordering
    queue has room: the sanity checks of the receiver look at nothing else. *)
Theorem forged_record_delivered w0 a b record :
  initial w0 -> run anyStep w0 (a, b) -> hasRoom (rcv b) = true ->
  exists raw b', Packet_Bytes (forgedPacket (localSessionID (mgr a)) (lastConsumed (rcv b) + 1) record) = Ok raw /\
    receive raw b = Ok b' /\ (delivered b ++ [record]) `prefix_of` delivered b'.
Proof.
  intros Hi Hr Hroom. destruct (run_inv _ _ _ Hi Hr) as [[(s1 & s2 & Hp1 & Hp2) Hli _] _]. cbn [fst snd] in *.
  set (p := forgedPacket _ _ _). pose proof (peer_room _ _ _ Hp1) as Hmax. pose proof (li_last _ _ Hli) as Hl.
  pose proof (ri_last _ (li_recv _ _ Hli)) as Hl0.
  assert (canonical p) as Hcan.
  { constructor; cbn; try done; [apply (inv_local _ (pi_mgr _ _ _ Hp1)) | unfold is_u32, MaxUint32 in *; lia]. }
  destruct (canonical_roundtrip _ Hcan) as (raw & Hraw & Hparse). exists raw.
  destruct (handleRawPacket_established (mux b) raw p (peer_session _ _ _ Hp2) Hparse eq_refl) as [E|[E _]]; [|done].
  eexists. split; [exact Hraw|]. unfold receive. rewrite E. split; [reflexivity|]. cbn [map concat reliableOf app fold_left].
  assert (Forall (fun q => Opcode q = P_CONTROL_V1) (incomingPackets (rcv b))) as Hq
    by (eapply Forall_impl; [exact (li_queue _ _ Hli)|]; intros q [? _]; done).
  match goal with |- context [passUp ?e0 p] => destruct (passUp_spec e0 p Hq) as (r & seen & out & Es & ->) end.
  eapply next_delivered in Es as [rest ->]; [|exact (li_recv _ _ Hli)|cbn; lia| |exact Hroom|done].
  - cbn. exists (map Payload rest). by rewrite <- app_assoc.
  - unfold accepts. rewrite andb_true_r. unfold incomingSanityChecks, bytes_equal, GetRemoteSessionID.
    change (mgr (mkEndpoint (mux b) _ _ _ _ _ _)) with (mgr b). rewrite (pi_remote _ _ _ Hp2). cbn.
    by rewrite (pi_local _ _ _ Hp1), bool_decide_true.
Qed.

Lemma forged_record_delivered_witness :
  exists raw b', Packet_Bytes (forgedPacket (localSessionID (mgr sampleWorld.1)) 1 (bytes_of_string "forged")) = Ok raw /\
    receive raw sampleWorld.2 = Ok b' /\ delivered b' = [bytes_of_string "forged"].
Proof.
  destruct (forged_record_delivered sampleWorld sampleWorld.1 sampleWorld.2 (bytes_of_string "forged")
    sampleWorld_initial (run_refl _ _) eq_refl) as (raw & b' & H1 & H2 & _).
  exists raw, b'. split; [exact H1|]. split; [exact H2|].
  vm_compute in H1. injection H1 as <-. vm_compute in H2. injection H2 as <-. reflexivity.
Defined.
