(* ===== verification/Delivery.v ===== *)
(** * Two peers: when records arrive

    The liveness side of [EndToEnd].  In the runs in which no packet is
    dropped for lack of room (neither at [TryInsertOutgoingPacket] nor at
    [MaybeInsertIncoming]), an acknowledgement is only ever sent for a packet
    that the receiver keeps, so every record is in flight or received; one
    transmission that gets through then delivers everything.  Where a queue
    does overflow, nothing more is delivered. *)

From S2P Require Import Prelude Packet Session Sender Receiver ControlChannel EndToEnd.

(** The receiver has the packet numbered [i]: consumed or queued. *)
Definition received (e : endpoint) (i : Z) : Prop :=
  i <= lastConsumed (rcv e) \/ i ∈ map ID (incomingPackets (rcv e)).

(** No packet is dropped for lack of room. *)
Definition lossless (w : world) (sl : side * label) : bool :=
  let e := match sl.1 with Left => w.1 | Right => w.2 end in
  match sl.2 with
  | LWrite => len (inFlightOf e) <? RELIABLE_SEND_BUFFER_SIZE
  | LReceive => hasRoom (rcv e)
  | _ => true
  end.

(** Acknowledgements of [b], wherever they are on their way to [a], are for
    packets [b] has; the records of [a] are in flight or received. *)
Record ack_inv (a b : endpoint) : Prop := {
  ak_pending : forall i, i ∈ pendingOf b -> received b i;
  ak_seen : Forall (fun s => forall i, seen_id s = Some i -> received b i) (seenQueue b);
  ak_wire : Forall (fun raw => forall q, ParsePacket raw = Ok q -> forall i, i ∈ ACKs q -> received b i) (wire b);
  ak_acks : Forall (fun s => forall i, i ∈ default [] (seen_acks s) -> received b i) (seenQueue a);
  ak_cover : forall i, 1 <= i <= len (written a) -> i ∈ map inflight_key (inFlightOf a) \/ received b i
}.

Lemma write_room loc rem record e e' :
  peer_inv loc rem e -> len (inFlightOf e) < RELIABLE_SEND_BUFFER_SIZE -> writeRecord record e = Ok e' ->
  map inflight_key (inFlightOf e') = map inflight_key (inFlightOf e) ++ [len (written e) + 1] /\
  seenQueue e' = seenQueue e /\ pendingOf e' = pendingOf e.
Proof.
  intros Hp Hroom H. unfold writeRecord in H.
  destruct (Control_down_spec (mgr e) record (pi_mgr _ _ _ Hp)) as [[E _]|(rs & _ & _ & E)];
    [rewrite (pi_remote _ _ _ Hp); done|rewrite E in H; done|rewrite E in H].
  unfold inFlightOf, pendingOf in *. destruct (sndr e) as [r tk]. cbn [moveDownWorker_step fst] in *.
  unfold TryInsertOutgoingPacket in H.
  destruct (Z.leb_spec RELIABLE_SEND_BUFFER_SIZE (len (inFlight r))); [lia|]. cbn in H. injection H as <-. cbn.
  rewrite map_app. cbn. change (inflight_key (newInFlightPacket _)) with (localControlPacketID (mgr e)).
  now rewrite (pi_count _ _ _ Hp).
Qed.

(** What the worker reports about a packet. *)
Lemma moveUpWorker_seen m r p r' seen out :
  moveUpWorker_step m None r p = (r', seen, out) ->
  seen = if incomingSanityChecks m p then Some (newIncomingPacketSeen p) else None.
Proof.
  unfold moveUpWorker_step. destruct (incomingSanityChecks m p); cbn [negb]; [|congruence].
  destruct (negb (_ =? _)); [congruence|]. destruct (MaybeInsertIncoming r p) as [ins r0].
  destruct (negb ins); [congruence|]. destruct (NextIncomingSequence r0). congruence.
Qed.

(** Receiving keeps what was received, and a control packet that passes the
    checks is received when there is room. *)
Lemma receive_received W e p r seen out :
  link_inv W e -> len W < MaxUint32 -> carries W p \/ unnumbered p ->
  moveUpWorker_step (mgr e) None (rcv e) p = (r, seen, out) ->
  let e' := mkEndpoint (mux e) (sndr e) r (seenQueue e ++ option_list seen) (wire e) (written e)
              (delivered e ++ map Payload out) in
  (forall i, received e i -> received e' i) /\
  (hasRoom (rcv e) = true -> incomingSanityChecks (mgr e) p = true -> carries W p -> received e' (ID p)) /\
  len (incomingPackets r) <= len (incomingPackets (rcv e)) + 1.
Proof.
  intros Hli HW Hk E e'. pose proof E as E0. pose proof Hli as [Hri Hq Hl _]. pose proof Hri as [_ Hl0 _ _].
  apply moveUpWorker_step_cases in E as [(Hrej & -> & ->)|(Hacc & Hroom & E)].
  - split; [done|]. split; [|unfold e'; lia]. intros Hr Hs [Hop _]. unfold accepts in Hrej.
    rewrite Hs, Hop, Hr in Hrej. done.
  - assert (carries W p) as Hc.
    { destruct Hk as [?|Hack]; [done|]. unfold accepts in Hacc.
      by rewrite (unnumbered_not_V1 _ Hack), andb_false_r in Hacc. }
    pose proof (carries_ID _ _ Hc) as HID.
    assert (is_u32 (ID p)) as Hu by (unfold is_u32, MaxUint32 in *; lia).
    pose proof (moveUpWorker_step_spec _ _ _ _ _ _ Hri Hu ltac:(lia) E0) as (_ & _ & Hlast & Hlen & _ & _).
    pose proof (len_nonneg out).
    assert (forall q, q ∈ incomingPackets (rcv e) ++ [p] -> received e' (ID q)) as Hin.
    { intros q Hqin. unfold received. cbn.
      assert (Forall (fun x => is_u32 (ID x)) (incomingPackets (rcv e) ++ [p])) as Hall.
      { apply Forall_app. split; [apply Hri | constructor; [done | apply Forall_nil_2]]. }
      destruct (NextIncomingSequence_spec (mkReliableReceiver (incomingPackets (rcv e) ++ [p]) (lastConsumed (rcv e)))
        _ _ Hall ltac:(cbn; lia) E) as (_ & _ & _ & Hperm & _ & _).
      destruct (Z.ltb_spec (lastConsumed r) (ID q)); [right|left; lia].
      apply list_elem_of_fmap. exists q. split; [done|]. rewrite Hperm. cbn [incomingPackets].
      apply list_elem_of_In, filter_In. split; [now apply list_elem_of_In | now apply Z.ltb_lt]. }
    split; [|split; [intros _ _ _; apply Hin; set_solver | lia]].
    intros i [Hle|(q & -> & Hqin)%list_elem_of_fmap]; [left; cbn; lia | apply Hin; set_solver].
Qed.

(** The sending side of the invariant under a step of the sender. *)
Lemma ack_inv_sender loc rem a l a' b :
  peer_inv loc rem a -> peer_inv rem loc b -> link_inv (written b) a -> local_step (wire b) a l a' ->
  (l = LWrite -> len (inFlightOf a) < RELIABLE_SEND_BUFFER_SIZE) -> ack_inv a b -> ack_inv a' b.
Proof.
  intros Hp Hb Hli Hstep Hroom [A1 A2 A3 A4 A5]. pose proof (peer_session _ _ _ Hp) as Hst.
  destruct Hstep as [record a' H|now budget a' H|now a' H|raw a' Hraw _ H|raw a' Hf H|op Hop|ev a' Hev H].
  - destruct (write_room _ _ _ _ _ Hp (Hroom eq_refl) H) as (E1 & E2 & _).
    pose proof (write_inv _ _ _ _ _ Hp H) as (_ & _ & _ & _ & E3).
    constructor; rewrite ?E2; try done. rewrite E1, E3, len_app, len_cons, len_nil. intros i Hi.
    destruct (Z.eq_dec i (len (written a) + 1)) as [->|]; [left; set_solver|].
    destruct (A5 i ltac:(lia)); [left; set_solver | now right].
  - destruct (tick_spec _ _ _ _ _ _ (fun _ => True) (fun _ => True) Hp ltac:(done) ltac:(done) H)
      as (_ & _ & _ & E1 & E2 & _ & _ & E3 & _). constructor; rewrite ?E1, ?E2, ?E3; done.
  - destruct (readSeen_spec _ _ _ _ _ Hp H) as (s & E0 & _ & _ & _ & E1 & _ & _ & E2 & _).
    rewrite E0 in A4. apply Forall_cons in A4 as [A4 A4']. constructor; rewrite ?E1; try done.
    intros i Hi. destruct (A5 i Hi) as [Hin|?]; [|auto]. destruct (E2 i Hin); auto.
  - pose proof (pi_wire _ _ _ Hb) as Hw. rewrite Forall_forall in Hw. specialize (Hw raw Hraw).
    rewrite <- (pi_local _ _ _ Hp) in Hw.
    destruct (receive_peer rem (written b) a raw a' Hst) as (p & r & seen & out & Hparse & _ & E & ->); try done.
    { eapply Forall_impl; [exact (li_queue _ _ Hli)|]. intros q [? _]. done. }
    apply moveUpWorker_seen in E as ->. constructor; cbn; try done. apply Forall_app. split; [done|].
    destruct (incomingSanityChecks (mgr a) p); constructor; [|constructor].
    intros i Hi. rewrite Forall_forall in A3. apply (A3 raw Hraw p Hparse).
    unfold newIncomingPacketSeen in Hi. now destruct (_ =? _).
  - now rewrite (receive_foreign raw a a' Hst Hf H).
  - constructor; done.
  - destruct (timer_spec _ _ _ _ _ Hp Hev H) as (_ & Es & _ & Eq & Ew & _). unfold inFlightOf in *.
    constructor; unfold inFlightOf; rewrite ?Es, ?Eq, ?Ew; done.
Qed.

(** And under a step of the receiver. *)
Lemma ack_inv_receiver loc rem a b l b' :
  peer_inv loc rem b -> peer_inv rem loc a -> link_inv (written a) b -> local_step (wire a) b l b' ->
  (l = LReceive -> hasRoom (rcv b) = true) -> ack_inv a b -> ack_inv a b'.
Proof.
  intros Hp Ha Hli Hstep Hroom [A1 A2 A3 A4 A5]. pose proof (peer_session _ _ _ Hp) as Hst.
  assert (forall e', rcv e' = rcv b -> forall i, received b i -> received e' i) as Hsame
    by (intros e' E i; unfold received; now rewrite E).
  destruct Hstep as [record b' H|now budget b' H|now b' H|raw b' Hraw _ H|raw b' Hf H|op Hop|ev b' Hev H].
  - pose proof (write_inv _ _ _ _ _ Hp H) as (_ & Er & _ & Ew & _).
    assert (seenQueue b' = seenQueue b /\ pendingOf b' = pendingOf b) as [Es Ep].
    { unfold writeRecord in H. destruct (Control_down_spec (mgr b) record (pi_mgr _ _ _ Hp)) as [[E _]|(rs & _ & _ & E)];
        [rewrite (pi_remote _ _ _ Hp); done|rewrite E in H; done|rewrite E in H].
      unfold pendingOf. destruct (sndr b) as [r tk]. cbn [moveDownWorker_step] in H. unfold TryInsertOutgoingPacket in H.
      destruct (_ <=? len (inFlight r)); cbn in H; injection H as <-; done. }
    constructor; unfold received in *; rewrite ?Er, ?Ew, ?Es, ?Ep; done.
  - destruct (tick_spec _ _ _ _ _ _ (received b) (fun _ => True) Hp A1 ltac:(done) H)
      as (_ & Er & _ & _ & Es & _ & Ep & _ & ps & Ew & _ & E2 & E3).
    constructor; unfold received in *; rewrite ?Er, ?Es; try done.
    + intros i Hi. apply A1. set_solver.
    + rewrite Ew. apply Forall_app. split; [done|]. eapply parses_of_Forall2; [exact E2|].
      eapply Forall_impl; [exact E3|]. intros q (_ & HA & _). exact HA.
  - destruct (readSeen_spec _ _ _ _ _ Hp H) as (s & E0 & _ & Er & _ & _ & Ew & _ & _ & E2 & _).
    rewrite E0 in A2. apply Forall_cons in A2 as [A2 A2'].
    constructor; unfold received in *; rewrite ?Er, ?Ew; try done.
    intros i Hi. destruct (E2 i Hi); auto.
  - pose proof (pi_wire _ _ _ Ha) as Hw. rewrite Forall_forall in Hw. specialize (Hw raw Hraw).
    rewrite <- (pi_local _ _ _ Hp) in Hw.
    destruct (receive_peer rem (written a) b raw b' Hst) as (p & r & seen & out & Hparse & [Hk _ _] & E & ->); try done.
    { eapply Forall_impl; [exact (li_queue _ _ Hli)|]. intros q [? _]. done. }
    destruct (receive_received _ _ _ _ _ _ Hli (peer_room _ _ _ Ha) Hk E) as (Hmono & Hnew & _).
    specialize (Hnew (Hroom eq_refl)). apply moveUpWorker_seen in E. constructor.
    + intros i Hi. apply Hmono, A1, Hi.
    + cbn [seenQueue]. apply Forall_app. split.
      * eapply Forall_impl; [exact A2|]. cbn. intros s Hs i Hi. apply Hmono; auto.
      * subst seen. destruct (incomingSanityChecks (mgr b) p) eqn:Es; constructor; [|constructor].
        intros i Hi. unfold newIncomingPacketSeen in Hi. destruct (Z.eqb_spec (Opcode p) P_ACK_V1); [done|].
        injection Hi as <-. destruct Hk as [Hc|[?|[_ ->]]]; [now apply Hnew|done|]. apply Hmono. left. apply (ri_last _ (li_recv _ _ Hli)).
    + eapply Forall_impl; [exact A3|]. cbn. eauto.
    + eapply Forall_impl; [exact A4|]. cbn. eauto.
    + intros i Hi. destruct (A5 i Hi); auto.
  - now rewrite (receive_foreign raw b b' Hst Hf H).
  - constructor; unfold received in *; done.
  - destruct (timer_spec _ _ _ _ _ Hp Hev H) as (_ & Es & Er & Eq & _ & _ & _ & raws & Ew & Hraws).
    constructor; unfold received, pendingOf in *; rewrite ?Es, ?Er, ?Eq; try done.
    rewrite Ew. apply Forall_app. split; [done|]. eapply Forall_impl; [exact Hraws|].
    intros raw (q & Hq & _ & Q2) q' Hq' i Hi. rewrite Hq in Hq'. injection Hq' as <-. rewrite Q2 in Hi. set_solver.
Qed.

Lemma initial_ack_inv w : initial w -> ack_inv w.1 w.2 /\ ack_inv w.2 w.1.
Proof.
  intros (m1 & m2 & t1 & t2 & _ & ->). cbn.
  split; constructor; cbn; try apply Forall_nil_2; try (intros i Hi; set_solver);
    intros i; unfold len; cbn; lia.
Qed.

Definition losslessStep (w : world) (sl : side * label) : Prop := lossless w sl = true.

Lemma lossless_run_inv w0 w :
  initial w0 -> run losslessStep w0 w -> world_inv w /\ ack_inv w.1 w.2 /\ ack_inv w.2 w.1.
Proof.
  intros Hi Hr. pose proof (initial_inv _ Hi) as [Hinv _]. pose proof (initial_ack_inv _ Hi) as Hack. clear Hi.
  induction Hr as [w|w1 w2 l w3 _ IH Hl Hstep]; [auto|]. destruct (IH Hinv Hack) as (Hinv2 & A1 & A2).
  pose proof (world_step_refines _ _ _ Hinv2 Hstep) as [Hinv3 _]. split; [done|].
  pose proof Hinv2 as [(s1 & s2 & Hp1 & Hp2) Hri Hle]. unfold losslessStep, lossless in Hl.
  destruct Hstep as [a b l a' Hs|a b l b' Hs]; cbn [fst snd] in *.
  - split; [eapply (ack_inv_sender s1 s2); try done; intros -> | eapply (ack_inv_receiver s1 s2); try done; intros ->];
      [now apply Z.ltb_lt | done].
  - split; [eapply (ack_inv_receiver s2 s1); try done; intros -> | eapply (ack_inv_sender s2 s1); try done; intros ->];
      [done | now apply Z.ltb_lt].
Qed.

(** The deliveries of a list of raw packets, in order. *)
Fixpoint receiveAll (raws : list (list byte)) (e : endpoint) : outcome endpoint :=
  match raws with
  | [] => Ok e
  | raw :: raws' => e' ← receive raw e; receiveAll raws' e'
  end.

(** What a peer's packet meets at an established peer with room. *)
Lemma receive_total loc rem W e raw p :
  peer_inv loc rem e -> link_inv W e -> len W < MaxUint32 -> ParsePacket raw = Ok p -> fromPeer rem loc W p ->
  Opcode p <> P_CONTROL_HARD_RESET_SERVER_V2 ->
  exists e', receive raw e = Ok e' /\ peer_inv loc rem e' /\ link_inv W e' /\
    (forall i, received e i -> received e' i) /\
    (hasRoom (rcv e) = true -> Opcode p = P_CONTROL_V1 -> received e' (ID p)) /\
    len (incomingPackets (rcv e')) <= len (incomingPackets (rcv e)) + 1 /\
    len (seenQueue e') <= len (seenQueue e) + 1.
Proof.
  intros Hp Hli HW Hparse Hf Hnr. pose proof (peer_session _ _ _ Hp) as Hst.
  pose proof (pi_local _ _ _ Hp) as Hloc. pose proof (pi_remote _ _ _ Hp) as Hrem.
  assert (exists e', receive raw e = Ok e') as (e' & He').
  { unfold receive. destruct (handleRawPacket_established (mux e) raw p Hst Hparse (fromPeer_reliable _ _ _ _ Hf)) as [->|[? _]];
      [eauto | done]. }
  exists e'. split; [done|].
  destruct (receive_peer rem W e raw e' Hst) as (p' & r & seen & out & Hparse' & _ & E & ->); [|rewrite Hloc; by exists p|done|].
  { eapply Forall_impl; [exact (li_queue _ _ Hli)|]. intros q [? _]. done. }
  rewrite Hparse in Hparse'. injection Hparse' as <-.
  destruct (link_receive _ _ _ _ _ _ Hli HW (fp_kind _ _ _ _ Hf) E) as (Hli' & _ & Hs).
  destruct (receive_received _ _ _ _ _ _ Hli HW (fp_kind _ _ _ _ Hf) E) as (Hmono & Hnew & Hlen).
  split; [now apply peer_inv_up|]. split; [done|]. split; [done|]. split; [|split; [done|]].
  - intros Hroom Hop. destruct Hf as [Hk Hfl Hfr]. apply Hnew; [done| |].
    + unfold incomingSanityChecks, bytes_equal, GetRemoteSessionID, GetLocalSessionID. rewrite Hrem, Hloc, Hfl.
      rewrite bool_decide_true by done. cbn [negb]. destruct (Z.eqb_spec (len (ACKs p)) 0) as [|Hne]; [done|].
      rewrite Hfr, bool_decide_true; [done|done|]. intros Hnil. rewrite Hnil in Hne. done.
    + destruct Hk as [?|Hack]; [done|]. apply unnumbered_not_V1, Z.eqb_neq in Hack. done.
  - cbn. rewrite len_app. destruct seen; cbn; unfold len; cbn; lia.
Qed.

Lemma receiveAll_delivers loc rem a e raws qs :
  peer_inv loc rem e -> peer_inv rem loc a -> link_inv (written a) e ->
  Forall2 (fun raw q => ParsePacket raw = Ok q) raws qs -> Forall (fromPeer rem loc (written a)) qs ->
  Forall (fun q => Opcode q <> P_CONTROL_HARD_RESET_SERVER_V2) qs -> raws ⊆ wire a ->
  len (incomingPackets (rcv e)) + len raws <= RELIABLE_RECV_BUFFER_SIZE ->
  len (seenQueue e) + len raws <= incomingSeenCapacity ->
  exists e', receiveAll raws e = Ok e' /\ run losslessStep (a, e) (a, e') /\ link_inv (written a) e' /\
    (forall i, received e i -> received e' i) /\
    (forall q, q ∈ qs -> Opcode q = P_CONTROL_V1 -> received e' (ID q)).
Proof.
  intros Hp Ha Hli Hpq. revert e Hp Hli.
  induction Hpq as [|raw q raws qs Hq _ IH]; intros e Hp Hli Hf Hnr Hsub Hroom Hcap; cbn [receiveAll].
  - exists e. split; [done|]. split; [constructor|]. split; [done|]. split; [done|]. intros q Hq. set_solver.
  - apply Forall_cons in Hf as [Hf1 Hf]. apply Forall_cons in Hnr as [Hnr1 Hnr]. rewrite len_cons in Hroom, Hcap. pose proof (len_nonneg raws).
    destruct (receive_total loc rem _ e raw q Hp Hli (peer_room _ _ _ Ha) Hq Hf1 Hnr1)
      as (e1 & E1 & Hp1 & Hli1 & Hm1 & Hn1 & Hl1 & Hs1).
    assert (hasRoom (rcv e) = true) as Hr.
    { unfold hasRoom, RELIABLE_RECV_BUFFER_SIZE in *. apply negb_true_iff, Z.leb_gt. lia. }
    destruct (IH e1 Hp1 Hli1 Hf Hnr ltac:(set_solver) ltac:(lia) ltac:(lia)) as (e2 & E2 & R2 & Hli2 & Hm2 & Hn2).
    exists e2. rewrite E1. split; [exact E2|]. split; [|split; [done|split; [eauto|]]].
    + eapply run_trans; [|exact R2]. eapply (run_step _ _ _ (Right, LReceive)); [constructor|exact Hr|].
      apply ws_right. eapply ls_receive; [apply Hsub; left | lia | exact E1].
    + intros q' [->|Hin]%elem_of_cons Hop; eauto.
Qed.

(** A peer that has received every number up to the last has delivered
    every record. *)
Lemma all_received_delivered W e :
  link_inv W e -> (forall i, 1 <= i <= len W -> received e i) -> delivered e = W.
Proof.
  intros [[_ Hl0 Hg _] _ Hl Hd] Hall. rewrite Hd. apply take_ge.
  destruct (Z.lt_ge_cases (lastConsumed (rcv e)) (len W)) as [Hlt|?]; [exfalso|unfold len in *; lia].
  destruct (Hall (lastConsumed (rcv e) + 1) ltac:(lia)) as [?|(q & Hq & Hin)%list_elem_of_fmap]; [lia|].
  rewrite Forall_forall in Hg. specialize (Hg q Hin). cbn in Hg. lia.
Qed.

(** A tick that finds every packet due transmits the whole queue. *)
Lemma tick_all loc rem now e e' :
  peer_inv loc rem e -> tick now None e = Ok e' -> Forall (fun f => isReady now f = true) (inFlightOf e) ->
  inFlightOf e <> [] ->
  exists raws qs, wire e' = wire e ++ raws /\ Forall2 (fun raw q => ParsePacket raw = Ok q) raws qs /\
    Forall (fromPeer loc rem (written e)) qs /\ map ID qs = map inflight_key (inFlightOf e) /\
    Forall (fun q => Opcode q = P_CONTROL_V1) qs.
Proof.
  intros Hp H Hready Hne.
  destruct (tick_spec _ _ _ _ _ _ (fun _ => True) (fun _ => True) Hp ltac:(done) ltac:(done) H)
    as (_ & _ & _ & _ & _ & _ & _ & _ & ps & Hw & (d & Hb) & E2 & E3).
  assert (map ID ps = map inflight_key (inFlightOf e) /\ Forall (fun q => Opcode q = P_CONTROL_V1) ps) as [HID Hop].
  { unfold blockOnTryingToSend in Hb. apply bind_Ok in Hb as (d' & _ & Hb).
    assert (readyToSend (inFlight (fst (sndr e))) now = inFlightOf e) as Hrd.
    { rewrite readyToSend_filter. now apply filter_all. }
    rewrite Hrd in Hb. destruct (Z.ltb_spec 0 (len (inFlightOf e))) as [|Hle].
    2:{ pose proof (len_nonneg (inFlightOf e)). assert (len (inFlightOf e) = 0) as E0%len_zero_iff by lia. done. }
    destruct (flush now None _ _) as [[l acks] out] eqn:Ef. injection Hb as _ _ <-.
    pose proof (flush_packets _ _ _ _ _ _ _ (fun p => Opcode p = P_CONTROL_V1) ltac:(done)
      ltac:(eapply Forall_impl; [exact (pi_flight _ _ _ Hp)|]; intros f [[? _] _]; done) Ef) as (_ & _ & Ho).
    destruct (flush_spec _ _ _ _ _ _ Ef) as (HF & _ & ->). split; [|eapply Forall_impl; [exact Ho|]; cbn; tauto].
    rewrite (sentFrom_IDs _ _ _ HF). now rewrite Hrd. }
  exists (emit ps), (map wireForm ps). split; [done|]. split; [done|]. split; [|split].
  - eapply Forall_impl; [exact E3|]. intros q [? _]. done.
  - rewrite <- HID, map_map. apply map_ext. intros p. unfold wireForm. now destruct (_ =? _).
  - apply Forall_map. eapply Forall_impl; [exact Hop|]. cbn. intros p <-. unfold wireForm. now destruct (_ =? _).
Qed.



(** ** A queue that overflows *)

Lemma full_step loc rem a b l b' :
  peer_inv loc rem b -> link_inv (written a) b -> peer_inv rem loc a -> local_step (wire a) b l b' ->
  hasRoom (rcv b) = false -> rcv b' = rcv b /\ delivered b' = delivered b.
Proof.
  intros Hp Hli Ha Hstep Hfull. pose proof (peer_session _ _ _ Hp) as Hst.
  destruct Hstep as [record b' H|now budget b' H|now b' H|raw b' Hraw _ H|raw b' Hf H|op Hop|ev b' Hev H].
  - now destruct (write_inv _ _ _ _ _ Hp H) as (_ & ? & ? & _).
  - now destruct (tick_spec _ _ _ _ _ _ (fun _ => True) (fun _ => True) Hp ltac:(done) ltac:(done) H) as (_ & ? & ? & _).
  - now destruct (readSeen_spec _ _ _ _ _ Hp H) as (s & _ & _ & ? & ? & _).
  - pose proof (pi_wire _ _ _ Ha) as Hw. rewrite Forall_forall in Hw. specialize (Hw raw Hraw).
    rewrite <- (pi_local _ _ _ Hp) in Hw.
    destruct (receive_peer rem (written a) b raw b' Hst) as (p & r & seen & out & _ & _ & E & ->); try done.
    { eapply Forall_impl; [exact (li_queue _ _ Hli)|]. intros q [? _]. done. }
    rewrite hasRoom_false_step in E by done. injection E as <- _ <-. cbn. now rewrite app_nil_r.
  - now rewrite (receive_foreign raw b b' Hst Hf H).
  - done.
  - now destruct (timer_spec _ _ _ _ _ Hp Hev H) as (_ & _ & ? & _ & _ & ? & _).
Qed.

(** The right peer has neither taken in nor delivered anything since [b]. *)
Definition frozenSince (b : endpoint) (w : world) : Prop := rcv w.2 = rcv b /\ delivered w.2 = delivered b.

(** Once the reordering queue of a peer is full, that peer's TLS layer
    is never given another record, whatever the other side sends again and
    however often. *)
Theorem full_queue_freezes w0 a b w :
  initial w0 -> run anyStep w0 (a, b) -> hasRoom (rcv b) = false -> run anyStep (a, b) w ->
  frozenSince b w.
Proof.
  intros Hi Hr Hfull Hrun. destruct (run_inv _ _ _ Hi Hr) as [Hinv _]. clear Hi Hr.
  cut (world_inv w /\ rcv w.2 = rcv b /\ delivered w.2 = delivered b); [unfold frozenSince; tauto|].
  remember (a, b) as w1 eqn:Ew. revert Ew.
  induction Hrun as [w|w1 w2 l w3 _ IH _ Hstep]; intros ->; [done|].
  destruct (IH Hinv eq_refl) as (Hinv2 & Er & Ed).
  split; [exact (proj1 (world_step_refines _ _ _ Hinv2 Hstep))|].
  destruct Hinv2 as [(s1 & s2 & Hp1 & Hp2) Hri _].
  destruct Hstep as [x y l x' Hs|x y l y' Hs]; cbn [fst snd] in *; [done|].
  destruct (full_step s2 s1 x y l y' Hp2 Hri Hp1 Hs) as [-> ->]; [now rewrite Er | done].
Qed.

(** The first of two records is lost and the network repeats the second
    twelve times: the copies fill the queue, and the first record, sent again,
    finds no room. *)
Definition duplicates : list (side * action) :=
  [(Left, AWrite [z2b 1]); (Left, AWrite [z2b 2]); (Left, ATick Minute)] ++ replicate 12 (Right, AReceive 1).

Lemma full_queue_freezes_witness :
  exists a b w, run anyStep sampleWorld (a, b) /\ run anyStep (a, b) w /\
    length (wire w.1) = 4%nat /\ delivered w.2 = [] /\ rcv w.2 = rcv b.
Proof.
  destruct (runScript (fun _ _ => true) duplicates sampleWorld) as [[a b]|] eqn:E1; [|vm_compute in E1; discriminate E1].
  destruct (runScript (fun _ _ => true) [(Left, ATick (2 * Minute)); (Right, AReceive 2); (Right, AReceive 0)] (a, b))
    as [w|] eqn:E2; [|vm_compute in E1; injection E1 as <- <-; vm_compute in E2; discriminate E2].
  assert (run anyStep sampleWorld (a, b)) as R1 by (eapply run_impl; [|exact (runScript_sound _ _ _ _ E1)]; done).
  assert (run anyStep (a, b) w) as R2 by (eapply run_impl; [|exact (runScript_sound _ _ _ _ E2)]; done).
  exists a, b, w. split; [done|]. split; [done|].
  destruct (full_queue_freezes sampleWorld a b w sampleWorld_initial R1) as [H1 H2];
    [vm_compute in E1; injection E1 as <- <-; reflexivity|exact R2|].
  split; [|split; [rewrite H2; vm_compute in E1; injection E1 as <- <-; reflexivity|exact H1]].
  vm_compute in E1. injection E1 as <- <-. vm_compute in E2. injection E2 as <-. reflexivity.
Defined.
