(* ===== verification/Client.v ===== *)
(** * The client as one system

    All the services around one session manager, with the contents of their
    messages: muxer, reliable transport and control channel ([endpoint] of
    [EndToEnd]), the worker of the TLS session with its negotiation cut at the
    calls in which it blocks, and the workers of the data channel.  A step is
    one iteration of a worker, or what the negotiation does between two calls
    on the TLS connection; a packet on its way up passes through the services
    that handle it in one step, as in [EndToEnd].  The network, the TLS
    library and the application are the events of a run.

    The buffered channels are part of the state: [HardReset], [NotifyTLS] and
    [KeyReady], with one slot each in setup.go, and [incomingSeen].  That the
    slots suffice is a theorem. *)

From S2P Require Import Prelude Bytesx Packet GoStrings Session Config Sender Receiver ControlChannel.
From S2P Require Import Crypto ControlMsg TLSSession EndToEnd.
From S2P Require Muxer DataChannel.
From S2P Require Import DataChannelSpec Establish.

(** ** The TLS session *)

(** Where the worker of the TLS session is.  The argument [i] is the pointer
    that [ActiveKey] returned. *)
Inductive tlsPhase : Type :=
  | TIdle
  | THandshaking
  | TSendingAuth (i : nat) (msg : list byte)
  | TAwaitingReply (i : nat)
  | TSendingPush (i : nat)
  | TAwaitingPush (i : nat)
  | TSendingKey (i : nat)
  | TReturned.

#[export] Instance tlsPhase_eq_dec : EqDecision tlsPhase.
Proof. solve_decision. Defined.

(** How a call on the TLS connection returns. *)
Inductive tlsAnswer : Type :=
  | AHandshake (r : outcome unit)
  | AWritten (r : outcome unit)
  | ARead (r : outcome (list byte)).

(** [tlsAuth] returned an error: [worker] reports [ErrBadCA] and returns, the
    other errors are logged. *)
Definition afterError (e : error) : tlsPhase := match e with ErrBadCA => TReturned | _ => TIdle end.

(** What the negotiation does when a call returns, up to its next call: the
    phase, the manager and the message that is now written.  [Err] when the
    call is not the one the negotiation is in. *)
Definition tls_step (o : OpenVPNOptions) (ph : tlsPhase) (a : tlsAnswer) (m : Manager)
  : outcome (tlsPhase * Manager * option (list byte)) :=
  match ph, a with
  | THandshaking, AHandshake (Ok _) =>
      match ActiveKey m with
      | Ok (i, activeKey) =>
          match (match key_local activeKey with
                 | Some k => encodeClientControlMessageAsBytes k o
                 | None => _ ← encodeClientControlMessageAsBytes (mkKeySource [] [] []) o; Panic
                 end) with
          | Ok msg => Ok (TSendingAuth i msg, m, None)
          | Err e => Ok (afterError e, m, None)
          | Panic => Panic
          end
      | Err e => Ok (afterError e, m, None)
      | Panic => Panic
      end
  | TSendingAuth i msg, AWritten (Ok _) =>
      let '(m, _) := SetNegotiationState m S_SENT_KEY in
      Ok (TAwaitingReply i, m, Some msg)
  | TAwaitingReply i, ARead (Ok data) =>
      match parseServerControlMessage data with
      | Ok (remoteKey, serverOptions) =>
          match InitTunnelInfo m serverOptions with
          | Ok m =>
              let m := match keys m !! i with
                       | Some activeKey =>
                           match AddRemoteKey activeKey remoteKey with Ok k => modifyKey i k m | _ => m end
                       | None => m
                       end in
              let '(m, _) := SetNegotiationState m S_GOT_KEY in
              Ok (TSendingPush i, m, None)
          | Err e => Ok (afterError e, m, None)
          | Panic => Panic
          end
      | Err e => Ok (afterError e, m, None)
      | Panic => Panic
      end
  | TSendingPush i, AWritten (Ok _) => Ok (TAwaitingPush i, m, Some pushRequest)
  | TAwaitingPush i, ARead (Ok data) =>
      match parseServerPushReply data with
      | Ok tinfo =>
          let m := UpdateTunnelInfo m tinfo in
          let '(m, _) := SetNegotiationState m S_ACTIVE in
          Ok (TSendingKey i, m, None)
      | Err e => Ok (afterError e, m, None)
      | Panic => Panic
      end
  | THandshaking, AHandshake (Err e) | TSendingAuth _ _, AWritten (Err e) | TAwaitingReply _, ARead (Err e)
  | TSendingPush _, AWritten (Err e) | TAwaitingPush _, ARead (Err e) => Ok (afterError e, m, None)
  | _, AHandshake Panic | _, AWritten Panic | _, ARead Panic => Panic
  | _, _ => Err ErrShutdown
  end.

(** [worker] on a notification, and the part of [tlsAuth] before the
    negotiation starts; [certs] is the result of [newCertConfigFromOptions]
    and [initTLS]. *)
Definition tls_notified (certs : outcome unit) (n : Notification) : outcome tlsPhase :=
  if Z.land (Flags n) NotificationReset =? 0 then Ok TIdle
  else match certs with
       | Ok _ => Ok THandshaking
       | Err e => Ok (afterError e)
       | Panic => Panic
       end.

(** The calls a negotiation makes, in order. *)
Definition answersOf (tp : tlsPeer) : list tlsAnswer :=
  [AHandshake (tp_handshake tp); AWritten (tp_writeAuth tp); ARead (tp_readAuth tp);
   AWritten (tp_writePush tp); ARead (tp_readPush tp)].

(** The negotiation while nothing else happens: until it has a key to hand
    over or has failed. *)
Fixpoint tls_run (o : OpenVPNOptions) (ph : tlsPhase) (l : list tlsAnswer) (m : Manager)
  : outcome (tlsPhase * Manager * list (list byte)) :=
  match l with
  | [] => Ok (ph, m, [])
  | a :: l =>
      match ph with
      | TIdle | TReturned => Ok (ph, m, [])
      | _ =>
          '(ph, m, s) ← tls_step o ph a m;
          '(ph, m, ss) ← tls_run o ph l m;
          Ok (ph, m, option_list s ++ ss)
      end
  end.

(** ** The client *)

Record tlsSide : Type := mkTLSSide {
  notifyTLS : list Notification;
  phase : tlsPhase;
  tlsSent : list (list byte);
  tlsReceived : list (list byte)
}.

Record dataSide : Type := mkDataSide {
  keyReady : list nat;
  channel : DataChannel.DataChannel;
  firstKey : bool;
  readySignals : nat;
  dataWire : list (list byte);
  toTUN : list (list byte)
}.

(** [hardReset] says whether the [HardReset] channel holds a request.
    [tlsSent] and [tlsReceived] are the messages that went through the TLS
    connection; [dataWire] and [toTUN] are what the data channel has put on
    the network and given to the application; [readySignals] counts the
    signals to [StartTUN]. *)
Record client : Type := mkClient {
  ctl : endpoint;
  hardReset : bool;
  tls : tlsSide;
  data : dataSide
}.

Definition cmgr (c : client) : Manager := mgr (ctl c).

Definition with_ctl (e : endpoint) (c : client) : client := mkClient e (hardReset c) (tls c) (data c).
Definition with_tls (t : tlsSide) (c : client) : client := mkClient (ctl c) (hardReset c) t (data c).
Definition with_data (d : dataSide) (c : client) : client := mkClient (ctl c) (hardReset c) (tls c) d.
Definition with_mgr (m : Manager) (c : client) : client := with_ctl (set_mgr m (ctl c)) c.
Definition with_mux (ws : Muxer.workersState) (e : endpoint) : endpoint :=
  mkEndpoint ws (sndr e) (rcv e) (seenQueue e) (wire e) (written e) (delivered e).
Definition with_wire (raw : list byte) (e : endpoint) : endpoint :=
  mkEndpoint (mux e) (sndr e) (rcv e) (seenQueue e) (wire e ++ [raw]) (written e) (delivered e).

Definition notify (n : Notification) (t : tlsSide) : tlsSide :=
  mkTLSSide (notifyTLS t ++ [n]) (phase t) (tlsSent t) (tlsReceived t).

(** The data channel's workers share the manager. *)
Definition dataWorkers (c : client) : DataChannel.workersState :=
  DataChannel.mkWorkersState (channel (data c)) (cmgr c) (firstKey (data c)).

(** What the control channel tells the TLS session about packets the reliable
    transport delivers. *)
Definition notificationOf (e : Control.effect) : list Notification :=
  match e with Control.NotifyTLS n => [n] | _ => [] end.

Definition notificationsFor (e : endpoint) (p : Packet) : list Notification :=
  let '(_, _, out) := Receiver.moveUpWorker_step (mgr e) None (rcv e) p in
  concat (map notificationOf (Control.moveUpWorker_run (mgr e) out).2).

(** After [StartWorkers] of the services and the request for a hard reset. *)
Definition launch (m : Manager) (d : DataChannel.DataChannel) : client :=
  mkClient (establishedEndpoint m (SENDER_TICKER_MS * Millisecond)) true
    (mkTLSSide [] TIdle [] []) (mkDataSide [] d false 0 [] []).

Section Client.
Context `{Crypto}.
Variable o : OpenVPNOptions.

(** A send of the muxer's up-worker, received by its reader. *)
Definition deliver (c : client) (eff : Muxer.effect) : outcome client :=
  match eff with
  | Muxer.ToNetwork raw => Ok (with_ctl (with_wire raw (ctl c)) c)
  | Muxer.ToTLS n => Ok (with_tls (notify n (tls c)) c)
  | Muxer.ToReliable p =>
      let t := fold_left (fun t n => notify n t) (notificationsFor (ctl c) p) (tls c) in
      Ok (with_tls t (with_ctl (passUp (ctl c) p) c))
  | Muxer.ToData p =>
      '(ws, up) ← DataChannel.moveUpWorker_step (dataWorkers c) p;
      let d := data c in
      Ok (with_data (mkDataSide (keyReady d) (DataChannel.dataChannel ws) (firstKey d) (readySignals d)
            (dataWire d) (toTUN d ++ up)) c)
  end.

Fixpoint deliverAll (c : client) (effs : list Muxer.effect) : outcome client :=
  match effs with
  | [] => Ok c
  | eff :: effs => c ← deliver c eff; deliverAll c effs
  end.

(** An iteration of the muxer's up-worker. *)
Definition mux_step (ev : Muxer.event) (c : client) : outcome client :=
  match Muxer.moveUpWorker_step (mux (ctl c)) ev with
  | None => Err ErrShutdown
  | Some (Muxer.Crash, _, _) => Panic
  | Some (_, ws, effs) => deliverAll (with_ctl (with_mux ws (ctl c)) c) effs
  end.

Inductive clientEvent : Type :=
  | CHardReset
  | CFire
  | CTick
  | CReceive (raw : list byte)
  | CWrite (record : list byte)
  | CTransmit (now : Z) (budget : option nat)
  | CSeen (now : Z)
  | CNotified (certs : outcome unit)
  | CAnswer (a : tlsAnswer)
  | CSendKey
  | CKeyWorker
  | CTunWrite (genRandomFn : Z -> outcome (list byte)) (payload : list byte).

(** The messages that were read. *)
Definition readOf (a : tlsAnswer) : list (list byte) := match a with ARead (Ok d) => [d] | _ => [] end.

Definition negotiating (ph : tlsPhase) : bool :=
  match ph with TIdle | TReturned => false | _ => true end.

(** The handlers, one for each iteration of a worker; [Err] when what it
    waits for is not there. *)

(** The muxer reads the request for a hard reset. *)
Definition on_hardReset (c : client) : outcome client :=
  if hardReset c
  then mux_step (Muxer.EvHardReset None) (mkClient (ctl c) false (tls c) (data c))
  else Err ErrShutdown.

(** A raw packet arrives; the receiver blocks while [incomingSeen] is full. *)
Definition on_packet (raw : list byte) (c : client) : outcome client :=
  if len (seenQueue (ctl c)) <? incomingSeenCapacity then mux_step (Muxer.EvRaw None raw) c
  else Err ErrShutdown.

(** The TLS library writes a record, during a negotiation. *)
Definition on_record (record : list byte) (c : client) : outcome client :=
  if negotiating (phase (tls c)) then e ← writeRecord record (ctl c); Ok (with_ctl e c)
  else Err ErrShutdown.

(** The TLS worker reads a notification. *)
Definition on_notification (certs : outcome unit) (c : client) : outcome client :=
  let t := tls c in
  match phase t, notifyTLS t with
  | TIdle, n :: rest =>
      ph ← tls_notified certs n;
      Ok (with_tls (mkTLSSide rest ph (tlsSent t) (tlsReceived t)) c)
  | _, _ => Err ErrShutdown
  end.

(** A call of the negotiation on the TLS connection returns. *)
Definition on_answer (a : tlsAnswer) (c : client) : outcome client :=
  let t := tls c in
  '(ph, m, s) ← tls_step o (phase t) a (cmgr c);
  Ok (with_tls (mkTLSSide (notifyTLS t) ph (tlsSent t ++ option_list s) (tlsReceived t ++ readOf a)) (with_mgr m c)).

(** The negotiation sends its key on [keyUp]. *)
Definition on_keySent (c : client) : outcome client :=
  let t := tls c in
  let d := data c in
  match phase t, keyReady d with
  | TSendingKey i, [] =>
      Ok (with_tls (mkTLSSide (notifyTLS t) TIdle (tlsSent t) (tlsReceived t))
            (with_data (mkDataSide [i] (channel d) (firstKey d) (readySignals d) (dataWire d) (toTUN d)) c))
  | _, _ => Err ErrShutdown
  end.

(** The key worker reads the key. *)
Definition on_key (c : client) : outcome client :=
  let d := data c in
  match keyReady d with
  | [] => Err ErrShutdown
  | i :: rest =>
      match keys (cmgr c) !! i with
      | None => Panic
      | Some key =>
          '(ws, signals) ← DataChannel.keyWorker_step (dataWorkers c) key;
          Ok (with_mgr (DataChannel.sessionManager ws)
                (with_data (mkDataSide rest (DataChannel.dataChannel ws) (DataChannel.firstKeyReady ws)
                   (if signals : bool then S (readySignals d) else readySignals d) (dataWire d) (toTUN d)) c))
      end
  end.

(** The data channel reads a payload of the application. *)
Definition on_payload (gen : Z -> outcome (list byte)) (payload : list byte) (c : client) : outcome client :=
  let d := data c in
  if firstKey d then
    '(ws, ps) ← DataChannel.moveDownWorker_step gen (dataWorkers c) payload;
    Ok (with_mgr (DataChannel.sessionManager ws)
          (with_data (mkDataSide (keyReady d) (channel d) (firstKey d) (readySignals d)
             (dataWire d ++ emit ps) (toTUN d)) c))
  else Err ErrShutdown.

(** The scheduler: any worker whose event is there may run. *)
Definition client_step (ev : clientEvent) (c : client) : outcome client :=
  match ev with
  | CHardReset => on_hardReset c
  | CFire => mux_step Muxer.EvFire c
  | CTick => mux_step (Muxer.EvTick None) c
  | CReceive raw => on_packet raw c
  | CWrite record => on_record record c
  | CTransmit now budget => e ← tick now budget (ctl c); Ok (with_ctl e c)
  | CSeen now => e ← readSeen now (ctl c); Ok (with_ctl e c)
  | CNotified certs => on_notification certs c
  | CAnswer a => on_answer a c
  | CSendKey => on_keySent c
  | CKeyWorker => on_key c
  | CTunWrite gen payload => on_payload gen payload c
  end.

Fixpoint client_run (evs : list clientEvent) (c : client) : outcome client :=
  match evs with
  | [] => Ok c
  | ev :: evs => c ← client_step ev c; client_run evs c
  end.
End Client.

(** [run_handler] opens the handler of an event. *)
Ltac run_handler :=
  cbn [client_step];
  unfold on_hardReset, on_packet, on_record, on_notification, on_answer, on_keySent, on_key, on_payload.

(** ** The negotiation of [TLSSession], cut at its calls *)

Lemma InitTunnelInfo_keeps m s m' :
  InitTunnelInfo m s = Ok m' ->
  keys m' = keys m /\ localSessionID m' = localSessionID m /\ remoteSessionID m' = remoteSessionID m /\
  negState m' = negState m /\ localDataPacketID m' = localDataPacketID m /\ (manager_inv m -> manager_inv m').
Proof.
  unfold InitTunnelInfo. intros (ti & _ & [= <-])%bind_Ok. do 5 (split; [done|]). intros []. by constructor.
Qed.

Lemma tls_run_cons o ph a l m :
  negotiating ph = true ->
  tls_run o ph (a :: l) m =
    ('(ph, m, s) ← tls_step o ph a m; '(ph, m, ss) ← tls_run o ph l m; Ok (ph, m, option_list s ++ ss)).
Proof. now destruct ph. Qed.

Lemma tls_run_stop o e l m : tls_run o (afterError e) l m = Ok (afterError e, m, []).
Proof. destruct l; [done | now destruct e]. Qed.

(** [tls_call] lets the call the negotiation is in return. *)
Ltac tls_call r x :=
  rewrite tls_run_cons by done; cbn [tls_step]; destruct r as [x|?e|]; cbn [SetNegotiationState]; go_step; [|rewrite ?tls_run_stop; done|done].

(** While nothing else happens, the calls returning as [tp] says, the steps
    compute what [doTLSAuth] does: the same manager, the same messages, the
    key that is then handed over, and an end in the phase of its verdict. *)
Lemma tls_run_doTLSAuth o tp m :
  manager_inv m ->
  let r := doTLSAuth tp o m in
  tls_run o THandshaking (answersOf tp) m =
    match ar_err r with
    | Ok _ => Ok (TSendingKey 0, ar_manager r, ar_sent r)
    | Err e => Ok (afterError e, ar_manager r, ar_sent r)
    | Panic => Panic
    end /\ (ar_err r = Ok tt -> ar_key r = keys (ar_manager r) !! 0%nat).
Proof.
  intros Hm r. subst r. destruct (ActiveKey_Ok m Hm) as (k & Hk & HA).
  unfold answersOf, doTLSAuth, failWith, sendAuthRequestMessage, recvAuthReplyMessage, sendPushRequestMessage,
    recvPushResponseMessage.
  tls_call (tp_handshake tp) u.
  rewrite HA. go_step.
  destruct (match key_local k with Some _ => _ | None => _ end) as [msg|e|]; go_step; [|rewrite tls_run_stop; done|done].
  tls_call (tp_writeAuth tp) u1.
  tls_call (tp_readAuth tp) d.
  destruct (parseServerControlMessage d) as [[rk so]|e|]; go_step; [|rewrite tls_run_stop; done|done].
  destruct (InitTunnelInfo _ so) as [m1|e|] eqn:E1; go_step; [|rewrite tls_run_stop; done|done].
  apply InitTunnelInfo_keeps in E1 as (Hk1 & _). cbn in Hk1. rewrite Hk in Hk1.
  assert (match keys m1 !! 0%nat with
          | Some ak => match AddRemoteKey ak rk with Ok k => modifyKey 0 k m1 | _ => m1 end
          | None => m1 end = modifyKey 0 (match AddRemoteKey k rk with Ok k => k | _ => k end) m1) as ->.
  { rewrite Hk1. cbn. destruct (AddRemoteKey k rk); [done|..]; unfold modifyKey; rewrite Hk1; cbn; rewrite <- Hk1; by destruct m1. }
  tls_call (tp_writePush tp) u2.
  tls_call (tp_readPush tp) d'.
  destruct (parseServerPushReply d') as [ti|e|]; go_step; [|rewrite tls_run_stop; done|done].
  cbn. rewrite Hk1. done.
Qed.

(** ** What the workers leave alone *)

(** The manager after an operation that neither touches the key nor the
    session identifiers and does not announce keys. *)
Record quiet (m m' : Manager) : Prop := {
  q_inv : manager_inv m -> manager_inv m';
  q_keys : keys m' = keys m;
  q_local : localSessionID m' = localSessionID m;
  q_remote : remoteSessionID m' = remoteSessionID m;
  q_state : negState m' = negState m \/ negState m' < S_GENERATED_KEYS;
  q_dataID : localDataPacketID m <= localDataPacketID m'
}.

Lemma quiet_refl m : quiet m m.
Proof. constructor; auto. lia. Qed.

Lemma quiet_trans m1 m2 m3 : quiet m1 m2 -> quiet m2 m3 -> quiet m1 m3.
Proof.
  intros [H1 H2 H3 H4 H5 H6] [G1 G2 G3 G4 G5 G6]. constructor; [auto|congruence..| |lia].
  destruct G5; [|auto]. destruct H5; [left|right]; congruence.
Qed.

Lemma quiet_negState s m : s < S_GENERATED_KEYS -> quiet m (set_negState s m).
Proof. constructor; try done; [intros []; by constructor | auto]. Qed.

Lemma quiet_dataID m r m' : LocalDataPacketID m = (r, m') -> manager_inv m -> quiet m m'.
Proof.
  unfold LocalDataPacketID. intros E Hm. destruct (localDataPacketIDLocked_spec m Hm) as [[_ E']|[? E']]; rewrite E' in E;
    injection E as <- <-; [apply quiet_refl|]. constructor; auto; [|cbn; lia]. intros _. pose proof (inv_data _ Hm). apply manager_inv_set_data; [done | lia].
Qed.

Lemma quiet_controlDown m record p m' :
  manager_inv m -> Control.moveDownWorker_step m record = (m', Some p) -> quiet m m'.
Proof.
  intros Hm. unfold Control.moveDownWorker_step. destruct (Manager_NewPacket m P_CONTROL_V1 record) as [[q|e|] m1] eqn:E; [|done|done].
  intros [= <- <-]. apply Manager_NewPacket_ID in E. change (Opcode_IsControl P_CONTROL_V1) with true in E. cbn iota in E.
  destruct (localControlPacketIDLocked_spec m Hm) as [[_ E']|[? E']]; rewrite E' in E; [done|]. injection E as _ <-.
  constructor; auto; [|cbn; lia]. intros _. pose proof (inv_control _ Hm). apply manager_inv_set_control; [done | lia].
Qed.

(** A write uses up data packet identifiers and leaves the rest of the
    manager alone. *)
Lemma writePacket_manager `{Crypto} gen d m payload r m' :
  DataChannel.writePacket gen d m payload = (r, m') ->
  exists n, m' = (session_run (replicate n OpDataPacketID) m).1.
Proof.
  assert (forall n m r m', LocalDataPacketID m = (r, m') ->
    (session_run (replicate (S n) OpDataPacketID) m).1 = (session_run (replicate n OpDataPacketID) m').1) as Hid.
  { intros n m1 r1 m1' E. cbn. rewrite E. by destruct (session_run _ m1'). }
  unfold DataChannel.writePacket. destruct (DataChannel.dataCipher _) as [c|]; [|intros [= <- <-]; by exists 0%nat].
  destruct (if isAEAD c then (payload, m) else _) as [payload' m1] eqn:E1.
  assert (exists j, forall n, (session_run (replicate (j + n) OpDataPacketID) m).1 = (session_run (replicate n OpDataPacketID) m1).1)
    as (j & Hj).
  { destruct (isAEAD c); [injection E1 as <- <-; by exists 0%nat|]. destruct (LocalDataPacketID m) as [pid m2] eqn:E.
    injection E1 as <- <-. exists 1%nat. intros n. by eapply Hid. }
  assert (exists n, m1 = (session_run (replicate n OpDataPacketID) m).1) as H1 by (exists (j + 0)%nat; by rewrite Hj).
  destruct (rewrap _ _) as [b|e|]; [|intros [= <- <-]; done..].
  destruct (DataChannel.encryptAndEncodePayload gen b d m1) as [enc m2] eqn:E2. intros [= _ <-]. revert E2.
  unfold DataChannel.encryptAndEncodePayload. destruct (DataChannel.dataCipher _) as [c'|]; [|intros [= <- <-]; done].
  destruct (_ =? 0); [intros [= <- <-]; done|]. destruct (rewrap _ _) as [pd|e|]; [|intros [= <- <-]; done..].
  destruct (DataChannel.encryptEncodeFn d) as [[|]|]; [|intros [= <- <-]; done..].
  unfold DataChannel.encryptAndEncodePayloadAEAD. destruct (LocalDataPacketID m1) as [id m3] eqn:E.
  intros E2. assert (m2 = m3) as -> by (destruct id; by injection E2 as _ <-). exists (j + 1)%nat.
  rewrite Hj. symmetry. exact (Hid 0%nat _ _ _ E).
Qed.

Lemma quiet_writePacket `{Crypto} gen d m payload r m' :
  manager_inv m -> DataChannel.writePacket gen d m payload = (r, m') -> quiet m m'.
Proof.
  intros Hm (n & ->)%writePacket_manager. revert m Hm. induction n as [|n IH]; intros m Hm; [apply quiet_refl|].
  cbn. destruct (LocalDataPacketID m) as [r1 m1] eqn:E. apply quiet_dataID in E; [|done].
  specialize (IH m1 (q_inv _ _ E Hm)). destruct (session_run _ m1). by eapply quiet_trans.
Qed.

Lemma writePacket_opcode `{Crypto} gen d m payload p m' :
  DataChannel.writePacket gen d m payload = (Ok p, m') -> Opcode p = P_DATA_V2.
Proof.
  unfold DataChannel.writePacket. destruct (DataChannel.dataCipher _); [|done].
  destruct (if isAEAD _ then _ else _) as [b m1]. destruct (rewrap _ _) as [b'| |]; [|done..].
  destruct (DataChannel.encryptAndEncodePayload gen b' d m1) as [enc m2]. intros [= E _].
  by apply bind_Ok in E as (x & _ & [= <-]).
Qed.

Lemma writeRecord_quiet record e e' :
  manager_inv (mgr e) -> writeRecord record e = Ok e' -> quiet (mgr e) (mgr e') /\ rcv e' = rcv e.
Proof.
  intros Hm. unfold writeRecord. destruct (Control.moveDownWorker_step (mgr e) record) as [m [p|]] eqn:E; [|done].
  intros ([st out] & _ & [= <-])%bind_Ok. split; [|done]. by eapply quiet_controlDown.
Qed.

Lemma tick_quiet now budget e e' : tick now budget e = Ok e' -> mux e' = mux e /\ rcv e' = rcv e.
Proof. unfold tick. intros ([st out] & _ & [= <-])%bind_Ok. done. Qed.

Lemma readSeen_quiet now e e' : readSeen now e = Ok e' -> mux e' = mux e /\ rcv e' = rcv e.
Proof. unfold readSeen. destruct (seenQueue e); [done|]. intros ([st out] & _ & [= <-])%bind_Ok. done. Qed.

(** Packets of the peer reach TLS as records and change nothing else. *)
Lemma passUp_quiet e p :
  Forall isControlV1 (incomingPackets (rcv e)) ->
  mgr (passUp e p) = mgr e /\ notificationsFor e p = [] /\ Forall isControlV1 (incomingPackets (rcv (passUp e p))).
Proof.
  intros Hq. destruct (passUp_spec e p Hq) as (r & seen & out & E & ->). split; [done|].
  assert (Receiver.moveUpWorker_run (mgr e) (rcv e) [p] = (r, option_list seen, out)) as Hrun
    by (cbn; rewrite E, !app_nil_r; done).
  split.
  - unfold notificationsFor. rewrite E, control_run_records by (by eapply receiver_delivers_control).
    cbn. clear. by induction out.
  - cbn. apply Receiver.moveUpWorker_step_cases in E as [(_ & -> & _)|(Hacc & _ & E)]; [done|].
    apply andb_true_iff in Hacc as [_ Hacc%Z.eqb_eq]. apply NextIncomingSequence_subset in E as [_ E]. cbn in E.
    apply Forall_forall. intros q Hin%E. apply elem_of_app in Hin as [Hin|Hin%list_elem_of_singleton]; [|by subst].
    rewrite Forall_forall in Hq. auto.
Qed.

(** Reading a packet changes at most the last packet identifier. *)
Lemma readPacket_channel `{Crypto} d m p r d' :
  DataChannel.readPacket d m p = (r, d') -> exists i, d' = atRemoteID i d.
Proof.
  assert (exists i, d = atRemoteID i d) as Hd by (eexists; symmetry; apply atRemoteID_self).
  unfold DataChannel.readPacket. destruct (_ =? 0); [intros [= <- <-]; done|]. destruct (negb _); [intros [= <- <-]; done|].
  destruct (DataChannel.DataChannel_decrypt d m (Payload p)) as [pt|e|]; [|intros [= <- <-]; done..].
  unfold DataChannel.maybeDecompress.
  assert (forall r', (r', DataChannel.set_state (DataChannel.state d) d) = (r, d') -> exists i, d' = atRemoteID i d) as Hsame.
  { intros r' [= _ <-]. exists (DataChannel.remotePacketID (DataChannel.state d)). rewrite atRemoteID_self. by destruct d. }
  destruct (DataChannel.dataCipher (DataChannel.state d)) as [c|]; [|apply Hsame].
  destruct (isAEAD c); [apply Hsame|]. destruct (go_upto _ _) as [b|e|]; [|apply Hsame..].
  destruct (DataChannel.RemotePacketID _) as [i|e|]; [|apply Hsame..]. destruct (_ <=? _); [apply Hsame|].
  intros [= _ <-]. eexists. reflexivity.
Qed.

(** ** The life of a session *)

Section Life.
Context `{CryptoLaws}.
Variable o : OpenVPNOptions.
(** The client's secrets and session identifier, drawn by [NewManager], and
    the channel that [StartWorkers] built. *)
Variables (loc : KeySource) (lsid : list byte) (d0 : DataChannel.DataChannel).
Hypothesis channel_built : DataChannel.NewDataChannelFromOptions o = Ok d0.

Definition freshKey (k : DataChannelKey) : Prop := key_ready k = false /\ key_local k = Some loc.

(** The message with our secrets was written to the TLS connection. *)
Definition authSent (sent : list (list byte)) : Prop :=
  exists msg, msg ∈ sent /\ encodeClientControlMessageAsBytes loc o = Ok msg.

(** The key is complete: our message was written, and the server's random
    values are those of a message that was read. *)
Definition agreed (k : DataChannelKey) (rem : KeySource) (sent rcvd : list (list byte)) : Prop :=
  key_ready k = true /\ key_local k = Some loc /\ key_remote k = Some rem /\ authSent sent /\
  exists reply opts, reply ∈ rcvd /\ parseServerControlMessage reply = Ok (rem, opts).

Definition phase_ok (k : DataChannelKey) (ph : tlsPhase) (sent rcvd : list (list byte)) : Prop :=
  match ph with
  | THandshaking => freshKey k
  | TSendingAuth i msg => i = 0%nat /\ freshKey k /\ encodeClientControlMessageAsBytes loc o = Ok msg
  | TAwaitingReply i => i = 0%nat /\ freshKey k /\ authSent sent
  | TSendingPush i | TAwaitingPush i | TSendingKey i => i = 0%nat /\ exists rem, agreed k rem sent rcvd
  | TIdle | TReturned => True
  end.

(** The bytes of a data packet on the network that, with the key material,
    are its nonce; and that no two packets share them, all being identifiers
    below the counter. *)
Definition wireNonce (raw : list byte) : list byte := take 4 (drop 4 raw).

Definition noncesBelow (next : Z) (raws : list (list byte)) : Prop :=
  NoDup (map wireNonce raws) /\ Forall (fun raw => exists i, 1 <= i < next /\ wireNonce raw = be_bytes 4 i) raws.

Definition aeadMode : Prop := exists c, DataChannel.dataCipher (DataChannel.state d0) = Some c /\ isAEAD c = true.

(** The data channel before it has keys. *)
Definition silent (kr : list nat) : dataSide := mkDataSide kr d0 false 0 [] [].

(** The channel with the keys both sides derive from the two key sources. *)
Definition keyedFor (rem : KeySource) (sid : list byte) (d : DataChannel.DataChannel) : Prop :=
  exists alg i, DataChannel.hash (DataChannel.state d0) = Some alg /\
    d = atRemoteID i (keyedChannel alg (serverExpansion loc (R1 rem) (R2 rem) lsid sid) d0).

Inductive stage (k : DataChannelKey) : option (list byte) -> tlsSide -> dataSide -> Prop :=
  | st_opening : freshKey k -> stage k None (mkTLSSide [] TIdle [] []) (silent [])
  | st_notified sid n : freshKey k -> stage k (Some sid) (mkTLSSide [n] TIdle [] []) (silent [])
  | st_negotiation sid ph sent rcvd :
      phase_ok k ph sent rcvd -> stage k (Some sid) (mkTLSSide [] ph sent rcvd) (silent [])
  | st_handed sid sent rcvd rem :
      agreed k rem sent rcvd -> stage k (Some sid) (mkTLSSide [] TIdle sent rcvd) (silent [0%nat])
  | st_keyed sid sent rcvd rem d dw up :
      agreed k rem sent rcvd -> keyedFor rem sid d ->
      stage k (Some sid) (mkTLSSide [] TIdle sent rcvd) (mkDataSide [] d true 1 dw up).

Record client_inv (c : client) : Prop := {
  ci_mgr : manager_inv (cmgr c);
  ci_queue : Forall isControlV1 (incomingPackets (rcv (ctl c)));
  ci_state : S_GENERATED_KEYS <= negState (cmgr c) -> firstKey (data c) = true;
  ci_local : localSessionID (cmgr c) = lsid;
  ci_nonces : aeadMode -> noncesBelow (localDataPacketID (cmgr c)) (dataWire (data c));
  ci_stage : exists k, keys (cmgr c) = [k] /\ stage k (remoteSessionID (cmgr c)) (tls c) (data c)
}.

Lemma noncesBelow_mono a b raws : a <= b -> noncesBelow a raws -> noncesBelow b raws.
Proof.
  intros Hab [H1 H2]. split; [done|]. eapply Forall_impl; [exact H2|]. intros raw (i & ? & ?). exists i. split; [lia | done].
Qed.

(** A packet with the identifier the counter had. *)
Lemma noncesBelow_snoc next raws raw :
  1 <= next < MaxUint32 -> noncesBelow next raws -> wireNonce raw = be_bytes 4 next -> noncesBelow (next + 1) (raws ++ [raw]).
Proof.
  intros Hn Hr Hw. split.
  - rewrite map_app. apply NoDup_app. split; [apply Hr|]. split; [|cbn; repeat constructor; set_solver].
    cbn. intros x (r & -> & Hin)%list_elem_of_fmap Hx%list_elem_of_singleton. destruct Hr as [_ Hr].
    rewrite Forall_forall in Hr. destruct (Hr r Hin) as (i & Hi & E). rewrite Hx, Hw in E.
    apply (f_equal be_val) in E. rewrite !be_val_bytes in E. change (256 ^ Z.of_nat 4) with (2 ^ 32) in E.
    rewrite !Z.mod_small in E by (unfold MaxUint32 in *; lia). lia.
  - apply Forall_app. split; [eapply noncesBelow_mono; [|exact Hr]; lia|].
    constructor; [|constructor]. exists next. split; [lia | done].
Qed.

Lemma channel_ready_atRemoteID i d c hl hr : channel_ready d c hl hr -> channel_ready (atRemoteID i d) c hl hr.
Proof. intros []. by constructor. Qed.

(** The channel that the key exchange leaves. *)
Lemma keyedFor_ready rem sid d :
  keyedFor rem sid d ->
  exists c hl hr, channel_ready d c hl hr /\ DataChannel.dataCipher (DataChannel.state d0) = Some c.
Proof.
  intros (alg & i & Ha & ->).
  destruct (keyedChannel_ready o d0 alg (serverExpansion loc (R1 rem) (R2 rem) lsid sid) channel_built (length_PRF10 _ _ _)) as (c & Hc).
  eexists c, _, _. split; [apply channel_ready_atRemoteID; exact Hc|]. exact (cr_cipher _ _ _ _ Hc).
Qed.

(** A step that is quiet for the manager and the other parts. *)
Lemma client_inv_quiet c c' :
  client_inv c -> quiet (cmgr c) (cmgr c') -> Forall isControlV1 (incomingPackets (rcv (ctl c'))) ->
  tls c' = tls c -> data c' = data c -> client_inv c'.
Proof.
  intros [H1 H2 H3 H4 Hn (k & H5 & H6)] [G1 G2 G3 G4 G5 G6] Hq Ht Hd. constructor; rewrite ?Ht, ?Hd; auto.
  - intros ?. apply H3. destruct G5; lia.
  - congruence.
  - intros Ha. eapply noncesBelow_mono; [exact G6 | auto].
  - exists k. rewrite G2, G4. auto.
Qed.

(** The last packet identifier, the packets written and the payloads read
    change only when there are keys. *)
Lemma stage_data k rs t d i dw up :
  stage k rs t d -> firstKey d = true ->
  stage k rs t (mkDataSide (keyReady d) (atRemoteID i (channel d)) (firstKey d) (readySignals d)
                  (dataWire d ++ dw) (toTUN d ++ up)).
Proof.
  intros [| | | |sid sent rcvd rem ch dw' up' Hag (alg & j & Ha & ->)] Hf; try discriminate Hf.
  eapply st_keyed; [exact Hag|]. exists alg, i. done.
Qed.

(** A packet that the muxer passes to the reliable transport. *)
Lemma deliver_reliable c p :
  Forall isControlV1 (incomingPackets (rcv (ctl c))) ->
  deliver c (Muxer.ToReliable p) = Ok (with_ctl (passUp (ctl c) p) c).
Proof. intros Hq. cbn [deliver]. by rewrite (proj1 (proj2 (passUp_quiet _ _ Hq))). Qed.

Lemma passUp_inv c p : client_inv c -> client_inv (with_ctl (passUp (ctl c) p) c).
Proof.
  intros Hc. destruct (passUp_quiet (ctl c) p (ci_queue _ Hc)) as (H1 & _ & H3).
  apply (client_inv_quiet c); try done. unfold cmgr. cbn. rewrite H1. apply quiet_refl.
Qed.

(** A data packet, once there are keys. *)
Lemma deliver_data c p c' :
  client_inv c -> S_GENERATED_KEYS <= negState (cmgr c) -> deliver c (Muxer.ToData p) = Ok c' -> client_inv c'.
Proof.
  intros [H1 H2 H3 H4 Hnc (k & H5 & H6)] Hst%H3. cbn [deliver].
  intros ([ws up] & E & [= <-])%bind_Ok.
  unfold DataChannel.moveUpWorker_step in E. cbn [dataWorkers DataChannel.dataChannel DataChannel.sessionManager] in E.
  destruct (DataChannel.readPacket (channel (data c)) (cmgr c) p) as [r d'] eqn:Er.
  apply readPacket_channel in Er as (i & ->).
  assert (DataChannel.dataChannel ws = atRemoteID i (channel (data c))) as Hw
    by (destruct r; [destruct (_ =? _)|..]; try done; by injection E as <- _).
  rewrite Hw. constructor; try done. exists k. split; [done|].
  cbn [data with_data tls]. rewrite <- (app_nil_r (dataWire (data c))). by apply stage_data.
Qed.

(** The hard reset, whether requested or repeated. *)
Lemma hardReset_inv ws c c' r ws' es :
  client_inv c -> Muxer.sessionManager ws = cmgr c -> Muxer.startHardReset None ws = (r, ws', es) ->
  deliverAll (with_ctl (with_mux ws' (ctl c)) c) es = Ok c' -> client_inv c'.
Proof.
  intros Hc Hws. destruct (Muxer.startHardReset_spec ws) as (raw & _ & ->); [rewrite Hws; apply Hc|].
  intros [= <- <- <-]. cbn [deliverAll deliver mbind outcome_bind]. intros [= <-].
  apply (client_inv_quiet c); try done; [|apply Hc]. unfold cmgr, mgr. cbn. rewrite Hws. by apply quiet_negState.
Qed.

(** A server reset that ends the three-way handshake. *)
Lemma finish_inv ws c c' p r ws' es :
  client_inv c -> Muxer.sessionManager ws = cmgr c ->
  Muxer.finishThreeWayHandshake None ws p = (r, ws', es) -> r <> Panic ->
  deliverAll (with_ctl (with_mux ws' (ctl c)) c) es = Ok c' -> client_inv c'.
Proof.
  intros [H1 H2 H3 H4 Hnc (k & H5 & H6)] Hws. unfold Muxer.finishThreeWayHandshake. rewrite Hws.
  unfold SetRemoteSessionID, IsRemoteSessionIDSet. destruct (remoteSessionID (cmgr c)) as [sid|] eqn:Hr;
    [by intros [= <- <- <-]|]. go_step. cbn [SetNegotiationState Muxer.trySends]. intros [= <- <- <-] _.
  set (c1 := with_ctl _ c). cbn [deliverAll]. rewrite deliver_reliable by done. cbn [mbind outcome_bind deliver].
  destruct (passUp_quiet (ctl c1) p H2) as (Hm & _ & Hq).
  change (mgr (ctl c1)) with (set_negState S_START (set_remoteSessionID (Some (LocalSessionID p)) (cmgr c))) in Hm.
  generalize dependent (passUp (ctl c1) p). intros e Hm Hq [= <-].
  constructor; unfold cmgr; cbn [ctl with_tls with_ctl]; rewrite ?Hm.
  - destruct H1. by constructor.
  - done.
  - cbn. unfold S_GENERATED_KEYS, S_START. lia.
  - done.
  - exact Hnc.
  - exists k. split; [done|]. cbn. inversion H6 as [Hf Ht Hd| | | |]; [|congruence..].
    by apply st_notified.
Qed.

(** Whatever arrives from the network. *)
Lemma receive_inv raw c c' : client_inv c -> mux_step (Muxer.EvRaw None raw) c = Ok c' -> client_inv c'.
Proof.
  intros Hc. unfold mux_step. cbn [Muxer.moveUpWorker_step].
  destruct (Muxer.handleRawPacket None (mux (ctl c)) raw) as [[r ws] es] eqn:E.
  assert (with_ctl (with_mux (mux (ctl c)) (ctl c)) c = c) as Hid by (by destruct c as [[] ? ? ?]).
  revert E. unfold Muxer.handleRawPacket. destruct (ParsePacket raw) as [p|e|].
  2:{ intros [= <- <- <-]. rewrite Hid. by intros [= <-]. }
  2:{ by intros [= <- <- <-]. }
  destruct (_ && _).
  { intros E. destruct r; [|..]; intros H1; [| |done]; eapply finish_inv in E; eauto; done. }
  destruct (_ || _).
  { cbn [Muxer.trySends]. intros [= <- <- <-]. rewrite Hid. cbn [deliverAll]. rewrite deliver_reliable by apply Hc.
    intros [= <-]. by apply passUp_inv. }
  destruct (Z.ltb_spec (negState (Muxer.sessionManager (mux (ctl c)))) S_GENERATED_KEYS) as [|Hn].
  { destruct (Packet_IsData p); intros [= <- <- <-]; rewrite Hid; by intros [= <-]. }
  cbn [Muxer.trySends]. intros [= <- <- <-]. rewrite Hid. cbn [deliverAll]. intros (c1 & E & [= <-])%bind_Ok.
  by eapply deliver_data.
Qed.

Lemma authSent_app sent s : authSent sent -> authSent (sent ++ s).
Proof. intros (msg & ? & ?). exists msg. split; [set_solver | done]. Qed.

Lemma agreed_app k rem sent rcvd s r : agreed k rem sent rcvd -> agreed k rem (sent ++ s) (rcvd ++ r).
Proof.
  intros (H1 & H2 & H3 & H4 & reply & opts & H5 & H6). do 3 (split; [done|]). split; [by apply authSent_app|].
  exists reply, opts. split; [set_solver | done].
Qed.

Lemma phase_ok_error k e sent rcvd : phase_ok k (afterError e) sent rcvd.
Proof. by destruct e. Qed.

(** The server's random values complete the key, once. *)
Lemma AddRemoteKey_agreed m k rk sent rcvd reply opts m' :
  manager_inv m -> keys m = [k] -> freshKey k -> authSent sent -> reply ∈ rcvd ->
  parseServerControlMessage reply = Ok (rk, opts) ->
  m' = (match keys m !! 0%nat with
        | Some ak => match AddRemoteKey ak rk with Ok k => modifyKey 0 k m | _ => m end
        | None => m end) ->
  exists k', keys m' = [k'] /\ agreed k' rk sent rcvd /\ manager_inv m' /\ localSessionID m' = localSessionID m /\
    remoteSessionID m' = remoteSessionID m /\ localDataPacketID m' = localDataPacketID m.
Proof.
  intros Hm Hk [Hf Hl] Hs Hin Hp ->. rewrite Hk. cbn. unfold AddRemoteKey. rewrite Hf. eexists.
  split; [cbn; by rewrite Hk|]. split; [|split; [|done]].
  - do 3 (split; [done|]). split; [done|]. eauto.
  - destruct Hm. constructor; cbn; rewrite ?Hk; try done; apply Forall_singleton; cbn; congruence.
Qed.

(** What the negotiation leaves behind when it reaches a phase. *)
Record tls_keeps (m : Manager) (sent rcvd : list (list byte)) (ph' : tlsPhase) (m' : Manager) : Prop := {
  tk_key : exists k', keys m' = [k'] /\ phase_ok k' ph' sent rcvd;
  tk_mgr : manager_inv m';
  tk_local : localSessionID m' = localSessionID m;
  tk_remote : remoteSessionID m' = remoteSessionID m;
  tk_state : negState m' = negState m \/ negState m' < S_GENERATED_KEYS;
  tk_dataID : localDataPacketID m' = localDataPacketID m
}.

(** The negotiation between two calls. *)
Lemma tls_step_ok ph a m k sent rcvd ph' m' s :
  manager_inv m -> keys m = [k] -> phase_ok k ph sent rcvd -> tls_step o ph a m = Ok (ph', m', s) ->
  tls_keeps m (sent ++ option_list s) (rcvd ++ readOf a) ph' m'.
Proof.
  intros Hm Hk Hph.
  assert (forall e, Ok (afterError e, m, @None (list byte)) = Ok (ph', m', s) ->
    tls_keeps m (sent ++ option_list s) (rcvd ++ readOf a) ph' m') as Hfail.
  { intros e [= <- <- <-]. constructor; auto. exists k. split; [done | apply phase_ok_error]. }
  destruct ph as [| |i msg|i|i|i|i|], a as [[]|[]|[]]; cbn [tls_step phase_ok] in *; try discriminate; try (by apply Hfail).
  - destruct (ActiveKey_Ok m Hm) as (k0 & Hk0 & ->). rewrite Hk in Hk0. injection Hk0 as <-.
    rewrite (proj2 Hph). destruct (encodeClientControlMessageAsBytes loc o) as [msg|e|] eqn:Ee; [|by apply Hfail|done].
    intros [= <- <- <-]. constructor; auto. exists k. split; [done|]. cbn. auto.
  - destruct Hph as (-> & Hf & He). cbn [SetNegotiationState]. intros [= <- <- <-].
    destruct (quiet_negState S_SENT_KEY m); [done|]. constructor; auto.
    exists k. split; [done|]. do 2 (split; [done|]). exists msg. split; [set_solver | done].
  - destruct Hph as (-> & Hf & Hs). destruct (parseServerControlMessage a) as [[rk opts]|e|] eqn:Ep; [|by apply Hfail|done].
    destruct (InitTunnelInfo m opts) as [m1|e|] eqn:Ei; [|by apply Hfail|done].
    apply InitTunnelInfo_keeps in Ei as (E1 & E2 & E3 & E4 & E6 & E5).
    destruct (AddRemoteKey_agreed m1 k rk sent (rcvd ++ [a]) a opts _ (E5 Hm) ltac:(congruence) Hf Hs ltac:(set_solver) Ep eq_refl)
      as (k' & H1 & H2 & H3 & H4 & H5 & H6).
    cbn [SetNegotiationState]. intros [= <- <- <-]. constructor; cbn [localSessionID remoteSessionID localDataPacketID set_negState]; [|..|by right|congruence].
    + exists k'. split; [done|]. split; [done|]. exists rk. cbn. by rewrite app_nil_r.
    + by apply quiet_negState.
    + congruence.
    + congruence.
  - destruct Hph as (-> & rem & Hag). intros [= <- <- <-]. constructor; auto. exists k. split; [done|].
    split; [done|]. exists rem. by apply agreed_app.
  - destruct Hph as (-> & rem & Hag). destruct (parseServerPushReply a) as [ti|e|]; [|by apply Hfail|done].
    cbn [SetNegotiationState]. intros [= <- <- <-]. constructor; [| |done|done|by right|done].
    + exists k. split; [done|]. split; [done|]. exists rem. by apply agreed_app.
    + destruct Hm. by constructor.
Qed.

Lemma stage_notified k rs t d certs n rest ph :
  stage k rs t d -> notifyTLS t = n :: rest -> tls_notified certs n = Ok ph ->
  stage k rs (mkTLSSide rest ph (tlsSent t) (tlsReceived t)) d.
Proof.
  intros Hst Hn. unfold tls_notified. destruct Hst; try discriminate Hn. injection Hn as -> <-.
  destruct (_ =? 0); [intros [= <-]; by apply st_negotiation|].
  destruct certs as [[]|e|]; intros E; [| |done]; injection E as <-; apply st_negotiation; [done | apply phase_ok_error].
Qed.

Lemma stage_sendKey k rs t d i :
  stage k rs t d -> phase t = TSendingKey i -> keyReady d = [] ->
  stage k rs (mkTLSSide (notifyTLS t) TIdle (tlsSent t) (tlsReceived t))
    (mkDataSide [i] (channel d) (firstKey d) (readySignals d) (dataWire d) (toTUN d)).
Proof.
  intros Hst Hp Hk. destruct Hst as [| |sid ph sent rcvd Hph| |]; try discriminate Hp.
  cbn in Hp. subst ph. destruct Hph as (-> & rem & Hag). by eapply st_handed.
Qed.

Lemma stage_ready k rs t d :
  stage k rs t d -> firstKey d = true ->
  exists c hl hr, channel_ready (channel d) c hl hr /\ DataChannel.dataCipher (DataChannel.state d0) = Some c.
Proof. intros [| | | |sid sent rcvd rem ch dw up _ Hk] Hf; try discriminate Hf. by eapply keyedFor_ready. Qed.

Lemma stage_phase k rs t d : stage k rs t d -> phase t = TIdle \/ phase_ok k (phase t) (tlsSent t) (tlsReceived t).
Proof. intros []; auto. Qed.

Lemma stage_keyed_inv k rs t d :
  stage k rs t d -> firstKey d = true ->
  exists sid rem, rs = Some sid /\ agreed k rem (tlsSent t) (tlsReceived t) /\ keyedFor rem sid (channel d).
Proof. intros [] Hf; try discriminate Hf. eauto. Qed.

(** What a write of the application puts on the network. *)
Lemma moveDown_nonces gen d m payload ws ps raws c hl hr :
  channel_ready d c hl hr -> isAEAD c = true -> manager_inv m -> noncesBelow (localDataPacketID m) raws ->
  DataChannel.moveDownWorker_step gen (DataChannel.mkWorkersState d m true) payload = Ok (ws, ps) ->
  noncesBelow (localDataPacketID (DataChannel.sessionManager ws)) (raws ++ emit ps).
Proof.
  intros Hd Ha Hm Hn. unfold DataChannel.moveDownWorker_step. cbn [DataChannel.dataChannel DataChannel.sessionManager].
  destruct (DataChannel.writePacket gen d m payload) as [r m'] eqn:E.
  pose proof E as Hu. apply (writePacket_nonce gen d c hl hr) in Hu; [|done..].
  destruct r as [p|e|]; [|intros [= <- <-]|done].
  - intros [= <- <-]. destruct Hu as [[_ Hu]|(Hlt & -> & Hu)]; [discriminate Hu|].
    assert (emit [p] = [Payload p]) as ->.
    { unfold emit. cbn. unfold Muxer.moveDownWorker_step, Packet_Bytes. by rewrite (writePacket_opcode _ _ _ _ _ _ E). }
    pose proof (inv_data _ Hm). apply noncesBelow_snoc; [lia|done|]. by apply Hu.
  - cbn. rewrite app_nil_r. destruct Hu as [[-> _]|(_ & -> & _)]; [done|]. cbn. eapply noncesBelow_mono; [|exact Hn]. lia.
Qed.

(** The negotiation moves on; outside of it no call can return. *)
Lemma stage_answer m t d a ph m' s :
  manager_inv m -> (exists k, keys m = [k] /\ stage k (remoteSessionID m) t d) ->
  tls_step o (phase t) a m = Ok (ph, m', s) ->
  manager_inv m' /\ localSessionID m' = localSessionID m /\
  (negState m' = negState m \/ negState m' < S_GENERATED_KEYS) /\ localDataPacketID m' = localDataPacketID m /\
  exists k, keys m' = [k] /\
    stage k (remoteSessionID m') (mkTLSSide (notifyTLS t) ph (tlsSent t ++ option_list s) (tlsReceived t ++ readOf a)) d.
Proof.
  intros Hm (k & Hk & Hst). assert (forall t', phase t = TIdle -> tls_step o (phase t) a m <> Ok t') as Hidle.
  { intros t' ->. destruct a as [[]|[]|[]]; discriminate. }
  destruct (remoteSessionID m) as [sid0|] eqn:Hr, t as [ns ph0 sent rcvd]; cbn in *;
    inversion Hst; subst; intros E; try (exfalso; by eapply Hidle).
  apply (tls_step_ok _ _ _ k sent rcvd) in E as [(k' & G1 & G2) G3 G4 G5 G6 G7]; [|done..].
  do 4 (split; [done|]). exists k'. split; [done|]. rewrite G5, Hr. by apply st_negotiation.
Qed.

Lemma stage_handed k rs t d i rest :
  stage k rs t d -> keyReady d = i :: rest ->
  exists sid sent rcvd rem, i = 0%nat /\ rest = [] /\ rs = Some sid /\ t = mkTLSSide [] TIdle sent rcvd /\
    d = silent [0%nat] /\ agreed k rem sent rcvd.
Proof. intros [| | |sid sent rcvd rem Hag|] Hi; try discriminate Hi. injection Hi as <- <-. eauto 12. Qed.

(** The key that was handed over makes the channel ready. *)
Lemma stage_keyWorker m t d i rest key ws sig :
  localSessionID m = lsid -> (exists k, keys m = [k] /\ stage k (remoteSessionID m) t d) -> keyReady d = i :: rest ->
  keys m !! i = Some key ->
  DataChannel.keyWorker_step (DataChannel.mkWorkersState (channel d) m (firstKey d)) key = Ok (ws, sig) ->
  DataChannel.sessionManager ws = set_negState S_GENERATED_KEYS m /\ DataChannel.firstKeyReady ws = true /\
  exists k, keys m = [k] /\
    stage k (remoteSessionID m) t (mkDataSide rest (DataChannel.dataChannel ws) (DataChannel.firstKeyReady ws)
      (if sig : bool then S (readySignals d) else readySignals d) (dataWire d) (toTUN d)).
Proof.
  intros Hl (k & Hk & Hst) Hi Hkey.
  destruct (stage_handed _ _ _ _ _ _ Hst Hi) as (sid & sent & rcvd & rem & -> & -> & Hr & -> & -> & Hag).
  rewrite Hk in Hkey. injection Hkey as <-.
  unfold DataChannel.keyWorker_step. cbn [DataChannel.dataChannel DataChannel.sessionManager channel silent].
  destruct (setupKeys_keyed o d0 m k loc rem channel_built) as (alg & Ha & ->); [apply Hag..|].
  cbn [SetNegotiationState]. intros [= <- <-]. split; [done|]. split; [done|]. exists k. split; [done|].
  rewrite Hr. eapply st_keyed; [exact Hag|]. exists alg, (DataChannel.remotePacketID (DataChannel.state d0)). split; [done|].
  unfold keyExpansion, serverExpansion, GetLocalSessionID, GetRemoteSessionID. rewrite Hr, ?Hl. reflexivity.
Qed.

Lemma with_mgr_id c : with_mgr (cmgr c) c = c.
Proof. by destruct c as [[[] ? ? ? ? ? ?] ? ? ?]. Qed.

(** A payload of the application. *)
Lemma tunWrite_inv gen payload c c' :
  client_inv c -> client_step o (CTunWrite gen payload) c = Ok c' -> client_inv c'.
Proof.
  intros [H1 H2 H3 H4 Hn H5]. run_handler.
  destruct (firstKey (data c)) eqn:Ef; [|done]. intros ([ws ps] & E & [= <-])%bind_Ok.
  pose proof E as E0. unfold DataChannel.moveDownWorker_step in E. cbn [dataWorkers DataChannel.dataChannel DataChannel.sessionManager] in E.
  destruct (DataChannel.writePacket gen (channel (data c)) (cmgr c) payload) as [r m] eqn:Ew.
  pose proof Ew as Hq. apply quiet_writePacket in Hq as [G1 G2 G3 G4 _ _]; [|done].
  assert (aeadMode -> noncesBelow (localDataPacketID (DataChannel.sessionManager ws)) (dataWire (data c) ++ emit ps)) as Hnew.
  { intros (cph & Hcph & Ha). destruct H5 as (k & _ & Hst). destruct (stage_ready _ _ _ _ Hst Ef) as (c' & hl & hr & Hr & Hc').
    rewrite Hcph in Hc'. injection Hc' as <-. eapply (moveDown_nonces gen); eauto; [apply Hn; eexists; eauto|].
    unfold dataWorkers in E0. by rewrite Ef in E0. }
  assert (DataChannel.sessionManager ws = m) as Hwm by (destruct r; try done; by injection E as <- _).
  rewrite Hwm in *. constructor; [exact (G1 H1)|done|done|exact (eq_trans G3 H4)|exact Hnew|]. destruct H5 as (k & Hk & Hst). exists k. split; [exact (eq_trans G2 Hk)|].
  apply (stage_data _ _ _ _ (DataChannel.remotePacketID (DataChannel.state (channel (data c)))) (emit ps) []) in Hst; [|done].
  rewrite atRemoteID_self, app_nil_r in Hst. change (remoteSessionID (cmgr _)) with (remoteSessionID m). rewrite G4.
  by rewrite Ef in Hst.
Qed.

(** Every step of every worker keeps the invariant. *)
Lemma client_step_inv ev c c' : client_inv c -> client_step o ev c = Ok c' -> client_inv c'.
Proof.
  intros Hc. pose proof Hc as [H1 H2 H3 H4 Hn H5].
  destruct ev as [| | |raw|record|now budget|now|certs|a| | |gen payload]; run_handler.
  - destruct (hardReset c); [|done]. unfold mux_step. cbn [Muxer.moveUpWorker_step].
    destruct (Muxer.startHardReset None _) as [[r ws] es] eqn:E. destruct r; try done;
      intros E'; eapply hardReset_inv; [| |exact E|exact E'|..]; try done; by constructor.
  - unfold mux_step. cbn [Muxer.moveUpWorker_step]. destruct (Muxer.running _); [|done]. intros [= <-].
    apply (client_inv_quiet c); try done. apply quiet_refl.
  - unfold mux_step. cbn [Muxer.moveUpWorker_step]. destruct (Muxer.pendingTick _); [|done].
    destruct (Muxer.startHardReset None _) as [[r ws] es] eqn:E. destruct r; try done;
      intros E'; eapply hardReset_inv; [| |exact E|exact E'|..]; done.
  - destruct (_ <? _); [|done]. by apply receive_inv.
  - destruct (negotiating _); [|done]. intros (e & E & [= <-])%bind_Ok. apply writeRecord_quiet in E as [Hq Hr]; [|done].
    apply (client_inv_quiet c); try done. cbn. by rewrite Hr.
  - intros (e & E & [= <-])%bind_Ok. apply tick_quiet in E as [Hm Hr].
    apply (client_inv_quiet c); try done; [|cbn; by rewrite Hr]. unfold cmgr, mgr. cbn. rewrite Hm. apply quiet_refl.
  - intros (e & E & [= <-])%bind_Ok. apply readSeen_quiet in E as [Hm Hr].
    apply (client_inv_quiet c); try done; [|cbn; by rewrite Hr]. unfold cmgr, mgr. cbn. rewrite Hm. apply quiet_refl.
  - destruct (phase (tls c)) eqn:Ep; try done. destruct (notifyTLS (tls c)) as [|n rest] eqn:En; [done|].
    intros (ph & E & [= <-])%bind_Ok. constructor; try done. destruct H5 as (k & Hk & Hst). exists k. split; [done|].
    by eapply stage_notified.
  - intros ([[ph m] s] & E & [= <-])%bind_Ok.
    destruct (stage_answer _ _ _ _ _ _ _ H1 H5 E) as (G1 & G2 & G3 & G5 & G4).
    constructor; try done; [|exact (eq_trans G2 H4)|change (cmgr _) with m; by rewrite G5]. intros Hs. apply H3. change (cmgr _) with m in Hs. destruct G3; lia.
  - destruct (phase (tls c)) eqn:Ep; try done. destruct (keyReady (data c)) eqn:Ek; [|done]. intros [= <-].
    constructor; try done. destruct H5 as (k & Hk & Hst). exists k. split; [done|]. by apply stage_sendKey.
  - destruct (keyReady (data c)) as [|j rest] eqn:Ek; [done|]. destruct (keys (cmgr c) !! j) as [key|] eqn:Ej; [|done].
    intros ([ws sig] & E & [= <-])%bind_Ok.
    destruct (stage_keyWorker _ _ _ _ _ _ _ _ H4 H5 Ek Ej E) as (G1 & G2 & G3). rewrite G1.
    constructor; try done. destruct H1. by constructor.
  - by apply (tunWrite_inv gen payload).
Qed.

Lemma client_run_inv evs c c' : client_inv c -> client_run o evs c = Ok c' -> client_inv c'.
Proof.
  revert c. induction evs as [|ev evs IH]; intros c Hc; cbn [client_run]; [by intros [= <-]|].
  intros (c1 & E & Hr)%bind_Ok. eapply IH; [|exact Hr]. by eapply client_step_inv.
Qed.
End Life.
