(* ===== verification/ClientSession.v ===== *)
(** * Sessions of the client

    What holds of every run of the client of [Client], from its launch and
    whatever the network, the TLS library and the application do. *)

From S2P Require Import Prelude Bytesx Packet GoStrings Session Config Sender Receiver ControlChannel.
From S2P Require Import Crypto ControlMsg TLSSession EndToEnd DataChannelSpec Establish Client.
From S2P Require Muxer DataChannel Delivery.

Section Sessions.
Context `{CryptoLaws}.
Variables (o : OpenVPNOptions) (randomFn : RandomFn) (m0 : Manager) (d0 : DataChannel.DataChannel).
Hypothesis session_created : NewManager randomFn = Ok m0.
Hypothesis channel_built : DataChannel.NewDataChannelFromOptions o = Ok d0.

(** The client's half of the key. *)
Lemma launch_inv : exists loc,
  length (PreMaster loc) = 48%nat /\ length (R1 loc) = 32%nat /\ length (R2 loc) = 32%nat /\
  client_inv o loc (localSessionID m0) d0 (launch m0 d0).
Proof.
  destruct (NewManager_key _ _ session_created) as (k & loc & Hk & Hf & Hl & H1 & H2 & H3).
  destruct (NewManager_inv _ _ session_created) as (Hm & _ & _ & Hr & Hs). exists loc. do 3 (split; [done|]).
  constructor; try done; [intros Hn; change (cmgr _) with m0 in Hn; rewrite Hs in Hn; by destruct Hn|split; constructor|].
  exists k. split; [done|]. change (remoteSessionID (cmgr (launch m0 d0))) with (remoteSessionID m0). rewrite Hr.
  by apply st_opening.
Qed.

Lemma reachable_inv evs c : client_run o evs (launch m0 d0) = Ok c -> exists loc,
  length (PreMaster loc) = 48%nat /\ length (R1 loc) = 32%nat /\ length (R2 loc) = 32%nat /\
  client_inv o loc (localSessionID m0) d0 c.
Proof.
  destruct launch_inv as (loc & H1 & H2 & H3 & Hi). intros Hr. exists loc. do 3 (split; [done|]).
  by eapply client_run_inv.
Qed.

(** ** One negotiation, one key, and no data before it *)

Lemma stage_slots loc k rs t d :
  stage o loc (localSessionID m0) d0 k rs t d ->
  (length (notifyTLS t) <= 1)%nat /\ (length (keyReady d) <= 1)%nat /\
  (readySignals d = if firstKey d then 1%nat else 0%nat) /\
  (firstKey d = false -> dataWire d = [] /\ toTUN d = [] /\ channel d = d0) /\
  (firstKey d = true -> keyReady d = [] /\ notifyTLS t = [] /\ phase t = TIdle).
Proof. intros []; cbn; repeat split; (lia || done). Qed.

Lemma mirrored_atRemoteID i d e m n c :
  mirrored d e m n c -> mirrored (atRemoteID i d) e m n c /\ mirrored d (atRemoteID i e) m n c.
Proof.
  intros [(hl & hr & hl' & H1 & H2) ? ? ? ?].
  split; (constructor; [|done..]); exists hl, hr, hl'; eauto using channel_ready_atRemoteID.
Qed.

(** The server that read our message, and whose random values we read, has the
    mirror of our channel. *)
Lemma keyedFor_mirrors loc rem sid d sent m n :
  length (PreMaster loc) = 48%nat -> length (R1 loc) = 32%nat -> length (R2 loc) = 32%nat ->
  authSent o loc sent -> keyedFor loc (localSessionID m0) d0 rem sid d ->
  exists msg srv cph, msg ∈ sent /\ serverChannel o msg (R1 rem) (R2 rem) (localSessionID m0) sid = Some srv /\
    DataChannel.dataCipher (DataChannel.state d0) = Some cph /\ DataChannel.remotePacketID (DataChannel.state srv) = 0 /\
    DataChannel.options d = o /\
    (DataChannel.dataHeader n = DataChannel.dataHeader m -> mirrored d srv m n cph /\ mirrored srv d n m cph).
Proof.
  intros H1 H2 H3 (msg & Hin & Henc) (alg & i & Ha & ->).
  set (ks := serverExpansion loc (R1 rem) (R2 rem) (localSessionID m0) sid) in *.
  destruct (encode_options _ _ _ Henc) as (so & Hso).
  destruct (keyed_mirrored o d0 alg ks m m channel_built (length_PRF10 _ _ _) eq_refl) as (cph & Hc & _).
  exists msg, (mirrorChannel (keyedChannel alg ks d0)), cph. split; [done|]. split.
  { unfold serverChannel. rewrite (serverParseClient_encoded loc o so msg) by done. cbn [mbind option_bind].
    by rewrite channel_built, Ha. }
  split; [done|]. pose proof channel_built as Hf. apply NewDataChannel_fields in Hf as (c' & alg' & _ & _ & Hd0).
  split; [by rewrite Hd0|]. split; [by rewrite Hd0|]. intros Hn.
  destruct (keyed_mirrored o d0 alg ks m n channel_built (length_PRF10 _ _ _) Hn) as (cph' & Hc' & G1 & G2).
  rewrite Hc in Hc'. injection Hc' as <-. split; by apply mirrored_atRemoteID.
Qed.
End Sessions.

(** C5: a session is established at most once.  In every run of the client
    from its launch, whatever the network, the TLS library and the application
    do: the one-slot channels [NotifyTLS] and [KeyReady] never need a second
    slot, the session is signalled as ready at most once, namely when the first
    key is in place, and until then no data packet has been written to the
    network, nothing has been given to the application and the channel is the
    one that was built. *)
Theorem client_session_once `{CryptoLaws} o randomFn m0 d0 evs c :
  NewManager randomFn = Ok m0 -> DataChannel.NewDataChannelFromOptions o = Ok d0 ->
  client_run o evs (launch m0 d0) = Ok c ->
  (length (notifyTLS (tls c)) <= 1)%nat /\ (length (keyReady (data c)) <= 1)%nat /\
  readySignals (data c) = (if firstKey (data c) then 1%nat else 0%nat) /\
  (firstKey (data c) = false ->
   dataWire (data c) = [] /\ toTUN (data c) = [] /\ channel (data c) = d0 /\ negState (cmgr c) < S_GENERATED_KEYS).
Proof.
  intros Hm Hd Hr. destruct (reachable_inv o randomFn m0 d0 Hm Hd evs c Hr) as (loc & _ & _ & _ & [_ _ Hs _ _ (k & _ & Hst)]).
  destruct (stage_slots _ _ _ _ _ _ _ _ Hst) as (H1 & H2 & H3 & H4 & _). do 3 (split; [done|]). intros Hf.
  destruct (H4 Hf) as (G1 & G2 & G3). do 3 (split; [done|]). apply Z.lt_nge. intros Hge. rewrite Hs in Hf by done. done.
Qed.

(** C2: the client's channel is the server's.  In every run of the client from
    its launch, once the first key is in place: one of the messages written to
    the TLS connection is our key message, one of those read is a key message
    of the server, and the data channel that a server following key method 2
    derives from the two and the two session identifiers is the mirror of the
    client's, in both directions; the next payload of the application crosses
    to it. *)
Theorem client_mirrors_server `{CryptoLaws} gen o randomFn m0 d0 evs c n :
  NewManager randomFn = Ok m0 -> DataChannel.NewDataChannelFromOptions o = Ok d0 ->
  client_run o evs (launch m0 d0) = Ok c -> firstKey (data c) = true ->
  DataChannel.dataHeader n = DataChannel.dataHeader (cmgr c) ->
  exists msg reply rem opts sid srv cph,
    msg ∈ tlsSent (tls c) /\ reply ∈ tlsReceived (tls c) /\ parseServerControlMessage reply = Ok (rem, opts) /\
    remoteSessionID (cmgr c) = Some sid /\
    serverChannel o msg (R1 rem) (R2 rem) (localSessionID m0) sid = Some srv /\
    DataChannel.dataCipher (DataChannel.state d0) = Some cph /\
    mirrored (channel (data c)) srv (cmgr c) n cph /\ mirrored srv (channel (data c)) n (cmgr c) cph /\
    (modeCarries gen cph (Compress o) -> localDataPacketID (cmgr c) < MaxUint32 -> forall payload, payload <> [] ->
     crosses gen cph (channel (data c)) srv (cmgr c) n payload).
Proof.
  intros Hm Hd Hr Hf Hn. destruct (reachable_inv o randomFn m0 d0 Hm Hd evs c Hr) as (loc & L1 & L2 & L3 & [Hi _ _ _ _ (k & _ & Hst)]).
  destruct (stage_keyed_inv _ _ _ _ _ _ _ _ Hst Hf) as (sid & rem & Hsid & (_ & _ & _ & Hsent & reply & opts & Hin & Hp) & Hk).
  destruct (keyedFor_mirrors o m0 d0 Hd loc rem sid _ _ (cmgr c) n L1 L2 L3 Hsent Hk) as (msg & srv & cph & Hmsg & Hsrv & Hc & Hz & Ho & Hmi).
  destruct (Hmi Hn) as [M1 M2]. exists msg, reply, rem, opts, sid, srv, cph. do 8 (split; [done|]).
  intros Hmode Hid payload Hne. apply mirrored_crosses; try done. by rewrite Ho.
Qed.

(** C6: in an AEAD mode no nonce is used twice in the life of the client.  In
    every run from its launch the data packets it has put on the network all
    carry different packet identifiers; that the key they are sealed under is
    installed once is part of [client_session_once]. *)
Theorem client_nonces_unique `{CryptoLaws} o randomFn m0 d0 evs c :
  NewManager randomFn = Ok m0 -> DataChannel.NewDataChannelFromOptions o = Ok d0 -> aeadMode d0 ->
  client_run o evs (launch m0 d0) = Ok c -> NoDup (map wireNonce (dataWire (data c))).
Proof.
  intros Hm Hd Ha Hr. destruct (reachable_inv o randomFn m0 d0 Hm Hd evs c Hr) as (loc & _ & _ & _ & [_ _ _ _ Hn _]).
  by apply Hn.
Qed.

(** ** The control plane of the client is an endpoint of [EndToEnd]

    There the other users of the manager are abstracted by the operations they
    may perform.  The workers modelled here perform no others. *)

Section Simulation.
Context `{CryptoLaws}.
Variable o : OpenVPNOptions.
Variable peerWire : list (list byte).

(** One or more steps of an endpoint, or none. *)
Definition endpoint_steps : endpoint -> endpoint -> Prop := rtc (fun e e' => exists l, local_step peerWire e l e').

Lemma session_ops_steps ops e :
  forallb otherWorkers ops = true -> endpoint_steps e (set_mgr (session_run ops (mgr e)).1 e).
Proof.
  revert e. induction ops as [|op ops IH]; intros e; cbn.
  - intros _. assert (set_mgr (mgr e) e = e) as -> by (by destruct e as [[] ? ? ? ? ? ?]). constructor.
  - intros [Hop Hops]%andb_true_iff. eapply rtc_l; [exists LSession; by apply ls_session|].
    specialize (IH (set_mgr (session_exec op (mgr e)).1 e) Hops).
    destruct (session_exec op (mgr e)) as [m1 ev1] eqn:E1. cbn in *.
    change (mgr (set_mgr m1 e)) with m1 in IH. destruct (session_run ops m1) as [m2 ev2]. exact IH.
Qed.

(** What the negotiation does to the manager. *)
Lemma tls_step_ops loc ph a m k sent rcvd ph' m' s :
  manager_inv m -> keys m = [k] -> phase_ok o loc k ph sent rcvd -> tls_step o ph a m = Ok (ph', m', s) ->
  exists ops, forallb otherWorkers ops = true /\ m' = (session_run ops m).1.
Proof.
  intros Hm Hk Hph. assert (forall x, Ok (x, m, @None (list byte)) = Ok (ph', m', s) ->
    exists ops, forallb otherWorkers ops = true /\ m' = (session_run ops m).1) as Hsame by (intros x [= <- <- <-]; by exists []).
  destruct ph as [| |i msg|i|i|i|i|], a as [[]|[]|[]]; cbn [tls_step phase_ok] in *; try discriminate; try (by apply Hsame).
  - destruct (ActiveKey m) as [[j ak]|e|]; [|by apply Hsame|done].
    destruct (match key_local ak with Some _ => _ | None => _ end) as [msg|e|]; [|by apply Hsame|done].
    by apply Hsame.
  - cbn [SetNegotiationState]. intros [= <- <- <-]. by exists [OpSetNegotiationState S_SENT_KEY].
  - destruct Hph as (-> & [Hf _] & _). destruct (parseServerControlMessage a) as [[rk opts]|e|]; [|by apply Hsame|done].
    destruct (InitTunnelInfo m opts) as [m1|e|] eqn:Ei; [|by apply Hsame|done].
    pose proof (InitTunnelInfo_keeps _ _ _ Ei) as (E1 & _ & _ & _ & _ & E5).
    destruct (ActiveKey_Ok m1 (E5 Hm)) as (k1 & Hk1 & HA). rewrite Hk1. cbn [SetNegotiationState lookup list_lookup].
    intros [= <- <- <-]. exists [OpInitTunnelInfo opts; OpAddRemoteKey rk; OpSetNegotiationState S_GOT_KEY]. split; [done|].
    cbn. rewrite Ei, HA. by destruct (AddRemoteKey k1 rk).
  - intros [= <- <- <-]. by exists [].
  - destruct (parseServerPushReply a) as [ti|e|]; [|by apply Hsame|done]. cbn [SetNegotiationState].
    intros [= <- <- <-]. by exists [OpUpdateTunnelInfo ti; OpSetNegotiationState S_ACTIVE].
Qed.

Lemma dataIDs_otherWorkers n : forallb otherWorkers (replicate n OpDataPacketID) = true.
Proof. by induction n. Qed.

(** What arrives was sent by the peer, or added by third parties without the
    identifiers of the session; every other event is allowed. *)
Definition controlEvent (m : Manager) (ev : clientEvent) : Prop :=
  match ev with
  | CReceive raw => raw ∈ peerWire \/ foreign m raw = true
  | _ => True
  end.

(** The hard reset request and the ticker. *)
Lemma timer_sim ev c c' :
  isTimer ev = true -> manager_inv (cmgr c) -> mux_step ev c = Ok c' -> timer ev (ctl c) = Ok (ctl c').
Proof.
  intros Hev Hm. unfold mux_step, timer.
  assert (forall ws r ws' es, Muxer.sessionManager ws = cmgr c -> Muxer.startHardReset None ws = (r, ws', es) ->
    r = Ok tt /\ exists raw, es = [Muxer.ToNetwork raw]) as Hreset.
  { intros ws r ws' es Hws. destruct (Muxer.startHardReset_spec ws) as (raw & _ & ->); [by rewrite Hws|].
    intros [= <- <- <-]. eauto. }
  destruct ev as [| |[]|[]|]; try discriminate Hev; cbn [Muxer.moveUpWorker_step].
  - destruct (Muxer.running _); [|done]. intros [= <-]. cbn. by rewrite app_nil_r.
  - destruct (Muxer.pendingTick _); [|done]. destruct (Muxer.startHardReset None _) as [[r ws] es] eqn:E.
    apply Hreset in E as [-> [raw ->]]; [|done]. by intros [= <-].
  - destruct (Muxer.startHardReset None _) as [[r ws] es] eqn:E.
    apply Hreset in E as [-> [raw ->]]; [|done]. by intros [= <-].
Qed.

Lemma receive_sim c raw c' :
  Forall isControlV1 (incomingPackets (rcv (ctl c))) -> remoteSessionID (cmgr c) <> None ->
  mux_step (Muxer.EvRaw None raw) c = Ok c' -> receive raw (ctl c) = Ok (ctl c').
Proof.
  intros Hq Hst. unfold mux_step, receive. cbn [Muxer.moveUpWorker_step]. unfold Muxer.handleRawPacket.
  destruct (ParsePacket raw) as [p|e|]; [|intros [= <-]; done|done].
  change (Muxer.sessionManager (mux (ctl c))) with (cmgr c).
  destruct (_ && _).
  { unfold Muxer.finishThreeWayHandshake. cbn [Muxer.sessionManager Muxer.set_ticker].
    change (Muxer.sessionManager (mux (ctl c))) with (cmgr c). unfold SetRemoteSessionID, IsRemoteSessionIDSet.
    by destruct (remoteSessionID (cmgr c)). }
  destruct (_ || _).
  - cbn [Muxer.trySends deliverAll]. rewrite deliver_reliable by done. intros [= <-]. done.
  - destruct (_ <? _); [destruct (Packet_IsData p); intros [= <-]; done|]. cbn [Muxer.trySends deliverAll deliver].
    intros (c1 & ([ws up] & _ & [= <-])%bind_Ok & [= <-])%bind_Ok. done.
Qed.

Lemma client_step_sim loc lsid d0 ev c c' :
  client_inv o loc lsid d0 c -> remoteSessionID (cmgr c) <> None -> controlEvent (cmgr c) ev ->
  client_step o ev c = Ok c' -> endpoint_steps (ctl c) (ctl c').
Proof.
  intros [H1 H2 H3 H4 Hn (k & Hk & Hst)] Hneg Hev.
  assert (forall l e, local_step peerWire (ctl c) l e -> endpoint_steps (ctl c) e) as Hone
    by (intros l e He; apply rtc_once; eauto).
  destruct ev as [| | |raw|record|now budget|now|certs|a| | |gen payload]; cbn [controlEvent] in Hev; run_handler.
  - destruct (hardReset c); [|done]. intros E. eapply Hone, (ls_timer _ _ (Muxer.EvHardReset None)); [done|].
    by apply (timer_sim _ (mkClient (ctl c) false (tls c) (data c))).
  - intros E. eapply Hone, (ls_timer _ _ Muxer.EvFire); [done | by apply timer_sim].
  - intros E. eapply Hone, (ls_timer _ _ (Muxer.EvTick None)); [done | by apply timer_sim].
  - destruct (Z.ltb_spec (len (seenQueue (ctl c))) incomingSeenCapacity); [|done]. intros E%receive_sim; [|done..].
    destruct Hev; [eapply Hone, ls_receive | eapply Hone, ls_foreign]; eauto.
  - destruct (negotiating _); [|done]. intros (e & E & [= <-])%bind_Ok. by eapply Hone, ls_write.
  - intros (e & E & [= <-])%bind_Ok. by eapply Hone, ls_tick.
  - intros (e & E & [= <-])%bind_Ok. by eapply Hone, ls_seen.
  - destruct (phase (tls c)); try done. destruct (notifyTLS (tls c)); [done|]. intros (ph & _ & [= <-])%bind_Ok. constructor.
  - intros ([[ph m] s] & E & [= <-])%bind_Ok.
    assert (exists ops, forallb otherWorkers ops = true /\ m = (session_run ops (cmgr c)).1) as (ops & Hops & ->).
    { destruct (stage_phase _ _ _ _ _ _ _ _ Hst) as [Hp|Hp]; [|by eapply tls_step_ops].
      rewrite Hp in E. destruct a as [[]|[]|[]]; discriminate E. }
    by apply session_ops_steps.
  - destruct (phase (tls c)); try done. destruct (keyReady (data c)); [|done]. intros [= <-]. constructor.
  - destruct (keyReady (data c)); [done|]. destruct (keys (cmgr c) !! _) as [key|]; [|done].
    intros ([ws sig] & E & [= <-])%bind_Ok. unfold DataChannel.keyWorker_step in E.
    destruct (DataChannel.setupKeys _ _ key); [|injection E as <- _|done].
    + cbn [SetNegotiationState] in E. injection E as <- _. by apply (session_ops_steps [OpSetNegotiationState S_GENERATED_KEYS]).
    + by apply (session_ops_steps []).
  - destruct (firstKey (data c)); [|done]. intros ([ws ps] & E & [= <-])%bind_Ok.
    unfold DataChannel.moveDownWorker_step in E. cbn [dataWorkers DataChannel.dataChannel DataChannel.sessionManager] in E.
    destruct (DataChannel.writePacket gen (channel (data c)) (cmgr c) payload) as [r m] eqn:Ew.
    apply writePacket_manager in Ew as (n & ->).
    assert (DataChannel.sessionManager ws = (session_run (replicate n OpDataPacketID) (cmgr c)).1) as ->
      by (destruct r; try done; by injection E as <- _).
    apply session_ops_steps, dataIDs_otherWorkers.
Qed.
End Simulation.

(** ** Opening the session

    What the control plane looks like until the server's session is known. *)

Section Opening.
Context `{CryptoLaws}.
Variables (o : OpenVPNOptions) (loc : KeySource) (lsid : list byte) (d0 : DataChannel.DataChannel).
Hypothesis channel_built : DataChannel.NewDataChannelFromOptions o = Ok d0.

(** A hard reset of ours, as the server reads it. *)
Definition ownReset (raw : list byte) : Prop :=
  exists q, ParsePacket raw = Ok q /\ Opcode q = P_CONTROL_HARD_RESET_CLIENT_V2 /\ ID q = 0 /\ LocalSessionID q = lsid /\ ACKs q = [].

Record opening (e : endpoint) : Prop := {
  op_remote : remoteSessionID (mgr e) = None;
  op_count : localControlPacketID (mgr e) = 1;
  op_sender : fst (sndr e) = newReliableSender;
  op_rcv : rcv e = newReliableReceiver;
  op_seen : seenQueue e = [];
  op_wire : Forall ownReset (wire e);
  op_written : written e = [];
  op_delivered : delivered e = []
}.

(** The control plane right after the three-way handshake. *)
Record opened (sid : list byte) (e : endpoint) : Prop := {
  od_peer : peer_inv lsid sid e;
  od_link : link_inv [] e;
  od_written : written e = [];
  od_delivered : delivered e = []
}.

Lemma launch_opening m t : remoteSessionID m = None -> localControlPacketID m = 1 -> opening (establishedEndpoint m t).
Proof. by constructor. Qed.

(** Without the session of a server nothing gets past the sanity checks. *)
Lemma passUp_opening e p : opening e -> canonical p -> passUp e p = e.
Proof.
  intros [] Hc. unfold passUp, Receiver.moveUpWorker_step, incomingSanityChecks, GetRemoteSessionID. rewrite op_remote0.
  assert (bytes_equal (LocalSessionID p) [] = false) as ->.
  { apply bool_decide_eq_false. intros Hn. pose proof (can_local _ Hc) as Hl. by rewrite Hn in Hl. }
  cbn. rewrite !app_nil_r. by destruct e as [[] ? ? ? ? ? ?].
Qed.

Lemma hardReset_opening ws e r ws' es raw :
  opening e -> Muxer.sessionManager ws = mgr e -> manager_inv (mgr e) -> localSessionID (mgr e) = lsid ->
  Muxer.startHardReset None ws = (r, ws', es) -> es = [Muxer.ToNetwork raw] -> opening (with_wire raw (with_mux ws' e)).
Proof.
  intros [] Hws Hm Hl. destruct (Muxer.startHardReset_spec ws) as (raw' & Hraw & ->); [by rewrite Hws|].
  intros [= <- <- <-] [= ->]. constructor; try done; [unfold mgr; cbn; by rewrite Hws..|]. cbn.
  apply Forall_app. split; [done|]. constructor; [|constructor]. rewrite Hws in Hraw.
  destruct (canonical_roundtrip _ (Muxer.NewHardResetPacket_canonical _ Hm)) as (raw2 & Hraw2 & Hp).
  rewrite Hraw in Hraw2. injection Hraw2 as <-. eexists. split; [exact Hp|]. repeat (split; [done|]). split; [|done].
  cbn. rewrite Hl. destruct Hm. apply copy_zeroed_exact. congruence.
Qed.

(** The server's reset has arrived: [m] is the manager that knows its session. *)
Lemma opened_passUp ws e p sid m :
  opening e -> manager_inv (mgr e) -> localSessionID (mgr e) = lsid -> canonical p ->
  Opcode p = P_CONTROL_HARD_RESET_SERVER_V2 -> length sid = 8%nat ->
  m = set_negState S_START (set_remoteSessionID (Some sid) (mgr e)) -> Muxer.sessionManager ws = m ->
  opened sid (passUp (with_mux ws e) p) /\ mgr (passUp (with_mux ws e) p) = m.
Proof.
  intros [O1 O2 O3 O4 O5 O6 O7 O8] Hm Hl Hc Hop Hlen -> Hws. set (e1 := with_mux ws e).
  assert (mgr e1 = set_negState S_START (set_remoteSessionID (Some sid) (mgr e))) as Hm1 by exact Hws.
  assert (rcv e1 = newReliableReceiver) as Hr1 by exact O4.
  destruct (passUp_spec e1 p) as (r & seen & out & E & ->); [rewrite Hr1; constructor|].
  assert (r = newReliableReceiver /\ out = []) as [-> ->].
  { apply Receiver.moveUpWorker_step_cases in E as [(_ & -> & ->)|(Hacc & _)]; [done|].
    unfold accepts in Hacc. rewrite Hop in Hacc. by rewrite andb_false_r in Hacc. }
  apply Delivery.moveUpWorker_seen in E. split; [|exact Hm1]. constructor; [| |exact O7|cbn; by rewrite O8].
  - apply peer_inv_up.
    + constructor; rewrite ?Hm1; unfold inFlightOf, pendingOf; cbn; rewrite ?O2, ?O3, ?O5, ?O7; cbn; try done.
      * destruct Hm. by constructor.
      * constructor; cbn; [constructor|constructor|done|done].
      * eapply Forall_impl; [exact O6|]. intros raw (q & Hq & Q1 & Q2 & Q3 & Q4). exists q. split; [done|].
        constructor; [right; right; auto|done|by rewrite Q4].
    + intros s i -> Hi. destruct (incomingSanityChecks (mgr e1) p); [|done]. injection E as ->.
      unfold newIncomingPacketSeen in Hi. rewrite Hop in Hi. injection Hi as <-. exact (can_id _ Hc).
  - constructor; cbn; rewrite ?O8; [apply new_receiver_inv | apply Forall_nil_2 | unfold len; cbn; lia | done].
Qed.

Lemma receive_opening c raw c' :
  client_inv o loc lsid d0 c -> opening (ctl c) -> mux_step (Muxer.EvRaw None raw) c = Ok c' ->
  opening (ctl c') \/ exists sid, opened sid (ctl c').
Proof.
  intros [H1 H2 H3 H4 _ _] Ho. unfold mux_step. cbn [Muxer.moveUpWorker_step]. unfold Muxer.handleRawPacket.
  assert (with_ctl (with_mux (mux (ctl c)) (ctl c)) c = c) as Hid by (by destruct c as [[] ? ? ?]).
  destruct (ParsePacket raw) as [p|e|] eqn:Hp; [|rewrite Hid; intros [= <-]; auto|done].
  change (Muxer.sessionManager (mux (ctl c))) with (cmgr c).
  destruct ((negState (cmgr c) =? S_PRE_START) && _) eqn:Efin.
  - apply andb_true_iff in Efin as [_ Hop%Z.eqb_eq].
    assert (canonical p) as Hc by (apply (parse_exact raw); [done | by rewrite Hop]).
    unfold Muxer.finishThreeWayHandshake. cbn [Muxer.sessionManager Muxer.set_ticker].
    change (Muxer.sessionManager (mux (ctl c))) with (cmgr c). unfold SetRemoteSessionID, IsRemoteSessionIDSet.
    unfold cmgr. rewrite (op_remote _ Ho). go_step. cbn [SetNegotiationState Muxer.trySends deliverAll].
    rewrite deliver_reliable by done. cbn [mbind outcome_bind deliver ctl with_ctl with_tls].
    match goal with |- context [passUp (with_mux ?ws _) p] => pose proof (opened_passUp ws (ctl c) p (LocalSessionID p) _
      Ho H1 H4 Hc Hop (can_local _ Hc) eq_refl eq_refl) as [Hod _] end.
    intros [= <-]. right. eauto.
  - destruct (Packet_IsControl p || (Opcode p =? P_ACK_V1)) eqn:Ek.
    + cbn [Muxer.trySends deliverAll]. rewrite Hid, deliver_reliable by done. intros [= <-]. cbn [ctl with_ctl]. left.
      rewrite passUp_opening; [done|done|]. by apply (parse_exact raw).
    + destruct (_ <? _); [destruct (Packet_IsData p); rewrite Hid; intros [= <-]; auto|].
      cbn [Muxer.trySends deliverAll deliver]. rewrite Hid.
      intros (c1 & ([ws up] & _ & [= <-])%bind_Ok & [= <-])%bind_Ok. auto.
Qed.

(** The sender has nothing to send. *)
Lemma tick_opening now budget e e' : opening e -> tick now budget e = Ok e' -> opening e'.
Proof.
  intros [O1 O2 O3 O4 O5 O6 O7 O8]. unfold tick. destruct (sndr e) as [r tk] eqn:Es. cbn in O3. subst r.
  cbn [moveDownWorker_step]. unfold blockOnTryingToSend, ticker_Reset.
  change (inFlight newReliableSender) with (@nil inFlightPacket). cbn [nearestDeadlineTo readyToSend fold_left].
  change (hasPendingACKs newReliableSender) with false. cbn [negb].
  destruct (_ <=? 0); [done|]. cbn. intros [= <-]. constructor; unfold emit; cbn; rewrite ?app_nil_r; done.
Qed.

Lemma opening_step ev c c' :
  client_inv o loc lsid d0 c -> opening (ctl c) -> client_step o ev c = Ok c' ->
  opening (ctl c') \/ exists sid, opened sid (ctl c').
Proof.
  intros Hc Ho. pose proof Hc as [H1 H2 H3 H4 _ (k & Hk & Hst)].
  unfold cmgr in Hst. rewrite (op_remote _ Ho) in Hst. assert (tls c = mkTLSSide [] TIdle [] [] /\ data c = silent d0 []) as [Ht Hd] by (by inversion Hst).
  destruct ev as [| | |raw|record|now budget|now|certs|a| | |gen payload]; run_handler; rewrite ?Ht, ?Hd; try done.
  - destruct (hardReset c); [|done]. unfold mux_step. cbn [Muxer.moveUpWorker_step ctl].
    destruct (Muxer.startHardReset None _) as [[r ws] es] eqn:E.
    pose proof E as E'. destruct (Muxer.startHardReset_spec (mux (ctl c)) H1) as (raw & _ & E2). rewrite E2 in E'.
    injection E' as <- _ <-. cbn. intros [= <-]. left. by apply (hardReset_opening _ (ctl c) _ ws _ raw) in E.
  - unfold mux_step. cbn [Muxer.moveUpWorker_step]. destruct (Muxer.running _); [|done]. intros [= <-]. left.
    destruct Ho. by constructor.
  - unfold mux_step. cbn [Muxer.moveUpWorker_step]. destruct (Muxer.pendingTick _); [|done].
    destruct (Muxer.startHardReset None _) as [[r ws] es] eqn:E.
    pose proof E as E'. destruct (Muxer.startHardReset_spec (Muxer.set_ticker (Muxer.Ticker_receive (Muxer.hardResetTicker (mux (ctl c)))) (mux (ctl c))) H1) as (raw & _ & E2).
    rewrite E2 in E'. injection E' as <- _ <-. cbn. intros [= <-]. left. by apply (hardReset_opening _ (ctl c) _ ws _ raw) in E.
  - destruct (_ <? _); [|done]. by apply receive_opening.
  - intros (e & E & [= <-])%bind_Ok. left. by eapply tick_opening.
  - unfold readSeen. by rewrite (op_seen _ Ho).
  - by destruct a as [[]|[]|[]].
Qed.

(** The session of the server, once known, stays. *)
Lemma receive_remote c raw c' :
  client_inv o loc lsid d0 c -> remoteSessionID (cmgr c) <> None -> mux_step (Muxer.EvRaw None raw) c = Ok c' ->
  remoteSessionID (cmgr c') = remoteSessionID (cmgr c).
Proof.
  intros Hc Hr. unfold mux_step. cbn [Muxer.moveUpWorker_step]. unfold Muxer.handleRawPacket.
  assert (with_ctl (with_mux (mux (ctl c)) (ctl c)) c = c) as Hid by (by destruct c as [[] ? ? ?]).
  destruct (ParsePacket raw) as [p|e|]; [|rewrite Hid; intros [= <-]; done|done].
  change (Muxer.sessionManager (mux (ctl c))) with (cmgr c). destruct (_ && _).
  - unfold Muxer.finishThreeWayHandshake. cbn [Muxer.sessionManager Muxer.set_ticker].
    change (Muxer.sessionManager (mux (ctl c))) with (cmgr c). unfold SetRemoteSessionID, IsRemoteSessionIDSet.
    by destruct (remoteSessionID (cmgr c)).
  - destruct (_ || _).
    + cbn [Muxer.trySends deliverAll]. rewrite Hid, deliver_reliable by apply Hc. intros [= <-].
      unfold cmgr. cbn [ctl with_ctl]. by rewrite (proj1 (passUp_quiet _ p (ci_queue _ _ _ _ _ Hc))).
    + destruct (_ <? _); [destruct (Packet_IsData p); rewrite Hid; intros [= <-]; done|].
      cbn [Muxer.trySends deliverAll deliver]. rewrite Hid.
      intros (c1 & ([ws up] & _ & [= <-])%bind_Ok & [= <-])%bind_Ok. done.
Qed.

Lemma hardReset_remote ws c r ws' es c' :
  manager_inv (cmgr c) -> Muxer.sessionManager ws = cmgr c -> Muxer.startHardReset None ws = (r, ws', es) ->
  deliverAll (with_ctl (with_mux ws' (ctl c)) c) es = Ok c' -> remoteSessionID (cmgr c') = remoteSessionID (cmgr c).
Proof.
  intros Hm Hws. destruct (Muxer.startHardReset_spec ws) as (raw & _ & ->); [by rewrite Hws|].
  intros [= <- <- <-]. cbn. intros [= <-]. unfold cmgr, mgr in *. cbn. by rewrite Hws.
Qed.

Lemma client_step_remote ev c c' :
  client_inv o loc lsid d0 c -> remoteSessionID (cmgr c) <> None -> client_step o ev c = Ok c' ->
  remoteSessionID (cmgr c') = remoteSessionID (cmgr c).
Proof.
  intros Hc Hr. pose proof Hc as [H1 H2 H3 H4 _ H5].
  destruct ev as [| | |raw|record|now budget|now|certs|a| | |gen payload]; run_handler.
  - destruct (hardReset c); [|done]. unfold mux_step. cbn [Muxer.moveUpWorker_step].
    destruct (Muxer.startHardReset None _) as [[r ws] es] eqn:E. destruct r; try done; intros E';
      by eapply (hardReset_remote _ (mkClient (ctl c) false (tls c) (data c))) in E.
  - unfold mux_step. cbn [Muxer.moveUpWorker_step]. destruct (Muxer.running _); [|done]. by intros [= <-].
  - unfold mux_step. cbn [Muxer.moveUpWorker_step]. destruct (Muxer.pendingTick _); [|done].
    destruct (Muxer.startHardReset None _) as [[r ws] es] eqn:E. destruct r; try done; intros E'; by eapply hardReset_remote in E.
  - destruct (_ <? _); [|done]. by apply receive_remote.
  - destruct (negotiating _); [|done]. intros (e & E & [= <-])%bind_Ok. apply writeRecord_quiet in E as [Hq _]; [|done].
    exact (q_remote _ _ Hq).
  - intros (e & E & [= <-])%bind_Ok. apply tick_quiet in E as [Hm _]. unfold cmgr, mgr. cbn. by rewrite Hm.
  - intros (e & E & [= <-])%bind_Ok. apply readSeen_quiet in E as [Hm _]. unfold cmgr, mgr. cbn. by rewrite Hm.
  - destruct (phase (tls c)); try done. destruct (notifyTLS (tls c)); [done|]. by intros (ph & _ & [= <-])%bind_Ok.
  - intros ([[ph m] s] & E & [= <-])%bind_Ok. destruct H5 as (k & Hk & Hst).
    destruct (stage_phase _ _ _ _ _ _ _ _ Hst) as [Hp|Hp]; [rewrite Hp in E; by destruct a as [[]|[]|[]]|].
    eapply tls_step_ok in E; [|exact channel_built|exact H1|exact Hk|exact Hp]. by destruct E.
  - destruct (phase (tls c)); try done. destruct (keyReady (data c)); [|done]. by intros [= <-].
  - destruct (keyReady (data c)) eqn:Ek; [done|]. destruct (keys (cmgr c) !! _) as [key|] eqn:Ej; [|done].
    intros ([ws sig] & E & [= <-])%bind_Ok.
    destruct (stage_keyWorker _ _ _ _ channel_built _ _ _ _ _ _ _ _ H4 H5 Ek Ej E) as (G1 & _). by rewrite G1.
  - destruct (firstKey (data c)); [|done]. intros ([ws ps] & E & [= <-])%bind_Ok.
    unfold DataChannel.moveDownWorker_step in E. cbn [dataWorkers DataChannel.dataChannel DataChannel.sessionManager] in E.
    destruct (DataChannel.writePacket gen (channel (data c)) (cmgr c) payload) as [r m] eqn:Ew.
    apply quiet_writePacket in Ew as Hq; [|done].
    assert (DataChannel.sessionManager ws = m) as -> by (destruct r; try done; by injection E as <- _).
    exact (q_remote _ _ Hq).
Qed.

Lemma client_run_remote evs c c' :
  client_inv o loc lsid d0 c -> remoteSessionID (cmgr c) <> None -> client_run o evs c = Ok c' ->
  remoteSessionID (cmgr c') = remoteSessionID (cmgr c).
Proof.
  revert c. induction evs as [|ev evs IH]; intros c Hc Hr; cbn [client_run]; [by intros [= <-]|].
  intros (c1 & E & Hrun)%bind_Ok. pose proof (client_step_inv _ _ _ _ channel_built _ _ _ Hc E) as Hc1.
  pose proof (client_step_remote _ _ _ Hc Hr E) as E1. rewrite <- E1. apply IH; [done|congruence|done].
Qed.

Lemma opening_run evs c c' :
  client_inv o loc lsid d0 c -> opening (ctl c) -> client_run o evs c = Ok c' -> remoteSessionID (cmgr c') = None ->
  opening (ctl c').
Proof.
  revert c. induction evs as [|ev evs IH]; intros c Hc Ho; cbn [client_run]; [by intros [= <-]|].
  intros (c1 & E & Hr)%bind_Ok Hn. pose proof (client_step_inv _ _ _ _ channel_built _ _ _ Hc E) as Hc1.
  destruct (opening_step _ _ _ Hc Ho E) as [Ho1|(sid & Hod)]; [by eapply IH|exfalso].
  pose proof (pi_remote _ _ _ (od_peer _ _ Hod)) as Hs. apply client_run_remote in Hr; [|done|]; unfold cmgr in *; congruence.
Qed.
End Opening.

(** ** The client and a peer

    The client, with everything it does, and a peer with the control plane of
    this program, over a network that loses, duplicates and reorders, and to
    which third parties add packets without the session's identifiers. *)

Section System.
Context `{CryptoLaws}.
Variable o : OpenVPNOptions.

Inductive system_step : client * endpoint -> client * endpoint -> Prop :=
  | sys_client ev c c' b :
      controlEvent (wire b) (cmgr c) ev -> client_step o ev c = Ok c' -> system_step (c, b) (c', b)
  | sys_peer l c b b' : local_step (wire (ctl c)) b l b' -> system_step (c, b) (c, b').

Lemma endpoint_steps_world a b a' :
  world_inv (a, b) -> endpoint_steps (wire b) a a' ->
  world_inv (a', b) /\ rtc duplex_step (abstraction (a, b)) (abstraction (a', b)).
Proof.
  intros Hw Hs. revert Hw. induction Hs as [a|a a1 a' (l & Hl) _ IH]; intros Hw; [by split|].
  destruct (world_step_refines (a, b) (Left, l) (a1, b) Hw) as [Hw1 H1]; [by constructor|].
  destruct (IH Hw1) as [Hw2 H2]. split; [done|]. by etrans.
Qed.

Lemma system_run_inv loc lsid d0 c b c' b' :
  DataChannel.NewDataChannelFromOptions o = Ok d0 ->
  client_inv o loc lsid d0 c -> world_inv (ctl c, b) -> rtc system_step (c, b) (c', b') ->
  world_inv (ctl c', b') /\ rtc duplex_step (abstraction (ctl c, b)) (abstraction (ctl c', b')).
Proof.
  intros Hd Hc Hw Hs. remember (c, b) as s1 eqn:E1. remember (c', b') as s2 eqn:E2. revert c b E1 Hc Hw.
  induction Hs as [s|s1 s2 s3 Hstep _ IH]; intros c b -> Hc Hw; [injection E2 as -> ->; by split|].
  inversion Hstep as [ev c0 c1 b0 Hev Hcs Es1 Es2|l c0 b0 b1 Hl Es1 Es2]; subst.
  - destruct (wi_sessions _ Hw) as (s1 & s2' & Hp & _). cbn [fst] in Hp.
    pose proof (client_step_sim o (wire b) loc lsid d0 ev c c1 Hc (peer_session _ _ _ Hp) Hev Hcs) as Hsim.
    destruct (endpoint_steps_world _ _ _ Hw Hsim) as [Hw1 H1].
    destruct (IH eq_refl c1 b eq_refl (client_step_inv _ _ _ _ Hd _ _ _ Hc Hcs) Hw1) as [H2 H3]. split; [done|]. by etrans.
  - destruct (world_step_refines (ctl c, b) (Right, l) (ctl c, b1) Hw) as [Hw1 H1]; [by constructor|].
    destruct (IH eq_refl c b1 eq_refl Hc Hw1) as [H2 H3]. split; [done|]. by etrans.
Qed.
End System.

(** C1: the whole client over an unreliable network.  From its launch, whatever
    happened until the server's reset arrived and whatever the negotiation, the
    key worker, the data channel, the application and the timer of the hard
    reset do afterwards, the client and a peer that answered its reset refine
    two reliable first-in first-out channels of TLS records: the records the
    client's TLS layer is given are, in order and unchanged, an initial part of
    those the peer wrote, and conversely.  The network loses, duplicates and
    reorders; third parties may add packets that do not carry the session's
    identifiers ([foreign]).  Steps that crash the client end the run. *)
Theorem client_refines_fifo `{CryptoLaws} o randomFn m0 d0 evs c0 raw c sid b c' b' :
  NewManager randomFn = Ok m0 -> DataChannel.NewDataChannelFromOptions o = Ok d0 ->
  client_run o evs (launch m0 d0) = Ok c0 -> remoteSessionID (cmgr c0) = None ->
  client_step o (CReceive raw) c0 = Ok c -> remoteSessionID (cmgr c) = Some sid ->
  opened sid (localSessionID m0) b -> rtc (system_step o) (c, b) (c', b') ->
  rtc duplex_step (mkFifo [] [], mkFifo [] []) (abstraction (ctl c', b')) /\
  delivered (ctl c') `prefix_of` written b' /\ delivered b' `prefix_of` written (ctl c').
Proof.
  intros Hm Hd Hrun Hn Hstep Hs Hb Hsys. destruct (launch_inv o randomFn m0 d0 Hm) as (loc & _ & _ & _ & Hl).
  destruct (NewManager_inv _ _ Hm) as (_ & Hc1 & _ & Hr0 & _).
  pose proof (opening_run o loc _ d0 Hd _ _ _ Hl (launch_opening _ _ _ Hr0 Hc1) Hrun Hn) as Ho.
  pose proof (client_run_inv _ _ _ _ Hd _ _ _ Hl Hrun) as Hi0. pose proof (client_step_inv _ _ _ _ Hd _ _ _ Hi0 Hstep) as Hi.
  destruct (opening_step o loc _ d0 _ _ _ Hi0 Ho Hstep) as [Ho'|(sid' & [P1 P2 P3 P4])];
    [unfold cmgr in Hs; rewrite (op_remote _ _ Ho') in Hs; done|].
  assert (sid' = sid) as -> by (pose proof (pi_remote _ _ _ P1) as E; unfold cmgr in Hs; congruence).
  destruct Hb as [B1 B2 B3 B4].
  assert (world_inv (ctl c, b)) as Hw by (constructor; cbn; [eauto|by rewrite P3|by rewrite B3]).
  destruct (system_run_inv _ _ _ _ _ _ _ _ Hd Hi Hw Hsys) as [[_ [_ _ _ E1] [_ _ _ E2]] Habs].
  unfold abstraction at 1 in Habs. cbn in Habs, E1, E2. rewrite P3, P4, B3, B4 in Habs. split; [done|].
  rewrite E1, E2. split; apply prefix_take.
Qed.

(** ** A session

    Hard reset and answer, a record in each direction, the negotiation with
    the peer of [TLSSession], and payloads in both directions. *)

Definition peerSession : list byte := replicate 8 Byte.x05.

(** A record of the server. *)
Definition sampleReply : list byte := Eval vm_compute in
  unwrap [] (Packet_Bytes (mkPacket P_CONTROL_V1 0 zeroPeerID peerSession [] zeroSessionID 1 [z2b 22])).

Definition sampleData : DataChannel.DataChannel := Eval vm_compute in
  unwrap (DataChannel.mkDataChannel sampleClientOptions DataChannel.zeroState None None None false)
    (DataChannel.NewDataChannelFromOptions sampleClientOptions).

Lemma sampleData_built : DataChannel.NewDataChannelFromOptions sampleClientOptions = Ok sampleData.
Proof. vm_compute. reflexivity. Qed.

Lemma sampleData_aead : aeadMode sampleData.
Proof. eexists. split; reflexivity. Qed.

Definition sampleLaunch : client := launch sampleManager sampleData.

Definition sampleHandshake : list clientEvent :=
  [CHardReset; CReceive Muxer.rawServerReset; CSeen Minute; CNotified (Ok tt);
   CWrite [z2b 22; z2b 3; z2b 1]; CTransmit Minute None; CReceive sampleReply]
  ++ map CAnswer (answersOf samplePeer) ++ [CSendKey; CKeyWorker].

(** The client with its key. *)
Definition sampleKeyed : client := Eval vm_compute in
  unwrap sampleLaunch (client_run sampleClientOptions sampleHandshake sampleLaunch).

(** Twenty bytes: what is left of a payload with its padding must not be as
    long as a ping. *)
Definition serverPayload : list byte := replicate 20 Byte.x2a.

(** A payload of the server, encrypted by the channel that mirrors the
    client's. *)
Definition sampleServerPacket : list byte := Eval vm_compute in
  match (DataChannel.writePacket (fun _ => Panic) (mirrorChannel (channel (data sampleKeyed))) (cmgr sampleKeyed) serverPayload).1 with
  | Ok p => unwrap [] (Packet_Bytes p)
  | _ => []
  end.

Definition sampleEvents : list clientEvent :=
  sampleHandshake ++
  [CTunWrite (fun _ => Panic) samplePayload; CReceive sampleServerPacket; CTunWrite (fun _ => Panic) samplePayload].

Definition sampleEnd : client := Eval vm_compute in
  unwrap sampleLaunch (client_run sampleClientOptions sampleEvents sampleLaunch).

Lemma sampleEnd_run : client_run sampleClientOptions sampleEvents sampleLaunch = Ok sampleEnd.
Proof. vm_compute. reflexivity. Qed.

Lemma client_session_once_witness :
  client_run sampleClientOptions sampleEvents sampleLaunch = Ok sampleEnd /\ firstKey (data sampleEnd) = true /\
  readySignals (data sampleEnd) = 1%nat /\ length (dataWire (data sampleEnd)) = 2%nat /\
  toTUN (data sampleEnd) = [serverPayload ++ replicate 12 (z2b 12)].
Proof.
  destruct (client_session_once sampleClientOptions sampleRandom sampleManager sampleData sampleEvents sampleEnd)
    as (_ & _ & Hr & _); [reflexivity|exact sampleData_built|exact sampleEnd_run|].
  split; [exact sampleEnd_run|]. split; [reflexivity|]. split; [exact Hr|]. split; vm_compute; reflexivity.
Defined.

Lemma client_mirrors_server_witness :
  exists srv, mirrored (channel (data sampleEnd)) srv (cmgr sampleEnd) (cmgr sampleEnd) (mkDataCipherAES 32 "gcm") /\
    crosses (fun _ => Panic) (mkDataCipherAES 32 "gcm") (channel (data sampleEnd)) srv (cmgr sampleEnd) (cmgr sampleEnd) samplePayload.
Proof.
  destruct (client_mirrors_server (fun _ => Panic) sampleClientOptions sampleRandom sampleManager sampleData sampleEvents
    sampleEnd (cmgr sampleEnd)) as (msg & reply & rem & opts & sid & srv & cph & _ & _ & _ & _ & _ & Hc & H1 & _ & H2);
    [reflexivity|exact sampleData_built|exact sampleEnd_run|reflexivity|reflexivity|].
  assert (cph = mkDataCipherAES 32 "gcm") as -> by (vm_compute in Hc; injection Hc as <-; reflexivity).
  exists srv. split; [exact H1|]. apply H2; [left; reflexivity|vm_compute; reflexivity|discriminate].
Defined.

Lemma client_nonces_unique_witness :
  length (dataWire (data sampleEnd)) = 2%nat /\ NoDup (map wireNonce (dataWire (data sampleEnd))).
Proof.
  split; [reflexivity|].
  apply (client_nonces_unique sampleClientOptions sampleRandom sampleManager sampleData sampleEvents sampleEnd);
    [reflexivity|exact sampleData_built|exact sampleData_aead|exact sampleEnd_run].
Defined.

(** ** An executable schedule of the client and a peer *)

Inductive systemAction : Type :=
  | SClient (ev : clientEvent)
  | SDeliver (n : nat)
  | SPeer (a : action).

Definition quietEvent (ev : clientEvent) : bool :=
  match ev with CReceive _ => false | _ => true end.

Definition system_act (o : OpenVPNOptions) (a : systemAction) (s : client * endpoint) : option (client * endpoint) :=
  match a with
  | SClient ev => if quietEvent ev then match client_step o ev s.1 with Ok c => Some (c, s.2) | _ => None end else None
  | SDeliver n =>
      raw ← wire s.2 !! n;
      match client_step o (CReceive raw) s.1 with Ok c => Some (c, s.2) | _ => None end
  | SPeer a => '(_, b) ← act (wire (ctl s.1)) a s.2; Some (s.1, b)
  end.

Fixpoint system_script (o : OpenVPNOptions) (l : list systemAction) (s : client * endpoint) : option (client * endpoint) :=
  match l with
  | [] => Some s
  | a :: l => s ← system_act o a s; system_script o l s
  end.

Lemma system_act_sound o a s s' : system_act o a s = Some s' -> system_step o s s'.
Proof.
  destruct s as [c b], a as [ev|n|a]; cbn [system_act fst snd].
  - destruct (quietEvent ev) eqn:Eq; [|done]. destruct (client_step o ev c) as [c'| |] eqn:E; [|done..]. intros [= <-].
    eapply sys_client; [|exact E]. by destruct ev.
  - intros (raw & Hraw & H)%bind_Some. destruct (client_step o (CReceive raw) c) as [c'| |] eqn:E; [|done..].
    injection H as <-. eapply sys_client; [|exact E]. left. exact (list_elem_of_lookup_2 _ _ _ Hraw).
  - intros ([l b'] & Ha & [= <-])%bind_Some. eapply sys_peer. by eapply act_sound.
Qed.

Lemma system_script_sound o l s s' : system_script o l s = Some s' -> rtc (system_step o) s s'.
Proof.
  revert s. induction l as [|a l IH]; intros s; cbn; [intros [= <-]; constructor|].
  intros (s1 & H1%system_act_sound & H2)%bind_Some. eapply rtc_l; [exact H1 | auto].
Qed.

(** The server of the session. *)
Definition peerManager : Manager :=
  set_remoteSessionID (Some (localSessionID sampleManager)) (set_negState S_START (set_localSessionID peerSession sampleManager)).
Definition peerEndpoint : endpoint := establishedEndpoint peerManager Minute.

Lemma peerEndpoint_opened : opened peerSession (localSessionID sampleManager) peerEndpoint.
Proof.
  destruct (established_inv peerManager sampleManager Minute) as [H1 H2];
    [|reflexivity|reflexivity|apply sampleManager_inv|by constructor].
  destruct sampleManager_inv. by constructor.
Qed.

Definition openedClient : client := Eval vm_compute in
  unwrap sampleLaunch (client_run sampleClientOptions [CHardReset; CFire; CReceive Muxer.rawServerReset] sampleLaunch).
Definition resetClient : client := Eval vm_compute in
  unwrap sampleLaunch (client_run sampleClientOptions [CHardReset; CFire] sampleLaunch).

(** The client's reset arrives late at the server, the tick that was delivered
    before the ticker was stopped makes the client send another one, and a
    record crosses in each direction. *)
Definition sampleSchedule : list systemAction :=
  [SClient (CNotified (Ok tt)); SClient (CWrite [z2b 22; z2b 3; z2b 1]); SClient (CTransmit Minute None); SClient CTick;
   SPeer (AReceive 1); SPeer (AReceive 0); SPeer (AReceive 2); SPeer (ASeen Minute); SPeer (AWrite [z2b 9]); SPeer (ATick Minute);
   SDeliver 0; SClient (CAnswer (AHandshake (Ok tt)))].

Lemma client_refines_fifo_witness :
  exists s, system_script sampleClientOptions sampleSchedule (openedClient, peerEndpoint) = Some s /\
    delivered s.2 = [[z2b 22; z2b 3; z2b 1]] /\ delivered (ctl s.1) = [[z2b 9]] /\
    rtc duplex_step (mkFifo [] [], mkFifo [] []) (abstraction (ctl s.1, s.2)).
Proof.
  destruct (system_script sampleClientOptions sampleSchedule (openedClient, peerEndpoint)) as [[c' b']|] eqn:E;
    [|vm_compute in E; discriminate E].
  exists (c', b'). split; [reflexivity|]. split; [vm_compute in E; injection E as <- <-; reflexivity|].
  split; [vm_compute in E; injection E as <- <-; reflexivity|].
  apply (client_refines_fifo sampleClientOptions sampleRandom sampleManager sampleData [CHardReset; CFire] resetClient
    Muxer.rawServerReset openedClient peerSession peerEndpoint c' b');
    [reflexivity|exact sampleData_built|vm_compute; reflexivity|reflexivity|vm_compute; reflexivity|reflexivity
    |exact peerEndpoint_opened|by apply (system_script_sound _ sampleSchedule)].
Defined.
