(* ===== verification/DataPath.v ===== *)
(** * The data path

    From [TUN.Write] at one end to [TUN.Read] at the other: the data channel's
    down-worker, the muxer's down-worker and the framing of one tunnel, then the
    framing, the muxer's up-worker and the data channel's up-worker of its peer. *)

From S2P Require Import Prelude Bytesx Packet Session Config Crypto DataChannel DataChannelSpec ReadBuffer NetworkIO Tun.
From S2P Require Muxer EndToEnd.

Section Path.
Context `{Crypto}.

(** The payloads [datas] written to the TUN, down to the raw packets; [gen i]
    is the randomness of the [i]-th call of [writePacket]. *)
Fixpoint sendPayloads (gen : nat -> Z -> outcome (list byte)) (ws : DataChannel.workersState) (datas : list (list byte))
  : outcome (DataChannel.workersState * list (list byte)) :=
  match datas with
  | [] => Ok (ws, [])
  | data :: datas' =>
      '(ws, ps) ← DataChannel.moveDownWorker_step (gen 0%nat) ws data;
      '(ws, raws) ← sendPayloads (fun i => gen (S i)) ws datas';
      Ok (ws, EndToEnd.emit ps ++ raws)
  end.

Definition dataOf (eff : Muxer.effect) : list Packet :=
  match eff with Muxer.ToData p => [p] | _ => [] end.

Fixpoint deliverPackets (ws : DataChannel.workersState) (ps : list Packet)
  : outcome (DataChannel.workersState * list (list byte)) :=
  match ps with
  | [] => Ok (ws, [])
  | p :: ps' =>
      '(ws, up) ← DataChannel.moveUpWorker_step ws p;
      '(ws, up') ← deliverPackets ws ps';
      Ok (ws, up ++ up')
  end.

(** The raw packets read from the connection, up to the slices for the TUN. *)
Fixpoint receivePayloads (mux : Muxer.workersState) (ws : DataChannel.workersState) (raws : list (list byte))
  : outcome (Muxer.workersState * DataChannel.workersState * list (list byte)) :=
  match raws with
  | [] => Ok (mux, ws, [])
  | raw :: raws' =>
      let '(r, mux, effs) := Muxer.handleRawPacket None mux raw in
      match r with
      | Panic => Panic
      | _ =>
          '(ws, up) ← deliverPackets ws (concat (map dataOf effs));
          '(mux, ws, up') ← receivePayloads mux ws raws';
          Ok (mux, ws, up ++ up')
      end
  end.

End Path.

(** A payload whose packet fits a frame in the AEAD modes. *)
Definition sendable (p : list byte) : Prop := p <> [] /\ len p <= 65494.

(** What is decrypted to sixteen bytes is taken for a keepalive and dropped. *)
Definition notKeepalive (p : list byte) : bool := negb (len p =? 16).

(** What the reader of an AEAD mode is left with: the payload and the padding
    that these modes do not remove. *)
Definition padded (c : Compression) (p : list byte) : list byte := p ++ aeadTrailer c p.

Section Proofs.
Context `{CryptoLaws}.

Lemma handle_data mux raw q :
  S_GENERATED_KEYS <= negState (Muxer.sessionManager mux) -> ParsePacket raw = Ok q -> Opcode q = P_DATA_V2 ->
  Muxer.handleRawPacket None mux raw = (Ok tt, mux, [Muxer.ToData q]).
Proof.
  intros Hk Hq Ho. unfold Muxer.handleRawPacket, Packet_IsControl. rewrite Hq, Ho.
  change (P_DATA_V2 =? P_CONTROL_HARD_RESET_SERVER_V2) with false. rewrite andb_false_r.
  change (Opcode_IsControl P_DATA_V2) with false. change (P_DATA_V2 =? P_ACK_V1) with false. cbn [orb].
  destruct (Z.ltb_spec (negState (Muxer.sessionManager mux)) S_GENERATED_KEYS); [lia | done].
Qed.

Lemma mirrored_set_id d e m n c i : mirrored d e m n c -> mirrored d e (set_localDataPacketID i m) n c.
Proof. intros []. constructor; done. Qed.

(** What a sequence of payloads becomes on the wire, and above the peer. *)
Lemma payloads_cross gen d e m n c mux datas :
  mirrored d e m n c -> isAEAD c = true -> manager_inv m -> localDataPacketID m + len datas <= MaxUint32 ->
  S_GENERATED_KEYS <= negState (Muxer.sessionManager mux) ->
  Forall sendable datas ->
  exists m' raws,
    sendPayloads gen (mkWorkersState d m true) datas = Ok (mkWorkersState d m' true, raws) /\
    localDataPacketID m' = localDataPacketID m + len datas /\
    length raws = length datas /\ Forall fits raws /\
    receivePayloads mux (mkWorkersState e n true) raws =
      Ok (mux, mkWorkersState e n true, List.filter notKeepalive (map (padded (Compress (options d))) datas)).
Proof.
  intros Hmi Ha Hm Hid Hk Hs. revert gen m Hmi Hm Hid. induction Hs as [|p datas (Hne & Hlen) _ IH]; intros gen m Hmi Hm Hid.
  - exists m, []. rewrite len_nil. cbn. repeat split; [lia | constructor].
  - rewrite len_cons in Hid. pose proof (len_nonneg datas).
    destruct (aead_wire_sized (gen 0%nat) d e m n c p Hmi Ha Hm ltac:(lia) Hne) as (pkt & raw & q & Hw & Hb & Ho & Hl & Hq & Hr).
    assert (manager_inv (set_localDataPacketID (localDataPacketID m + 1) m)) as Hm1
      by (apply manager_inv_set_data; [done|]; destruct Hm; lia).
    destruct (IH (fun i => gen (S i)) _ (mirrored_set_id _ _ _ _ _ _ Hmi) Hm1) as (m' & raws & Hsend & Hid' & Hll & Hf & Hrecv); [cbn; lia|].
    exists m', (raw :: raws). cbn [sendPayloads receivePayloads map].
    unfold DataChannel.moveDownWorker_step. cbn [dataChannel sessionManager firstKeyReady]. rewrite Hw. go_step. rewrite Hsend. go_step.
    assert (EndToEnd.emit [pkt] = [raw]) as ->.
    { unfold EndToEnd.emit, Muxer.moveDownWorker_step. cbn [map]. rewrite Hb. done. }
    split; [done|]. rewrite len_cons. cbn in Hid'. split; [lia|]. split; [cbn; lia|].
    split; [constructor; [unfold fits, MaxUint16; lia | done]|].
    rewrite (handle_data mux raw q) by done. cbn [map concat dataOf app deliverPackets].
    unfold DataChannel.moveUpWorker_step. cbn [dataChannel sessionManager firstKeyReady]. rewrite Hr.
    fold (padded (Compress (options d)) p). cbn [List.filter]. unfold notKeepalive at 1.
    destruct (Z.eqb_spec (len (padded (Compress (options d)) p)) 16); go_step; rewrite Hrecv; done.
Qed.

End Proofs.

(** C10: the tunnel carries what the application writes, in the AEAD modes and
    with every compression setting.  Of any list of non-empty payloads of at
    most 65494 bytes the peer's TUN is handed each one in order, followed by
    the padding that these modes do not remove, except those that are sixteen
    bytes long with their padding, which are taken for keepalives and dropped;
    one packet identifier is used for each payload, and neither the peer's
    muxer nor its keys change.  The packets pass through both framings, however
    the network cuts a stream into chunks, and whatever sizes the peer's
    application reads in, it reads the bytes that were handed over, in order
    and each once. *)
Theorem data_path_delivers `{CryptoLaws} gen d e m n c mux datas :
  mirrored d e m n c -> isAEAD c = true -> manager_inv m -> localDataPacketID m + len datas <= MaxUint32 ->
  S_GENERATED_KEYS <= negState (Muxer.sessionManager mux) -> Forall sendable datas ->
  let up := List.filter notKeepalive (map (padded (Compress (options d))) datas) in
  exists m' raws,
    sendPayloads gen (mkWorkersState d m true) datas = Ok (mkWorkersState d m' true, raws) /\
    localDataPacketID m' = localDataPacketID m + len datas /\
    (forall a b : streamConn,
       conn_open (Conn (s_conn a)) = true -> conn_out (Conn (s_conn a)) = [] -> conn_open (Conn (s_conn b)) = true ->
       exists a', moveDownWorker_run raws a = (true, a') /\
         (concat (conn_in (Conn (s_conn b))) = concat (conn_out (Conn (s_conn a'))) ->
          exists b', moveUpWorker_run (S (length datas)) b = Some (raws, b'))) /\
    (forall a b : datagramConn,
       conn_open (Conn (d_conn a)) = true -> conn_out (Conn (d_conn a)) = [] -> conn_open (Conn (d_conn b)) = true ->
       exists a', moveDownWorker_run raws a = (true, a') /\
         (conn_in (Conn (d_conn b)) = conn_out (Conn (d_conn a')) ->
          exists b', moveUpWorker_run (S (length datas)) b = Some (raws, b'))) /\
    receivePayloads mux (mkWorkersState e n true) raws = Ok (mux, mkWorkersState e n true, up) /\
    forall network ns now bs t' up', readAll ns now (newTUN network n) up = (bs, t', up') ->
      bs ++ readBuffer t' ++ concat up' = concat up.
Proof.
  intros Hmi Ha Hm Hid Hk Hs up.
  destruct (payloads_cross gen d e m n c mux datas Hmi Ha Hm Hid Hk Hs) as (m' & raws & Hsend & Hid' & Hl & Hf & Hrecv).
  exists m', raws. split; [done|]. split; [done|]. split; [|split; [|split; [done|]]].
  - intros a b Hoa Hout Hob. destruct (pipe_over (C := streamConn) raws a b) as (a' & H1 & _ & H3); [done..|].
    exists a'. split; [done|]. intros Hc. apply H3; [exact Hc | lia].
  - intros a b Hoa Hout Hob. destruct (pipe_over (C := datagramConn) raws a b) as (a' & H1 & _ & H3); [done..|].
    exists a'. split; [done|]. intros Hc. apply H3; [exact Hc | lia].
  - intros network ns now bs t' up' E. now apply readAll_conserves in E.
Qed.

(** Three payloads over a stream that arrives one byte at a time; the second
    is sixteen bytes long with its padding and is lost. *)
Definition samplePayloads : list (list byte) := [replicate 20 Byte.x41; replicate 61 Byte.x42].
Definition gcmPlain : DataChannel :=
  let d := gcmChannel in
  mkDataChannel (sampleOptions "AES-256-GCM" "empty") (state d) (decodeFn d) (encryptEncodeFn d) (decryptFn d) (log d).

Lemma gcmPlain_ready : exists hl hr, channel_ready gcmPlain (mkDataCipherAES 32 "gcm") hl hr.
Proof. eexists _, _. constructor; reflexivity. Qed.

Definition sampleWithShort : list (list byte) := [replicate 20 Byte.x41; replicate 7 Byte.x43; replicate 61 Byte.x42].
Definition sampleRaws : list (list byte) :=
  match sendPayloads (fun _ _ => Panic) (mkWorkersState gcmPlain sampleManager true) sampleWithShort with
  | Ok (_, raws) => raws
  | _ => []
  end.

Lemma data_path_delivers_witness :
  let mux := Muxer.StartWorkers (set_negState S_GENERATED_KEYS sampleManager) in
  let e := mkWorkersState (mirrorChannel gcmPlain) sampleManager true in
  exists m' b', localDataPacketID m' = 4 /\
    sendPayloads (fun _ _ => Panic) (mkWorkersState gcmPlain sampleManager true) sampleWithShort =
      Ok (mkWorkersState gcmPlain m' true, sampleRaws) /\
    moveUpWorker_run 4 (freshStream (bytewise sampleRaws)) = Some (sampleRaws, b') /\
    receivePayloads mux e sampleRaws =
      Ok (mux, e, [replicate 20 Byte.x41 ++ replicate 12 (z2b 12); replicate 61 Byte.x42 ++ replicate 3 (z2b 3)]).
Proof.
  cbv zeta. destruct gcmPlain_ready as (hl & hr & Hd).
  destruct (data_path_delivers (fun _ _ => Panic) gcmPlain (mirrorChannel gcmPlain) sampleManager sampleManager
    (mkDataCipherAES 32 "gcm") (Muxer.StartWorkers (set_negState S_GENERATED_KEYS sampleManager)) sampleWithShort)
    as (m' & raws & H1 & H2 & H3 & _ & H6 & _);
    [now apply mirrorChannel_mirrored with hl hr|reflexivity|apply sampleManager_inv|vm_compute; congruence|vm_compute; congruence
    | |].
  { repeat apply Forall_cons_2; [..|apply Forall_nil_2]; (split; [done|vm_compute; congruence]). }
  assert (sampleRaws = raws) as Er by (unfold sampleRaws; now rewrite H1).
  destruct (H3 (freshStream []) (freshStream (bytewise sampleRaws)) eq_refl eq_refl eq_refl) as (a' & H4 & H5).
  assert (a' = (moveDownWorker_run sampleRaws (freshStream [])).2) as Ea by (now rewrite Er, H4).
  destruct H5 as (b' & H5); [rewrite Ea; vm_compute; reflexivity|].
  exists m', b'. rewrite Er in *. split; [rewrite H2; reflexivity|]. split; [exact H1|]. split; [exact H5|].
  rewrite H6. vm_compute. reflexivity.
Defined.

(** ** A network that loses, repeats and reorders

    Over datagrams the peer receives the packets number [idx], any list of
    positions among those that were sent. *)

(** The positions that are higher than all before them, from [lo] on. *)
Fixpoint records (lo : nat) (idx : list nat) : list nat :=
  match idx with
  | [] => []
  | i :: idx' => if (i <? lo)%nat then records lo idx' else i :: records (S i) idx'
  end.

Definition received {A} (d : A) (l : list A) (idx : list nat) : list A := map (fun i => nth i l d) idx.

Lemma drop_nth {A} (d : A) l i : (i < length l)%nat -> drop i l = nth i l d :: drop (S i) l.
Proof.
  revert i. induction l as [|x l IH]; intros [|i] Hi; cbn in Hi; [lia|lia|done|]. apply (IH i). lia.
Qed.

(** They pick out a sublist. *)
Lemma records_sublist {A} (d : A) l lo idx :
  Forall (fun i => (i < length l)%nat) idx -> received d l (records lo idx) `sublist_of` drop lo l.
Proof.
  intros Hi. revert lo. induction Hi as [|i idx Hi _ IH]; intros lo; cbn [records received map]; [apply sublist_nil_l|].
  destruct (Nat.ltb_spec i lo); [apply IH|]. cbn [received map].
  replace i with (lo + (i - lo))%nat at 1 by lia.
  transitivity (drop (i - lo) (drop lo l)); [|apply sublist_drop].
  rewrite drop_drop. replace (lo + (i - lo))%nat with i by lia. rewrite (drop_nth d) by done.
  apply sublist_skip, IH.
Qed.

Section Unreliable.
Context `{CryptoLaws}.

Lemma receive_data e e' n q raw mux r raws :
  S_GENERATED_KEYS <= negState (Muxer.sessionManager mux) -> ParsePacket raw = Ok q -> Opcode q = P_DATA_V2 ->
  readPacket e n q = (r, e') -> r <> Panic ->
  receivePayloads mux (mkWorkersState e n true) (raw :: raws) =
    '(mux', ws, up) ← receivePayloads mux (mkWorkersState e' n true) raws;
    Ok (mux', ws, (match r with Ok p => List.filter notKeepalive [p] | _ => [] end) ++ up).
Proof.
  intros Hk Hq Ho Hr Hp. cbn [receivePayloads]. rewrite (handle_data mux raw q) by done.
  cbn [map concat dataOf app deliverPackets]. unfold DataChannel.moveUpWorker_step.
  cbn [dataChannel sessionManager firstKeyReady]. rewrite Hr. unfold notKeepalive. cbn [List.filter].
  destruct r as [p| |]; [destruct (len p =? 16)| |done]; reflexivity.
Qed.

(** The packets that [sendPayloads] puts on the wire, for channels whose
    writer succeeds on every payload of [datas]. *)
Lemma sendPayloads_each gen d m datas (P : nat -> list byte -> Packet -> Prop) :
  (forall i p, datas !! i = Some p ->
    exists pkt raw q,
      writePacket (gen i) d (set_localDataPacketID (localDataPacketID m + Z.of_nat i) m) p =
        (Ok pkt, set_localDataPacketID (localDataPacketID m + Z.of_nat i + 1) m) /\
      Packet_Bytes pkt = Ok raw /\ ParsePacket raw = Ok q /\ P i p q) ->
  exists raws,
    sendPayloads gen (mkWorkersState d m true) datas =
      Ok (mkWorkersState d (set_localDataPacketID (localDataPacketID m + len datas) m) true, raws) /\
    length raws = length datas /\
    forall i p, datas !! i = Some p -> exists raw q, raws !! i = Some raw /\ ParsePacket raw = Ok q /\ P i p q.
Proof.
  revert gen m P. induction datas as [|p datas IH]; intros gen m P Hw.
  - exists []. cbn [sendPayloads]. rewrite len_nil, Z.add_0_r. split; [|done]. by destruct m.
  - destruct (Hw 0%nat p eq_refl) as (pkt & raw & q & Hp & Hb & Hq & HP).
    rewrite Z.add_0_r in Hp. assert (set_localDataPacketID (localDataPacketID m) m = m) as Hid by (by destruct m). rewrite Hid in Hp.
    destruct (IH (fun i => gen (S i)) (set_localDataPacketID (localDataPacketID m + 1) m) (fun i => P (S i)))
      as (raws & Hs & Hl & Hall).
    { intros i p' Hi. destruct (Hw (S i) p' Hi) as (pkt' & raw' & q' & Hp' & Hrest). exists pkt', raw', q'. split; [|done].
      change (set_localDataPacketID ?x (set_localDataPacketID _ m)) with (set_localDataPacketID x m).
      change (localDataPacketID (set_localDataPacketID ?x m)) with x.
      rewrite Nat2Z.inj_succ in Hp'.
      replace (localDataPacketID m + 1 + Z.of_nat i) with (localDataPacketID m + Z.succ (Z.of_nat i)) by lia. exact Hp'. }
    exists (raw :: raws). cbn [sendPayloads]. unfold DataChannel.moveDownWorker_step at 1.
    cbn [dataChannel sessionManager firstKeyReady]. rewrite Hp. go_step. rewrite Hs. go_step.
    assert (EndToEnd.emit [pkt] = [raw]) as ->.
    { unfold EndToEnd.emit, Muxer.moveDownWorker_step. cbn [map]. rewrite Hb. done. }
    split; [|split; [cbn; lia|]].
    + rewrite len_cons. replace (localDataPacketID m + (len datas + 1)) with (localDataPacketID m + 1 + len datas) by lia. done.
    + intros [|i] p' Hi; [injection Hi as <-; exists raw, q; done | by apply Hall].
Qed.
End Unreliable.

Section Unreliable.
Context `{CryptoLaws}.

(** The loop of the receiving end over the packets that arrive, when the
    last identifier it accepted is [r] and the positions below [lo] are stale. *)
Lemma receive_nonaead e n mux base datas raws idx :
  S_GENERATED_KEYS <= negState (Muxer.sessionManager mux) -> base + len datas <= MaxUint32 ->
  length raws = length datas ->
  (forall i p, datas !! i = Some p -> exists raw q, raws !! i = Some raw /\ ParsePacket raw = Ok q /\
    Opcode q = P_DATA_V2 /\ forall r, r <> MaxUint32 ->
      readPacket (atRemoteID r e) n q =
        if base + Z.of_nat i <=? r then (Err ErrReplayAttack, atRemoteID r e) else (Ok p, atRemoteID (base + Z.of_nat i) e)) ->
  Forall (fun i => (i < length datas)%nat) idx ->
  forall r lo, r < MaxUint32 -> (forall i : nat, (base + Z.of_nat i <=? r) = (i <? lo)%nat) ->
  exists r', receivePayloads mux (mkWorkersState (atRemoteID r e) n true) (received [] raws idx) =
    Ok (mux, mkWorkersState (atRemoteID r' e) n true, List.filter notKeepalive (received [] datas (records lo idx))).
Proof.
  intros Hk Hmax Hl Hall Hi. induction Hi as [|i idx Hi _ IH]; intros r lo Hr Hlo; [exists r; reflexivity|].
  destruct (lookup_lt_is_Some_2 datas i Hi) as [p Hp]. destruct (Hall i p Hp) as (raw & q & Hraw & Hq & Ho & Hread).
  pose proof (nth_lookup_Some _ _ [] _ Hraw) as Hnr. pose proof (nth_lookup_Some _ _ [] _ Hp) as Hnp.
  cbn [records]. specialize (Hread r ltac:(lia)). rewrite Hlo in Hread. destruct (Nat.ltb_spec i lo) as [Hlt|Hge].
  - destruct (IH r lo Hr Hlo) as [r' Hr']. exists r'. cbn [received map]. rewrite Hnr.
    rewrite (receive_data _ _ _ q raw mux _ _ Hk Hq Ho Hread) by done. fold (received [] raws idx). rewrite Hr'. done.
  - unfold len in Hmax. destruct (IH (base + Z.of_nat i) (S i)) as [r' Hr']; [lia| |].
    { intros j. destruct (Z.leb_spec (base + Z.of_nat j) (base + Z.of_nat i)), (Nat.ltb_spec j (S i)); lia || done. }
    exists r'. cbn [received map]. rewrite Hnr, Hnp.
    rewrite (receive_data _ _ _ q raw mux _ _ Hk Hq Ho Hread) by done. fold (received [] raws idx). rewrite Hr'. go_step.
    change (p :: map (fun i => nth i datas []) (records (S i) idx)) with ([p] ++ received [] datas (records (S i) idx)).
    now rewrite List.filter_app.
Qed.
End Unreliable.

(** C11: in the non-AEAD modes without a compression byte on the wire (with
    one the payloads are misframed, [nonaead_lzo_misframed]), whatever the
    network loses, repeats and reorders, the peer is given the payloads of the
    packets that are newer than all it received before, each once and in the
    order they were written, less the payloads of sixteen bytes, which are
    taken for keepalives: a sublist of what was sent. *)
Theorem unreliable_nonaead `{CryptoLaws} gen d e m n c mux datas :
  mirrored d e m n c -> isAEAD c = false -> hasCompressionByte (Compress (options d)) = false ->
  manager_inv m -> localDataPacketID m + len datas <= MaxUint32 ->
  S_GENERATED_KEYS <= negState (Muxer.sessionManager mux) ->
  (forall i, exists iv, gen i 16 = Ok iv /\ length iv = 16%nat) ->
  remotePacketID (state e) < localDataPacketID m ->
  exists m' raws,
    sendPayloads gen (mkWorkersState d m true) datas = Ok (mkWorkersState d m' true, raws) /\
    length raws = length datas /\
    forall idx, Forall (fun i => (i < length datas)%nat) idx ->
    exists e', receivePayloads mux (mkWorkersState e n true) (received [] raws idx) =
        Ok (mux, mkWorkersState e' n true, List.filter notKeepalive (received [] datas (records 0 idx))) /\
      received [] datas (records 0 idx) `sublist_of` datas.
Proof.
  intros Hmi Ha Hc Hm Hid Hk Hgen Hrem. set (base := localDataPacketID m) in *.
  destruct (sendPayloads_each gen d m datas (fun i p q => Opcode q = P_DATA_V2 /\ forall r, r <> MaxUint32 ->
      readPacket (atRemoteID r e) n q =
        if base + Z.of_nat i <=? r then (Err ErrReplayAttack, atRemoteID r e) else (Ok p, atRemoteID (base + Z.of_nat i) e)))
    as (raws & Hs & Hl & Hall).
  { intros i p Hi. destruct (Hgen i) as (iv & Hiv & Hivl). pose proof (lookup_lt_Some _ _ _ Hi). unfold len in Hid.
    assert (manager_inv (set_localDataPacketID (base + Z.of_nat i) m)) as Hm'
      by (apply manager_inv_set_data; [done|]; destruct Hm; unfold base in *; lia).
    destruct (nonaead_packet (gen i) d e _ n c p iv (mirrored_set_id _ _ _ _ _ (base + Z.of_nat i) Hmi) Ha Hc Hm')
      as (pkt & raw & q & Hw & Hb & Hq & Ho & Hr); [cbn; lia|done|done|]. exists pkt, raw, q. done. }
  eexists _, raws. split; [exact Hs|]. split; [done|]. intros idx Hidx.
  destruct (receive_nonaead e n mux base datas raws idx Hk Hid Hl Hall Hidx (remotePacketID (state e)) 0) as [r' Hr'];
    [pose proof (len_nonneg datas); lia| |].
  { intros i. destruct (Z.leb_spec (base + Z.of_nat i) (remotePacketID (state e))); [lia|done]. }
  rewrite atRemoteID_self in Hr'. eexists. split; [exact Hr'|]. apply (records_sublist [] datas 0 idx Hidx).
Qed.

(** C36: in the AEAD modes there is no replay protection: whatever the network
    loses, repeats and reorders, each packet that arrives is handed to the
    application as often as it arrives and in the order of arrival, the payload
    with its padding, unless that is sixteen bytes long and is dropped as a
    keepalive. *)
Theorem unreliable_aead `{CryptoLaws} gen d e m n c mux datas :
  mirrored d e m n c -> isAEAD c = true -> manager_inv m -> localDataPacketID m + len datas <= MaxUint32 ->
  S_GENERATED_KEYS <= negState (Muxer.sessionManager mux) -> Forall (fun p => p <> []) datas ->
  let up := map (padded (Compress (options d))) datas in
  exists m' raws,
    sendPayloads gen (mkWorkersState d m true) datas = Ok (mkWorkersState d m' true, raws) /\
    length raws = length datas /\
    forall idx, Forall (fun i => (i < length datas)%nat) idx ->
      receivePayloads mux (mkWorkersState e n true) (received [] raws idx) =
        Ok (mux, mkWorkersState e n true, List.filter notKeepalive (received [] up idx)).
Proof.
  intros Hmi Ha Hm Hid Hk Hne up.
  destruct (sendPayloads_each gen d m datas (fun i p q => Opcode q = P_DATA_V2 /\
      readPacket e n q = (Ok (p ++ aeadTrailer (Compress (options d)) p), e))) as (raws & Hs & Hl & Hall).
  { intros i p Hi. pose proof (lookup_lt_Some _ _ _ Hi). unfold len in Hid.
    assert (manager_inv (set_localDataPacketID (localDataPacketID m + Z.of_nat i) m)) as Hm'
      by (apply manager_inv_set_data; [done|]; destruct Hm; lia).
    destruct (aead_wire_sized (gen i) d e _ n c p (mirrored_set_id _ _ _ _ _ (localDataPacketID m + Z.of_nat i) Hmi) Ha Hm')
      as (pkt & raw & q & Hw & Hb & Ho & _ & Hq & Hr); [cbn; lia|by eapply Forall_lookup_1 in Hne|].
    exists pkt, raw, q. done. }
  eexists _, raws. split; [exact Hs|]. split; [done|]. intros idx Hidx.
  induction Hidx as [|i idx Hi _ IH]; [reflexivity|].
  destruct (lookup_lt_is_Some_2 datas i Hi) as [p Hp]. destruct (Hall i p Hp) as (raw & q & Hraw & Hq & Ho & Hread).
  cbn [received map]. rewrite (nth_lookup_Some _ _ [] _ Hraw).
  assert (nth i up [] = p ++ aeadTrailer (Compress (options d)) p) as ->
    by (apply nth_lookup_Some; unfold up; now rewrite (list_lookup_fmap _ datas), Hp).
  rewrite (receive_data _ _ _ q raw mux _ _ Hk Hq Ho Hread) by done. fold (received [] raws idx). rewrite IH. go_step.
  change (?x :: map ?f ?l) with ([x] ++ map f l). now rewrite List.filter_app.
Qed.

(** Four payloads of which the last looks like a keepalive; the second is
    overtaken by the third, which also arrives twice. *)
Definition fourPayloads : list (list byte) := samplePayloads ++ [replicate 17 Byte.x43; replicate 16 Byte.x44].

Lemma unreliable_nonaead_witness :
  let mux := Muxer.StartWorkers (set_negState S_GENERATED_KEYS sampleManager) in
  let e := mirrorChannel (cbcChannel "empty") in
  let gen (i : nat) (n : Z) := Ok (replicate (Z.to_nat n) (z2b (Z.of_nat i))) in
  exists m' raws e',
    sendPayloads gen (mkWorkersState (cbcChannel "empty") sampleManager true) fourPayloads =
      Ok (mkWorkersState (cbcChannel "empty") m' true, raws) /\ length raws = 4%nat /\
    receivePayloads mux (mkWorkersState e sampleManager true) (received [] raws [0; 2; 1; 2; 3; 0]%nat) =
      Ok (mux, mkWorkersState e' sampleManager true, [replicate 20 Byte.x41; replicate 17 Byte.x43]).
Proof.
  cbv zeta. destruct (cbcChannel_ready "empty") as (hl & hr & Hd).
  destruct (unreliable_nonaead (fun i n => Ok (replicate (Z.to_nat n) (z2b (Z.of_nat i)))) (cbcChannel "empty")
    (mirrorChannel (cbcChannel "empty")) sampleManager sampleManager (mkDataCipherAES 16 "cbc")
    (Muxer.StartWorkers (set_negState S_GENERATED_KEYS sampleManager)) fourPayloads) as (m' & raws & Hs & Hl & Hr);
    [now apply mirrorChannel_mirrored with hl hr|reflexivity|reflexivity|apply sampleManager_inv|vm_compute; congruence
    |vm_compute; congruence|intros i; eexists; split; [reflexivity|apply length_replicate]|vm_compute; reflexivity|].
  destruct (Hr [0; 2; 1; 2; 3; 0]%nat) as (e' & He & _); [repeat constructor|].
  exists m', raws, e'. split; [exact Hs|]. split; [exact Hl|]. rewrite He. reflexivity.
Defined.

Lemma unreliable_aead_witness :
  let mux := Muxer.StartWorkers (set_negState S_GENERATED_KEYS sampleManager) in
  let e := mkWorkersState (mirrorChannel gcmPlain) sampleManager true in
  exists m' raws,
    sendPayloads (fun _ _ => Panic) (mkWorkersState gcmPlain sampleManager true) sampleWithShort =
      Ok (mkWorkersState gcmPlain m' true, raws) /\
    receivePayloads mux e (received [] raws [2; 1; 0; 2]%nat) =
      Ok (mux, e, [replicate 61 Byte.x42 ++ replicate 3 (z2b 3); replicate 20 Byte.x41 ++ replicate 12 (z2b 12);
                   replicate 61 Byte.x42 ++ replicate 3 (z2b 3)]).
Proof.
  cbv zeta. destruct gcmPlain_ready as (hl & hr & Hd).
  destruct (unreliable_aead (fun _ _ => Panic) gcmPlain (mirrorChannel gcmPlain) sampleManager sampleManager
    (mkDataCipherAES 32 "gcm") (Muxer.StartWorkers (set_negState S_GENERATED_KEYS sampleManager)) sampleWithShort)
    as (m' & raws & Hs & _ & Hr);
    [now apply mirrorChannel_mirrored with hl hr|reflexivity|apply sampleManager_inv|vm_compute; congruence|vm_compute; congruence
    |repeat constructor; done|].
  exists m', raws. split; [exact Hs|]. rewrite Hr by repeat constructor. reflexivity.
Defined.
