(* ===== verification/Setup.v ===== *)
(** * The tunnel put together

    [internal/tun/setup.go] and the [StartWorkers] methods it calls: the
    channels are created, the services are connected through their signals and
    slots, and the workers are started.

    A channel is the number of its allocation; the heap records the capacity
    of every channel made so far.  A field of type [chan T] that is made by
    the service's owner is a signal, a field of type [*chan T] is a slot. *)

From S2P Require Import Prelude Session.
From S2P Require Workers.

Definition chan : Type := nat.
Definition heap : Type := list nat.

(** [make(chan T, cap)] *)
Definition make_chan (cap : nat) (h : heap) : chan * heap := (length h, h ++ [cap]).

(** A [chan T] variable, or a [*chan T]: [None] is nil. *)
Definition signal : Type := option chan.
Definition slot : Type := option signal.

(** [connectChannel(signal, &slot)].  The pointer to the slot is the address
    of a field and never nil. *)
Definition connectChannel (sig : signal) (sl : slot) : outcome slot :=
  _ ← Assert (bool_decide (sig <> None));
  _ ← Assert (bool_decide (sl = None));
  Ok (Some sig).

(** [*slot] panics on a nil pointer. *)
Definition deref (sl : slot) : outcome signal :=
  match sl with Some s => Ok s | None => Panic end.

(** ** The services and the ends their workers hold *)

Module Nio.
Record Service : Type := mkService { MuxerToNetwork : signal; NetworkToMuxer : slot }.
Record workersState : Type := mkWorkersState { muxerToNetwork : signal; networkToMuxer : signal }.
Definition StartWorkers (s : Service) (wm : Workers.Manager) : outcome (workersState * Workers.Manager) :=
  n2m ← deref (NetworkToMuxer s);
  Ok (mkWorkersState (MuxerToNetwork s) n2m, Nat.iter 2 Workers.StartWorker wm).
End Nio.

Module Mux.
Record Service : Type := mkService {
  HardReset : signal; NotifyTLS : slot; MuxerToReliable : slot; MuxerToData : slot;
  DataOrControlToMuxer : signal; MuxerToNetwork : slot; NetworkToMuxer : signal
}.
Record workersState : Type := mkWorkersState {
  hardReset : signal; notifyTLS : signal; dataOrControlToMuxer : signal; muxerToReliable : signal;
  muxerToData : signal; muxerToNetwork : signal; networkToMuxer : signal
}.
Definition StartWorkers (s : Service) (wm : Workers.Manager) : outcome (workersState * Workers.Manager) :=
  ntls ← deref (NotifyTLS s);
  m2r ← deref (MuxerToReliable s);
  m2d ← deref (MuxerToData s);
  m2n ← deref (MuxerToNetwork s);
  Ok (mkWorkersState (HardReset s) ntls (DataOrControlToMuxer s) m2r m2d m2n (NetworkToMuxer s),
      Nat.iter 2 Workers.StartWorker wm).
End Mux.

Module Rel.
Record Service : Type := mkService {
  DataOrControlToMuxer : slot; ControlToReliable : signal; MuxerToReliable : signal; ReliableToControl : slot
}.
Record workersState : Type := mkWorkersState {
  controlToReliable : signal; dataOrControlToMuxer : signal; incomingSeen : signal;
  muxerToReliable : signal; reliableToControl : signal
}.
Definition StartWorkers (s : Service) (wm : Workers.Manager) (h : heap)
  : outcome (workersState * Workers.Manager * heap) :=
  d2m ← deref (DataOrControlToMuxer s);
  let '(seen, h) := make_chan 100 h in
  r2c ← deref (ReliableToControl s);
  Ok (mkWorkersState (ControlToReliable s) d2m (Some seen) (MuxerToReliable s) r2c,
      Nat.iter 2 Workers.StartWorker wm, h).
End Rel.

Module Ctrl.
Record Service : Type := mkService {
  NotifyTLS : slot; ControlToReliable : slot; ReliableToControl : signal;
  TLSRecordToControl : signal; TLSRecordFromControl : slot
}.
Record workersState : Type := mkWorkersState {
  notifyTLS : signal; controlToReliable : signal; reliableToControl : signal;
  tlsRecordToControl : signal; tlsRecordFromControl : signal
}.
Definition StartWorkers (s : Service) (wm : Workers.Manager) : outcome (workersState * Workers.Manager) :=
  ntls ← deref (NotifyTLS s);
  c2r ← deref (ControlToReliable s);
  trfc ← deref (TLSRecordFromControl s);
  Ok (mkWorkersState ntls c2r (ReliableToControl s) (TLSRecordToControl s) trfc,
      Nat.iter 2 Workers.StartWorker wm).
End Ctrl.

Module Data.
Record Service : Type := mkService {
  MuxerToData : signal; DataOrControlToMuxer : slot; TUNToData : signal; DataToTUN : signal; KeyReady : signal
}.
Record workersState : Type := mkWorkersState {
  dataOrControlToMuxer : signal; dataToTUN : signal; keyReady : signal; muxerToData : signal;
  tunToData : signal; firstKeyReady : signal
}.
(** [dc] is what [NewDataChannelFromOptions] returned; on an error no worker
    is started. *)
Definition StartWorkers {D} (dc : outcome D) (s : Service) (wm : Workers.Manager) (h : heap)
  : outcome (option (D * workersState) * Workers.Manager * heap) :=
  match dc with
  | Panic => Panic
  | Err _ => Ok (None, wm, h)
  | Ok d =>
      d2m ← deref (DataOrControlToMuxer s);
      let '(fkr, h) := make_chan 0 h in
      Ok (Some (d, mkWorkersState d2m (DataToTUN s) (KeyReady s) (MuxerToData s) (TUNToData s) (Some fkr)),
          Nat.iter 3 Workers.StartWorker wm, h)
  end.
End Data.

Module Tls.
Record Service : Type := mkService {
  NotifyTLS : signal; KeyUp : slot; TLSRecordUp : signal; TLSRecordDown : slot
}.
Record workersState : Type := mkWorkersState {
  notifyTLS : signal; tlsRecordDown : signal; tlsRecordUp : signal; keyUp : signal
}.
Definition StartWorkers (s : Service) (wm : Workers.Manager) : outcome (workersState * Workers.Manager) :=
  ku ← deref (KeyUp s);
  trd ← deref (TLSRecordDown s);
  Ok (mkWorkersState (NotifyTLS s) trd (TLSRecordUp s) ku, Workers.StartWorker wm).
End Tls.

(** What [startWorkers] leaves running: the channel ends of every service's
    workers, the workers manager, and the number of elements posted on
    [HardReset]. *)
Record stack (D : Type) : Type := mkStack {
  st_nio : Nio.workersState;
  st_mux : Mux.workersState;
  st_rel : Rel.workersState;
  st_ctrl : Ctrl.workersState;
  st_data : option (D * Data.workersState);
  st_tls : Tls.workersState;
  st_manager : Workers.Manager;
  st_hardResets : nat
}.
Arguments mkStack {D}.
Arguments st_nio {D}. Arguments st_mux {D}. Arguments st_rel {D}. Arguments st_ctrl {D}.
Arguments st_data {D}. Arguments st_tls {D}. Arguments st_manager {D}. Arguments st_hardResets {D}.

(** [tunDown] and [tunUp] are the channels of the TUN device. *)
Definition startWorkers {D} (dc : outcome D) (tunDown tunUp : signal) (h : heap) : outcome (stack D * heap) :=
  let wm := Workers.NewManager in
  let '(c1, h) := make_chan 0 h in
  let nio := Nio.mkService (Some c1) None in
  let '(c2, h) := make_chan 1 h in
  let '(c3, h) := make_chan 0 h in
  let '(c4, h) := make_chan 0 h in
  let mux := Mux.mkService (Some c2) None None None (Some c3) None (Some c4) in
  s ← connectChannel (Nio.MuxerToNetwork nio) (Mux.MuxerToNetwork mux);
  let mux := Mux.mkService (Mux.HardReset mux) (Mux.NotifyTLS mux) (Mux.MuxerToReliable mux) (Mux.MuxerToData mux)
               (Mux.DataOrControlToMuxer mux) s (Mux.NetworkToMuxer mux) in
  s ← connectChannel (Mux.NetworkToMuxer mux) (Nio.NetworkToMuxer nio);
  let nio := Nio.mkService (Nio.MuxerToNetwork nio) s in
  let '(c5, h) := make_chan 0 h in
  let '(c6, h) := make_chan 1 h in
  let datach := Data.mkService (Some c5) None tunDown tunUp (Some c6) in
  s ← connectChannel (Data.MuxerToData datach) (Mux.MuxerToData mux);
  let mux := Mux.mkService (Mux.HardReset mux) (Mux.NotifyTLS mux) (Mux.MuxerToReliable mux) s
               (Mux.DataOrControlToMuxer mux) (Mux.MuxerToNetwork mux) (Mux.NetworkToMuxer mux) in
  s ← connectChannel (Mux.DataOrControlToMuxer mux) (Data.DataOrControlToMuxer datach);
  let datach := Data.mkService (Data.MuxerToData datach) s (Data.TUNToData datach) (Data.DataToTUN datach)
                  (Data.KeyReady datach) in
  let '(c7, h) := make_chan 0 h in
  let '(c8, h) := make_chan 0 h in
  let rel := Rel.mkService None (Some c7) (Some c8) None in
  s ← connectChannel (Rel.MuxerToReliable rel) (Mux.MuxerToReliable mux);
  let mux := Mux.mkService (Mux.HardReset mux) (Mux.NotifyTLS mux) s (Mux.MuxerToData mux)
               (Mux.DataOrControlToMuxer mux) (Mux.MuxerToNetwork mux) (Mux.NetworkToMuxer mux) in
  s ← connectChannel (Mux.DataOrControlToMuxer mux) (Rel.DataOrControlToMuxer rel);
  let rel := Rel.mkService s (Rel.ControlToReliable rel) (Rel.MuxerToReliable rel) (Rel.ReliableToControl rel) in
  let '(c9, h) := make_chan 0 h in
  let '(c10, h) := make_chan 0 h in
  let ctrl := Ctrl.mkService None None (Some c9) (Some c10) None in
  s ← connectChannel (Rel.ControlToReliable rel) (Ctrl.ControlToReliable ctrl);
  let ctrl := Ctrl.mkService (Ctrl.NotifyTLS ctrl) s (Ctrl.ReliableToControl ctrl) (Ctrl.TLSRecordToControl ctrl)
                (Ctrl.TLSRecordFromControl ctrl) in
  s ← connectChannel (Ctrl.ReliableToControl ctrl) (Rel.ReliableToControl rel);
  let rel := Rel.mkService (Rel.DataOrControlToMuxer rel) (Rel.ControlToReliable rel) (Rel.MuxerToReliable rel) s in
  let '(c11, h) := make_chan 1 h in
  let '(c12, h) := make_chan 0 h in
  let tlsx := Tls.mkService (Some c11) None (Some c12) None in
  s ← connectChannel (Tls.NotifyTLS tlsx) (Ctrl.NotifyTLS ctrl);
  let ctrl := Ctrl.mkService s (Ctrl.ControlToReliable ctrl) (Ctrl.ReliableToControl ctrl)
                (Ctrl.TLSRecordToControl ctrl) (Ctrl.TLSRecordFromControl ctrl) in
  s ← connectChannel (Tls.TLSRecordUp tlsx) (Ctrl.TLSRecordFromControl ctrl);
  let ctrl := Ctrl.mkService (Ctrl.NotifyTLS ctrl) (Ctrl.ControlToReliable ctrl) (Ctrl.ReliableToControl ctrl)
                (Ctrl.TLSRecordToControl ctrl) s in
  s ← connectChannel (Ctrl.TLSRecordToControl ctrl) (Tls.TLSRecordDown tlsx);
  let tlsx := Tls.mkService (Tls.NotifyTLS tlsx) (Tls.KeyUp tlsx) (Tls.TLSRecordUp tlsx) s in
  s ← connectChannel (Data.KeyReady datach) (Tls.KeyUp tlsx);
  let tlsx := Tls.mkService (Tls.NotifyTLS tlsx) s (Tls.TLSRecordUp tlsx) (Tls.TLSRecordDown tlsx) in
  s ← connectChannel (Tls.NotifyTLS tlsx) (Mux.NotifyTLS mux);
  let mux := Mux.mkService (Mux.HardReset mux) s (Mux.MuxerToReliable mux) (Mux.MuxerToData mux)
               (Mux.DataOrControlToMuxer mux) (Mux.MuxerToNetwork mux) (Mux.NetworkToMuxer mux) in
  '(nws, wm) ← Nio.StartWorkers nio wm;
  '(mws, wm) ← Mux.StartWorkers mux wm;
  '(rws, wm, h) ← Rel.StartWorkers rel wm h;
  '(cws, wm) ← Ctrl.StartWorkers ctrl wm;
  '(dws, wm, h) ← Data.StartWorkers dc datach wm h;
  '(tws, wm) ← Tls.StartWorkers tlsx wm;
  Ok (mkStack nws mws rws cws dws tws wm 1, h).

(** ** StartTUN *)

(** The channels that exist before the workers start: [Ready] and [Failure]
    of the session manager, [hangup], the [cancel] channels of the two
    deadlines, [tunDown] and [tunUp] of the TUN. *)
Record tunChannels : Type := mkTunChannels {
  chReady : chan; chFailure : chan; chHangup : chan; chDown : chan; chUp : chan
}.

Definition makeTunChannels (h : heap) : tunChannels * heap :=
  let '(r, h) := make_chan 0 h in
  let '(f, h) := make_chan 0 h in
  let '(hu, h) := make_chan 0 h in
  let '(_, h) := make_chan 0 h in
  let '(d, h) := make_chan 0 h in
  let '(u, h) := make_chan 0 h in
  let '(_, h) := make_chan 0 h in
  (mkTunChannels r f hu d u, h).

(** [StartTUN] up to the select that waits for the session: the manager, the
    device and the workers. *)
Definition launchTUN {D} (randomFn : RandomFn) (dc : outcome D)
  : outcome (Session.Manager * tunChannels * stack D * heap) :=
  m ← NewManager randomFn;
  let '(tc, h) := makeTunChannels [] in
  '(st, h) ← startWorkers dc (Some (chDown tc)) (Some (chUp tc)) h;
  Ok (m, tc, st, h).

(** ** Which worker talks to which *)

Inductive worker : Type :=
  | NioUp | NioDown | MuxUp | MuxDown | RelUp | RelDown | CtrlUp | CtrlDown | DataUp | DataDown | KeyWorker | TLSWorker.

#[export] Instance worker_eq_dec : EqDecision worker.
Proof. solve_decision. Defined.

(** The ends the workers receive from.  The TLS records are read by the
    handshake that the TLS worker runs. *)
Definition readEnds {D} (st : stack D) : list (worker * signal) :=
  [(NioDown, Nio.muxerToNetwork (st_nio st));
   (MuxUp, Mux.networkToMuxer (st_mux st)); (MuxUp, Mux.hardReset (st_mux st));
   (MuxDown, Mux.dataOrControlToMuxer (st_mux st));
   (RelUp, Rel.muxerToReliable (st_rel st));
   (RelDown, Rel.controlToReliable (st_rel st)); (RelDown, Rel.incomingSeen (st_rel st));
   (CtrlUp, Ctrl.reliableToControl (st_ctrl st)); (CtrlDown, Ctrl.tlsRecordToControl (st_ctrl st))] ++
  match st_data st with
  | Some (_, ws) => [(DataUp, Data.muxerToData ws); (DataDown, Data.tunToData ws);
                     (DataDown, Data.firstKeyReady ws); (KeyWorker, Data.keyReady ws)]
  | None => []
  end ++
  [(TLSWorker, Tls.notifyTLS (st_tls st)); (TLSWorker, Tls.tlsRecordUp (st_tls st))].

(** The ends they send on, or close. *)
Definition writeEnds {D} (st : stack D) : list (worker * signal) :=
  [(NioUp, Nio.networkToMuxer (st_nio st));
   (MuxUp, Mux.muxerToReliable (st_mux st)); (MuxUp, Mux.muxerToData (st_mux st));
   (MuxUp, Mux.muxerToNetwork (st_mux st)); (MuxUp, Mux.notifyTLS (st_mux st));
   (MuxDown, Mux.muxerToNetwork (st_mux st));
   (RelUp, Rel.incomingSeen (st_rel st)); (RelUp, Rel.reliableToControl (st_rel st));
   (RelDown, Rel.dataOrControlToMuxer (st_rel st));
   (CtrlUp, Ctrl.notifyTLS (st_ctrl st)); (CtrlUp, Ctrl.tlsRecordFromControl (st_ctrl st));
   (CtrlDown, Ctrl.controlToReliable (st_ctrl st))] ++
  match st_data st with
  | Some (_, ws) => [(DataUp, Data.dataToTUN ws); (DataDown, Data.dataOrControlToMuxer ws);
                     (KeyWorker, Data.firstKeyReady ws)]
  | None => []
  end ++
  [(TLSWorker, Tls.tlsRecordDown (st_tls st)); (TLSWorker, Tls.keyUp (st_tls st))].

(** Pairs of a sender and a receiver on the same channel. *)
Definition edges {D} (st : stack D) : list (worker * worker) :=
  concat (map (fun w => omap (fun r => if bool_decide (snd r = snd w) then Some (fst w, fst r) else None)
                          (readEnds st)) (writeEnds st)).

(** The arrows between workers in the second diagram of ARCHITECTURE.md. *)
Definition drawnEdges : list (worker * worker) :=
  [(NioUp, MuxUp);
   (MuxUp, RelUp); (MuxUp, DataUp); (MuxUp, TLSWorker); (MuxDown, NioDown);
   (RelUp, RelDown); (RelUp, CtrlUp); (RelDown, MuxDown);
   (CtrlUp, TLSWorker); (CtrlUp, TLSWorker); (CtrlDown, RelDown);
   (DataDown, MuxDown);
   (TLSWorker, CtrlDown); (TLSWorker, KeyWorker)].

(** Two more that the diagram does not have: the muxer's up-worker writes hard
    resets to the network itself, and the key worker closes [firstKeyReady]
    for the data channel's down-worker. *)
Definition undrawnEdges : list (worker * worker) := [(MuxUp, NioDown); (KeyWorker, DataDown)].

Lemma Permutation_computed (l k : list (worker * worker)) : bool_decide (l ≡ₚ k) = true -> l ≡ₚ k.
Proof. apply bool_decide_eq_true. Qed.

Lemma NoDup_computed (l : list (option nat)) : bool_decide (NoDup l) = true -> NoDup l.
Proof. apply bool_decide_eq_true. Qed.

(** With a session manager, the workers always start. *)
Lemma launchTUN_manager {D} randomFn (d : D) m :
  NewManager randomFn = Ok m -> exists tc st h, launchTUN randomFn (Ok d) = Ok (m, tc, st, h).
Proof.
  intros Hm. unfold launchTUN. rewrite Hm. go_step. destruct (makeTunChannels []) as [tc h0] eqn:Et.
  vm_compute in Et. injection Et as <- <-.
  destruct (startWorkers _ _ _ _) as [[st h]| |] eqn:E; vm_compute in E; [|discriminate E..].
  go_step. eauto.
Qed.



(** When the options name a cipher or digest the program does not have, the
    tunnel starts without the data channel's workers: nobody will receive the
    keys, and only the handshake timeout ends [StartTUN]. *)
Lemma missing_data_channel randomFn e m :
  NewManager randomFn = Ok m ->
  exists tc st h, launchTUN (D := unit) randomFn (Err e) = Ok (m, tc, st, h) /\ st_data st = None /\
    Workers.wg (st_manager st) = 9 /\ Forall (fun r => snd r <> Tls.keyUp (st_tls st)) (readEnds st).
Proof.
  intros Hm. unfold launchTUN. rewrite Hm. go_step.
  destruct (makeTunChannels []) as [tc h0] eqn:Et. vm_compute in Et. injection Et as <- <-.
  destruct (startWorkers _ _ _ _) as [[st h]| |] eqn:E; vm_compute in E; [|discriminate E..].
  injection E as <- <-. go_step. do 3 eexists. split; [reflexivity|].
  split; [reflexivity|]. split; [reflexivity|]. cbn. repeat constructor; done.
Qed.
