(* ===== verification/Lifecycle.v ===== *)
(** * The running tunnel: blocking and shutdown

    Where the twelve workers block, and what ends the wait.  A worker is at
    its main select ([Home]), in the middle of a channel send, in a call on
    the connection, or done; the TLS worker may also be waiting for a
    handshake it started.  A send is guarded when it is in a [select] with the
    shutdown channel.  The contents of messages are abstracted away: where the
    code may take several ways after receiving a message, an event chooses
    one. *)

From stdpp Require Import functions.
From S2P Require Import Prelude Setup.
From S2P Require Workers.

Inductive link : Type :=
  | LHardReset | LNetworkToMuxer | LMuxerToReliable | LMuxerToData | LMuxerToNetwork | LNotifyTLS
  | LIncomingSeen | LReliableToControl | LDataOrControlToMuxer | LTLSRecordUp | LControlToReliable
  | LTLSRecordDown | LKeyUp | LTunDown | LTunUp | LReady | LFailure.

#[export] Instance link_eq_dec : EqDecision link.
Proof. solve_decision. Defined.

(** [Handshake] is the select of [tlsAuth] while [doTLSAuth] runs. *)
Inductive point : Type := Home | Sending (l : link) | OnConn | Handshake | Done.

#[export] Instance point_eq_dec : EqDecision point.
Proof. solve_decision. Defined.

Definition capacity (l : link) : nat :=
  match l with LHardReset | LNotifyTLS | LKeyUp => 1 | LIncomingSeen => 100 | _ => 0 end.

(** The worker that receives from a channel.  The last three are read by the
    application and by [StartTUN]. *)
Definition receiver (l : link) : option worker :=
  match l with
  | LHardReset | LNetworkToMuxer => Some MuxUp
  | LMuxerToReliable => Some RelUp
  | LMuxerToData => Some DataUp
  | LMuxerToNetwork => Some NioDown
  | LNotifyTLS | LTLSRecordUp => Some TLSWorker
  | LIncomingSeen | LControlToReliable => Some RelDown
  | LReliableToControl => Some CtrlUp
  | LDataOrControlToMuxer => Some MuxDown
  | LTLSRecordDown => Some CtrlDown
  | LKeyUp => Some KeyWorker
  | LTunDown => Some DataDown
  | LTunUp | LReady | LFailure => None
  end.

(** Where the receiver must be to take a message: records are read by the
    handshake, and the data channel waits for its first key. *)
Definition listening (l : link) (keyed : bool) (p : point) : bool :=
  match l, p with
  | LTLSRecordUp, Handshake => true
  | LTLSRecordUp, _ => false
  | LTunDown, Home => keyed
  | _, Home => true
  | _, _ => false
  end.

(** ** The code of each worker

    [onMessage]: where it may go with a message from a channel; [sent]: where
    it may go after a send; [shutdownCase]: where the shutdown case of the
    [select] at a point leads, [None] when the worker is not in a select with
    the shutdown channel there. *)
Record code : Type := mkCode {
  onMessage : link -> list point;
  sent : link -> list point;
  shutdownCase : point -> option point
}.

(** It has no main select: it reads from the connection. *)
Definition networkio_moveUp : code := mkCode
  (fun _ => [])
  (fun l => match l with LNetworkToMuxer => [OnConn] | _ => [] end)
  (fun p => match p with Sending LNetworkToMuxer => Some Done | _ => None end).

Definition networkio_moveDown : code := mkCode
  (fun l => match l with LMuxerToNetwork => [OnConn] | _ => [] end)
  (fun _ => [])
  (fun p => match p with Home => Some Done | _ => None end).

(** An interrupted [handleRawPacket] returns to the loop; an interrupted
    [startHardReset] ends the worker. *)
Definition muxer_moveUp : code := mkCode
  (fun l => match l with
            | LHardReset => [Sending LMuxerToNetwork]
            | LNetworkToMuxer => [Home; Sending LMuxerToReliable; Sending LMuxerToData]
            | _ => []
            end)
  (fun l => match l with
            | LMuxerToReliable => [Home; Sending LNotifyTLS]
            | LMuxerToData | LMuxerToNetwork | LNotifyTLS => [Home]
            | _ => []
            end)
  (fun p => match p with
            | Home | Sending LMuxerToNetwork => Some Done
            | Sending (LMuxerToReliable | LMuxerToData | LNotifyTLS) => Some Home
            | _ => None
            end).

Definition muxer_moveDown : code := mkCode
  (fun l => match l with LDataOrControlToMuxer => [Home; Sending LMuxerToNetwork] | _ => [] end)
  (fun l => match l with LMuxerToNetwork => [Home] | _ => [] end)
  (fun p => match p with Home | Sending LMuxerToNetwork => Some Done | _ => None end).

(** The send on [incomingSeen] is in no select. *)
Definition reliable_moveUp : code := mkCode
  (fun l => match l with LMuxerToReliable => [Home; Sending LIncomingSeen] | _ => [] end)
  (fun l => match l with LIncomingSeen | LReliableToControl => [Home; Sending LReliableToControl] | _ => [] end)
  (fun p => match p with Home | Sending LReliableToControl => Some Done | _ => None end).

(** An interrupted [blockOnTryingToSend] returns to the loop. *)
Definition reliable_moveDown : code := mkCode
  (fun l => match l with LIncomingSeen | LControlToReliable => [Home] | _ => [] end)
  (fun l => match l with LDataOrControlToMuxer => [Home; Sending LDataOrControlToMuxer] | _ => [] end)
  (fun p => match p with Home => Some Done | Sending LDataOrControlToMuxer => Some Home | _ => None end).

Definition control_moveUp : code := mkCode
  (fun l => match l with LReliableToControl => [Home; Sending LNotifyTLS; Sending LTLSRecordUp] | _ => [] end)
  (fun l => match l with LNotifyTLS | LTLSRecordUp => [Home] | _ => [] end)
  (fun p => match p with Home | Sending (LNotifyTLS | LTLSRecordUp) => Some Done | _ => None end).

Definition control_moveDown : code := mkCode
  (fun l => match l with LTLSRecordDown => [Done; Sending LControlToReliable] | _ => [] end)
  (fun l => match l with LControlToReliable => [Home] | _ => [] end)
  (fun p => match p with Home | Sending LControlToReliable => Some Done | _ => None end).

(** The send to the TUN is in no select. *)
Definition data_moveUp : code := mkCode
  (fun l => match l with LMuxerToData => [Home; Sending LTunUp] | _ => [] end)
  (fun l => match l with LTunUp => [Home] | _ => [] end)
  (fun p => match p with Home => Some Done | _ => None end).

Definition data_moveDown : code := mkCode
  (fun l => match l with LTunDown => [Home; Sending LDataOrControlToMuxer] | _ => [] end)
  (fun l => match l with LDataOrControlToMuxer => [Home] | _ => [] end)
  (fun p => match p with Home | Sending LDataOrControlToMuxer => Some Done | _ => None end).

(** The send is in [SetNegotiationState], in no select. *)
Definition data_keyWorker : code := mkCode
  (fun l => match l with LKeyUp => [Home; Sending LReady] | _ => [] end)
  (fun l => match l with LReady => [Home] | _ => [] end)
  (fun p => match p with Home => Some Done | _ => None end).

(** Records are read and written by the handshake that [tlsAuth] starts; when
    it is interrupted the worker logs that and returns to its loop.  The send
    of a failure is in no select. *)
Definition tls_worker : code := mkCode
  (fun l => match l with
            | LNotifyTLS => [Home; Handshake; Sending LFailure]
            | LTLSRecordUp => [Handshake]
            | _ => []
            end)
  (fun l => match l with LFailure => [Done] | _ => [] end)
  (fun p => match p with Home => Some Done | Handshake => Some Home | _ => None end).

Definition codeOf (w : worker) : code :=
  match w with
  | NioUp => networkio_moveUp | NioDown => networkio_moveDown
  | MuxUp => muxer_moveUp | MuxDown => muxer_moveDown
  | RelUp => reliable_moveUp | RelDown => reliable_moveDown
  | CtrlUp => control_moveUp | CtrlDown => control_moveDown
  | DataUp => data_moveUp | DataDown => data_moveDown
  | KeyWorker => data_keyWorker | TLSWorker => tls_worker
  end.

Definition onReceive (l : link) : list point :=
  match receiver l with Some w => onMessage (codeOf w) l | None => [] end.
Definition afterSend (w : worker) (l : link) : list point := sent (codeOf w) l.
Definition guarded (w : worker) (l : link) : bool := bool_decide (is_Some (shutdownCase (codeOf w) (Sending l))).

(** ** The system *)

Record sys : Type := mkSys {
  at_ : worker -> point;
  fill : link -> nat;
  down : bool;
  connClosed : bool;
  appReads : bool;
  starting : bool;
  keyed : bool
}.

(** A worker that ends runs its deferred [StartShutdown]. *)
Definition goTo (w : worker) (p : point) (s : sys) : sys :=
  mkSys (<[w := p]> (at_ s)) (fill s) (down s || bool_decide (p = Done)) (connClosed s) (appReads s) (starting s) (keyed s).

Definition setFill (l : link) (n : nat) (s : sys) : sys :=
  mkSys (at_ s) (<[l := n]> (fill s)) (down s) (connClosed s) (appReads s) (starting s) (keyed s).

Inductive event : Type :=
  | Hand (w : worker) (l : link) (i j : nat)   (* an unbuffered channel *)
  | Put (w : worker) (l : link) (i : nat)      (* a buffered channel *)
  | Take (l : link) (j : nat)
  | Exit (w : worker)                          (* the shutdown case of a select *)
  | ConnRead | ConnWritten | ConnFail (w : worker)
  | TickRel | TickMux
  | TLSWrite (j : nat) | TLSKey | TLSEnd
  | AppWrite (j : nat) | AppRead | AppStop | AppClose
  | StartReady | StartFailure | StartTimeout.

(** The steps, by the part of the program that takes them; [None] when one is
    not enabled. *)

(** A message is handed over, put into a buffer or taken from it; the workers
    and what they do next are those of [codeOf]. *)
Definition channelStep (s : sys) (ev : event) : option sys :=
  match ev with
  | Hand w l i j =>
      r ← receiver l;
      if bool_decide (at_ s w = Sending l) && bool_decide (capacity l = 0%nat) && listening l (keyed s) (at_ s r)
      then pw ← afterSend w l !! i; pr ← onReceive l !! j; Some (goTo r pr (goTo w pw s))
      else None
  | Put w l i =>
      if bool_decide (at_ s w = Sending l) && (fill s l <? capacity l)%nat
      then pw ← afterSend w l !! i; Some (goTo w pw (setFill l (S (fill s l)) s))
      else None
  | Take l j =>
      r ← receiver l;
      if (0 <? fill s l)%nat && listening l (keyed s) (at_ s r)
      then pr ← onReceive l !! j; Some (goTo r pr (setFill l (pred (fill s l)) s))
      else None
  | _ => None
  end.

(** The shutdown channel is closed and the worker takes its case. *)
Definition exitStep (s : sys) (w : worker) : option sys :=
  if down s then p ← shutdownCase (codeOf w) (at_ s w); Some (goTo w p s) else None.

(** Calls on the connection. *)
Definition connStep (s : sys) (ev : event) : option sys :=
  match ev with
  | ConnRead =>
      if bool_decide (at_ s NioUp = OnConn) && negb (connClosed s)
      then Some (goTo NioUp (Sending LNetworkToMuxer) s) else None
  | ConnWritten =>
      if bool_decide (at_ s NioDown = OnConn) && negb (connClosed s) then Some (goTo NioDown Home s) else None
  | ConnFail w => if bool_decide (at_ s w = OnConn) then Some (goTo w Done s) else None
  | _ => None
  end.

(** The tickers of the sender and of the muxer. *)
Definition tickRelStep (s : sys) : option sys :=
  if bool_decide (at_ s RelDown = Home) then Some (goTo RelDown (Sending LDataOrControlToMuxer) s) else None.
Definition tickMuxStep (s : sys) : option sys :=
  if bool_decide (at_ s MuxUp = Home) then Some (goTo MuxUp (Sending LMuxerToNetwork) s) else None.

(** The negotiation: it writes a record, hands over the key, ends. *)
Definition authStep (s : sys) (ev : event) : option sys :=
  match ev with
  | TLSWrite j =>
      if bool_decide (at_ s TLSWorker = Handshake) && listening LTLSRecordDown (keyed s) (at_ s CtrlDown)
      then p ← onReceive LTLSRecordDown !! j; Some (goTo CtrlDown p s) else None
  | TLSKey =>
      if bool_decide (at_ s TLSWorker = Handshake) && (fill s LKeyUp <? capacity LKeyUp)%nat
      then Some (goTo TLSWorker Home (setFill LKeyUp (S (fill s LKeyUp)) s)) else None
  | TLSEnd => if bool_decide (at_ s TLSWorker = Handshake) then Some (goTo TLSWorker Home s) else None
  | _ => None
  end.

(** The application: [Write], [Read], no more reads, [Close]. *)
Definition appStep (s : sys) (ev : event) : option sys :=
  match ev with
  | AppWrite j =>
      if listening LTunDown (keyed s) (at_ s DataDown)
      then p ← onReceive LTunDown !! j; Some (goTo DataDown p s) else None
  | AppRead =>
      if bool_decide (at_ s DataUp = Sending LTunUp) && appReads s then Some (goTo DataUp Home s) else None
  | AppStop => Some (mkSys (at_ s) (fill s) (down s) (connClosed s) false (starting s) (keyed s))
  | AppClose => Some (mkSys (at_ s) (fill s) true true false (starting s) (keyed s))
  | _ => None
  end.

(** The select of [StartTUN]: a failure and a timeout close the tunnel. *)
Definition startStep (s : sys) (ev : event) : option sys :=
  match ev with
  | StartReady =>
      if bool_decide (at_ s KeyWorker = Sending LReady) && starting s
      then let s := goTo KeyWorker Home s in
           Some (mkSys (at_ s) (fill s) (down s) (connClosed s) (appReads s) false true)
      else None
  | StartFailure =>
      if bool_decide (at_ s TLSWorker = Sending LFailure) && starting s
      then let s := goTo TLSWorker Done s in
           Some (mkSys (at_ s) (fill s) true true false false (keyed s))
      else None
  | StartTimeout =>
      if starting s then Some (mkSys (at_ s) (fill s) true true false false (keyed s)) else None
  | _ => None
  end.

Definition step (s : sys) (ev : event) : option sys :=
  match ev with
  | Hand _ _ _ _ | Put _ _ _ | Take _ _ => channelStep s ev
  | Exit w => exitStep s w
  | ConnRead | ConnWritten | ConnFail _ => connStep s ev
  | TickRel => tickRelStep s
  | TickMux => tickMuxStep s
  | TLSWrite _ | TLSKey | TLSEnd => authStep s ev
  | AppWrite _ | AppRead | AppStop | AppClose => appStep s ev
  | StartReady | StartFailure | StartTimeout => startStep s ev
  end.

Fixpoint steps (s : sys) (evs : list event) : option sys :=
  match evs with [] => Some s | ev :: evs' => s' ← step s ev; steps s' evs' end.

Lemma steps_app s evs evs' : steps s (evs ++ evs') = steps s evs ≫= fun s' => steps s' evs'.
Proof. revert s. induction evs as [|ev evs IH]; intros s; [done|]. cbn. destruct (step s ev); [apply IH | done]. Qed.

(** The tunnel as [startWorkers] leaves it. *)
Definition started : sys :=
  mkSys (fun w => match w with NioUp => OnConn | _ => Home end)
    (fun l => match l with LHardReset => 1%nat | _ => 0%nat end) false false true true false.

Definition workers : list worker :=
  [NioUp; NioDown; MuxUp; MuxDown; RelUp; RelDown; CtrlUp; CtrlDown; DataUp; DataDown; KeyWorker; TLSWorker].

(** The counter of the wait group: the workers that have not ended. *)
Definition live (s : sys) : nat := length (filter (fun w => at_ s w <> Done) workers).

(** [WaitWorkersShutdown], and with it [TUN.Close], returns. *)
Definition closeReturns (s : sys) : bool := bool_decide (live s = 0%nat).

(** ** Workers that nobody will wake *)

(** The worker waits in a send that the shutdown does not interrupt, on a
    channel nobody will read again. *)
Definition wedged (s : sys) (w : worker) : Prop :=
  match at_ s w with
  | Sending LTunUp => w = DataUp /\ appReads s = false
  | Sending LReady => w = KeyWorker /\ starting s = false
  | Sending LFailure => w = TLSWorker /\ starting s = false
  | Sending LIncomingSeen =>
      w = RelUp /\ (capacity LIncomingSeen <= fill s LIncomingSeen)%nat /\ at_ s RelDown = Done
  | _ => False
  end.

#[export] Instance wedged_dec s w : Decision (wedged s w).
Proof. unfold wedged. destruct (at_ s w) as [|[]| | |]; apply _. Defined.

Lemma goTo_at w p s w' : at_ (goTo w p s) w' = if decide (w' = w) then p else at_ s w'.
Proof. cbn. unfold insert, fn_insert. destruct (decide (w = w')), (decide (w' = w)); congruence. Qed.

Lemma setFill_fill l n s l' : fill (setFill l n s) l' = if decide (l' = l) then n else fill s l'.
Proof. cbn. unfold insert, fn_insert. destruct (decide (l = l')), (decide (l' = l)); congruence. Qed.

(** [step_inv] splits the enabling conditions of a step. *)
Ltac step_inv H :=
  cbn [step channelStep exitStep connStep tickRelStep tickMuxStep authStep appStep startStep] in H;
  unfold exitStep, tickRelStep, tickMuxStep in H;
  repeat match type of H with
  | Some _ = Some _ => injection H as H; subst
  | None = Some _ => discriminate H
  | (match receiver ?l with _ => _ end) = _ => destruct (receiver l) eqn:?; cbn in H
  | context [mbind _ (shutdownCase ?c ?p)] => destruct (shutdownCase c p) eqn:?; cbn [mbind option_bind] in H
  | context [mbind _ (receiver ?l)] => destruct (receiver l) eqn:?; cbn [mbind option_bind] in H
  | context [mbind _ (?l !! ?i)] => destruct (l !! i) eqn:?; cbn [mbind option_bind] in H
  | (if ?b then _ else _) = _ => destruct b eqn:?
  end;
  repeat match goal with
  | H : _ && _ = true |- _ => apply andb_true_iff in H as [? ?]
  | H : bool_decide _ = true |- _ => apply bool_decide_eq_true in H
  | H : negb _ = true |- _ => apply negb_true_iff in H
  | H : (_ <? _)%nat = true |- _ => apply Nat.ltb_lt in H
  end.

Lemma listening_alive l k p : listening l k p = true -> p = Home \/ p = Handshake.
Proof. destruct l, p; cbn; auto; done. Qed.

(** Why a worker can leave the point it is at: a message it is listening for
    can come, or it is asked to shut down, or its ticker fires; its send can
    complete, or it is guarded and a shutdown is requested. *)
Definition mayLeave (s : sys) (w : worker) : Prop :=
  match at_ s w with
  | Home =>
      down s = true \/ w = RelDown \/ w = MuxUp \/
      exists l, receiver l = Some w /\ listening l (keyed s) Home = true /\ (capacity l = 0 \/ 0 < fill s l)%nat
  | Handshake | OnConn => True
  | Sending l =>
      (guarded w l = true /\ down s = true) \/
      (capacity l = 0%nat /\ exists r, receiver l = Some r /\ listening l (keyed s) (at_ s r) = true) \/
      (fill s l < capacity l)%nat \/
      (l = LTunUp /\ appReads s = true) \/ (l = LReady /\ starting s = true) \/ (l = LFailure /\ starting s = true)
  | Done => False
  end.

Lemma shutdown_leaves s w p :
  down s = true -> shutdownCase (codeOf w) (at_ s w) = Some p -> mayLeave s w.
Proof.
  intros Hd E. unfold mayLeave. destruct (at_ s w) as [|l| | |]; auto.
  - left. split; [|done]. unfold guarded. rewrite E. by apply bool_decide_eq_true.
  - by destruct w.
Qed.

Lemma step_frame s ev s' w : step s ev = Some s' -> at_ s' w = at_ s w \/ mayLeave s w.
Proof.
  intros H.
  destruct ev; step_inv H; cbn [at_ goTo setFill]; unfold insert, fn_insert; repeat (case_decide; subst); auto;
    try (right; by eapply shutdown_leaves); unfold mayLeave;
    try match goal with H : at_ _ ?w = _ |- context [at_ _ ?w] => rewrite H; eauto 10 end;
    try match goal with Hl : listening ?l _ (at_ _ ?w) = true |- _ =>
      destruct (listening_alive _ _ _ Hl) as [E|E]; rewrite E in *; [right; right; right; right; exists l; auto | auto] end.
Qed.

(** Why the contents of a buffered channel can change. *)
Lemma fill_frame s ev s' l :
  step s ev = Some s' ->
  fill s' l = fill s l \/
  ((fill s l < capacity l)%nat /\ (l = LKeyUp \/ exists w, at_ s w = Sending l /\ afterSend w l <> [])) \/
  ((0 < fill s l)%nat /\ exists r, receiver l = Some r /\ listening l (keyed s) (at_ s r) = true).
Proof.
  intros H.
  destruct ev; step_inv H; cbn [fill goTo setFill]; auto; unfold insert, fn_insert; repeat (case_decide; subst); auto.
  - right. left. split; [done|]. right. exists w. split; [done|]. intros E. rewrite E in *. done.
  - right. right. eauto.
Qed.

Lemma flags_frame s ev s' :
  step s ev = Some s' ->
  (appReads s = false -> appReads s' = false) /\ (starting s = false -> starting s' = false) /\
  (down s = true -> down s' = true) /\ (connClosed s = true -> connClosed s' = true).
Proof.
  intros H. destruct ev; step_inv H; cbn [appReads starting down connClosed goTo setFill];
    (repeat split); intros Hf; rewrite ?Hf; auto; apply orb_true_iff; auto.
Qed.

Lemma done_stable s ev s' w : step s ev = Some s' -> at_ s w = Done -> at_ s' w = Done.
Proof.
  intros H Hd. destruct (step_frame s ev s' w H) as [->|Hl]; [done|]. unfold mayLeave in Hl. now rewrite Hd in Hl.
Qed.

Lemma wedged_not_leave s w : wedged s w -> ~ mayLeave s w.
Proof.
  unfold wedged, mayLeave. destruct (at_ s w) as [|l| | |]; try done.
  destruct l; cbn; try done; intros Hw Hl;
    repeat match goal with
    | H : _ /\ _ |- _ => destruct H
    | H : _ \/ _ |- _ => destruct H
    | H : exists _, _ |- _ => destruct H
    end; subst; (done || congruence || lia).
Qed.

Lemma wedged_step s ev s' w : step s ev = Some s' -> wedged s w -> wedged s' w /\ at_ s' w = at_ s w.
Proof.
  intros H Hw. destruct (step_frame s ev s' w H) as [E|Hl]; [|now apply wedged_not_leave in Hl].
  split; [|done]. destruct (flags_frame _ _ _ H) as (Ha & Hs & _).
  pose proof (done_stable _ _ _ RelDown H) as Hd. unfold wedged in *. rewrite E.
  destruct (at_ s w) as [|l| | |]; try done. destruct l; try done; try (destruct Hw; split; auto).
  destruct H1 as [Hfill Hdone]. split; [|auto].
  destruct (fill_frame _ _ _ LIncomingSeen H) as [->|[[? _]|(_ & r & [= <-] & Hlis)]]; [done|lia|].
  rewrite Hdone in Hlis. done.
Qed.

Lemma wedged_steps evs s s' w : steps s evs = Some s' -> wedged s w -> wedged s' w /\ at_ s' w = at_ s w.
Proof.
  revert s. induction evs as [|ev evs IH]; intros s; cbn [steps]; [intros [= <-]; done|].
  destruct (step s ev) as [s1|] eqn:E; [|done]. cbn. intros H Hw.
  destruct (wedged_step _ _ _ _ E Hw) as [Hw1 E1]. destruct (IH _ H Hw1) as [? ?]. split; [done | congruence].
Qed.

Lemma workers_complete w : w ∈ workers.
Proof. destruct w; unfold workers; set_solver. Qed.

Lemma live_zero s : live s = 0%nat <-> forall w, at_ s w = Done.
Proof.
  unfold live. rewrite length_zero_iff_nil. split.
  - intros H w. destruct (decide (at_ s w = Done)) as [|Hn]; [done|].
    assert (w ∈ filter (fun w => at_ s w <> Done) workers) as Hin by (apply list_elem_of_filter; auto using workers_complete).
    rewrite H in Hin. now apply elem_of_nil in Hin.
  - intros H. apply elem_of_nil_inv. intros w [Hw _]%list_elem_of_filter. apply Hw, H.
Qed.

(** C16: a worker that is wedged keeps the tunnel from ever shutting down.
    The data channel delivering a packet to an application that has stopped
    reading, the key worker announcing keys and the TLS worker reporting a
    failure after [StartTUN] has given up, the receiver announcing a packet
    when the sender has ended and the channel is full: none of these sends is
    in a select with the shutdown channel, so whatever happens afterwards the
    wait for the workers, and with it [TUN.Close], does not return. *)
Theorem wedged_close_hangs s w evs s' :
  wedged s w -> steps s evs = Some s' -> closeReturns s' = false.
Proof.
  intros Hw Hr. destruct (wedged_steps _ _ _ _ Hr Hw) as [Hw' _].
  apply bool_decide_eq_false. intros Hz. pose proof (proj1 (live_zero s') Hz w) as Hd.
  unfold wedged in Hw'. now rewrite Hd in Hw'.
Qed.

(** The handshake up to the keys, and a data packet that arrives while the
    application is not reading. *)
Definition handshake : list event :=
  [Take LHardReset 0; Hand MuxUp LMuxerToNetwork 0 0; ConnWritten;
   ConnRead; Hand NioUp LNetworkToMuxer 0 1; Hand MuxUp LMuxerToReliable 1 1; Put RelUp LIncomingSeen 0;
   Put MuxUp LNotifyTLS 0; Take LNotifyTLS 1; TLSWrite 1; Hand CtrlDown LControlToReliable 0 0;
   TLSKey; Take LKeyUp 1; StartReady].

Definition dataArrives : list event := [ConnRead; Hand NioUp LNetworkToMuxer 0 2; Hand MuxUp LMuxerToData 0 1].

(** The application closes the tunnel at that moment; everybody else ends. *)
Definition closing : list event :=
  [AppClose; ConnFail NioUp] ++
  map Exit [NioDown; MuxUp; MuxDown; RelUp; RelDown; CtrlUp; CtrlDown; DataDown; KeyWorker; TLSWorker].

Lemma wedged_close_hangs_witness :
  exists s s', steps started (handshake ++ dataArrives ++ [AppClose]) = Some s /\ wedged s DataUp /\
    steps s (drop 1 closing) = Some s' /\ live s' = 1%nat /\ closeReturns s' = false.
Proof.
  destruct (steps started (handshake ++ dataArrives ++ [AppClose])) as [s|] eqn:E; [|vm_compute in E; discriminate E].
  destruct (steps s (drop 1 closing)) as [s'|] eqn:E';
    [|vm_compute in E; injection E as <-; vm_compute in E'; discriminate E'].
  assert (wedged s DataUp) as Hw by (vm_compute in E; injection E as <-; vm_compute; auto).
  exists s, s'. split; [done|]. split; [exact Hw|]. split; [done|].
  split; [vm_compute in E; injection E as <-; vm_compute in E'; injection E' as <-; reflexivity|].
  apply (wedged_close_hangs s DataUp (drop 1 closing) s' Hw E').
Defined.

(** ** An orderly shutdown *)

(** The sends that the shutdown does not interrupt. *)
Definition fourSends : list (worker * link) :=
  [(DataUp, LTunUp); (KeyWorker, LReady); (TLSWorker, LFailure); (RelUp, LIncomingSeen)].

(** No worker is in one of them. *)
Definition noneInFourSends (s : sys) : Prop := forall w l, at_ s w = Sending l -> (w, l) ∉ fourSends.

(** The points at which a worker can be. *)
Definition pointsOf (w : worker) : list point :=
  match w with
  | NioUp => [OnConn; Sending LNetworkToMuxer]
  | NioDown => [Home; OnConn]
  | MuxUp => [Home; Sending LMuxerToNetwork; Sending LMuxerToReliable; Sending LMuxerToData; Sending LNotifyTLS]
  | MuxDown => [Home; Sending LMuxerToNetwork]
  | RelUp => [Home; Sending LIncomingSeen; Sending LReliableToControl]
  | RelDown => [Home; Sending LDataOrControlToMuxer]
  | CtrlUp => [Home; Sending LNotifyTLS; Sending LTLSRecordUp]
  | CtrlDown => [Home; Sending LControlToReliable]
  | DataUp => [Home; Sending LTunUp]
  | DataDown => [Home; Sending LDataOrControlToMuxer]
  | KeyWorker => [Home; Sending LReady]
  | TLSWorker => [Home; Handshake; Sending LFailure]
  end ++ [Done].

Definition placed (s : sys) : Prop := forall w, at_ s w ∈ pointsOf w.

Lemma Forall_points (P : point -> Prop) `{!forall p, Decision (P p)} (l : list point) i p :
  bool_decide (Forall P l) = true -> l !! i = Some p -> P p.
Proof. intros Hall%bool_decide_eq_true Hl. by eapply Forall_lookup_1. Qed.

Lemma afterSend_points w l i p : afterSend w l !! i = Some p -> p ∈ pointsOf w.
Proof. apply (Forall_points (fun p => p ∈ pointsOf w)). destruct w, l; reflexivity. Qed.

Lemma onReceive_points w l i p : receiver l = Some w -> onReceive l !! i = Some p -> p ∈ pointsOf w.
Proof. intros Hr. apply (Forall_points (fun p => p ∈ pointsOf w)). destruct l; try discriminate Hr; injection Hr as <-; reflexivity. Qed.

Lemma shutdownCase_points w p q : shutdownCase (codeOf w) p = Some q -> q ∈ pointsOf w.
Proof. destruct w, p as [|[]| | |]; cbn; intros [= <-]; set_solver. Qed.

Lemma done_point w : Done ∈ pointsOf w.
Proof. destruct w; set_solver. Qed.

Lemma placed_goTo w p s : placed s -> p ∈ pointsOf w -> placed (goTo w p s).
Proof. intros Hs Hp w'. rewrite goTo_at. by case_decide as E; [rewrite E|]. Qed.

Lemma placed_step s ev s' : step s ev = Some s' -> placed s -> placed s'.
Proof.
  intros H Hs. destruct ev; step_inv H; try exact Hs;
    lazymatch goal with
    | |- placed (goTo _ _ (goTo _ _ _)) => apply placed_goTo; [apply placed_goTo|]
    | |- placed (goTo _ _ _) => apply placed_goTo
    | |- placed (mkSys _ _ _ _ _ _ _) => refine (placed_goTo _ _ s Hs _)
    end;
    try solve [exact Hs | by eapply afterSend_points | by eapply onReceive_points | eapply onReceive_points; [|eassumption]; reflexivity
              | by eapply shutdownCase_points | apply done_point | cbn; set_solver].
Qed.

Lemma placed_steps evs s : steps started evs = Some s -> placed s.
Proof.
  assert (placed started) as H0 by (intros []; set_solver). revert H0. generalize started.
  induction evs as [|ev evs IH]; intros s0 H0; cbn [steps]; [by intros [= <-]|].
  destruct (step s0 ev) as [s1|] eqn:E; [|done]. by apply IH, (placed_step s0 ev).
Qed.

(** A worker takes the shutdown case of the select it is at, or the call that
    it makes on the connection fails. *)
Definition ends (ev : event) : bool := match ev with Exit _ | ConnFail _ => true | _ => false end.

(** How many such steps a worker has before it. *)
Definition rank (p : point) : nat :=
  match p with Done => 0 | Home | OnConn => 1 | Sending _ | Handshake => 2 end.
Definition total (s : sys) : nat := sum_list_with (fun w => rank (at_ s w)) workers.

Lemma total_bound s : (total s <= 24)%nat.
Proof.
  change 24%nat with (2 * length workers)%nat. unfold total.
  induction workers as [|w l IH]; cbn [sum_list_with length]; [lia|].
  assert (rank (at_ s w) <= 2)%nat by (destruct (at_ s w); cbn; lia). lia.
Qed.

Lemma total_goTo w p s : (total (goTo w p s) + rank (at_ s w) = total s + rank p)%nat.
Proof. unfold total, workers. cbn [sum_list_with]. rewrite !goTo_at. destruct w; repeat (case_decide; try congruence); lia. Qed.

Lemma shutdownCase_rank w p q : shutdownCase (codeOf w) p = Some q -> (rank q < rank p)%nat.
Proof. destruct w, p as [|[]| | |]; cbn; intros [= <-]; cbn; lia. Qed.

Lemma ends_step s ev s' :
  ends ev = true -> step s ev = Some s' ->
  (total s' < total s)%nat /\ (down s = true -> down s' = true) /\ (noneInFourSends s -> noneInFourSends s').
Proof.
  assert (forall w p, (rank p < rank (at_ s w))%nat -> (forall l, p <> Sending l) ->
    (total (goTo w p s) < total s)%nat /\ (down s = true -> down (goTo w p s) = true) /\
    (noneInFourSends s -> noneInFourSends (goTo w p s))) as Hgo.
  { intros w p Hr Hp. pose proof (total_goTo w p s). split; [lia|]. split; [cbn; by intros ->|].
    intros Hn w' l. rewrite goTo_at. case_decide; [intros E; by apply Hp in E | apply Hn]. }
  intros He H. destruct ev; try discriminate He; step_inv H; apply Hgo.
  - by eapply shutdownCase_rank.
  - intros l ->. apply shutdownCase_rank in Heqo. destruct (at_ s w); cbn in Heqo; lia.
  - match goal with E : at_ s w = OnConn |- _ => rewrite E end. cbn. lia.
  - done.
Qed.

(** Every worker that has not ended can take such a step. *)
Lemma ends_enabled s w :
  placed s -> down s = true -> noneInFourSends s -> at_ s w <> Done ->
  exists ev s', ends ev = true /\ step s ev = Some s'.
Proof.
  intros Hp Hd Hn Hw. specialize (Hp w). specialize (Hn w).
  destruct (decide (at_ s w = OnConn)) as [E|E].
  { exists (ConnFail w). eexists. split; [done|]. cbn [step connStep]. by rewrite bool_decide_true. }
  assert (is_Some (shutdownCase (codeOf w) (at_ s w))) as [q Hq].
  { destruct (at_ s w) as [|l| | |] eqn:Ep; try done; [|specialize (Hn l eq_refl)|]; clear - Hp Hn E;
      destruct w; try destruct l; cbn in Hp |- *; try (by eexists); exfalso; set_solver. }
  exists (Exit w). eexists. split; [done|]. cbn [step]. unfold exitStep. rewrite Hd, Hq. reflexivity.
Qed.

(** C15: once the shutdown is requested and no worker is in one of the four
    sends of [wedged_close_hangs], the tunnel ends.  From whatever reachable
    mixture of points, if the workers take the shutdown cases of the selects
    they are at and their calls on the connection fail, as they do once [Close]
    has closed it, then in every order in which they are scheduled this is over
    after at most twenty-four steps, nobody gets stuck on the way (each worker
    that has not ended can make its next step), and when no such step is left
    all workers have ended and the wait returns. *)
Theorem shutdown_completes evs0 s evs s' :
  steps started evs0 = Some s -> down s = true -> noneInFourSends s ->
  Forall (fun ev => ends ev = true) evs -> steps s evs = Some s' ->
  (length evs <= 24)%nat /\
  (forall w, at_ s' w <> Done -> exists ev s'', ends ev = true /\ step s' ev = Some s'') /\
  ((forall ev, ends ev = true -> step s' ev = None) -> closeReturns s' = true).
Proof.
  intros Hr Hd Hn Hall. pose proof (total_bound s) as Hb. apply placed_steps in Hr.
  enough (forall s, placed s -> down s = true -> noneInFourSends s -> steps s evs = Some s' ->
    (length evs + total s' <= total s)%nat /\ placed s' /\ down s' = true /\ noneInFourSends s') as Hrun.
  { intros H. destruct (Hrun s Hr Hd Hn H) as (Hl & Hp & Hd' & Hn'). split; [lia|].
    assert (forall w, at_ s' w <> Done -> exists ev s'', ends ev = true /\ step s' ev = Some s'') as Hen
      by (intros w Hw; by apply (ends_enabled s' w)).
    split; [exact Hen|]. intros Hnone. apply bool_decide_eq_true, live_zero. intros w.
    destruct (decide (at_ s' w = Done)) as [|Hw]; [done|]. destruct (Hen w Hw) as (ev & s'' & He & Hs). by rewrite Hnone in Hs. }
  clear s Hr Hd Hn Hb. induction Hall as [|ev evs He _ IH]; intros s Hp Hd Hn; cbn [steps]; [intros [= <-]; auto|].
  destruct (step s ev) as [s1|] eqn:E; [|done]. cbn [mbind option_bind length]. intros H.
  destruct (ends_step _ _ _ He E) as (Ht & Hd1 & Hn1).
  destruct (IH s1 (placed_step _ _ _ E Hp) (Hd1 Hd) (Hn1 Hn) H) as (? & ?). split; [lia | done].
Qed.

(** Close while packets are under way; the workers end in an arbitrary order. *)
Definition closingInOrder : list event :=
  [Exit RelDown; ConnFail NioDown; Exit MuxDown; Exit TLSWorker; Exit NioUp; Exit CtrlUp; Exit RelDown; Exit KeyWorker;
   Exit DataUp; Exit DataDown; Exit CtrlDown; Exit MuxUp; Exit RelUp].

Definition busyEvents : list event :=
  handshake ++ [ConnRead; TickRel; TickMux; Hand MuxUp LMuxerToNetwork 0 0; AppClose].
Definition busy : sys := default started (steps started busyEvents).
Definition ended : sys := default started (steps busy closingInOrder).

Lemma busy_reached : steps started busyEvents = Some busy.
Proof. unfold busy. destruct (steps started busyEvents) eqn:E; [done | vm_compute in E; discriminate E]. Qed.

Lemma ended_reached : steps busy closingInOrder = Some ended.
Proof. unfold ended. destruct (steps busy closingInOrder) eqn:E; [done | vm_compute in E; discriminate E]. Qed.

Lemma busy_none : noneInFourSends busy.
Proof.
  assert (forallb (fun w => match at_ busy w with Sending l => negb (bool_decide ((w, l) ∈ fourSends)) | _ => true end) workers = true)
    as H by (vm_compute; reflexivity).
  intros w l E. rewrite forallb_forall in H. specialize (H w (proj1 (list_elem_of_In _ _) (workers_complete w))).
  rewrite E in H. by apply negb_true_iff, bool_decide_eq_false in H.
Qed.

Lemma ended_none ev : ends ev = true -> step ended ev = None.
Proof.
  assert (forallb (fun w => bool_decide (at_ ended w = Done)) workers = true) as H by (vm_compute; reflexivity).
  rewrite forallb_forall in H.
  assert (forall w, at_ ended w = Done) as Hd.
  { intros w. eapply bool_decide_eq_true_1, H, list_elem_of_In, workers_complete. }
  intros He. destruct ev; try discriminate He; cbn [step connStep]; unfold exitStep; rewrite Hd; [|done]. destruct (down ended); [|done]. by destruct w.
Qed.

Lemma shutdown_completes_witness :
  steps started busyEvents = Some busy /\ at_ busy NioUp = Sending LNetworkToMuxer /\
  at_ busy RelDown = Sending LDataOrControlToMuxer /\
  steps busy closingInOrder = Some ended /\ closeReturns ended = true.
Proof.
  split; [exact busy_reached|]. split; [vm_compute; reflexivity|]. split; [vm_compute; reflexivity|].
  split; [exact ended_reached|].
  destruct (shutdown_completes busyEvents busy closingInOrder ended busy_reached) as (_ & _ & Hc);
    [vm_compute; reflexivity|exact busy_none|repeat constructor|exact ended_reached|].
  exact (Hc ended_none).
Defined.

(** ** Control packets after the negotiation *)

(** The TLS worker is back in its main loop, where it does not read records,
    no notification is pending, and a record waits at each layer below. *)
Record blockedUp (s : sys) : Prop := {
  bu_tls : at_ s TLSWorker = Home;
  bu_notify : fill s LNotifyTLS = 0%nat;
  bu_ctrl : at_ s CtrlUp = Sending LTLSRecordUp;
  bu_rel : at_ s RelUp = Sending LReliableToControl;
  bu_mux : at_ s MuxUp = Sending LMuxerToReliable
}.

Lemma blockedUp_step s ev s' :
  step s ev = Some s' -> down s = false -> blockedUp s -> blockedUp s'.
Proof.
  intros H Hd [B1 B2 B3 B4 B5].
  constructor.
  - destruct (step_frame s ev s' TLSWorker H) as [->|Hl]; [done|]. unfold mayLeave in Hl. rewrite B1 in Hl.
    destruct Hl as [?|[?|[?|(l & Hr & Hlis & Hc)]]]; [congruence|done|done|].
    destruct l; try discriminate Hr; cbn in *; [lia | done].
  - destruct (fill_frame _ _ _ LNotifyTLS H) as [->|[(_ & [|(w & Hw & Ha)])|(Hlt & _)]]; [done|done| |lia].
    destruct w; cbn in Ha; congruence.
  - destruct (step_frame s ev s' CtrlUp H) as [->|Hl]; [done|]. unfold mayLeave in Hl. rewrite B3 in Hl.
    destruct Hl as [[_ ?]|[(_ & r & [= <-] & Hlis)|[?|?]]]; [congruence| |cbn in *; lia|naive_solver].
    rewrite B1 in Hlis. done.
  - destruct (step_frame s ev s' RelUp H) as [->|Hl]; [done|]. unfold mayLeave in Hl. rewrite B4 in Hl.
    destruct Hl as [[_ ?]|[(_ & r & [= <-] & Hlis)|[?|?]]]; [congruence| |cbn in *; lia|naive_solver].
    rewrite B3 in Hlis. done.
  - destruct (step_frame s ev s' MuxUp H) as [->|Hl]; [done|]. unfold mayLeave in Hl. rewrite B5 in Hl.
    destruct Hl as [[_ ?]|[(_ & r & [= <-] & Hlis)|[?|?]]]; [congruence| |cbn in *; lia|naive_solver].
    rewrite B4 in Hlis. done.
Qed.

Lemma down_steps evs s s' : steps s evs = Some s' -> down s' = false -> down s = false.
Proof.
  revert s. induction evs as [|ev evs IH]; intros s; cbn [steps]; [now intros [= <-]|].
  destruct (step s ev) as [s1|] eqn:E; [|done]. cbn. intros H Hd. specialize (IH _ H Hd).
  destruct (flags_frame _ _ _ E) as (_ & _ & Hf & _). destruct (down s); [now rewrite Hf in IH | done].
Qed.

(** A message handed up to the muxer or to the data channel. *)
Definition handsUp (ev : event) : bool :=
  match ev with Hand _ (LNetworkToMuxer | LMuxerToData) _ _ => true | _ => false end.

(** Once a record waits at each layer they all stay there until the tunnel is
    shut down: the muxer takes no packet from the network and the data channel
    is given none. *)
Lemma blockedUp_stays s evs s' :
  blockedUp s -> steps s evs = Some s' -> down s' = false ->
  blockedUp s' /\ Forall (fun ev => handsUp ev = false) evs.
Proof.
  revert s. induction evs as [|ev evs IH]; intros s Hb; cbn [steps]; [intros [= <-]; done|].
  destruct (step s ev) as [s1|] eqn:E; [|done]. cbn. intros Hs Hd.
  pose proof (down_steps _ _ _ Hs Hd) as Hd1.
  assert (down s = false) as Hd0.
  { destruct (flags_frame _ _ _ E) as (_ & _ & Hf & _). destruct (down s); [now rewrite Hf in Hd1 | done]. }
  destruct (IH s1 (blockedUp_step _ _ _ E Hd0 Hb) Hs Hd) as [Hb' Hall]. split; [done|].
  constructor; [|done]. destruct Hb as [_ _ _ _ B5]. destruct ev as [w l i j| | | | | | | | | | | | | | | | | |]; try done.
  destruct l; try done; cbn in E.
  - rewrite B5 in E. destruct (bool_decide _); done.
  - destruct (bool_decide (at_ s w = Sending LMuxerToData)) eqn:Ew; [|done]. apply bool_decide_eq_true in Ew.
    destruct w; try congruence; cbn in E; rewrite ?lookup_nil in E; destruct (at_ s DataUp); done.
Qed.

(** After the negotiation: the TLS worker is back in its main loop, no
    notification is pending, and the way up is free. *)
Record afterNegotiation (s : sys) : Prop := {
  an_tls : at_ s TLSWorker = Home;
  an_notify : fill s LNotifyTLS = 0%nat;
  an_ctrl : at_ s CtrlUp = Home;
  an_rel : at_ s RelUp = Home;
  an_mux : at_ s MuxUp = Home
}.

(** The muxer takes a control packet from the network. *)
Definition controlTaken (ev : event) : bool :=
  match ev with Hand NioUp LNetworkToMuxer _ 1 => true | _ => false end.

(** The control packets are the next TLS records of the session in order: the
    receiver accepts each, announces it to the sender and passes it on, and
    none asks for a new handshake.  Nothing is asked of other events. *)
Definition nextRecords (ev : event) : bool :=
  match ev with
  | Hand MuxUp LMuxerToReliable i j => (i =? 0)%nat && (j =? 1)%nat
  | Put RelUp LIncomingSeen i => (i =? 1)%nat
  | Hand RelUp LReliableToControl i j => (i =? 0)%nat && (j =? 2)%nat
  | _ => true
  end.

(** Where the three workers of the way up can be, while nobody reads records. *)
Record lateState (s : sys) : Prop := {
  la_tls : at_ s TLSWorker = Home;
  la_notify : fill s LNotifyTLS = 0%nat;
  la_ctrl : at_ s CtrlUp ∈ [Home; Sending LTLSRecordUp];
  la_rel : at_ s RelUp ∈ [Home; Sending LIncomingSeen; Sending LReliableToControl];
  la_mux : at_ s MuxUp ∈ [Home; Sending LMuxerToNetwork; Sending LMuxerToData; Sending LMuxerToReliable]
}.

(** How many of them hold a control packet. *)
Definition held (p : point) : nat :=
  match p with Sending (LTLSRecordUp | LIncomingSeen | LReliableToControl | LMuxerToReliable) => 1 | _ => 0 end.
Definition onTheWay (s : sys) : nat := held (at_ s CtrlUp) + held (at_ s RelUp) + held (at_ s MuxUp).

(** [pick i] looks at the point reached with choice [i]. *)
Ltac pick i :=
  repeat match goal with
  | H : [] !! i = Some _ |- _ => rewrite lookup_nil in H; discriminate H
  | H : (_ :: _) !! i = Some _ |- _ => destruct i as [|i]; cbn in H; [injection H as <-|]
  end.

Lemma listening_at l k p : listening l k p = true -> p = match l with LTLSRecordUp => Handshake | _ => Home end.
Proof. destruct l, p; cbn; auto; done. Qed.

Lemma goTo_down w p s : down (goTo w p s) = false -> p <> Done /\ down s = false.
Proof. cbn. intros [Hd Hp%bool_decide_eq_false]%orb_false_iff. done. Qed.

(** [late] evaluates the points of a concrete step. *)
Ltac late :=
  repeat match goal with
  | H : listening _ _ _ = true |- _ => apply listening_at in H; cbn iota in H
  | H : down (goTo _ _ _) = false |- _ => apply goTo_down in H as [? H]
  end;
  try congruence;
  split; [constructor|unfold onTheWay]; rewrite ?goTo_at; cbn [at_ fill goTo setFill];
  repeat match goal with |- context [decide (?a = ?b)] => destruct (decide (a = b)) as [?|?]; [try discriminate|try done] end;
  repeat match goal with H : at_ _ _ = _ |- _ => rewrite ?H in *; clear H end; cbn [held controlTaken];
  first [assumption | lia | set_solver].

Lemma late_hand s w l i j s' :
  lateState s -> step s (Hand w l i j) = Some s' -> down s' = false -> nextRecords (Hand w l i j) = true ->
  lateState s' /\ onTheWay s' = (onTheWay s + if controlTaken (Hand w l i j) then 1 else 0)%nat.
Proof.
  intros [L1 L2 L3 L4 L5] H Hd Hn. step_inv H.
  destruct l; try discriminate Heqo; injection Heqo as <-;
    destruct w; try (rewrite lookup_nil in *; discriminate); cbn [afterSend sent codeOf onReceive onMessage receiver] in *;
    unfold afterSend, onReceive in *; cbn in Heqo0, Heqo1; pick i; pick j; cbn in Hn; try discriminate Hn.
  all: try late.
  all: rewrite L1 in *; discriminate.
Qed.

(** No channel holds more than its capacity. *)
Definition withinCapacity (s : sys) : Prop := forall l, (fill s l <= capacity l)%nat.

Lemma withinCapacity_step s ev s' : step s ev = Some s' -> withinCapacity s -> withinCapacity s'.
Proof.
  intros H Hs l. specialize (Hs l).
  destruct ev; step_inv H; cbn [fill goTo setFill]; try exact Hs; unfold insert, fn_insert; case_decide; subst; lia.
Qed.

Lemma late_step s ev s' :
  lateState s -> withinCapacity s -> step s ev = Some s' -> down s' = false -> nextRecords ev = true ->
  lateState s' /\ onTheWay s' = (onTheWay s + if controlTaken ev then 1 else 0)%nat.
Proof.
  intros HL Hc H Hd Hn. destruct ev as [w l i j|w l i|l j|w| | |w| | |j| | |j| | | | | |].
  1: by apply (late_hand s w l i j).
  all: destruct HL as [L1 L2 L3 L4 L5]; step_inv H; try discriminate Hd;
    try (rewrite L1 in *; discriminate); try (apply goTo_down in Hd as [? ?]; congruence).
  - destruct l; try (cbn in *; lia); destruct w; try (rewrite lookup_nil in *; discriminate);
      cbn in Heqo; pick i; cbn in Hn; try discriminate Hn; try late; set_solver.
  - specialize (Hc l). destruct l; cbn in Hc; try lia; injection Heqo as <-; cbn in Heqo0; pick j; late.
  - late.
  - late.
  - late.
  - late.
  - late.
  - late.
  - split; [by constructor | by rewrite Nat.add_0_r].
  - split; [by constructor | by rewrite Nat.add_0_r].
Qed.

Lemma late_steps evs s s' :
  lateState s -> withinCapacity s -> steps s evs = Some s' -> down s' = false -> Forall (fun ev => nextRecords ev = true) evs ->
  lateState s' /\ withinCapacity s' /\
  onTheWay s' = (onTheWay s + length (filter (fun ev => controlTaken ev = true) evs))%nat.
Proof.
  revert s. induction evs as [|ev evs IH]; intros s Hl Hc; cbn [steps]; [intros [= <-] _ _; auto|].
  destruct (step s ev) as [s1|] eqn:E; [|done]. cbn [mbind option_bind]. intros H Hd [Hn Hall]%Forall_cons.
  destruct (late_step s ev s1 Hl Hc E (down_steps _ _ _ H Hd) Hn) as [Hl1 Ho1].
  destruct (IH s1 Hl1 (withinCapacity_step _ _ _ E Hc) H Hd Hall) as (Hl' & Hc' & Ho').
  split; [done|]. split; [done|]. rewrite Ho', Ho1, filter_cons.
  destruct (controlTaken ev); [rewrite decide_True by done | rewrite decide_False by done]; cbn [length]; lia.
Qed.

(** With three packets on the way each of the three workers holds one. *)
Definition stuckUp (s : sys) : Prop :=
  at_ s CtrlUp = Sending LTLSRecordUp /\
  (at_ s RelUp = Sending LIncomingSeen \/ at_ s RelUp = Sending LReliableToControl) /\
  at_ s MuxUp = Sending LMuxerToReliable.

Lemma onTheWay_full s : lateState s -> (onTheWay s <= 3)%nat /\ (onTheWay s = 3%nat -> stuckUp s).
Proof.
  intros [_ _ L3 L4 L5]. unfold onTheWay, stuckUp.
  destruct (at_ s CtrlUp) as [|[]| | |], (at_ s RelUp) as [|[]| | |], (at_ s MuxUp) as [|[]| | |];
    cbn; (split; [lia|]); intros ?; try lia.
  all: set_solver.
Qed.

(** A muxer that holds a packet takes none, and hands none to the data channel. *)
Lemma stuckUp_quiet s ev s' : step s ev = Some s' -> stuckUp s -> handsUp ev = false.
Proof.
  intros H (_ & _ & Hm). destruct ev as [w l i j| | | | | | | | | | | | | | | | | |]; try done.
  destruct l; try done; step_inv H.
  - injection Heqo as <-. rewrite Hm in *. done.
  - destruct w; rewrite ?lookup_nil in *; try discriminate. congruence.
Qed.

Lemma stuckUp_stays evs s s' :
  lateState s -> withinCapacity s -> stuckUp s -> steps s evs = Some s' -> down s' = false ->
  Forall (fun ev => nextRecords ev = true) evs ->
  stuckUp s' /\ Forall (fun ev => handsUp ev = false) evs.
Proof.
  revert s. induction evs as [|ev evs IH]; intros s Hl Hc Hs; cbn [steps]; [intros [= <-] _ _; auto|].
  destruct (step s ev) as [s1|] eqn:E; [|done]. cbn [mbind option_bind]. intros H Hd [Hn Hall]%Forall_cons.
  destruct (late_step s ev s1 Hl Hc E (down_steps _ _ _ H Hd) Hn) as [Hl1 Ho1].
  assert (onTheWay s = 3%nat) as H3 by (destruct Hs as (A & [B|B] & C); unfold onTheWay; by rewrite A, B, C).
  assert (stuckUp s1) as Hs1 by (destruct (onTheWay_full s1 Hl1) as [Hle Hf]; apply Hf; lia).
  destruct (IH s1 Hl1 (withinCapacity_step _ _ _ E Hc) Hs1 H Hd Hall). split; [done|].
  constructor; [by eapply stuckUp_quiet | done].
Qed.

Lemma withinCapacity_steps evs s : steps started evs = Some s -> withinCapacity s.
Proof.
  assert (withinCapacity started) as H0 by (intros []; cbn; lia). revert H0. generalize started.
  induction evs as [|ev evs IH]; intros s0 H0; cbn [steps]; [by intros [= <-]|].
  destruct (step s0 ev) as [s1|] eqn:E; [|done]. by apply IH, (withinCapacity_step s0 ev).
Qed.

(** C17: the control packets that arrive after the negotiation stop the
    tunnel.  Nobody reads TLS records once the TLS worker is back in its main
    loop, so in every run from there, in which other workers, the timers, data
    packets and the application do anything and only the shutdown does not
    come, the muxer takes at most three control packets from the network when
    they are the next records of the session.  When it has taken the third,
    the control channel, the receiver and the muxer hold one each, and they
    stay like that until the shutdown: the muxer takes no packet at all from
    the network and the data channel is given none.  Once the receiver has
    announced its packet to the sender this is so whatever the packets are. *)
Theorem late_control_packets_block evs0 s evs s' :
  steps started evs0 = Some s -> afterNegotiation s ->
  steps s evs = Some s' -> down s' = false -> Forall (fun ev => nextRecords ev = true) evs ->
  let taken := length (filter (fun ev => controlTaken ev = true) evs) in
  (taken <= 3)%nat /\
  (taken = 3%nat ->
   stuckUp s' /\
   forall evs' s'', steps s' evs' = Some s'' -> down s'' = false ->
     Forall (fun ev => nextRecords ev = true) evs' \/ at_ s' RelUp = Sending LReliableToControl ->
     stuckUp s'' /\ Forall (fun ev => handsUp ev = false) evs').
Proof.
  intros Hr%withinCapacity_steps [A1 A2 A3 A4 A5] H Hd Hn taken.
  assert (lateState s) as Hl by (constructor; rewrite ?A1, ?A2, ?A3, ?A4, ?A5; set_solver).
  assert (onTheWay s = 0%nat) as H0 by (unfold onTheWay; by rewrite A3, A4, A5).
  destruct (late_steps evs s s' Hl Hr H Hd Hn) as (Hl' & Hc' & Ho). rewrite H0 in Ho. fold taken in Ho.
  destruct (onTheWay_full s' Hl') as [Hle Hfull]. split; [lia|]. intros H3.
  assert (stuckUp s') as Hs by (apply Hfull; lia). split; [done|].
  intros evs' s'' H' Hd' [Hn'|Hrel]; [by apply (stuckUp_stays evs' s' s'')|].
  destruct Hs as (B3 & _ & B5), Hl' as [B1 B2 _ _ _].
  destruct (blockedUp_stays s' evs' s'') as [[] ?]; [by constructor|done|done|].
  split; [|done]. unfold stuckUp. auto.
Qed.

(** Three control packets arrive after the handshake, and the timers go on. *)
Definition lateControl : list event :=
  [ConnRead; Hand NioUp LNetworkToMuxer 0 1; Hand MuxUp LMuxerToReliable 0 1; TickRel; Put RelUp LIncomingSeen 1;
   Hand RelUp LReliableToControl 0 2;
   ConnRead; Hand NioUp LNetworkToMuxer 0 1; Hand MuxUp LMuxerToReliable 0 1; Put RelUp LIncomingSeen 1;
   ConnRead; Hand NioUp LNetworkToMuxer 0 1].
Definition afterThem : list event := [ConnRead; Hand RelDown LDataOrControlToMuxer 0 1; TickRel].

Definition negotiated : sys := default started (steps started handshake).
Definition late3 : sys := default started (steps negotiated lateControl).
Definition later : sys := default started (steps late3 afterThem).

Lemma late_runs :
  steps started handshake = Some negotiated /\ steps negotiated lateControl = Some late3 /\ steps late3 afterThem = Some later.
Proof.
  assert (forall s evs, (if steps s evs then true else false) = true -> steps s evs = Some (default started (steps s evs))) as Hd
    by (intros s evs; destruct (steps s evs); done).
  split; [|split]; apply Hd; vm_compute; reflexivity.
Qed.

Lemma late_control_packets_block_witness :
  afterNegotiation negotiated /\ stuckUp late3 /\ at_ late3 NioUp = OnConn /\
  stuckUp later /\ at_ later NioUp = Sending LNetworkToMuxer.
Proof.
  destruct late_runs as (R1 & R2 & R3).
  assert (afterNegotiation negotiated) as Hn by (constructor; vm_compute; reflexivity).
  destruct (late_control_packets_block handshake negotiated lateControl late3 R1 Hn R2) as [_ Hf];
    [vm_compute; reflexivity|repeat constructor|].
  destruct Hf as [Hs Hlater]; [reflexivity|].
  destruct (Hlater afterThem later R3) as [Hs' _]; [vm_compute; reflexivity|left; repeat constructor|].
  split; [exact Hn|]. split; [exact Hs|]. split; [vm_compute; reflexivity|]. split; [exact Hs'|vm_compute; reflexivity].
Defined.

(** ** The channels of the wiring *)

Definition links : list link :=
  [LHardReset; LNetworkToMuxer; LMuxerToReliable; LMuxerToData; LMuxerToNetwork; LNotifyTLS; LIncomingSeen;
   LReliableToControl; LDataOrControlToMuxer; LTLSRecordUp; LControlToReliable; LTLSRecordDown; LKeyUp; LTunDown;
   LTunUp; LReady; LFailure].

(** The pairs of workers that the tables of this file connect; the sends of
    the handshake and the close of [firstKeyReady] are events of their own. *)
Definition tableEdges : list (worker * worker) :=
  w ← workers; l ← links;
  match receiver l with
  | Some r => if bool_decide (afterSend w l = []) then [] else [(w, r)]
  | None => []
  end.

(** They are those of the wiring. *)
Lemma tables_match_wiring :
  tableEdges ++ [(KeyWorker, DataDown); (TLSWorker, CtrlDown); (TLSWorker, KeyWorker)] ≡ₚ drawnEdges ++ undrawnEdges.
Proof. apply (bool_decide_eq_true_1 _). vm_compute. reflexivity. Qed.
