(* ===== verification/Ping.v ===== *)
(** * extras/ping

    [ping.go]: the pinger of extras/ping.  Times are nanoseconds, a
    [time.Duration] wraps at 64 bits, sequence numbers are Go [int]s and 16
    bits on the wire.  The packets are built and taken apart by gopacket and
    the trackers are UUIDs of google/uuid: both are outside the repository and
    are the class [PacketLib].  The callbacks and the output are in
    [PingReport]. *)

From S2P Require Import Prelude Sender GoFloat.

Definition timeSliceLength : Z := 8.
Definition trackerLength : Z := 16.

(** ** Timestamps *)

(** [byte((nsec >> ((7 - i) * 8)) & 0xff)] for [i] from 0 to 7. *)
Definition timeToBytes (t : Z) : list byte :=
  map (fun i => z2b (Z.land (Z.shiftr t ((7 - i) * 8)) 255)) (seqZ 0 8).

(** [time.Unix(sec, nsec)] *)
Definition time_Unix (sec nsec : Z) : Z := sec * Second + nsec.

(** One iteration of the loop of [bytesToTime]. *)
Definition addByte (b : list byte) (acc : outcome Z) (i : Z) : outcome Z :=
  nsec ← acc; x ← go_index b i; Ok (s64 (nsec + s64 (Z.shiftl (b2z x) ((7 - i) * 8)))).

(** The loop adds [int64(b[i]) << ((7 - i) * 8)]; [b[i]] panics when the slice
    is too short. *)
Definition bytesToTime (b : list byte) : outcome Z :=
  nsec ← fold_left (addByte b) (seqZ 0 8) (Ok 0);
  Ok (time_Unix (Z.quot nsec Second) (Z.rem nsec Second)).

Lemma s64_mod z : s64 z mod 2 ^ 64 = z mod 2 ^ 64.
Proof. unfold s64. rewrite Zminus_mod_idemp_l. f_equal. lia. Qed.

Lemma s64_eq_mod a b : a mod 2 ^ 64 = b mod 2 ^ 64 -> s64 a = s64 b.
Proof.
  intros H. unfold s64. f_equal. rewrite (Z.add_mod a), H, <- Z.add_mod by lia. done.
Qed.

Lemma s64_add_l a b : s64 (s64 a + b) = s64 (a + b).
Proof. apply s64_eq_mod. rewrite Z.add_mod, s64_mod, <- Z.add_mod by lia. done. Qed.

Lemma s64_add_r a b : s64 (a + s64 b) = s64 (a + b).
Proof. rewrite Z.add_comm, s64_add_l. f_equal. lia. Qed.

Lemma s64_range z : - 2 ^ 63 <= s64 z < 2 ^ 63.
Proof. unfold s64. pose proof (Z.mod_pos_bound (z + 2 ^ 63) (2 ^ 64) ltac:(lia)). lia. Qed.

Lemma z2b_land x : z2b (Z.land x 255) = z2b x.
Proof.
  change 255 with (Z.ones 8). rewrite Z.land_ones by lia. apply b2z_inj. rewrite !b2z_z2b. apply Zmod_mod.
Qed.

Lemma timeToBytes_be t : timeToBytes t = be_bytes 8 t.
Proof.
  unfold timeToBytes. change (seqZ 0 8) with [0; 1; 2; 3; 4; 5; 6; 7]. cbn [map]. rewrite !z2b_land. reflexivity.
Qed.

Lemma addByte_Ok b z i x :
  go_index b i = Ok x -> addByte b (Ok (s64 z)) i = Ok (s64 (z + Z.shiftl (b2z x) ((7 - i) * 8))).
Proof. intros H. unfold addByte. cbn. rewrite H. cbn. now rewrite s64_add_r, s64_add_l. Qed.

Lemma bytesToTime_be b : length b = 8%nat -> bytesToTime b = Ok (s64 (be_val b)).
Proof.
  intros Hb.
  assert (fold_left (addByte b) (seqZ 0 8) (Ok (s64 0)) = Ok (s64 (be_val b))) as H.
  { destruct b as [|b0 [|b1 [|b2 [|b3 [|b4 [|b5 [|b6 [|b7 [|]]]]]]]]]; try done.
    change (seqZ 0 8) with [0; 1; 2; 3; 4; 5; 6; 7]. cbn [fold_left].
    rewrite (addByte_Ok _ _ 0 b0), (addByte_Ok _ _ 1 b1), (addByte_Ok _ _ 2 b2), (addByte_Ok _ _ 3 b3),
      (addByte_Ok _ _ 4 b4), (addByte_Ok _ _ 5 b5), (addByte_Ok _ _ 6 b6), (addByte_Ok _ _ 7 b7) by reflexivity.
    rewrite !Z.shiftl_mul_pow2 by lia. unfold be_val, be_acc. cbn [fold_left]. do 2 f_equal. lia. }
  unfold bytesToTime. change (Ok 0) with (Ok (s64 0)). rewrite H.
  cbn [mbind outcome_bind]. unfold time_Unix. f_equal. rewrite Z.mul_comm. symmetry. apply Z.quot_rem'.
Qed.

(** A timestamp written into a packet is read back exactly, for every
    time that fits a 64-bit number of nanoseconds, times before 1970
    included. *)
Theorem timestamp_roundtrip t : - 2 ^ 63 <= t < 2 ^ 63 -> bytesToTime (timeToBytes t) = Ok t.
Proof.
  intros Ht. rewrite timeToBytes_be, bytesToTime_be by apply length_be_bytes.
  rewrite be_val_bytes. change (256 ^ Z.of_nat 8) with (2 ^ 64). f_equal.
  rewrite (s64_eq_mod _ t) by (now rewrite Zmod_mod). now apply s64_small.
Qed.

Lemma timestamp_roundtrip_witness :
  bytesToTime (timeToBytes 1700000000123456789) = Ok 1700000000123456789 /\
  bytesToTime (timeToBytes (-5)) = Ok (-5).
Proof. split; apply timestamp_roundtrip; lia. Defined.

(** ** The libraries *)

Inductive layerType : Type := LayerTypeIPv4 | LayerTypeICMPv4 | LayerTypeUDP | LayerTypePayload.

(** The fields of the decoded layers; those of a layer that was not decoded
    keep their zero value.  [Payload] is nil when there is none. *)
Record decodedLayers : Type := mkDecoded {
  layers : list layerType;
  ip_SrcIP : string;
  ip_DstIP : string;
  ip_TTL : Z;
  icmp_Id : Z;
  icmp_Seq : Z;
  payload : option (list byte)
}.

(** The header fields [newIcmpData] fills in. *)
Record icmpHeader : Type := mkIcmpHeader {
  ih_src : string; ih_dst : string; ih_ttl : Z; ih_type : Z; ih_id : Z; ih_seq : Z
}.

Class PacketLib : Type := {
  DecodeLayers : list byte -> outcome decodedLayers;
  SerializeLayers : icmpHeader -> list byte -> list byte;
  UnmarshalBinary : list byte -> outcome (list byte)
}.

(** Documented behaviour: the sequence field is a [uint16], and unmarshalling
    the sixteen bytes of an identifier gives the identifier. *)
Class PacketLaws `{PacketLib} : Prop := {
  decode_seq : forall data d, DecodeLayers data = Ok d -> 0 <= icmp_Seq d < 2 ^ 16;
  unmarshal_16 : forall b, len b = trackerLength -> UnmarshalBinary b = Ok b
}.

(** ** The pinger *)

Record PingReply : Type := mkPingReply { reply_Seq : Z; reply_TTL : Z; reply_Rtt : Z }.

Record PingState : Type := mkPingState {
  PacketsSent : Z;
  PacketsRecv : Z;
  PacketsRecvDuplicates : Z;
  minRtt : Z;
  maxRtt : Z;
  avgRtt : Z;
  stdDevRtt : Z;
  stddevm2 : Z;
  replies : list PingReply;
  awaitingSequences : list (list byte * gset Z)
}.

Record Pinger : Type := mkPinger {
  Target : string;
  Count : Z;
  Interval : Z;
  Timeout : Z;
  RecordReplies : bool;
  Size : Z;
  addr : string;
  p_id : Z;
  trackerUUIDs : list (list byte);
  p_TTL : Z;
  sharedConnection : bool;
  st : PingState
}.

Definition with_st (s : PingState) (p : Pinger) : Pinger :=
  mkPinger (Target p) (Count p) (Interval p) (Timeout p) (RecordReplies p) (Size p) (addr p) (p_id p)
    (trackerUUIDs p) (p_TTL p) (sharedConnection p) s.

Definition zeroState : PingState := mkPingState 0 0 0 0 0 0 0 0 [] [].
(** [&Pinger{}] *)
Definition zeroPinger : Pinger := mkPinger "" 0 0 0 false 0 "" 0 [] 0 false zeroState.

(** [random] is what [rand.Read] put in the two bytes, [firstUUID] what
    [uuid.New] returned. *)
Definition New (address : string) (random : outcome (list byte)) (firstUUID : list byte) : Pinger :=
  match random with
  | Ok b =>
      mkPinger address (-1) Second MaxInt64 true (timeSliceLength + trackerLength) address
        (be_val b) [firstUUID] 64 false
        (mkPingState 0 0 0 0 0 0 0 0 [] [(firstUUID, ∅)])
  | _ => zeroPinger
  end.

Definition NewFromSharedConnection (address : string) (random : outcome (list byte)) (firstUUID : list byte) : Pinger :=
  let p := New address random firstUUID in
  mkPinger (Target p) (Count p) (Interval p) (Timeout p) (RecordReplies p) (Size p) (addr p) (p_id p)
    (trackerUUIDs p) (p_TTL p) true (st p).

(** A parsed reply; [Data] is nil for [&Packet{}].  The field [IPAddr] is never
    set; [SrcIP] is the text of the address. *)
Record PingPacket : Type := mkPingPacket {
  pkt_Rtt : Z;
  pkt_Addr : string;
  pkt_SrcIP : string;
  pkt_Nbytes : Z;
  pkt_Seq : Z;
  pkt_Ttl : Z;
  pkt_ID : Z;
  Data : option (list byte)
}.

Definition set_Rtt (rtt : Z) (pkt : PingPacket) : PingPacket :=
  mkPingPacket rtt (pkt_Addr pkt) (pkt_SrcIP pkt) (pkt_Nbytes pkt) (pkt_Seq pkt) (pkt_Ttl pkt) (pkt_ID pkt) (Data pkt).

(** Of the packet it uses the sequence, the TTL and the round-trip time. *)
Definition updateStatistics (record : bool) (seq ttl rtt : Z) (s : PingState) : PingState :=
  let recv := s64 (PacketsRecv s + 1) in
  let replies := if record then replies s ++ [mkPingReply (seq + 1) ttl rtt] else replies s in
  let minRtt := if (recv =? 1) || (rtt <? minRtt s) then rtt else minRtt s in
  let maxRtt := if maxRtt s <? rtt then rtt else maxRtt s in
  let pktCount := recv in
  let delta := s64 (rtt - avgRtt s) in
  let avg := s64 (avgRtt s + Z.quot delta pktCount) in
  let delta2 := s64 (rtt - avg) in
  let m2 := s64 (stddevm2 s + s64 (delta * delta2)) in
  let sd := int64_of_float (math_Sqrt (float64_of_int (Z.quot m2 pktCount))) in
  mkPingState (PacketsSent s) recv (PacketsRecvDuplicates s) minRtt maxRtt avg sd m2 replies (awaitingSequences s).

Definition PacketLossPercent (s : PingState) : Z :=
  let ratio := f_div (float64_of_int (PacketsRecv s)) (float64_of_int (PacketsSent s)) in
  int64_of_float (math_Round (f_mul (f_sub (float64_of_int 1) ratio) (float64_of_int 100))).

(** The [PacketLoss] field of [Statistics]. *)
Definition Statistics_PacketLoss (s : PingState) : float64 :=
  f_mul (f_div (float64_of_int (s64 (PacketsSent s - PacketsRecv s))) (float64_of_int (PacketsSent s)))
    (float64_of_int 100).

(** ** Packets *)

Definition getCurrentTrackerUUID (p : Pinger) : outcome (list byte) :=
  go_index (trackerUUIDs p) (len (trackerUUIDs p) - 1).

(** The sequences in flight of a tracker: a nil map is empty. *)
Definition awaiting (u : list byte) (s : PingState) : gset Z :=
  match List.find (fun e => bytes_equal (fst e) u) (awaitingSequences s) with
  | Some (_, set) => set
  | None => ∅
  end.

Definition setAwaiting (u : list byte) (v : gset Z) (s : PingState) : PingState :=
  mkPingState (PacketsSent s) (PacketsRecv s) (PacketsRecvDuplicates s) (minRtt s) (maxRtt s) (avgRtt s)
    (stdDevRtt s) (stddevm2 s) (replies s)
    (map (fun e => if bytes_equal (fst e) u then (fst e, v) else e) (awaitingSequences s)).

Definition set_sent (n : Z) (s : PingState) : PingState :=
  mkPingState n (PacketsRecv s) (PacketsRecvDuplicates s) (minRtt s) (maxRtt s) (avgRtt s)
    (stdDevRtt s) (stddevm2 s) (replies s) (awaitingSequences s).
Definition set_duplicates (n : Z) (s : PingState) : PingState :=
  mkPingState (PacketsSent s) (PacketsRecv s) n (minRtt s) (maxRtt s) (avgRtt s)
    (stdDevRtt s) (stddevm2 s) (replies s) (awaitingSequences s).

Section Packets.
Context `{PacketLib}.

(** The loop over the decoded layers: [false] for an early [return nil]. *)
Definition checkLayer (p : Pinger) (localAddr : string) (d : decodedLayers) (l : layerType) : bool :=
  match l with
  | LayerTypeIPv4 => String.eqb (ip_DstIP d) localAddr && String.eqb (ip_SrcIP d) (Target p)
  | LayerTypeICMPv4 => icmp_Id d =? u16 (p_id p)
  | _ => true
  end.

Definition parseEchoReply (p : Pinger) (localAddr : string) (data : list byte) : option PingPacket :=
  match DecodeLayers data with
  | Ok d =>
      if forallb (checkLayer p localAddr d) (layers d)
      then Some (mkPingPacket 0 (addr p) (ip_SrcIP d) (len data) (icmp_Seq d) (ip_TTL d) (p_id p) (payload d)) else None
  | _ => Some (mkPingPacket 0 "" "" 0 0 0 0 None)
  end.

(** [None] when the tracker is unknown. *)
Definition getPacketUUID (p : Pinger) (pkt : list byte) : outcome (option (list byte)) :=
  b ← go_upto pkt (timeSliceLength + trackerLength);
  b ← go_from b timeSliceLength;
  packetUUID ← UnmarshalBinary b;
  Ok (if existsb (fun item => bytes_equal item packetUUID) (trackerUUIDs p) then Some packetUUID else None).

(** The first half of [processPacket]: the tracker and the packet with its
    round-trip time, [None] where the function returns without an error.
    [now] is the time of reception. *)
Definition identifyPacket (p : Pinger) (localAddr : string) (now : Z) (recv : list byte)
  : outcome (option (list byte * PingPacket)) :=
  match parseEchoReply p localAddr recv with
  | None => Ok None
  | Some pkt =>
      match Data pkt with
      | None => Ok None
      | Some data =>
          if len data <? timeSliceLength + trackerLength then Err ErrPingData
          else
            u ← rewrap ErrBadPingPacket (getPacketUUID p data);
            match u with
            | None => Err ErrBadPingPacket
            | Some u =>
                slice ← go_upto data timeSliceLength;
                timestamp ← bytesToTime slice;
                Ok (Some (u, set_Rtt (time_Sub now timestamp) pkt))
            end
      end
  end.

Definition inflight (p : Pinger) (u : list byte) (pkt : PingPacket) : bool :=
  bool_decide (pkt_Seq pkt ∈ awaiting u (st p)).

(** The second half: a sequence that is not in flight is a duplicate. *)
Definition countPacket (p : Pinger) (u : list byte) (pkt : PingPacket) : Pinger :=
  let s := st p in
  if negb (inflight p u pkt) then with_st (set_duplicates (s64 (PacketsRecvDuplicates s + 1)) s) p
  else
    let s := setAwaiting u (awaiting u s ∖ {[pkt_Seq pkt]}) s in
    with_st (updateStatistics (RecordReplies p) (pkt_Seq pkt) (pkt_Ttl pkt) (pkt_Rtt pkt) s) p.

Definition processPacket (p : Pinger) (localAddr : string) (now : Z) (recv : list byte) : outcome Pinger :=
  r ← identifyPacket p localAddr now recv;
  Ok (match r with None => p | Some (u, pkt) => countPacket p u pkt end).

(** [typeCode] is shifted into the type byte, the code is 0. *)
Definition newIcmpData (src dest : string) (typeCode ttl seq id : Z) (uuid : list byte) (now : Z) : list byte :=
  SerializeLayers (mkIcmpHeader src dest (u8 ttl) (u16 (Z.shiftl (u16 typeCode) 8)) (u16 id) (u16 seq))
    (timeToBytes now ++ uuid).

End Packets.

(** ** The two goroutines

    [runLoop] sends and processes, [recvICMP] reads; they share the pinger,
    the channel [recv] of capacity [Count] and the channel [done].  [runLoop]
    ends by sending on [done], which [recvICMP] receives; each runs [Stop]
    when it returns, which closes [done] unless it is closed.  A point is where
    a goroutine is between two steps. *)
Inductive loopPoint : Type :=
  | LSelect
  | LBeforeSend                       (* about to run [p.done <- true] *)
  | LBlocked                          (* waiting in that send *)
  | LStopping (r : outcome unit)      (* about to run the deferred [Stop] *)
  | LReturned (r : outcome unit).

Inductive recvPoint : Type :=
  | RSelect
  | RRead
  | RPush (pkt : list byte)
  | RStopping (r : outcome unit)
  | RReturned (r : outcome unit).

Record pingSys : Type := mkPingSys {
  pinger : Pinger;
  loop : loopPoint;
  rcv : recvPoint;
  doneClosed : bool;
  recvCh : list (list byte);
  ticking : bool;
  panicked : bool;
  onWire : list (list byte)
}.

(** What [conn.Read] returns. *)
Inductive readOutcome : Type := ReadData (b : list byte) | ReadTimeout | ReadError.

Inductive pingEvent : Type :=
  | LoopDone | LoopTimeout | LoopRecv (now : Z) | LoopInterval (now : Z) (written : bool) | LoopArrive | LoopStop
  | RecvDone | RecvDefault (deadlineSet : bool) | RecvRead (r : readOutcome) | RecvPush | RecvStop.

Section Run.
Context `{PacketLib}.
Variable localAddr : string.

Definition set_loop (l : loopPoint) (s : pingSys) : pingSys :=
  mkPingSys (pinger s) l (rcv s) (doneClosed s) (recvCh s) (ticking s) (panicked s) (onWire s).
Definition set_rcv (r : recvPoint) (s : pingSys) : pingSys :=
  mkPingSys (pinger s) (loop s) r (doneClosed s) (recvCh s) (ticking s) (panicked s) (onWire s).
Definition set_pinger (p : Pinger) (s : pingSys) : pingSys :=
  mkPingSys p (loop s) (rcv s) (doneClosed s) (recvCh s) (ticking s) (panicked s) (onWire s).
Definition set_recvCh (c : list (list byte)) (s : pingSys) : pingSys :=
  mkPingSys (pinger s) (loop s) (rcv s) (doneClosed s) c (ticking s) (panicked s) (onWire s).
Definition set_panicked (s : pingSys) : pingSys :=
  mkPingSys (pinger s) (loop s) (rcv s) (doneClosed s) (recvCh s) (ticking s) true (onWire s).

(** The test at the end of an iteration of [runLoop]. *)
Definition afterCase (s : pingSys) : pingSys :=
  let p := pinger s in
  if (0 <? Count p) && (Count p <=? PacketsRecv (st p)) then set_loop LBeforeSend s else s.

(** [<-p.done] succeeds: the channel is closed, or [runLoop] is sending. *)
Definition doneReadable (s : pingSys) : bool :=
  doneClosed s || match loop s with LBlocked => true | _ => false end.

(** A receive from [done] releases [runLoop] if it is sending. *)
Definition takeDone (s : pingSys) : pingSys :=
  match loop s with
  | LBlocked => if doneClosed s then s else set_loop (LStopping (Ok tt)) s
  | _ => s
  end.

(** [Stop] runs under its mutex: it receives if it can and closes the channel
    if it was open. *)
Definition Stop (s : pingSys) : pingSys :=
  let s := if doneClosed s then s else takeDone s in
  mkPingSys (pinger s) (loop s) (rcv s) true (recvCh s) (ticking s) (panicked s) (onWire s).

Definition pingStep (s : pingSys) (ev : pingEvent) : option pingSys :=
  if panicked s then None else
  let p := pinger s in
  match ev, loop s, rcv s with
  | LoopDone, LSelect, _ => if doneClosed s then Some (set_loop (LStopping (Ok tt)) s) else None
  | LoopTimeout, LSelect, _ => Some (set_loop (LStopping (Ok tt)) s)
  | LoopRecv now, LSelect, _ =>
      match recvCh s with
      | [] => None
      | r :: rest =>
          let s := set_recvCh rest s in
          match processPacket p localAddr now r with
          | Ok p => Some (afterCase (set_pinger p s))
          | Err _ => Some s
          | Panic => Some (set_panicked s)
          end
      end
  | LoopInterval now written, LSelect, _ =>
      if negb (ticking s) then None
      else if (0 <? Count p) && (Count p <=? PacketsSent (st p)) then
        Some (mkPingSys p (loop s) (rcv s) (doneClosed s) (recvCh s) false (panicked s) (onWire s))
      else
        match getCurrentTrackerUUID p with
        | Ok u =>
            let pkt := newIcmpData localAddr (Target p) 8 (p_TTL p) (PacketsSent (st p)) (p_id p) u now in
            if negb written then Some (set_loop (LStopping (Err ErrCannotWrite)) s)
            else
              let q := setAwaiting u (awaiting u (st p) ∪ {[PacketsSent (st p)]}) (st p) in
              let q := set_sent (s64 (PacketsSent q + 1)) q in
              Some (afterCase (mkPingSys (with_st q p) (loop s) (rcv s) (doneClosed s) (recvCh s) (ticking s)
                                 (panicked s) (onWire s ++ [pkt])))
        | _ => Some (set_panicked s)
        end
  | LoopArrive, LBeforeSend, _ => if doneClosed s then Some (set_panicked s) else Some (set_loop LBlocked s)
  | LoopStop, LStopping r, _ => Some (Stop (set_loop (LReturned r) s))
  | RecvDone, _, (RSelect | RPush _) =>
      if doneReadable s then Some (set_rcv (RStopping (Ok tt)) (takeDone s)) else None
  | RecvDefault deadlineSet, _, RSelect =>
      if doneReadable s then None
      else if Count p <=? PacketsRecv (st p) then Some (set_rcv (RStopping (Ok tt)) s)
      else if deadlineSet then Some (set_rcv RRead s)
      else Some (set_rcv (RStopping (Err ErrCannotSetReadDeadline)) s)
  | RecvRead r, _, RRead =>
      Some (set_rcv (match r with
                     | ReadData b => RPush (copy_zeroed 512 b)
                     | ReadTimeout => RSelect
                     | ReadError => RStopping (Err ErrCannotRead)
                     end) s)
  | RecvPush, _, RPush b =>
      if len (recvCh s) <? Count p then Some (set_rcv RSelect (set_recvCh (recvCh s ++ [b]) s)) else None
  | RecvStop, _, RStopping r => Some (Stop (set_rcv (RReturned r) s))
  | _, _, _ => None
  end.

Fixpoint pingRun (s : pingSys) (evs : list pingEvent) : option pingSys :=
  match evs with [] => Some s | ev :: evs' => s' ← pingStep s ev; pingRun s' evs' end.

(** [run]: [None] when it returns at once. *)
Definition run_start (p : Pinger) : option pingSys :=
  if Count p <=? 0 then None
  else Some (mkPingSys p LSelect RSelect false [] true false []).

(** The first error of the group, when both goroutines have returned. *)
Definition run_result (s : pingSys) : option (outcome unit) :=
  match loop s, rcv s with
  | LReturned (Err e), RReturned _ => Some (Err e)
  | LReturned _, RReturned r => Some r
  | _, _ => None
  end.

(** The errors [Run] puts on its channel, in order, when [run] returns [r]:
    the size check does not return. *)
Definition Run_errors (p : Pinger) (r : outcome unit) : list (outcome unit) :=
  (if Size p <? timeSliceLength + trackerLength then [Err ErrPingSize] else []) ++ [r].

End Run.

(** ** The counters *)

(** The state of a pinger with the tracker [u]: the sequences in flight are
    those sent and not yet received, and the ones that do not fit sixteen bits
    are still in flight. *)
Record ping_inv (u : list byte) (p : Pinger) : Prop := {
  pv_trackers : trackerUUIDs p = [u];
  pv_awaiting : exists W, awaitingSequences (st p) = [(u, W)] /\
    (forall i, i ∈ W -> 0 <= i < PacketsSent (st p)) /\
    (forall i, 2 ^ 16 <= i < PacketsSent (st p) -> i ∈ W) /\
    Z.of_nat (size W) + PacketsRecv (st p) = PacketsSent (st p);
  pv_recv : 0 <= PacketsRecv (st p);
  pv_sent : PacketsSent (st p) <= Count p < 2 ^ 63;
  pv_replies : RecordReplies p = true -> len (replies (st p)) = PacketsRecv (st p)
}.

Lemma bytes_equal_refl b : bytes_equal b b = true.
Proof. now apply bool_decide_eq_true. Qed.

Lemma awaiting_one u W s : awaitingSequences s = [(u, W)] -> awaiting u s = W.
Proof. intros E. unfold awaiting. rewrite E. cbn. now rewrite bytes_equal_refl. Qed.

Lemma setAwaiting_one u W V s : awaitingSequences s = [(u, W)] -> awaitingSequences (setAwaiting u V s) = [(u, V)].
Proof. intros E. cbn. rewrite E. cbn. now rewrite bytes_equal_refl. Qed.

Section Counters.
Context `{PacketLaws}.
Variable localAddr : string.

(** An identified packet has a known tracker, a sixteen-bit sequence, and the
    length of the buffer it was read into. *)
Lemma identifyPacket_Ok p now recv u pkt :
  identifyPacket p localAddr now recv = Ok (Some (u, pkt)) ->
  u ∈ trackerUUIDs p /\ 0 <= pkt_Seq pkt < 2 ^ 16 /\ pkt_Nbytes pkt = len recv /\ pkt_Addr pkt = addr p.
Proof.
  unfold identifyPacket, parseEchoReply. destruct (DecodeLayers recv) as [d| |] eqn:Ed; [|done..].
  destruct (forallb _ _); [|done]. cbn [Data]. destruct (payload d) as [data|]; [|done].
  destruct (len data <? _); [done|]. intros (v & Hv & Hp)%bind_Ok. destruct v as [v|]; [|done].
  apply bind_Ok in Hp as (sl & _ & Hp). apply bind_Ok in Hp as (t & _ & Hp). injection Hp as -> <-. cbn.
  split; [|split; [now apply decode_seq in Ed | done]].
  apply rewrap_Ok in Hv. unfold getPacketUUID in Hv. apply bind_Ok in Hv as (b1 & _ & Hv).
  apply bind_Ok in Hv as (b2 & _ & Hv). apply bind_Ok in Hv as (w & _ & Hv).
  destruct (existsb _ _) eqn:Ex; [|done]. injection Hv as <-. apply existsb_exists in Ex as (item & Hin & He).
  apply bool_decide_eq_true in He as ->. now apply list_elem_of_In.
Qed.

(** What a received packet does to the pinger: nothing, a duplicate, or the
    reply to a sequence in flight. *)
Lemma processPacket_cases p now recv p' :
  processPacket p localAddr now recv = Ok p' ->
  p' = p \/ (exists n, p' = with_st (set_duplicates n (st p)) p) \/
  exists u seq ttl rtt, u ∈ trackerUUIDs p /\ seq ∈ awaiting u (st p) /\ 0 <= seq < 2 ^ 16 /\
    p' = with_st (updateStatistics (RecordReplies p) seq ttl rtt
                    (setAwaiting u (awaiting u (st p) ∖ {[seq]}) (st p))) p.
Proof.
  unfold processPacket. intros (r & Hr & [= <-])%bind_Ok. destruct r as [[u pkt]|]; [|auto]. right.
  apply identifyPacket_Ok in Hr as (Hu & Hs & _). unfold countPacket.
  destruct (inflight p u pkt) eqn:Ei; cbn [negb]; [right|eauto].
  apply bool_decide_eq_true in Ei. eauto 10.
Qed.

Lemma processPacket_inv u p now recv p' :
  ping_inv u p -> processPacket p localAddr now recv = Ok p' ->
  ping_inv u p' /\ Count p' = Count p /\ PacketsSent (st p') = PacketsSent (st p).
Proof.
  intros Hinv E. pose proof Hinv as [Ht (W & Ha & Hr & H16 & Hsz) Hrecv Hs Hrep].
  apply processPacket_cases in E as [->|[(n & ->)|(v & seq & ttl & rtt & Hv & Hin & Hseq & ->)]];
    [done|split; [constructor; cbn; eauto|done]|].
  rewrite Ht in Hv. apply list_elem_of_singleton in Hv as ->. rewrite (awaiting_one _ W) in Hin |- * by done.
  split; [|done]. assert (size (W ∖ {[seq]}) = size W - 1)%nat as Hsize.
  { rewrite size_difference by set_solver. now rewrite size_singleton. }
  assert (size W <> 0%nat) as Hne by (intros E0; apply size_empty_inv in E0; set_solver).
  assert (s64 (PacketsRecv (st p) + 1) = PacketsRecv (st p) + 1) as Hrecv1 by (apply s64_small; lia).
  constructor; cbn; rewrite ?Hrecv1; try done.
  - exists (W ∖ {[seq]}). split; [|split; [|split]].
    + rewrite Ha. cbn. now rewrite bytes_equal_refl.
    + intros i [Hi _]%elem_of_difference. now apply Hr.
    + intros i Hi. apply elem_of_difference. split; [auto | rewrite elem_of_singleton; lia].
    + rewrite Hsize. lia.
  - lia.
  - intros Hrr. rewrite Hrr. rewrite len_app, len_cons, len_nil, (Hrep Hrr). lia.
Qed.

(** [runLoop] finishes only when it has received [Count] replies. *)
Definition sys_inv (u : list byte) (s : pingSys) : Prop :=
  ping_inv u (pinger s) /\ 0 < Count (pinger s) /\
  (loop s = LBeforeSend \/ loop s = LBlocked -> Count (pinger s) <= PacketsRecv (st (pinger s))).

Lemma afterCase_inv u s :
  ping_inv u (pinger s) -> 0 < Count (pinger s) -> loop s = LSelect -> sys_inv u (afterCase s).
Proof.
  intros Hp Hc Hl. unfold afterCase.
  destruct (Z.ltb_spec 0 (Count (pinger s))); [|lia].
  destruct (Z.leb_spec (Count (pinger s)) (PacketsRecv (st (pinger s)))); cbn [andb]; (split; [exact Hp|]); (split; [exact Hc|]).
  - intros _. done.
  - rewrite Hl. intros [?|?]; done.
Qed.

Lemma Stop_inv u s : sys_inv u s -> sys_inv u (Stop s).
Proof.
  intros (Hp & Hc & Hl). unfold Stop, takeDone. destruct (doneClosed s); [done|].
  destruct (loop s) eqn:El; (split; [exact Hp|]); (split; [exact Hc|]); cbn; rewrite ?El; auto.
Qed.

Lemma send_inv u p :
  ping_inv u p -> PacketsSent (st p) < Count p ->
  ping_inv u (with_st (set_sent (s64 (PacketsSent (st p) + 1))
                (setAwaiting u (awaiting u (st p) ∪ {[PacketsSent (st p)]}) (st p))) p).
Proof.
  intros [Ht (W & Ha & Hr & H16 & Hsz) Hrecv Hs Hrep] Hlt.
  rewrite (awaiting_one _ W) by done. rewrite s64_small by lia. constructor; cbn; try done; [|lia].
  exists (W ∪ {[PacketsSent (st p)]}). rewrite Ha. cbn. rewrite bytes_equal_refl.
  split; [done|]. split; [|split].
  - intros i [Hi| ->%elem_of_singleton]%elem_of_union; [specialize (Hr i Hi); lia | lia].
  - intros i Hi. destruct (Z.eq_dec i (PacketsSent (st p))) as [->|]; [set_solver|].
    apply elem_of_union_l, H16. lia.
  - rewrite size_union, size_singleton; [lia|]. intros i Hi ->%elem_of_singleton. specialize (Hr _ Hi). lia.
Qed.

Lemma pingStep_inv u s ev s' :
  sys_inv u s -> pingStep localAddr s ev = Some s' ->
  sys_inv u s' /\ Count (pinger s') = Count (pinger s) /\ RecordReplies (pinger s') = RecordReplies (pinger s).
Proof.
  intros (Hp & Hc & Hl) E. unfold pingStep in E. destruct (panicked s); [done|].
  assert (forall s1, pinger s1 = pinger s -> loop s1 <> LBeforeSend -> loop s1 <> LBlocked -> sys_inv u s1) as Hset
    by (intros s1 E1 H1 H2; unfold sys_inv; rewrite E1; split; [exact Hp|]; split; [done|]; intros [?|?]; done).
  assert (forall s1, pinger s1 = pinger s -> loop s1 = loop s -> sys_inv u s1) as Hkeep
    by (intros s1 E1 H1; unfold sys_inv; rewrite E1, H1; auto).
  assert (forall s1, pinger s1 = pinger s -> loop s1 = loop s \/ loop s1 = LStopping (Ok tt) -> sys_inv u s1) as Htake
    by (intros s1 E1 [H1|H1]; [now apply Hkeep | apply Hset; [done | rewrite H1; done..]]).
  assert (pinger (takeDone s) = pinger s /\ (loop (takeDone s) = loop s \/ loop (takeDone s) = LStopping (Ok tt))) as [Et1 Et2]
    by (unfold takeDone; destruct (loop s) eqn:El; rewrite ?El; auto; destruct (doneClosed s); rewrite ?El; auto).
  destruct ev.
  - destruct (loop s); try done. destruct (doneClosed s); [|done]. injection E as <-. split; [now apply Hset | done].
  - destruct (loop s); try done. injection E as <-. split; [now apply Hset | done].
  - destruct (loop s) eqn:El; try done. destruct (recvCh s) as [|r rest]; [done|].
    destruct (processPacket (pinger s) localAddr now r) as [p'|e|] eqn:Ep; injection E as <-.
    + destruct (processPacket_inv _ _ _ _ _ Hp Ep) as (Hp' & Hc' & _).
      split; [apply afterCase_inv; [done | cbn; lia | done]|]. unfold afterCase.
      assert (RecordReplies p' = RecordReplies (pinger s)) as Hrr.
      { apply processPacket_cases in Ep as [->|[(n & ->)|(v & seq & ttl & rtt & _ & _ & _ & ->)]]; done. }
      destruct (_ && _); done.
    + split; [apply Hkeep; done | done].
    + split; [apply Hkeep; done | done].
  - destruct (loop s) eqn:El; try done. destruct (negb (ticking s)); [done|].
    destruct (Z.ltb_spec 0 (Count (pinger s))) as [Hpos|]; [|lia].
    destruct (Z.leb_spec (Count (pinger s)) (PacketsSent (st (pinger s)))) as [Hge|Hlt]; cbn [andb] in E.
    + injection E as <-. split; [apply Hkeep; done | done].
    + unfold getCurrentTrackerUUID in E. rewrite (pv_trackers _ _ Hp) in E. cbn in E.
      destruct (negb written); injection E as <-; [split; [now apply Hset | done]|].
      split; [|unfold afterCase; destruct (_ && _); done].
      apply afterCase_inv; [cbn; now apply send_inv | done | done].
  - destruct (loop s) eqn:El; try done. destruct (doneClosed s); injection E as <-;
      (split; [|done]); (split; [done|]); (split; [done|]); intros _; apply Hl; auto.
  - destruct (loop s) eqn:El; try done. injection E as <-.
    split; [apply Stop_inv, Hset; done | unfold Stop, takeDone; cbn; destruct (doneClosed s); done].
  - destruct (rcv s); try done; destruct (doneReadable s); try done; injection E as <-;
      (split; [apply Htake; done | cbn; now rewrite Et1]).
  - destruct (rcv s); try done. destruct (doneReadable s); [done|].
    destruct (_ <=? _); [|destruct deadlineSet]; injection E as <-; (split; [apply Hkeep; done | done]).
  - destruct (rcv s); try done. injection E as <-. split; [apply Hkeep; done | done].
  - destruct (rcv s); try done. destruct (_ <? _); [|done]. injection E as <-. split; [apply Hkeep; done | done].
  - destruct (rcv s); try done. injection E as <-. split; [apply Stop_inv, Hkeep; done|].
    unfold Stop, takeDone. cbn. destruct (doneClosed s); [done|]. now destruct (loop s).
Qed.

Lemma pingRun_inv u evs s s' :
  sys_inv u s -> pingRun localAddr s evs = Some s' ->
  sys_inv u s' /\ Count (pinger s') = Count (pinger s) /\ RecordReplies (pinger s') = RecordReplies (pinger s).
Proof.
  revert s. induction evs as [|ev evs IH]; intros s Hi; cbn [pingRun]; [intros [= <-]; done|].
  destruct (pingStep localAddr s ev) as [s1|] eqn:E; [|done]. cbn. intros Hr.
  destruct (pingStep_inv _ _ _ _ Hi E) as (H1 & H2 & H3). destruct (IH _ H1 Hr) as (H4 & H5 & H6).
  split; [done|]. split; congruence.
Qed.

(** A pinger as [New] makes it, with [Count] set by the caller. *)
Definition set_Count (n : Z) (p : Pinger) : Pinger :=
  mkPinger (Target p) n (Interval p) (Timeout p) (RecordReplies p) (Size p) (addr p) (p_id p)
    (trackerUUIDs p) (p_TTL p) (sharedConnection p) (st p).

Lemma start_inv address rnd u n s :
  n < 2 ^ 63 -> run_start (set_Count n (New address (Ok rnd) u)) = Some s ->
  sys_inv u s /\ Count (pinger s) = n /\ RecordReplies (pinger s) = true.
Proof.
  intros Hn. unfold run_start. cbn. destruct (Z.leb_spec n 0); [done|]. intros [= <-]. split; [|done].
  split; [constructor; cbn; try done; try lia|split; [done|cbn; intros [?|?]; done]].
  exists ∅. rewrite size_empty. repeat split; try done; set_solver by lia.
Qed.

(** Whatever the network does (losses, duplicates, packets of others)
    and however the two goroutines interleave, at every moment the pinger has
    recorded one reply per packet received, has received no more than it has
    sent and has sent no more than [Count]; the sequences it awaits are exactly
    as many as the packets sent and not received, so a reply is counted once. *)
Lemma ping_counts address rnd u n evs s0 s :
  n < 2 ^ 63 -> run_start (set_Count n (New address (Ok rnd) u)) = Some s0 ->
  pingRun localAddr s0 evs = Some s ->
  let q := st (pinger s) in
  0 <= PacketsRecv q <= PacketsSent q /\ PacketsSent q <= n /\ len (replies q) = PacketsRecv q /\
  Z.of_nat (size (awaiting u q)) = PacketsSent q - PacketsRecv q.
Proof.
  intros Hn Hs Hr. destruct (start_inv _ _ _ _ _ Hn Hs) as (Hi & Hc & Hrr).
  destruct (pingRun_inv _ _ _ _ Hi Hr) as (([_ (W & Ha & _ & _ & Hsz) H1 H2 H3] & _ & _) & Hc' & Hrr').
  cbn zeta. rewrite (awaiting_one _ _ _ Ha), H3 by congruence. lia.
Qed.

Lemma large_set_size (W : gset Z) a b : a <= b -> (forall i, a <= i < b -> i ∈ W) -> b - a <= Z.of_nat (size W).
Proof.
  intros Hab HW. assert (list_to_set (seqZ a (b - a)) ⊆ W) as Hsub.
  { intros i Hi. apply HW. rewrite elem_of_list_to_set in Hi. apply elem_of_seqZ in Hi. lia. }
  apply subseteq_size in Hsub. rewrite size_list_to_set in Hsub by apply NoDup_seqZ.
  rewrite length_seqZ in Hsub. lia.
Qed.

(** A pinger asked for more than 65536 packets never finishes by
    itself.  Sequence numbers are sixteen bits on the wire and the pinger waits
    for the untruncated ones, so it counts at most 65536 replies, whatever
    arrives; the send loop never reaches its end and the run lasts until the
    timeout or an error. *)
Theorem ping_sequence_wraps address rnd u n evs s0 s :
  2 ^ 16 < n < 2 ^ 63 -> run_start (set_Count n (New address (Ok rnd) u)) = Some s0 ->
  pingRun localAddr s0 evs = Some s ->
  PacketsRecv (st (pinger s)) <= 2 ^ 16 /\ loop s <> LBeforeSend /\ loop s <> LBlocked.
Proof.
  intros Hn Hs Hr. destruct (start_inv _ _ _ _ _ (proj2 Hn) Hs) as (Hi & Hc & Hrr).
  destruct (pingRun_inv _ _ _ _ Hi Hr) as (([_ (W & Ha & HW & H16 & Hsz) H1 H2 H3] & _ & Hl) & Hc' & _).
  assert (PacketsRecv (st (pinger s)) <= 2 ^ 16) as Hle.
  { destruct (Z.le_gt_cases (PacketsSent (st (pinger s))) (2 ^ 16)); [lia|].
    pose proof (large_set_size W (2 ^ 16) (PacketsSent (st (pinger s))) ltac:(lia) H16). lia. }
  split; [done|]. split; intros E; specialize (Hl ltac:(auto)); lia.
Qed.

(** The end of a run is a race.  When the last reply has been counted
    and [recvICMP] is at its select, it may notice by itself that the count is
    reached and return, which closes [done]; the send of [runLoop] on the
    closed channel then panics.  If [runLoop] is first the run ends well. *)
Theorem ping_finish_race s :
  panicked s = false -> loop s = LBeforeSend -> rcv s = RSelect -> doneClosed s = false ->
  Count (pinger s) <= PacketsRecv (st (pinger s)) ->
  (exists s', pingRun localAddr s [RecvDefault true; RecvStop; LoopArrive] = Some s' /\ panicked s' = true) /\
  (exists s', pingRun localAddr s [LoopArrive; RecvDone; RecvStop; LoopStop] = Some s' /\
     panicked s' = false /\ run_result s' = Some (Ok tt)).
Proof.
  intros Hp Hl Hr Hd Hc. destruct s as [p l r d c t pa w]. cbn in *. subst. split.
  - eexists. cbn [pingRun]. unfold pingStep at 1. cbn. destruct (Z.leb_spec (Count p) (PacketsRecv (st p))); [|lia].
    cbn. split; reflexivity.
  - eexists. cbn [pingRun]. unfold pingStep at 1. cbn. split; [reflexivity|]. split; reflexivity.
Qed.
End Counters.

(** ** A packet library for the witnesses

    One byte of TTL, two of identifier, two of sequence, one of payload
    length, and the payload. *)
Definition toyDecode (data : list byte) : outcome decodedLayers :=
  match data with
  | ttl :: i1 :: i0 :: s1 :: s0 :: n :: rest =>
      Ok (mkDecoded [LayerTypeIPv4; LayerTypeICMPv4; LayerTypePayload] "10.8.0.1" "10.8.0.2" (b2z ttl)
            (be_val [i1; i0]) (be_val [s1; s0]) (Some (take (Z.to_nat (b2z n)) rest)))
  | _ => Err ErrExternal
  end.

#[export] Instance toyPackets : PacketLib := {
  DecodeLayers := toyDecode;
  SerializeLayers := fun h body => z2b (ih_ttl h) :: be_bytes 2 (ih_id h) ++ be_bytes 2 (ih_seq h) ++ z2b (len body) :: body;
  UnmarshalBinary := fun b => if len b =? trackerLength then Ok b else Err ErrExternal
}.

#[export] Instance toyPacketLaws : PacketLaws.
Proof.
  constructor.
  - intros data d. destruct data as [|ttl [|i1 [|i0 [|s1 [|s0 [|n rest]]]]]]; try done. intros [= <-]. cbn [icmp_Seq].
    pose proof (be_val_range [s1; s0]). change (256 ^ len [s1; s0]) with (2 ^ 16) in *. lia.
  - intros b Hb. cbn. now rewrite Hb, Z.eqb_refl.
Qed.

Definition sampleUUID : list byte := replicate 16 Byte.x07.
Definition samplePinger (n : Z) : Pinger := set_Count n (New "10.8.0.1" (Ok [Byte.x12; Byte.x34]) sampleUUID).

(** One packet, echoed after 20 milliseconds, twice. *)
Definition sampleStart (n : Z) : pingSys := mkPingSys (samplePinger n) LSelect RSelect false [] true false [].
Definition samplePing : list byte := newIcmpData "10.8.0.2" "10.8.0.1" 8 64 0 4660 sampleUUID Second.
Definition sampleEvents : list pingEvent :=
  [LoopInterval Second true; RecvDefault true; RecvRead (ReadData samplePing); RecvPush;
   RecvDefault true; RecvRead (ReadData samplePing); RecvPush;
   LoopRecv (Second + 20 * Millisecond)].

Lemma ping_counts_sample :
  exists s, pingRun "10.8.0.2" (sampleStart 2) (sampleEvents ++ [LoopRecv (2 * Second)]) = Some s /\
    replies (st (pinger s)) = [mkPingReply 1 64 (20 * Millisecond)] /\
    PacketsRecvDuplicates (st (pinger s)) = 1 /\
    let q := st (pinger s) in
    0 <= PacketsRecv q <= PacketsSent q /\ PacketsSent q <= 2 /\ len (replies q) = PacketsRecv q /\
    Z.of_nat (size (awaiting sampleUUID q)) = PacketsSent q - PacketsRecv q.
Proof.
  destruct (pingRun "10.8.0.2" (sampleStart 2) (sampleEvents ++ [LoopRecv (2 * Second)])) as [s|] eqn:E;
    [|vm_compute in E; discriminate E].
  exists s. split; [done|]. split; [vm_compute in E; injection E as <-; reflexivity|].
  split; [vm_compute in E; injection E as <-; reflexivity|].
  apply (ping_counts "10.8.0.2" "10.8.0.1" [Byte.x12; Byte.x34] sampleUUID 2
    (sampleEvents ++ [LoopRecv (2 * Second)]) (sampleStart 2) s); [lia|reflexivity|exact E].
Defined.

Lemma ping_sequence_wraps_witness :
  exists s, pingRun "10.8.0.2" (sampleStart 70000) sampleEvents = Some s /\
    PacketsRecv (st (pinger s)) <= 2 ^ 16 /\ loop s <> LBeforeSend /\ loop s <> LBlocked.
Proof.
  destruct (pingRun "10.8.0.2" (sampleStart 70000) sampleEvents) as [s|] eqn:E; [|vm_compute in E; discriminate E].
  exists s. split; [done|].
  apply (ping_sequence_wraps "10.8.0.2" "10.8.0.1" [Byte.x12; Byte.x34] sampleUUID 70000 sampleEvents
    (sampleStart 70000) s); [lia|reflexivity|exact E].
Defined.

Lemma ping_finish_race_witness :
  exists s, pingRun "10.8.0.2" (sampleStart 1) (take 4 sampleEvents ++ [LoopRecv (2 * Second)]) = Some s /\
    (exists s', pingRun "10.8.0.2" s [RecvDefault true; RecvStop; LoopArrive] = Some s' /\ panicked s' = true) /\
    (exists s', pingRun "10.8.0.2" s [LoopArrive; RecvDone; RecvStop; LoopStop] = Some s' /\
       panicked s' = false /\ run_result s' = Some (Ok tt)).
Proof.
  destruct (pingRun "10.8.0.2" (sampleStart 1) (take 4 sampleEvents ++ [LoopRecv (2 * Second)])) as [s|] eqn:E;
    [|vm_compute in E; discriminate E].
  exists s. split; [done|].
  apply (ping_finish_race "10.8.0.2" s); vm_compute in E; injection E as <-; (reflexivity || (vm_compute; congruence)).
Defined.

(** ** The statistics *)

(** The statistics after replies with the given round-trip times. *)
Definition statsOf (rtts : list Z) : PingState :=
  fold_left (fun s r => updateStatistics true 0 64 r s) rtts zeroState.

Lemma quot_between d n : 0 < n -> (0 <= d -> 0 <= Z.quot d n <= d) /\ (d <= 0 -> d <= Z.quot d n <= 0).
Proof.
  intros Hn. split; intros Hd.
  - split; [apply Z.quot_pos; lia | apply Z.quot_le_upper_bound; nia].
  - pose proof (Z.quot_opp_l d n ltac:(lia)).
    pose proof (Z.quot_pos (- d) n ltac:(lia) Hn). assert (Z.quot (- d) n <= - d) by (apply Z.quot_le_upper_bound; nia). lia.
Qed.

Lemma statsOf_snoc rtts r : statsOf (rtts ++ [r]) = updateStatistics true 0 64 r (statsOf rtts).
Proof. unfold statsOf. now rewrite fold_left_app. Qed.

Definition goodRtt (r : Z) : Prop := 0 <= r <= 2 ^ 62.

(** While the round-trip times are not negative (and below 146 years),
    the smallest, the largest and the average are what they are called: the
    minimum and the maximum of the times received are two of them that bound
    all the others, and the running average lies between the two. *)
Theorem rtt_statistics rtts :
  rtts <> [] -> Forall goodRtt rtts -> len rtts < 2 ^ 62 ->
  let s := statsOf rtts in
  PacketsRecv s = len rtts /\ minRtt s ∈ rtts /\ (maxRtt s ∈ rtts \/ maxRtt s = 0) /\
  Forall (fun r => minRtt s <= r <= maxRtt s) rtts /\ minRtt s <= avgRtt s <= maxRtt s.
Proof.
  intros Hne Hall Hlen. induction rtts as [|r rtts IH] using rev_ind; [done|]. clear Hne.
  apply Forall_app in Hall as [Hall [Hr _]%Forall_cons]. rewrite len_app, len_cons, len_nil in Hlen |- *.
  pose proof (len_nonneg rtts). rewrite statsOf_snoc. cbv zeta.
  assert (PacketsRecv (statsOf rtts) = len rtts /\ 0 <= avgRtt (statsOf rtts) <= 2 ^ 62 /\ 0 <= maxRtt (statsOf rtts) /\
    (rtts = [] \/ (minRtt (statsOf rtts) ∈ rtts /\ (maxRtt (statsOf rtts) ∈ rtts \/ maxRtt (statsOf rtts) = 0) /\
      Forall (fun r => minRtt (statsOf rtts) <= r <= maxRtt (statsOf rtts)) rtts /\
      minRtt (statsOf rtts) <= avgRtt (statsOf rtts) <= maxRtt (statsOf rtts))) /\
    (rtts = [] -> avgRtt (statsOf rtts) = 0 /\ maxRtt (statsOf rtts) = 0)) as (Hc & Ha & Hm & Hs & H0).
  { destruct rtts as [|r0 rtts']; [cbn; repeat split; (lia || auto)|].
    destruct (IH ltac:(done) Hall ltac:(lia)) as (I1 & I2 & I3 & I4 & I5).
    assert (0 <= minRtt (statsOf (r0 :: rtts')) /\ maxRtt (statsOf (r0 :: rtts')) <= 2 ^ 62) as [? ?].
    { rewrite Forall_forall in Hall. destruct (Hall _ I2). split; [done|].
      destruct I3 as [I3|I3]; [now destruct (Hall _ I3) | lia]. }
    repeat split; auto; try lia; done. }
  unfold goodRtt in Hr. unfold updateStatistics. cbn [PacketsRecv minRtt maxRtt avgRtt]. rewrite Hc.
  rewrite (s64_small (len rtts + 1)) by lia. rewrite (s64_small (r - avgRtt (statsOf rtts))) by lia.
  destruct (quot_between (r - avgRtt (statsOf rtts)) (len rtts + 1) ltac:(lia)) as [Q1 Q2].
  set (q := Z.quot (r - avgRtt (statsOf rtts)) (len rtts + 1)) in *.
  rewrite (s64_small (avgRtt (statsOf rtts) + q)) by lia.
  destruct Hs as [->|(I2 & I3 & I4 & I5)].
  - unfold q. change (statsOf []) with zeroState. cbn [avgRtt maxRtt minRtt zeroState].
    change (len (@nil Z) + 1) with 1. rewrite Z.sub_0_r, Z.quot_1_r. cbn [Z.eqb Pos.eqb orb app Z.add].
    split; [done|]. split; [left|].
    destruct (Z.ltb_spec 0 r); (split; [first [left; left | right; lia]|]);
      (split; [constructor; [lia | apply Forall_nil_2] | lia]).
  - assert (0 < len rtts) by (destruct rtts; [set_solver | rewrite len_cons; pose proof (len_nonneg rtts); lia]).
    destruct (Z.eqb_spec (len rtts + 1) 1); [lia|]. cbn [orb].
    rewrite Forall_forall in I4. split; [done|].
    assert (forall x, x ∈ rtts -> x ∈ rtts ++ [r]) as Hl by (intros; apply elem_of_app; auto).
    assert (r ∈ rtts ++ [r]) as Hrin by (apply elem_of_app; right; left).
    clear IH H0 Hall. set (mn := minRtt (statsOf rtts)) in *. set (mx := maxRtt (statsOf rtts)) in *.
    set (av := avgRtt (statsOf rtts)) in *. clearbody q mn mx av.
    assert (forall a b, (a <= r <= b) -> a <= mn -> mx <= b -> Forall (fun x => a <= x <= b) (rtts ++ [r])) as HF.
    { intros a b Hab Ha' Hb'. apply Forall_forall. intros x [Hx|Hx%list_elem_of_singleton]%elem_of_app; [specialize (I4 x Hx); lia | lia]. }
    destruct (Z.ltb_spec r mn), (Z.ltb_spec mx r); (split; [auto|]);
      (split; [destruct I3; auto|]); (split; [apply HF; lia | lia]).
Qed.

Lemma rtt_statistics_witness :
  let s := statsOf [20; 10; 45] in
  PacketsRecv s = 3 /\ minRtt s = 10 /\ maxRtt s = 45 /\ avgRtt s = 25 /\ minRtt s <= avgRtt s <= maxRtt s.
Proof.
  split; [reflexivity|]. split; [reflexivity|]. split; [reflexivity|]. split; [reflexivity|].
  apply (rtt_statistics [20; 10; 45]); [done|repeat constructor; lia|reflexivity].
Defined.

(** The sum of squares is kept in 64-bit nanoseconds squared: round-trip
    times five seconds apart overflow it, and the standard deviation becomes
    the conversion of a number that is not one. *)
Example stddev_overflow : stdDevRtt (statsOf [0; 5 * Second]) = - 2 ^ 63.
Proof. vm_compute. reflexivity. Qed.

(** The printed loss is the exact percentage rounded to a nearest integer. *)
Definition lossNearest (sent recv : Z) : bool :=
  let l := PacketLossPercent (mkPingState sent recv 0 0 0 0 0 0 [] []) in
  Z.abs (2 * (l * sent - 100 * (sent - recv))) <=? sent.

Lemma packet_loss_nearest :
  forallb (fun sent => forallb (lossNearest sent) (seqZ 0 (sent + 1))) (seqZ 1 100) = true.
Proof. vm_compute. reflexivity. Qed.

(** A default pinger ([Count] is -1) returns without sending anything, and
    nothing sent means a loss that is not a number. *)
Lemma default_pinger_idle address rnd u : run_start (New address (Ok rnd) u) = None.
Proof. reflexivity. Qed.

Example no_packets_loss : Statistics_PacketLoss zeroState = S754_nan.
Proof. reflexivity. Qed.

(** With a size below the minimum [Run] reports the error and pings all the
    same: both outcomes are put on its channel. *)
Lemma small_size_still_runs p r :
  Size p < timeSliceLength + trackerLength -> Run_errors p r = [Err ErrPingSize; r].
Proof. intros Hs. unfold Run_errors. now destruct (Z.ltb_spec (Size p) (timeSliceLength + trackerLength)); [|lia]. Qed.

(** ** The read delays *)

Record expBackoff : Type := mkExpBackoff { baseDelay : Z; maxExp : Z; eb_c : Z }.

Definition newExpBackoff (d m : Z) : expBackoff := mkExpBackoff d m 0.

(** [r] is what [rand.Int(rand.Reader, 1<<c)] returned. *)
Definition expBackoff_Get (b : expBackoff) (r : outcome Z) : Z * expBackoff :=
  let c := if eb_c b <? maxExp b then eb_c b + 1 else eb_c b in
  let n := match r with Ok n => n | _ => c end in
  (s64 (baseDelay b * s64 n), mkExpBackoff (baseDelay b) (maxExp b) c).

(** The delays of a run of read timeouts with the random numbers [rs]. *)
Fixpoint delays (b : expBackoff) (rs : list (outcome Z)) : list Z :=
  match rs with
  | [] => []
  | r :: rs' => let '(d, b) := expBackoff_Get b r in d :: delays b rs'
  end.

Lemma delays_bounded rs c :
  0 <= c <= 10 -> Forall (fun r => match r with Ok n => 0 <= n < 2 ^ 10 | _ => True end) rs ->
  Forall (fun d => 0 <= d < 103 * Millisecond) (delays (mkExpBackoff (100 * 1000) 10 c) rs).
Proof.
  intros Hc Hrs. revert c Hc. induction Hrs as [|r rs Hr _ IH]; intros c Hc; cbn [delays]; [constructor|].
  unfold expBackoff_Get. cbn [baseDelay maxExp eb_c].
  assert (0 <= (if c <? 10 then c + 1 else c) <= 10) as Hc' by (destruct (Z.ltb_spec c 10); lia).
  set (c' := if c <? 10 then c + 1 else c) in *. clearbody c'. constructor; [|now apply IH].
  assert (0 <= match r with Ok n => n | _ => c' end < 2 ^ 10) as Hn by (destruct r; lia).
  set (n := match r with Ok n => n | _ => c' end) in *. clearbody n. unfold Millisecond.
  rewrite (s64_small n) by lia. rewrite s64_small by lia. lia.
Qed.

(** The read deadline of [recvICMP] is never negative and stays below 103
    milliseconds, however many reads time out; the random numbers are below
    the bound they are asked for, at most two to the tenth. *)
Lemma recv_delays_bounded rs :
  Forall (fun r => match r with Ok n => 0 <= n < 2 ^ 10 | _ => True end) rs ->
  Forall (fun d => 0 <= d < 103 * Millisecond) (delays (newExpBackoff (100 * 1000) 10) rs).
Proof. apply delays_bounded. lia. Qed.

(** ** Seeds *)

(** [atomic.AddInt64(&seed, 1)]: the seed and the new value of the counter. *)
Definition getSeed (seed : Z) : Z * Z := let seed := s64 (seed + 1) in (seed, seed).

Fixpoint seeds (n : nat) (seed : Z) : list Z :=
  match n with O => [] | S n' => let '(s, seed) := getSeed seed in s :: seeds n' seed end.

Lemma seeds_nth n seed i : (i < n)%nat -> seeds n seed !! i = Some (s64 (seed + 1 + Z.of_nat i)).
Proof.
  revert seed i. induction n as [|n IH]; intros seed i Hi; [lia|]. cbn [seeds getSeed]. destruct i as [|i].
  - cbn. do 2 f_equal. lia.
  - cbn [lookup list_lookup]. rewrite IH by lia. f_equal.
    replace (s64 (seed + 1) + 1 + Z.of_nat i) with (s64 (seed + 1) + (1 + Z.of_nat i)) by lia.
    rewrite s64_add_l. f_equal. lia.
Qed.

(** However the calls interleave, the seeds are distinct until the counter has
    gone through all 64-bit numbers. *)
Lemma seeds_distinct n seed : Z.of_nat n <= 2 ^ 64 -> NoDup (seeds n seed).
Proof.
  intros Hn. apply NoDup_alt. intros i j x Hi Hj.
  assert (forall k, seeds n seed !! k = Some x -> (k < n)%nat) as Hlt.
  { intros k Hk. apply lookup_lt_Some in Hk. replace n with (length (seeds n seed)); [done|].
    clear. revert seed. induction n as [|n IH]; intros seed; [done|]. cbn [seeds getSeed length]. by rewrite IH. }
  pose proof (Hlt _ Hi) as Li. pose proof (Hlt _ Hj) as Lj.
  rewrite seeds_nth in Hi by done. rewrite seeds_nth in Hj by done. rewrite <- Hj in Hi. injection Hi as E.
  apply (f_equal (fun z => z mod 2 ^ 64)) in E. rewrite !s64_mod in E.
  apply Z.cong_iff_0 in E. replace (_ - _) with (Z.of_nat i - Z.of_nat j) in E by lia.
  apply Z.mod_divide in E as [q E]; [|lia]. nia.
Qed.
