(* ===== verification/GoFmt.v ===== *)
(** * Numbers and durations as text

    [fmt.Sprintf("%d")], [strings.Split] with a longer separator,
    [strings.Trim] and [time.ParseDuration]. *)

From S2P Require Import Prelude GoStrings GoFloat.

(** ** Decimal numbers *)

Definition digit_char (d : Z) : ascii := ascii_of_nat (Z.to_nat (48 + d)).

(** The digits of [n] in front of [acc]; [fuel] bounds their number. *)
Fixpoint itoa_digits (fuel : nat) (n : Z) (acc : string) : string :=
  match fuel with
  | O => acc
  | S f =>
      let acc := String (digit_char (n mod 10)) acc in
      if n <? 10 then acc else itoa_digits f (n / 10) acc
  end.

(** [fmt.Sprintf("%d", n)]; a number has at most as many digits as bits. *)
Definition Itoa (n : Z) : string :=
  if n <? 0 then String "-"%char (itoa_digits (S (Z.to_nat (Z.log2 (- n)))) (- n) "")
  else itoa_digits (S (Z.to_nat (Z.log2 n))) n "".

Lemma digit_char_nat d : 0 <= d < 10 -> nat_of_ascii (digit_char d) = Z.to_nat (48 + d).
Proof. intros Hd. unfold digit_char. apply nat_ascii_embedding. lia. Qed.

Lemma digit_char_digit d : 0 <= d < 10 -> is_digit (digit_char d) = true /\ digit_val (digit_char d) = d.
Proof.
  intros Hd. unfold is_digit, digit_val. rewrite digit_char_nat by done. rewrite Z2Nat.id by lia.
  split; [|lia]. apply andb_true_iff. rewrite !Z.leb_le. lia.
Qed.

Lemma itoa_digits_val fuel n s :
  0 <= n < 10 ^ Z.of_nat fuel -> (0 < fuel)%nat -> digits_val 0 (itoa_digits fuel n s) = digits_val n s.
Proof.
  revert n s. induction fuel as [|f IH]; intros n s Hn Hf; [lia|]. cbn [itoa_digits].
  pose proof (Z.mod_pos_bound n 10 ltac:(lia)) as Hm. destruct (digit_char_digit (n mod 10) Hm) as [Hd Hv].
  destruct (Z.ltb_spec n 10).
  - cbn [digits_val]. rewrite Hd, Hv. f_equal. rewrite Z.mod_small; lia.
  - rewrite Nat2Z.inj_succ, Z.pow_succ_r in Hn by lia. rewrite IH.
    + cbn [digits_val]. rewrite Hd, Hv. f_equal. pose proof (Z.div_mod n 10 ltac:(lia)). lia.
    + split; [apply Z.div_pos; lia | apply Z.div_lt_upper_bound; lia].
    + destruct f; [cbn in Hn; lia | lia].
Qed.

Fixpoint all_digits (s : string) : bool :=
  match s with EmptyString => true | String c s' => is_digit c && all_digits s' end.

Lemma itoa_digits_all fuel n s : 0 <= n -> all_digits s = true -> all_digits (itoa_digits fuel n s) = true.
Proof.
  revert n s. induction fuel as [|f IH]; intros n s Hn Hs; [done|]. cbn [itoa_digits].
  destruct (digit_char_digit (n mod 10) (Z.mod_pos_bound n 10 ltac:(lia))) as [Hd _].
  destruct (n <? 10); [cbn; now rewrite Hd|]. apply IH; [apply Z.div_pos; lia | cbn; now rewrite Hd].
Qed.

Lemma itoa_digits_cons fuel n s : 0 <= n -> (0 < fuel)%nat -> exists c t, itoa_digits fuel n s = String c t.
Proof.
  revert n s. induction fuel as [|f IH]; intros n s Hn Hf; [lia|]. cbn [itoa_digits].
  destruct (n <? 10); [eauto|]. destruct f as [|f]; [cbn; eauto|]. apply IH; [apply Z.div_pos; lia | lia].
Qed.

Lemma log2_fuel n : 0 <= n -> n < 10 ^ Z.of_nat (S (Z.to_nat (Z.log2 n))).
Proof.
  intros Hn. rewrite Nat2Z.inj_succ, Z2Nat.id by apply Z.log2_nonneg.
  destruct (Z.eq_dec n 0) as [->|]; [done|]. pose proof (Z.log2_spec n ltac:(lia)) as [_ H].
  eapply Z.lt_le_trans; [exact H|]. apply Z.pow_le_mono_l. lia.
Qed.

Lemma digit_not_sign c : is_digit c = true -> Ascii.eqb c "-" = false /\ Ascii.eqb c "+" = false.
Proof. intros H. split; [destruct (Ascii.eqb_spec c "-") as [->|] | destruct (Ascii.eqb_spec c "+") as [->|]]; done. Qed.

(** The decimal digits of a number that is not negative. *)
Lemma Itoa_digits n : 0 <= n ->
  exists c t, Itoa n = String c t /\ all_digits (Itoa n) = true /\ digits_val 0 (Itoa n) = Some n.
Proof.
  intros Hn. unfold Itoa. destruct (Z.ltb_spec n 0); [lia|].
  destruct (itoa_digits_cons (S (Z.to_nat (Z.log2 n))) n "" Hn ltac:(lia)) as (c & t & E). exists c, t. split; [done|].
  split; [now apply itoa_digits_all|]. rewrite itoa_digits_val; [done|split; [done | now apply log2_fuel]|lia].
Qed.

(** [strconv.Atoi] reads back what [%d] prints. *)
Lemma Atoi_Itoa n : - 2 ^ 63 <= n < 2 ^ 63 -> Atoi (Itoa n) = Ok n.
Proof.
  intros Hn. destruct (Z.lt_ge_cases n 0) as [Hneg|Hpos].
  - destruct (Itoa_digits (- n) ltac:(lia)) as (c & t & E & _ & Hv).
    assert (Itoa n = String "-" (Itoa (- n))) as ->.
    { unfold Itoa at 1. destruct (Z.ltb_spec n 0); [|lia]. unfold Itoa. destruct (Z.ltb_spec (- n) 0); [lia | done]. }
    unfold Atoi. change (Ascii.eqb "-" "-") with true. cbn iota. rewrite Hv, E. rewrite Z.opp_involutive.
    destruct (Z.leb_spec (- 2 ^ 63) n), (Z.ltb_spec n (2 ^ 63)); (done || lia).
  - destruct (Itoa_digits n Hpos) as (c & t & E & Hd & Hv). rewrite E in Hd. cbn in Hd.
    apply andb_true_iff in Hd as [Hc _]. destruct (digit_not_sign c Hc) as [H1 H2].
    rewrite E in Hv |- *. unfold Atoi. rewrite H1, H2, Hv.
    destruct (Z.leb_spec (- 2 ^ 63) n), (Z.ltb_spec n (2 ^ 63)); (done || lia).
Qed.

(** ** Split and Trim *)

(** [strings.Split(s, sep)] for a separator of any positive length; [skip] is
    the rest of a separator that has been found. *)
Fixpoint splitOn (sep : string) (skip : nat) (s : string) : list string :=
  match s with
  | EmptyString => [""]
  | String c s' =>
      match skip with
      | S k => splitOn sep k s'
      | O =>
          if String.prefix sep s then "" :: splitOn sep (String.length sep - 1) s'
          else match splitOn sep 0 s' with
               | [] => [String c ""]
               | w :: ws => String c w :: ws
               end
      end
  end.

Definition SplitString (s sep : string) : list string := splitOn sep 0 s.

(** [strings.Trim(s, cutset)] *)
Fixpoint inCutset (cutset : string) (c : ascii) : bool :=
  match cutset with EmptyString => false | String d k => Ascii.eqb c d || inCutset k c end.

Fixpoint TrimLeft (cutset s : string) : string :=
  match s with
  | EmptyString => EmptyString
  | String c s' => if inCutset cutset c then TrimLeft cutset s' else s
  end.

Fixpoint TrimRight (cutset s : string) : string :=
  match s with
  | EmptyString => EmptyString
  | String c s' =>
      match TrimRight cutset s' with
      | EmptyString => if inCutset cutset c then EmptyString else String c EmptyString
      | t => String c t
      end
  end.

Definition Trim (s cutset : string) : string := TrimRight cutset (TrimLeft cutset s).

(** ** Durations *)

Definition pow63 : Z := 2 ^ 63.

(** The leading decimal digits; [None] on overflow. *)
Fixpoint leadingInt (x : Z) (s : string) : option (Z * string) :=
  match s with
  | EmptyString => Some (x, s)
  | String c s' =>
      if is_digit c then
        if pow63 / 10 <? x then None
        else let x := x * 10 + digit_val c in
             if pow63 <? x then None else leadingInt x s'
      else Some (x, s)
  end.

(** The digits after the point; digits beyond the capacity are dropped. *)
Fixpoint leadingFraction (x : Z) (scale : float64) (overflow : bool) (s : string) : Z * float64 * string :=
  match s with
  | EmptyString => (x, scale, s)
  | String c s' =>
      if is_digit c then
        if overflow then leadingFraction x scale true s'
        else if (pow63 - 1) / 10 <? x then leadingFraction x scale true s'
        else let y := x * 10 + digit_val c in
             if pow63 <? y then leadingFraction x scale true s'
             else leadingFraction y (f_mul scale (float64_of_int 10)) false s'
      else (x, scale, s)
  end.

Definition startsNumber (c : ascii) : bool := Ascii.eqb c "." || is_digit c.

(** The unit: everything up to the next point or digit. *)
Fixpoint takeUnit (s : string) : string * string :=
  match s with
  | EmptyString => ("", "")
  | String c s' => if startsNumber c then ("", s) else let '(u, r) := takeUnit s' in (String c u, r)
  end.

(** The two spellings of the micro sign in UTF-8. *)
Definition micro1 : string := String (ascii_of_nat 194) (String (ascii_of_nat 181) "s").
Definition micro2 : string := String (ascii_of_nat 206) (String (ascii_of_nat 188) "s").

Definition unitMap (u : string) : option Z :=
  if String.eqb u "ns" then Some 1
  else if String.eqb u "us" || String.eqb u micro1 || String.eqb u micro2 then Some 1000
  else if String.eqb u "ms" then Some 1000000
  else if String.eqb u "s" then Some 1000000000
  else if String.eqb u "m" then Some 60000000000
  else if String.eqb u "h" then Some 3600000000000
  else None.

(** One number with its unit, in nanoseconds. *)
Definition durationItem (s : string) : outcome (Z * string) :=
  match s with
  | String c _ =>
      if negb (startsNumber c) then Err ErrStrconv
      else match leadingInt 0 s with
           | None => Err ErrStrconv
           | Some (v, s1) =>
               let pre := negb (String.length s1 =? String.length s)%nat in
               let '(f, scale, s2, post) :=
                 match s1 with
                 | String c1 t =>
                     if Ascii.eqb c1 "." then
                       let '(f, scale, r) := leadingFraction 0 (float64_of_int 1) false t in
                       (f, scale, r, negb (String.length r =? String.length t)%nat)
                     else (0, float64_of_int 1, s1, false)
                 | EmptyString => (0, float64_of_int 1, s1, false)
                 end in
               if negb pre && negb post then Err ErrStrconv
               else
                 let '(u, rest) := takeUnit s2 in
                 if String.eqb u "" then Err ErrStrconv
                 else match unitMap u with
                      | None => Err ErrStrconv
                      | Some unit =>
                          if pow63 / unit <? v then Err ErrStrconv
                          else
                            let v := v * unit in
                            if 0 <? f then
                              let v := v + default 0 (float_trunc (f_mul (float64_of_int f)
                                                        (f_div (float64_of_int unit) scale))) in
                              if pow63 <? v then Err ErrStrconv else Ok (v, rest)
                            else Ok (v, rest)
                      end
           end
  | EmptyString => Err ErrStrconv
  end.

(** The loop over the items; each consumes a character at least, so the
    length of the text is enough fuel. *)
Fixpoint durationLoop (fuel : nat) (d : Z) (s : string) : outcome Z :=
  match s with
  | EmptyString => Ok d
  | _ =>
      match fuel with
      | O => Err ErrStrconv
      | S f =>
          '(v, rest) ← durationItem s;
          let d := d + v in
          if pow63 <? d then Err ErrStrconv else durationLoop f d rest
      end
  end.

Definition ParseDuration (s : string) : outcome Z :=
  let '(neg, s) :=
    match s with
    | String c s' => if Ascii.eqb c "-" then (true, s') else if Ascii.eqb c "+" then (false, s') else (false, s)
    | EmptyString => (false, s)
    end in
  if String.eqb s "0" then Ok 0
  else if String.eqb s "" then Err ErrStrconv
  else
    d ← durationLoop (String.length s) 0 s;
    if neg : bool then Ok (s64 (- d))
    else if pow63 - 1 <? d then Err ErrStrconv else Ok d.

Example duration_1 : ParseDuration "1h15m30.918s" = Ok 4530918000000.
Proof. vm_compute. reflexivity. Qed.
Example duration_2 : ParseDuration "-1.5h" = Ok (-5400000000000).
Proof. vm_compute. reflexivity. Qed.
Example duration_3 : ParseDuration ".5" = Err ErrStrconv.
Proof. vm_compute. reflexivity. Qed.
Example duration_4 : ParseDuration "9223372036854775807ns" = Ok MaxInt64.
Proof. vm_compute. reflexivity. Qed.
Example duration_5 : ParseDuration "9223372036854775808ns" = Err ErrStrconv.
Proof. vm_compute. reflexivity. Qed.

(** ** Strings by their characters *)

Fixpoint all_chars (P : ascii -> bool) (s : string) : bool :=
  match s with EmptyString => true | String c s' => P c && all_chars P s' end.

Lemma all_chars_app P s t : all_chars P (s +:+ t) = all_chars P s && all_chars P t.
Proof.
  induction s as [|c s IH]; [done|]. change (String c s +:+ t) with (String c (s +:+ t)). cbn [all_chars].
  rewrite IH. apply andb_assoc.
Qed.

Lemma all_chars_impl (P Q : ascii -> bool) s : (forall c, P c = true -> Q c = true) -> all_chars P s = true -> all_chars Q s = true.
Proof.
  intros HPQ. induction s as [|c s IH]; [done|]. cbn. rewrite !andb_true_iff. intros [H1 H2]. auto.
Qed.

Lemma no_char_all sep s : no_char sep s = all_chars (fun c => negb (Ascii.eqb c sep)) s.
Proof. induction s as [|c s IH]; [done|]. cbn. now rewrite IH. Qed.

Lemma all_digits_all s : all_digits s = all_chars is_digit s.
Proof. induction s as [|c s IH]; [done|]. cbn. now rewrite IH. Qed.

(** A printed number: digits and a sign. *)
Definition number_char (c : ascii) : bool := is_digit c || Ascii.eqb c "-".

Lemma Itoa_chars n : all_chars number_char (Itoa n) = true.
Proof.
  destruct (Z.lt_ge_cases n 0) as [Hn|Hn].
  - destruct (Itoa_digits (- n) ltac:(lia)) as (c & t & E & Hd & _).
    assert (Itoa n = String "-" (Itoa (- n))) as ->.
    { unfold Itoa at 1. destruct (Z.ltb_spec n 0); [|lia]. unfold Itoa. destruct (Z.ltb_spec (- n) 0); [lia | done]. }
    cbn [all_chars]. apply andb_true_iff. split; [done|]. rewrite all_digits_all in Hd.
    eapply all_chars_impl; [|exact Hd]. intros d Hd'. unfold number_char. now rewrite Hd'.
  - destruct (Itoa_digits n Hn) as (c & t & _ & Hd & _). rewrite all_digits_all in Hd.
    eapply all_chars_impl; [|exact Hd]. intros d Hd'. unfold number_char. now rewrite Hd'.
Qed.

Lemma Itoa_cons n : exists c t, Itoa n = String c t.
Proof.
  unfold Itoa. destruct (Z.ltb_spec n 0); [eauto|]. apply itoa_digits_cons; lia.
Qed.

(** No character of [cs] is a digit or a minus sign. *)
Lemma number_char_not c d : number_char c = true -> number_char d = false -> Ascii.eqb c d = false.
Proof. intros Hc Hd. destruct (Ascii.eqb_spec c d) as [->|]; [congruence | done]. Qed.

Lemma Itoa_no_char d n : number_char d = false -> no_char d (Itoa n) = true.
Proof.
  intros Hd. rewrite no_char_all. eapply all_chars_impl; [|apply Itoa_chars]. cbn. intros c Hc.
  now rewrite (number_char_not c d).
Qed.

Lemma prefix_cons x p c s : String.prefix (String x p) (String c s) = Ascii.eqb c x && String.prefix p s.
Proof.
  cbn [String.prefix]. destruct (Ascii.ascii_dec x c) as [->|Hne].
  - now rewrite Ascii.eqb_refl.
  - destruct (Ascii.eqb_spec c x); [congruence | done].
Qed.

Lemma prefix_empty s : String.prefix "" s = true.
Proof. now destruct s. Qed.

(** A separator whose first character does not occur. *)
Lemma splitOn_none x p s : no_char x s = true -> splitOn (String x p) 0 s = [s].
Proof.
  induction s as [|c s IH]; [done|]. cbn [no_char splitOn]. rewrite prefix_cons.
  destruct (Ascii.eqb c x); [done|]. cbn [negb andb]. intros H. now rewrite IH.
Qed.

(** A separator of two different characters, the second of which does not
    occur before it. *)
Lemma splitOn_two x y a b :
  Ascii.eqb x y = false -> no_char y a = true ->
  splitOn (String x (String y "")) 0 (a +:+ String x (String y b)) = a :: splitOn (String x (String y "")) 0 b.
Proof.
  intros Hxy. induction a as [|c a IH].
  - intros _. change ("" +:+ String x (String y b)) with (String x (String y b)). cbn [splitOn].
    rewrite !prefix_cons, !Ascii.eqb_refl, prefix_empty. done.
  - change (String c a +:+ String x (String y b)) with (String c (a +:+ String x (String y b))).
    cbn [no_char]. intros [_ Ha]%andb_true_iff. cbn [splitOn]. rewrite prefix_cons.
    assert (String.prefix (String y "") (a +:+ String x (String y b)) = false) as ->.
    { destruct a as [|d a].
      - change ("" +:+ String x (String y b)) with (String x (String y b)). rewrite prefix_cons, Hxy. done.
      - change (String d a +:+ String x (String y b)) with (String d (a +:+ String x (String y b))).
        cbn [no_char] in Ha. apply andb_true_iff in Ha as [Hd _]. apply negb_true_iff in Hd. now rewrite prefix_cons, Hd. }
    rewrite andb_false_r, IH by done. done.
Qed.

Lemma splitOn_two_none x y s : no_char y s = true -> splitOn (String x (String y "")) 0 s = [s].
Proof.
  induction s as [|c s IH]; [done|]. cbn [no_char splitOn]. intros [_ Hs]%andb_true_iff. rewrite prefix_cons.
  assert (String.prefix (String y "") s = false) as ->.
  { destruct s as [|d s]; [done|]. cbn [no_char] in Hs. apply andb_true_iff in Hs as [Hd _].
    apply negb_true_iff in Hd. now rewrite prefix_cons, Hd. }
  rewrite andb_false_r, IH by done. done.
Qed.

(** [Trim] removes the brackets around a text that has none. *)
Lemma TrimRight_app cut s t :
  all_chars (fun c => negb (inCutset cut c)) s = true -> TrimRight cut (s +:+ t) = s +:+ TrimRight cut t.
Proof.
  induction s as [|c s IH]; [done|]. change (String c s +:+ t) with (String c (s +:+ t)). cbn [all_chars TrimRight].
  intros [Hc Hs]%andb_true_iff. rewrite IH by done. apply negb_true_iff in Hc. rewrite Hc.
  change (String c s +:+ TrimRight cut t) with (String c (s +:+ TrimRight cut t)). now destruct (s +:+ TrimRight cut t).
Qed.

Lemma length_app_string s t : String.length (s +:+ t) = (String.length s + String.length t)%nat.
Proof. induction s as [|c s IH]; [done|]. change (String c s +:+ t) with (String c (s +:+ t)). cbn [String.length]. now rewrite IH. Qed.

Lemma app_empty s : s +:+ "" = s.
Proof. induction s as [|c s IH]; [done|]. change (String c s +:+ "") with (String c (s +:+ "")). now rewrite IH. Qed.

Lemma Trim_brackets cut l r s :
  inCutset cut l = true -> inCutset cut r = true -> s <> "" ->
  all_chars (fun c => negb (inCutset cut c)) s = true -> Trim (String l (s +:+ String r "")) cut = s.
Proof.
  intros Hl Hr Hne Hs. unfold Trim. cbn [TrimLeft]. rewrite Hl. destruct s as [|c s]; [done|].
  change (String c s +:+ String r "") with (String c (s +:+ String r "")). cbn [TrimLeft].
  pose proof Hs as Hs'. cbn [all_chars] in Hs'. apply andb_true_iff in Hs' as [Hc _]. apply negb_true_iff in Hc. rewrite Hc.
  change (String c (s +:+ String r "")) with (String c s +:+ String r ""). rewrite TrimRight_app by done.
  cbn [TrimRight]. rewrite Hr. apply app_empty.
Qed.

(** ** Durations in milliseconds *)

Lemma digits_val_mono s x v : digits_val x s = Some v -> 0 <= x -> x <= v.
Proof.
  revert x. induction s as [|c s IH]; intros x; cbn; [intros [= <-]; lia|].
  destruct (is_digit c) eqn:Hd; [|done]. intros H Hx. unfold is_digit in Hd. apply andb_true_iff in Hd as [H1 H2].
  apply Z.leb_le in H1, H2. apply IH in H; unfold digit_val in *; lia.
Qed.

Lemma leadingInt_digits s rest x v :
  digits_val x s = Some v -> 0 <= x -> v <= pow63 / 10 ->
  match rest with String c _ => is_digit c = false | EmptyString => True end ->
  leadingInt x (s +:+ rest) = Some (v, rest).
Proof.
  intros Hv Hx Hmax Hrest. revert x Hv Hx. induction s as [|c s IH]; intros x; cbn [digits_val].
  - intros [= <-] _. destruct rest as [|c rest]; [done|]. change ("" +:+ String c rest) with (String c rest).
    cbn [leadingInt]. now rewrite Hrest.
  - change (String c s +:+ rest) with (String c (s +:+ rest)). cbn [leadingInt].
    destruct (is_digit c) eqn:Hd; [|done]. intros Hv Hx. unfold is_digit in Hd. apply andb_true_iff in Hd as [H1 H2].
    apply Z.leb_le in H1, H2. assert (0 <= x * 10 + digit_val c) as Hx' by (unfold digit_val; lia).
    pose proof (digits_val_mono _ _ _ Hv Hx') as Hle. unfold digit_val in *.
    assert (pow63 / 10 <= pow63) by (unfold pow63; vm_compute; congruence).
    destruct (Z.ltb_spec (pow63 / 10) x); [lia|]. destruct (Z.ltb_spec pow63 (x * 10 + (Z.of_nat (nat_of_ascii c) - 48))); [lia|].
    now apply IH.
Qed.

(** A number of milliseconds is parsed to that many million nanoseconds. *)
Lemma ParseDuration_ms k : 0 <= k < 2 ^ 40 -> ParseDuration (Itoa k +:+ "ms") = Ok (k * 1000000).
Proof.
  intros Hk. destruct (Itoa_digits k ltac:(lia)) as (c & t & E & Hd & Hv).
  assert (k <= pow63 / 10) as Hmax by (transitivity (2 ^ 40); [lia | vm_compute; congruence]).
  pose proof (leadingInt_digits (Itoa k) "ms" 0 k Hv ltac:(lia) Hmax eq_refl) as Hlead.
  rewrite E in Hd, Hlead |- *. cbn in Hd. apply andb_true_iff in Hd as [Hc Ht].
  destruct (digit_not_sign c Hc) as [H1 H2].
  change (String c t +:+ "ms") with (String c (t +:+ "ms")) in *. unfold ParseDuration. rewrite H1, H2.
  assert (exists d u, t +:+ "ms" = String d u) as (d & u & Etu) by (destruct t; eexists; eexists; reflexivity).
  rewrite Etu in *.
  assert (String.eqb (String c (String d u)) "0" = false) as -> by (cbn; now destruct (Ascii.eqb c "0")).
  change (String.eqb (String c (String d u)) "") with false. cbn iota.
  assert (durationItem (String c (String d u)) = Ok (k * 1000000, "")) as Hitem.
  { unfold durationItem. assert (startsNumber c = true) as -> by (unfold startsNumber; rewrite Hc; apply orb_true_r).
    cbn [negb]. rewrite Hlead.
    assert (String.length "ms" =? String.length (String c (String d u)) = false)%nat as ->.
    { rewrite <- Etu. apply Nat.eqb_neq. cbn [String.length]. rewrite length_app_string. cbn [String.length]. lia. }
    cbn [negb andb]. change (Ascii.eqb "m" ".") with false. cbn iota.
    change (takeUnit "ms") with ("ms", ""). cbn iota beta. change (String.eqb "ms" "") with false. cbn iota.
    change (unitMap "ms") with (Some 1000000). cbn iota beta. change (pow63 / 1000000) with 9223372036854.
    destruct (Z.ltb_spec 9223372036854 k); [lia|]. done. }
  cbn [String.length durationLoop]. rewrite Hitem. cbn [mbind outcome_bind]. rewrite Z.add_0_l. unfold pow63.
  destruct (Z.ltb_spec (2 ^ 63) (k * 1000000)); [lia|].
  cbn [mbind outcome_bind]. destruct (Z.ltb_spec (2 ^ 63 - 1) (k * 1000000)); [lia | done].
Qed.

(** ** More of package fmt *)

(** [utf8.RuneCountInString]: the bytes that do not continue a character *)
Fixpoint runeCount (s : string) : nat :=
  match s with
  | EmptyString => 0
  | String c s' =>
      let n := nat_of_ascii c in
      if (128 <=? n)%nat && (n <? 192)%nat then runeCount s' else S (runeCount s')
  end.

Fixpoint spaces (n : nat) : string := match n with O => "" | S n' => String " "%char (spaces n') end.

(** [%6s] and [%-25s] *)
Definition padLeft (w : nat) (s : string) : string := spaces (w - runeCount s) +:+ s.
Definition padRight (w : nat) (s : string) : string := s +:+ spaces (w - runeCount s).

Definition hexDigit (d : Z) : ascii := if d <? 10 then digit_char d else ascii_of_nat (Z.to_nat (87 + d)).

(** [%x] of bytes *)
Fixpoint hexString (b : list byte) : string :=
  match b with
  | [] => ""
  | x :: b' => String (hexDigit (b2z x / 16)) (String (hexDigit (b2z x mod 16)) (hexString b'))
  end.

(** [%v] of a slice of numbers *)
Definition fmtSlice (l : list Z) : string := "[" +:+ Join " "%char (map Itoa l) +:+ "]".

(** [fmtFrac] of package time: [prec] decimals of [v] in front of [tail],
    without trailing zeros, and the rest of [v]. *)
Fixpoint fmtFrac (prec : nat) (v : Z) (print : bool) (tail : string) : string * Z :=
  match prec with
  | O => ((if print then String "."%char tail else tail), v)
  | S prec' =>
      let digit := v mod 10 in
      let print := print || negb (digit =? 0) in
      fmtFrac prec' (v / 10) print (if print then String (digit_char digit) tail else tail)
  end.

(** [time.Duration.String] *)
Definition Duration_String (d : Z) : string :=
  let u := Z.abs d in
  let body :=
    if u <? 1000000000 then
      if u =? 0 then "0s"
      else
        let '(prec, unit) :=
          if u <? 1000 then (0%nat, "ns") else if u <? 1000000 then (3%nat, micro1) else (6%nat, "ms") in
        let '(tail, u) := fmtFrac prec u false unit in
        Itoa u +:+ tail
    else
      let '(tail, u) := fmtFrac 9 u false "s" in
      let tail := Itoa (u mod 60) +:+ tail in
      let u := u / 60 in
      if 0 <? u then
        let tail := Itoa (u mod 60) +:+ "m" +:+ tail in
        let u := u / 60 in
        if 0 <? u then Itoa u +:+ "h" +:+ tail else tail
      else tail in
  if d <? 0 then String "-"%char body else body.

Example Duration_String_examples :
  map Duration_String [0; 1; 1100; 2200000; 3300000000; 245000000000; 245001000000; 18367001000000; -1500000000] =
    ["0s"; "1ns"; "1.1" +:+ micro1; "2.2ms"; "3.3s"; "4m5s"; "4m5.001s"; "5h6m7.001s"; "-1.5s"].
Proof. reflexivity. Qed.

Lemma runeCount_spaces n : runeCount (spaces n) = n.
Proof. induction n as [|n IH]; [done|]. cbn. now rewrite IH. Qed.

Lemma runeCount_app s t : runeCount (s +:+ t) = (runeCount s + runeCount t)%nat.
Proof.
  induction s as [|c s IH]; [done|]. change (String c s +:+ t) with (String c (s +:+ t)). cbn [runeCount]. rewrite IH.
  by destruct (_ && _).
Qed.

(** A padded field has the width asked for, or is as long as its text. *)
Lemma padLeft_width w s : runeCount (padLeft w s) = Nat.max w (runeCount s).
Proof. unfold padLeft. rewrite runeCount_app, runeCount_spaces. lia. Qed.

Lemma padRight_width w s : runeCount (padRight w s) = Nat.max w (runeCount s).
Proof. unfold padRight. rewrite runeCount_app, runeCount_spaces. lia. Qed.

Lemma hexDigit_inj d e : 0 <= d < 16 -> 0 <= e < 16 -> hexDigit d = hexDigit e -> d = e.
Proof.
  intros Hd He E. unfold hexDigit, digit_char in E. apply (f_equal nat_of_ascii) in E.
  destruct (Z.ltb_spec d 10), (Z.ltb_spec e 10); rewrite !nat_ascii_embedding in E by lia; lia.
Qed.

(** Hexadecimal text determines the bytes. *)
Lemma hexString_inj a b : hexString a = hexString b -> a = b.
Proof.
  revert b. induction a as [|x a IH]; intros [|y b]; cbn; [done..|]. intros [= E1 E2 E3].
  pose proof (b2z_range x). pose proof (b2z_range y).
  apply hexDigit_inj in E1; [|split; [apply Z.div_pos; lia|apply Z.div_lt_upper_bound; lia]..].
  apply hexDigit_inj in E2; [|apply Z.mod_pos_bound; lia..].
  f_equal; [|by apply IH]. apply b2z_inj. rewrite (Z.div_mod (b2z x) 16), (Z.div_mod (b2z y) 16) by lia. lia.
Qed.
