(* ===== verification/Logging.v ===== *)
(** * Loggers

    The interface [Logger] of internal/model/logger.go with the [TestLogger]
    of mocks.go, the line [Packet.Log] writes, and the log handler of
    cmd/minivpn/log.go.  The variants with a format are given the formatted
    text.  Names and values of the fields of an entry come from the logging
    library. *)

From S2P Require Import Prelude Packet GoStrings GoFmt GoFloat Tracex.
From S2P Require Sender.

(** ** The interface *)

Class Logger (L : Type) : Type := {
  Debug : string -> L -> L;
  Info : string -> L -> L;
  Warn : string -> L -> L
}.

Record TestLogger : Type := mkTestLogger { Lines : list string }.

Definition NewTestLogger : TestLogger := mkTestLogger [].

Definition TestLogger_append (msg : string) (tl : TestLogger) : TestLogger := mkTestLogger (Lines tl ++ [msg]).

#[export] Instance TestLogger_Logger : Logger TestLogger := {|
  Debug := TestLogger_append;
  Info := TestLogger_append;
  Warn := TestLogger_append
|}.

(** ** [Packet.Log] *)

Definition packetLine (dir : string) (p : Packet) : string :=
  dir +:+ " " +:+ Opcode_String (Opcode p) +:+ " {id=" +:+ Itoa (ID p) +:+ ", acks=" +:+ fmtSlice (ACKs p) +:+
  "} localID=" +:+ hexString (LocalSessionID p) +:+ " remoteID=" +:+ hexString (RemoteSessionID p) +:+
  " [" +:+ Itoa (len (Payload p)) +:+ " bytes]".

Definition Packet_Log `{Logger L} (p : Packet) (direction : Z) (logger : L) : L :=
  if direction =? DirectionIncoming then Debug (packetLine "<" p) logger
  else if direction =? DirectionOutgoing then Debug (packetLine ">" p) logger
  else Warn ("wrong direction: " +:+ Itoa direction) logger.

Example packetLine_example :
  packetLine "<" (mkPacket P_CONTROL_V1 0 zeroPeerID (replicate 8 Byte.x0a) [1; 2] (replicate 8 Byte.xff) 42 [Byte.x00]) =
    "< P_CONTROL_V1 {id=42, acks=[1 2]} localID=0a0a0a0a0a0a0a0a remoteID=ffffffffffffffff [1 bytes]".
Proof. reflexivity. Qed.

(** One line per packet; a direction that is neither is a warning. *)
Lemma Packet_Log_line p direction (tl : TestLogger) :
  exists line, Lines (Packet_Log p direction tl) = Lines tl ++ [line].
Proof. unfold Packet_Log. repeat case_match; eexists; reflexivity. Qed.

(** ** The handler of the command *)

Definition none : Z := 0.
Definition red : Z := 31.
Definition green : Z := 32.
Definition yellow : Z := 33.
Definition blue : Z := 34.
Definition gray : Z := 37.

(** Indexed by the level of the entry: debug, info, warn, error, fatal. *)
Definition Colors : list Z := [gray; blue; yellow; red; red].
Definition Strings : list string := ["DEBUG"; "INFO"; "WARN"; "ERROR"; "FATAL"].

Record Entry : Type := mkEntry { Level : Z; Message : string; Fields : list (string * string) }.

(** What was written to the handler's [Writer]. *)
Record Handler : Type := mkHandler { Written : string }.

Definition NewHandler : Handler := mkHandler "".

Definition ESC : string := String (ascii_of_nat 27) "".
Definition newline : string := String (ascii_of_nat 10) "".

(** An escape sequence for a colour, the text, and the reset *)
Definition coloured (color : Z) (s : string) : string :=
  ESC +:+ "[" +:+ Itoa color +:+ "m" +:+ s +:+ ESC +:+ "[0m".

Definition fieldText (color : Z) (f : string * string) : string := " " +:+ coloured color f.1 +:+ "=" +:+ f.2.

Definition concat_strings (l : list string) : string := foldr (fun s t => s +:+ t) "" l.

(** The text of an entry, up to the end of the line. *)
Definition entryText (color : Z) (level : string) (ts : Z) (message : string) (fields : list (string * string)) : string :=
  coloured color (padLeft 6 level) +:+ "[" +:+ padLeft 10 (Duration_String ts) +:+ "] " +:+ padRight 25 message +:+
  concat_strings (map (fieldText color) fields).

(** [start] is the time the program started. *)
Definition HandleLog (start now : Z) (e : Entry) (h : Handler) : outcome Handler :=
  color ← go_index Colors (Level e);
  level ← go_index Strings (Level e);
  let ts := Sender.time_Sub now start in
  Ok (mkHandler (Written h +:+ entryText color level ts (Message e) (Fields e) +:+ newline)).

(** ** What the handler writes *)

Definition LF : ascii := ascii_of_nat 10.

Lemma no_LF_spaces n : no_char LF (spaces n) = true.
Proof. induction n as [|n IH]; [done|]. exact IH. Qed.

Lemma no_LF_Itoa n : no_char LF (Itoa n) = true.
Proof. by apply Itoa_no_char. Qed.

Lemma no_LF_digit d : 0 <= d < 10 -> no_char LF (String (digit_char d) "") = true.
Proof. intros Hd. cbn. destruct (digit_char_digit d Hd) as [H _]. by destruct (digit_char d) as [[] [] [] [] [] [] [] []]. Qed.

Create HintDb loglines.
#[local] Hint Rewrite no_char_app no_LF_spaces no_LF_Itoa andb_true_r : loglines.

Lemma no_LF_fmtFrac prec v print tail :
  no_char LF tail = true -> no_char LF (fmtFrac prec v print tail).1 = true.
Proof.
  revert v print tail. induction prec as [|prec IH]; intros v print tail Ht; cbn [fmtFrac]; [by destruct print|].
  apply IH. destruct (_ || _); [|done].
  change (String ?c tail) with ((String c "") +:+ tail). rewrite no_char_app, Ht, no_LF_digit; [done|].
  apply Z.mod_pos_bound. lia.
Qed.

Lemma no_LF_Duration d : no_char LF (Duration_String d) = true.
Proof.
  unfold Duration_String. set (body := if _ <? 1000000000 then _ else _).
  assert (no_char LF body = true) as Hb; [|by destruct (d <? 0)].
  unfold body. clear body. destruct (Z.abs d <? 1000000000).
  - destruct (Z.abs d =? 0); [done|].
    destruct (Z.abs d <? 1000); [|destruct (Z.abs d <? 1000000)];
      match goal with |- context [fmtFrac ?p ?u false ?unit] =>
        pose proof (no_LF_fmtFrac p u false unit eq_refl); destruct (fmtFrac p u false unit) as [tail u'] end;
      by autorewrite with loglines.
  - pose proof (no_LF_fmtFrac 9 (Z.abs d) false "s" eq_refl). destruct (fmtFrac 9 (Z.abs d) false "s") as [tail u].
    destruct (0 <? u / 60); [destruct (0 <? u / 60 / 60)|]; by autorewrite with loglines.
Qed.

Lemma no_LF_fields color fs :
  Forall (fun f => no_char LF f.1 = true /\ no_char LF f.2 = true) fs ->
  no_char LF (concat_strings (map (fieldText color) fs)) = true.
Proof.
  induction 1 as [|f fs [H1 H2] _ IH]; [done|].
  change (no_char LF (fieldText color f +:+ concat_strings (map (fieldText color) fs)) = true).
  rewrite no_char_app, IH. unfold fieldText, coloured. autorewrite with loglines. by rewrite H1, H2.
Qed.

Lemma no_LF_entryText color level ts message fields :
  no_char LF level = true -> no_char LF message = true ->
  Forall (fun f => no_char LF f.1 = true /\ no_char LF f.2 = true) fields ->
  no_char LF (entryText color level ts message fields) = true.
Proof.
  intros Hl Hm Hf. unfold entryText, coloured, padLeft, padRight.
  autorewrite with loglines. by rewrite Hl, Hm, no_LF_Duration, no_LF_fields.
Qed.

(** An entry of one of the five levels is written as one line, after what was
    written before; the handler panics on every other level. *)
Theorem HandleLog_line start now e h :
  no_char LF (Message e) = true -> Forall (fun f => no_char LF f.1 = true /\ no_char LF f.2 = true) (Fields e) ->
  if (0 <=? Level e) && (Level e <? 5)
  then exists line, HandleLog start now e h = Ok (mkHandler (Written h +:+ line +:+ newline)) /\ no_char LF line = true
  else HandleLog start now e h = Panic.
Proof.
  intros Hm Hf. unfold HandleLog.
  destruct (Z.leb_spec 0 (Level e)) as [H0|H0]; cbn [andb];
    [destruct (Z.ltb_spec (Level e) 5) as [H5|H5]|];
    [|rewrite (proj2 (go_index_Panic Colors (Level e))); [reflexivity|unfold Colors, len; cbn; lia]..].
  assert (exists color level, go_index Colors (Level e) = Ok color /\ go_index Strings (Level e) = Ok level /\
    no_char LF level = true) as (color & level & -> & -> & Hl).
  { assert (Level e = 0 \/ Level e = 1 \/ Level e = 2 \/ Level e = 3 \/ Level e = 4) as Hc by lia.
    destruct Hc as [->|[->|[->|[->| ->]]]]; eexists _, _; repeat split. }
  eexists. split; [reflexivity|]. by apply no_LF_entryText.
Qed.
