(* ===== verification/PingReport.v ===== *)
(** * extras/ping: what the pinger reports

    The callbacks, the statistics and the output of ping.go.  A callback is a
    function of the caller: the model records that it is called and with what.
    Text goes to the standard output ([Printed]) or to the standard logger
    ([Warned]). *)

From S2P Require Import Prelude Sender GoFloat GoStrings GoFmt Ping.

(** ** Numbers with one decimal *)

(** [10 * m * 2^e] rounded to an integer, to the even one of two nearest. *)
Definition tenths (m : Z) (e : Z) : Z :=
  if 0 <=? e then 10 * m * 2 ^ e
  else
    let d := 2 ^ (- e) in
    let q := 10 * m / d in
    let r := 10 * m mod d in
    if 2 * r <? d then q else if d <? 2 * r then q + 1 else if Z.even q then q else q + 1.

(** The verb [%.1f]. *)
Definition fmtFixed1 (f : float64) : string :=
  match f with
  | S754_nan => "NaN"
  | S754_infinity s => if s then "-Inf" else "+Inf"
  | S754_zero s => (if s then "-" else "") +:+ "0.0"
  | S754_finite s m e =>
      let t := tenths (Z.pos m) e in
      (if s then "-" else "") +:+ Itoa (t / 10) +:+ "." +:+ Itoa (t mod 10)
  end.

Lemma tenths_nearest m e : e < 0 -> 2 * Z.abs (tenths m e * 2 ^ (- e) - 10 * m) <= 2 ^ (- e).
Proof.
  intros He. unfold tenths. destruct (Z.leb_spec 0 e); [lia|].
  assert (0 < 2 ^ (- e)) as Hd by (apply Z.pow_pos_nonneg; lia). set (d := 2 ^ (- e)) in *. clearbody d.
  pose proof (Z.div_mod (10 * m) d ltac:(lia)) as Hq. pose proof (Z.mod_pos_bound (10 * m) d Hd) as Hr.
  set (q := 10 * m / d) in *. set (r := 10 * m mod d) in *. clearbody q r.
  destruct (Z.ltb_spec (2 * r) d); [nia|]. destruct (Z.ltb_spec d (2 * r)); [nia|]. destruct (Z.even q); nia.
Qed.

(** ** Statistics *)

Record Statistics : Type := mkStatistics {
  stat_PacketsRecv : Z;
  stat_PacketsSent : Z;
  stat_PacketsRecvDuplicates : Z;
  stat_PacketLoss : float64;
  stat_Addr : string;
  stat_Replies : list PingReply;
  stat_MinRtt : Z;
  stat_MaxRtt : Z;
  stat_AvgRtt : Z;
  stat_StdDevRtt : Z
}.

(** [IPAddr] is [p.ipaddr], which nothing sets. *)
Definition Pinger_Statistics (p : Pinger) : Statistics :=
  let s := st p in
  mkStatistics (PacketsRecv s) (PacketsSent s) (PacketsRecvDuplicates s) (Statistics_PacketLoss s) (addr p)
    (replies s) (minRtt s) (maxRtt s) (avgRtt s) (stdDevRtt s).

(** ** The callbacks *)

(** Which callbacks are not nil, and the flag [Silent]. *)
Record Handlers : Type := mkHandlers {
  OnSetup : bool;
  OnSend : bool;
  OnRecv : bool;
  OnFinish : bool;
  OnDuplicateRecv : bool;
  Silent : bool
}.

Inductive report : Type :=
  | Setup
  | Sent (pkt : PingPacket)
  | Received (pkt : PingPacket)
  | Duplicate (pkt : PingPacket)
  | Finished (s : Statistics)
  | Printed (line : string)
  | Warned (line : string)
  | ConnClosed.

Definition call (set : bool) (r : report) : list report := if set then [r] else [].

Definition finish (h : Handlers) (p : Pinger) : list report := call (OnFinish h) (Finished (Pinger_Statistics p)).

Definition replyLine (pkt : PingPacket) : string :=
  "reply from " +:+ pkt_SrcIP pkt +:+ ": icmp_seq=" +:+ Itoa (pkt_Seq pkt) +:+ " ttl=" +:+ Itoa (pkt_Ttl pkt) +:+
  " time=" +:+ fmtFixed1 (f_mul (Duration_Seconds (pkt_Rtt pkt)) (float64_of_int 1000)) +:+ " ms".

(** The lines [PrintStats] writes: none when nothing was sent. *)
Definition PrintStats (p : Pinger) : list report :=
  let s := st p in
  if PacketsSent s =? 0 then []
  else
    [Printed ("--- " +:+ Target p +:+ " ping statistics ---");
     Printed (Itoa (PacketsSent s) +:+ " packets transmitted, " +:+ Itoa (PacketsRecv s) +:+ " received, " +:+
              Itoa (PacketLossPercent s) +:+ "% packet loss");
     Printed ("rtt min/avg/max/stdev = " +:+ Duration_String (minRtt s) +:+ ", " +:+ Duration_String (avgRtt s) +:+ ", " +:+
              Duration_String (maxRtt s) +:+ ", " +:+ Duration_String (stdDevRtt s))].

Section Reports.
Context `{PacketLib}.
Variable localAddr : string.
Variable h : Handlers.

(** What [parseEchoReply] logs for a layer it refuses. *)
Definition layerWarning (p : Pinger) (d : decodedLayers) (l : layerType) : string :=
  match l with
  | LayerTypeIPv4 =>
      if negb (String.eqb (ip_DstIP d) localAddr) then "warn: icmp response with wrong dst"
      else "warn: icmp response with wrong src: " +:+ ip_SrcIP d +:+ ", expected: " +:+ Target p
  | _ => "warn: icmp response with wrong ID"
  end.

Definition parseWarnings (p : Pinger) (data : list byte) : list report :=
  match DecodeLayers data with
  | Ok d =>
      match List.find (fun l => negb (checkLayer p localAddr d l)) (layers d) with
      | Some l => [Warned (layerWarning p d l)]
      | None => []
      end
  | _ => []
  end.

(** What [processPacket] reports of an identified packet. *)
Definition packetReports (p : Pinger) (u : list byte) (pkt : PingPacket) : list report :=
  call (negb (Silent h)) (Printed (replyLine pkt)) ++
  (if negb (inflight p u pkt) then call (OnDuplicateRecv h) (Duplicate pkt) else call (OnRecv h) (Received pkt)).

Definition processReports (p : Pinger) (now : Z) (recv : list byte) : list report :=
  parseWarnings p recv ++
  match identifyPacket p localAddr now recv with
  | Ok (Some (u, pkt)) => packetReports p u pkt
  | _ => []
  end.

(** Of the steps of the two goroutines only the processing of a packet
    reports anything. *)
Definition stepReports (s : pingSys) (ev : pingEvent) : list report :=
  match ev, loop s, recvCh s with
  | LoopRecv now, LSelect, r :: _ => processReports (pinger s) now r
  | _, _, _ => []
  end.

Fixpoint loopReports (s : pingSys) (evs : list pingEvent) : list report :=
  match evs with
  | [] => []
  | ev :: evs' =>
      match pingStep localAddr s ev with
      | Some s' => stepReports s ev ++ loopReports s' evs'
      | None => []
      end
  end.

(** The whole of [run]: the deferred calls are made when both goroutines have
    returned, [finish] before the connection is closed. *)
Definition runReports (p : Pinger) (evs : list pingEvent) : list report :=
  let deferred p := finish h p ++ call (negb (sharedConnection p)) ConnClosed in
  match run_start p with
  | None => deferred p
  | Some s0 =>
      call (OnSetup h) Setup ++ loopReports s0 evs ++
      match pingRun localAddr s0 evs with
      | Some s => match run_result s with Some _ => deferred (pinger s) | None => [] end
      | None => []
      end
  end.

End Reports.

(** ** The callbacks follow the counters *)

Definition receivedOf (l : list report) : list PingPacket :=
  omap (fun r => match r with Received pkt => Some pkt | _ => None end) l.
Definition duplicatesOf (l : list report) : list PingPacket :=
  omap (fun r => match r with Duplicate pkt => Some pkt | _ => None end) l.
Definition replyOf (pkt : PingPacket) : PingReply := mkPingReply (pkt_Seq pkt + 1) (pkt_Ttl pkt) (pkt_Rtt pkt).

Lemma receivedOf_app l k : receivedOf (l ++ k) = receivedOf l ++ receivedOf k.
Proof. apply omap_app. Qed.
Lemma duplicatesOf_app l k : duplicatesOf (l ++ k) = duplicatesOf l ++ duplicatesOf k.
Proof. apply omap_app. Qed.

Section Callbacks.
Context `{PacketLaws}.
Variable localAddr : string.
Variable h : Handlers.
Hypothesis Hrecv : OnRecv h = true.
Hypothesis Hdup : OnDuplicateRecv h = true.

(** The packet a step identifies. *)
Definition stepPacket (s : pingSys) (ev : pingEvent) : option (list byte * PingPacket) :=
  match ev, loop s, recvCh s with
  | LoopRecv now, LSelect, r :: _ =>
      match identifyPacket (pinger s) localAddr now r with Ok x => x | _ => None end
  | _, _, _ => None
  end.

Definition bufferSize : Z := 512.

(** Every packet on its way to [runLoop] fills the buffer it was read into. *)
Definition buffers (s : pingSys) : Prop :=
  Forall (fun b => len b = bufferSize) (recvCh s) /\ match rcv s with RPush b => len b = bufferSize | _ => True end.

(** What a step does to the counters. *)
Definition stepCounts (s : pingSys) (ev : pingEvent) (s' : pingSys) : Prop :=
  match stepPacket s ev with
  | Some (u, pkt) => pinger s' = countPacket (pinger s) u pkt
  | None =>
      pinger s' = pinger s \/
      exists u, trackerUUIDs (pinger s) = [u] /\ PacketsSent (st (pinger s)) < Count (pinger s) /\
        st (pinger s') = set_sent (s64 (PacketsSent (st (pinger s)) + 1))
          (setAwaiting u (awaiting u (st (pinger s)) ∪ {[PacketsSent (st (pinger s))]}) (st (pinger s)))
  end.

Lemma pinger_afterCase s : pinger (afterCase s) = pinger s.
Proof. unfold afterCase. now destruct (_ && _). Qed.
Lemma pinger_takeDone s : pinger (takeDone s) = pinger s.
Proof. unfold takeDone. destruct (loop s); [done..| |done|done]. now destruct (doneClosed s). Qed.
Lemma pinger_Stop s : pinger (Stop s) = pinger s.
Proof. unfold Stop. destruct (doneClosed s); [done|apply pinger_takeDone]. Qed.

Lemma pingStep_counts u s ev s' :
  sys_inv u s -> pingStep localAddr s ev = Some s' -> stepCounts s ev s'.
Proof.
  intros (Hi & Hpos & _) E. unfold pingStep in E. destruct (panicked s); [done|]. unfold stepCounts, stepPacket.
  destruct ev as [| |now|now written| | | | | | |].
  3: { destruct (loop s); try done. destruct (recvCh s) as [|r rest]; [done|]. unfold processPacket in E.
       destruct (identifyPacket (pinger s) localAddr now r) as [[[v pkt]|]| |]; cbn in E; injection E as <-;
         rewrite ?pinger_afterCase; auto. }
  3: { destruct (loop s); try done. destruct (negb (ticking s)); [done|].
       destruct (Z.ltb_spec 0 (Count (pinger s))); [|lia].
       destruct (Z.leb_spec (Count (pinger s)) (PacketsSent (st (pinger s)))); [injection E as <-; auto|]. cbn [andb] in E.
       unfold getCurrentTrackerUUID in E. rewrite (pv_trackers _ _ Hi) in E. cbn in E.
       destruct (negb written); injection E as <-; [auto|]. rewrite pinger_afterCase. right.
       exists u. split; [apply (pv_trackers _ _ Hi)|by split]. }
  all: destruct (loop s), (rcv s); try done; repeat case_match; simplify_eq;
    rewrite ?pinger_Stop; cbn [pinger set_rcv]; rewrite ?pinger_takeDone; auto.
Qed.

Lemma buffers_takeDone s : recvCh (takeDone s) = recvCh s /\ rcv (takeDone s) = rcv s.
Proof. unfold takeDone. destruct (loop s); [done..| |done|done]. now destruct (doneClosed s). Qed.

Lemma buffers_same s s' : recvCh s' = recvCh s -> (rcv s' = rcv s \/ forall b, rcv s' <> RPush b) -> buffers s -> buffers s'.
Proof.
  intros Hc Hr [Hb Hp]. unfold buffers. rewrite Hc. split; [done|].
  destruct Hr as [->|Hr]; [done|]. destruct (rcv s'); try done. by destruct (Hr pkt).
Qed.

Lemma buffers_afterCase s : buffers s -> buffers (afterCase s).
Proof. intros Hb. unfold afterCase. destruct (_ && _); exact Hb. Qed.

Lemma buffers_Stop s : buffers s -> buffers (Stop s).
Proof.
  unfold Stop. destruct (doneClosed s); [done|]. destruct (buffers_takeDone s) as [H1 H2].
  apply buffers_same; [done|left; done].
Qed.

Lemma pingStep_buffers s ev s' : buffers s -> pingStep localAddr s ev = Some s' -> buffers s'.
Proof.
  intros Hb E. unfold pingStep in E. destruct (panicked s); [done|].
  destruct (buffers_takeDone s) as [Ht1 Ht2]. pose proof Hb as [Hb1 Hb2].
  destruct ev as [| |now|now written| | | | |r| |].
  3: { destruct (loop s); try done. destruct (recvCh s) as [|r rest]; [done|]. apply Forall_cons in Hb1 as [_ Hb1].
       destruct (processPacket _ _ _ _); injection E as <-; try apply buffers_afterCase; by split. }
  3: { destruct (loop s); try done. destruct (negb (ticking s)); [done|].
       destruct (_ && _); [injection E as <-; by split|]. destruct (getCurrentTrackerUUID _); [|injection E as <-; by split..].
       destruct (negb written); injection E as <-; try apply buffers_afterCase; by split. }
  7: { destruct (rcv s); try done; destruct (loop s); try done; injection E as <-; split; try done;
         (destruct r; cbn; [|done..]); unfold len; by rewrite length_copy_zeroed. }
  7: { destruct (loop s), (rcv s); try done; (destruct (_ <? _); [|done]); injection E as <-;
         (split; [apply Forall_app; split; [done|by constructor]|done]). }
  all: destruct (loop s), (rcv s); try done; repeat case_match; simplify_eq; try apply buffers_Stop;
    (apply (buffers_same s); [cbn; by rewrite ?Ht1|cbn; auto; by right|done]).
Qed.
(** The packets a step hands to the two callbacks. *)
Lemma stepReports_packets s ev :
  receivedOf (stepReports localAddr h s ev) =
    match stepPacket s ev with Some (u, pkt) => if inflight (pinger s) u pkt then [pkt] else [] | None => [] end /\
  duplicatesOf (stepReports localAddr h s ev) =
    match stepPacket s ev with Some (u, pkt) => if inflight (pinger s) u pkt then [] else [pkt] | None => [] end.
Proof.
  unfold stepReports, stepPacket. destruct ev; try done. destruct (loop s); try done.
  destruct (recvCh s) as [|r rest]; [done|]. unfold processReports.
  rewrite receivedOf_app, duplicatesOf_app.
  assert (receivedOf (parseWarnings localAddr (pinger s) r) = [] /\ duplicatesOf (parseWarnings localAddr (pinger s) r) = [])
    as [-> ->] by (unfold parseWarnings; by repeat case_match).
  destruct (identifyPacket (pinger s) localAddr now r) as [[[u pkt]|]| |]; [|done..].
  unfold packetReports. rewrite Hrecv, Hdup. by destruct (inflight (pinger s) u pkt), (Silent h).
Qed.

(** The calls made so far agree with the state. *)
Record told (u : list byte) (s : pingSys) (calls : list report) : Prop := {
  td_sys : sys_inv u s;
  td_record : RecordReplies (pinger s) = true;
  td_buffers : buffers s;
  td_replies : replies (st (pinger s)) = map replyOf (receivedOf calls);
  td_once : NoDup (map pkt_Seq (receivedOf calls));
  td_known : Forall (fun pkt => pkt_Seq pkt ∉ awaiting u (st (pinger s)) /\ 0 <= pkt_Seq pkt < PacketsSent (st (pinger s)))
               (receivedOf calls);
  td_answered : forall i, 0 <= i < PacketsSent (st (pinger s)) -> i ∉ awaiting u (st (pinger s)) -> i ∈ map pkt_Seq (receivedOf calls);
  td_duplicates : PacketsRecvDuplicates (st (pinger s)) = s64 (len (duplicatesOf calls));
  td_bytes : Forall (fun pkt => pkt_Nbytes pkt = bufferSize) (receivedOf calls ++ duplicatesOf calls)
}.

Lemma stepPacket_Some u s ev v pkt :
  sys_inv u s -> buffers s -> stepPacket s ev = Some (v, pkt) -> v = u /\ pkt_Nbytes pkt = bufferSize.
Proof.
  intros [Hi _] [Hb _]. unfold stepPacket. destruct ev; try done. destruct (loop s); try done.
  destruct (recvCh s) as [|r rest]; [done|]. apply Forall_cons in Hb as [Hb _].
  destruct (identifyPacket (pinger s) localAddr now r) as [x| |] eqn:E; [|done..]. intros ->.
  apply identifyPacket_Ok in E as (Hv & _ & Hn & _). rewrite (pv_trackers _ _ Hi) in Hv.
  apply list_elem_of_singleton in Hv. by rewrite Hn.
Qed.

Lemma awaiting_set u W V s s' :
  awaitingSequences s = [(u, W)] -> awaitingSequences s' = awaitingSequences (setAwaiting u V s) -> awaiting u s' = V.
Proof. intros Hs Hs'. apply awaiting_one. rewrite Hs'. by apply (setAwaiting_one u W). Qed.

Lemma told_step u s ev s' calls :
  told u s calls -> pingStep localAddr s ev = Some s' -> told u s' (calls ++ stepReports localAddr h s ev).
Proof.
  intros [Hsys Hrr Hbuf Hrep Honce Hkn Hans Hdups Hby] E. pose proof Hsys as [Hi _].
  destruct (pingStep_inv localAddr _ _ _ _ Hsys E) as (Hsys' & _ & Hrr'). pose proof (pingStep_buffers _ _ _ Hbuf E) as Hbuf'.
  pose proof (pingStep_counts _ _ _ _ Hsys E) as Hc. unfold stepCounts in Hc.
  destruct (stepReports_packets s ev) as [Hr Hd].
  pose proof Hi as [_ (W & Ha & HW & _ & HWsize) _ _ _].
  destruct (stepPacket s ev) as [[v pkt]|] eqn:Ep.
  - destruct (stepPacket_Some _ _ _ _ _ Hsys Hbuf Ep) as [-> Hn]. unfold countPacket in Hc.
    destruct (inflight (pinger s) u pkt) eqn:Ei; cbn [negb] in Hc.
    + apply bool_decide_eq_true in Ei. rewrite (awaiting_one u W) in Hc, Ei, Hkn, Hans by done.
      assert (awaiting u (st (pinger s')) = W ∖ {[pkt_Seq pkt]}) as Haw
        by (rewrite Hc; by apply (awaiting_set u W _ (st (pinger s)))).
      constructor; rewrite ?receivedOf_app, ?duplicatesOf_app, ?Hr, ?Hd, ?app_nil_r, ?map_app, ?Haw; try done.
      * congruence.
      * rewrite Hc. cbn. by rewrite Hrr, Hrep.
      * apply NoDup_app. split; [done|]. split; [|apply NoDup_singleton].
        intros x Hx ->%list_elem_of_singleton. apply list_elem_of_fmap in Hx as (q & Heq & Hq).
        rewrite Forall_forall in Hkn. apply (proj1 (Hkn q Hq)). by rewrite <- Heq.
      * rewrite Hc. cbn. apply Forall_app. split; [|constructor; [|constructor]].
        -- eapply Forall_impl; [exact Hkn|]. intros q [Hq1 Hq2]. split; [set_solver|done].
        -- split; [set_solver|by apply HW].
      * rewrite Hc. cbn. intros i Hi1 Hi2. apply elem_of_app. destruct (decide (i = pkt_Seq pkt)) as [->|]; [right; set_solver|].
        left. apply Hans; [done|set_solver].
      * by rewrite Hc.
      * rewrite <- app_assoc. apply Forall_app in Hby as [H1 H2]. apply Forall_app; split; [done|]. by constructor.
    + constructor; rewrite ?receivedOf_app, ?duplicatesOf_app, ?Hr, ?Hd, ?app_nil_r; try done; try (rewrite Hc; done).
      * rewrite Hc. cbn. rewrite Hdups, s64_add_l. by rewrite len_app.
      * rewrite app_assoc. apply Forall_app. split; [done|]. by constructor.
  - destruct Hc as [Hc|(v & Hv & Hlt & Hc)];
      (constructor; rewrite ?receivedOf_app, ?duplicatesOf_app, ?Hr, ?Hd, ?app_nil_r; try done; try congruence;
      try (rewrite Hc; done)).
    all: rewrite (pv_trackers _ _ Hi) in Hv; injection Hv as <-; rewrite (awaiting_one u W _ Ha) in Hc, Hkn, Hans;
      assert (awaiting u (st (pinger s')) = W ∪ {[PacketsSent (st (pinger s))]}) as ->
        by (rewrite Hc; by apply (awaiting_set u W _ (st (pinger s))));
      pose proof (pv_sent _ _ Hi); pose proof (pv_recv _ _ Hi); rewrite Hc; cbn; rewrite s64_small by lia.
    + eapply Forall_impl; [exact Hkn|]. intros q [Hq1 Hq2]. split; [set_solver by lia|lia].
    + intros i Hi1 Hi2. apply Hans; [|set_solver]. assert (i <> PacketsSent (st (pinger s))) by set_solver. lia.
Qed.

Lemma told_run u evs s calls s' :
  told u s calls -> pingRun localAddr s evs = Some s' -> told u s' (calls ++ loopReports localAddr h s evs).
Proof.
  revert s calls. induction evs as [|ev evs IH]; intros s calls Ht; cbn [pingRun loopReports].
  - intros [= <-]. by rewrite app_nil_r.
  - destruct (pingStep localAddr s ev) as [s1|] eqn:E; [|done]. cbn [mbind option_bind]. intros Hr.
    rewrite app_assoc. apply IH; [by apply told_step|done].
Qed.

Lemma told_start address rnd u n s :
  n < 2 ^ 63 -> run_start (set_Count n (New address (Ok rnd) u)) = Some s -> told u s [].
Proof.
  intros Hn Hs. destruct (start_inv _ _ _ _ _ Hn Hs) as (Hi & _ & Hrr).
  unfold run_start in Hs. destruct (_ <=? 0); [done|]. injection Hs as <-.
  constructor; try done; try (by constructor). cbn. lia.
Qed.

(** The packets that a run processes and that carry the tracker of the pinger,
    in order, each with the number of requests sent by then. *)
Fixpoint identified (s : pingSys) (evs : list pingEvent) : list (Z * PingPacket) :=
  match evs with
  | [] => []
  | ev :: evs' =>
      match pingStep localAddr s ev with
      | Some s' =>
          match stepPacket s ev with Some (_, pkt) => [(PacketsSent (st (pinger s)), pkt)] | None => [] end ++ identified s' evs'
      | None => []
      end
  end.

(** The first answer to each request that was sent, and all other packets;
    [seen] are the sequence numbers answered before. *)
Fixpoint firstAnswers (seen : list Z) (l : list (Z * PingPacket)) : list PingPacket * list PingPacket :=
  match l with
  | [] => ([], [])
  | (sent, pkt) :: l' =>
      if (0 <=? pkt_Seq pkt) && (pkt_Seq pkt <? sent) && negb (bool_decide (pkt_Seq pkt ∈ seen))
      then let '(first, others) := firstAnswers (seen ++ [pkt_Seq pkt]) l' in (pkt :: first, others)
      else let '(first, others) := firstAnswers seen l' in (first, pkt :: others)
  end.

(** A packet is in flight when its number was sent and is not answered. *)
Lemma told_inflight u s calls pkt :
  told u s calls ->
  inflight (pinger s) u pkt =
    (0 <=? pkt_Seq pkt) && (pkt_Seq pkt <? PacketsSent (st (pinger s))) &&
    negb (bool_decide (pkt_Seq pkt ∈ map pkt_Seq (receivedOf calls))).
Proof.
  intros [[Hi _] _ _ _ _ Hkn Hans _ _]. destruct Hi as [_ (W & Ha & HW & _ & _) _ _ _]. unfold inflight.
  rewrite (awaiting_one u W _ Ha) in *. apply eq_true_iff_eq.
  rewrite !andb_true_iff, negb_true_iff, bool_decide_eq_true, bool_decide_eq_false, Z.leb_le, Z.ltb_lt. split.
  - intros Hin. split; [by apply HW|]. intros (q & Hq & Hin')%list_elem_of_fmap. rewrite Forall_forall in Hkn.
    apply (proj1 (Hkn q Hin')). by rewrite <- Hq.
  - intros [Hrange Hn]. destruct (decide (pkt_Seq pkt ∈ W)) as [|Hw]; [done|]. by destruct Hn; apply Hans.
Qed.

Lemma told_answers u evs s calls s' :
  told u s calls -> pingRun localAddr s evs = Some s' ->
  (receivedOf (loopReports localAddr h s evs), duplicatesOf (loopReports localAddr h s evs)) =
    firstAnswers (map pkt_Seq (receivedOf calls)) (identified s evs).
Proof.
  revert s calls. induction evs as [|ev evs IH]; intros s calls Ht; cbn [pingRun loopReports identified]; [done|].
  destruct (pingStep localAddr s ev) as [s1|] eqn:E; [|done]. cbn [mbind option_bind]. intros Hrun.
  specialize (IH s1 _ (told_step _ _ _ _ _ Ht E) Hrun).
  destruct (stepReports_packets s ev) as [Hr Hd]. rewrite !receivedOf_app, !duplicatesOf_app, ?map_app in *.
  rewrite Hr, Hd in *.
  destruct (stepPacket s ev) as [[v pkt]|] eqn:Ep; [|cbn [app map] in *; by rewrite app_nil_r in IH].
  destruct Ht as [Hsys Hrr Hbuf Hrep Honce Hkn Hans Hdups Hby] eqn:Et.
  destruct (stepPacket_Some _ _ _ _ _ Hsys Hbuf Ep) as [-> _]. clear Et.
  cbn [app firstAnswers]. rewrite <- (told_inflight u s calls pkt) by by constructor.
  destruct (inflight (pinger s) u pkt); cbn [app map] in *; rewrite ?app_nil_r in IH; by rewrite <- IH.
Qed.

End Callbacks.

Lemma loopReports_not_Sent `{PacketLib} localAddr h evs s pkt : Sent pkt ∉ loopReports localAddr h s evs.
Proof.
  revert s. induction evs as [|ev evs IH]; intros s; cbn [loopReports]; [by intros ?%not_elem_of_nil|].
  destruct (pingStep localAddr s ev) as [s'|]; [|by intros ?%not_elem_of_nil].
  rewrite elem_of_app. intros [Hin|Hin]; [|by apply (IH s')]. revert Hin.
  unfold stepReports, processReports, packetReports, parseWarnings, call.
  repeat case_match; cbn; set_solver.
Qed.

(** [OnSend] is never called. *)
Lemma OnSend_never_called `{PacketLib} localAddr h p evs pkt : Sent pkt ∉ runReports localAddr h p evs.
Proof.
  unfold runReports. intros Hin. assert (forall q, Sent pkt ∉ finish h q ++ call (negb (sharedConnection q)) ConnClosed) as Hf
    by (intros q; unfold finish, call; repeat case_match; set_solver).
  destruct (run_start p) as [s0|]; [|by apply (Hf p)].
  apply elem_of_app in Hin as [Hin|[Hin|Hin]%elem_of_app].
  - unfold call in Hin. destruct (OnSetup h); set_solver.
  - by apply loopReports_not_Sent in Hin.
  - repeat case_match; [by apply Hf in Hin|set_solver..].
Qed.

(** A run that ends hands its statistics to [OnFinish], and afterwards closes
    the connection unless it is shared. *)
Lemma run_finishes `{PacketLib} localAddr h p evs s0 s r :
  run_start p = Some s0 -> pingRun localAddr s0 evs = Some s -> run_result s = Some r -> OnFinish h = true ->
  exists before, runReports localAddr h p evs =
    before ++ Finished (Pinger_Statistics (pinger s)) :: (if sharedConnection (pinger s) then [] else [ConnClosed]).
Proof.
  intros H0 Hr Hres Hf. unfold runReports. rewrite H0, Hr, Hres. unfold finish, call. rewrite Hf.
  exists ((if OnSetup h then [Setup] else []) ++ loopReports localAddr h s0 evs).
  rewrite <- app_assoc. by destruct (sharedConnection (pinger s)).
Qed.

(** ** A run of one packet, answered twice *)

Definition allHandlers : Handlers := mkHandlers true true true true true false.

Example sample_reports :
  loopReports "10.8.0.2" allHandlers (sampleStart 2) (sampleEvents ++ [LoopRecv (2 * Second)]) =
    let pkt rtt := mkPingPacket rtt "10.8.0.1" "10.8.0.1" 512 0 64 4660 (Some (timeToBytes Second ++ sampleUUID)) in
    [Printed "reply from 10.8.0.1: icmp_seq=0 ttl=64 time=20.0 ms"; Received (pkt (20 * Millisecond));
     Printed "reply from 10.8.0.1: icmp_seq=0 ttl=64 time=1000.0 ms"; Duplicate (pkt Second)].
Proof. vm_compute. reflexivity. Qed.

Example sample_statistics :
  match pingRun "10.8.0.2" (sampleStart 2) (sampleEvents ++ [LoopRecv (2 * Second)]) with
  | Some s => PrintStats (pinger s)
  | None => []
  end =
    [Printed "--- 10.8.0.1 ping statistics ---";
     Printed "1 packets transmitted, 1 received, 0% packet loss";
     Printed "rtt min/avg/max/stdev = 20ms, 20ms, 20ms, 0s"].
Proof. vm_compute. reflexivity. Qed.

