(* ===== verification/VpnTest.v ===== *)
(** * internal/vpntest: packet sequences

    The test support of [vpntest.go] and [packetio.go]: the notation for
    packets, the writer, the reader and its log, the lossy relay and the echo
    server.  A channel is the list of packets it carries; a loop that waits for
    more than there is blocks, which is [None].  A failed test (a [panic]) is
    [Panic]. *)

From S2P Require Import Prelude Packet GoStrings GoFmt Session Sender Receiver.

(** ** The notation *)

Record TestPacket : Type := mkTestPacket { tp_Opcode : Z; tp_ID : Z; tp_ACKs : list Z; tp_IAT : Z }.

(** Values that are not numbers are skipped. *)
Definition parseACKs (s : string) : outcome (list Z) :=
  match SplitString s "ack:" with
  | [_; h1] => Ok (omap (fun v => match Atoi v with Ok n => Some n | _ => None end) (Split "," h1))
  | _ => Err ErrExternal
  end.

Definition NewTestPacketFromString (s : string) : outcome TestPacket :=
  let parts := SplitString s " +" in
  part0 ← go_index parts 0;
  let head := Split " " part0 in
  if (len head <? 2) || (3 <? len head) then Err ErrExternal
  else
    head0 ← go_index head 0;
    id ← Atoi (Trim head0 "[]");
    head1 ← go_index head 1;
    opcode ← NewOpcodeFromString head1;
    acks ← (if len head =? 3 then head2 ← go_index head 2; parseACKs (Trim head2 "()") else Ok []);
    iatStr ← go_index parts 1;
    iat ← ParseDuration iatStr;
    Ok (mkTestPacket opcode id acks iat).

(** The longest run of digits, and the rest. *)
Fixpoint spanDigits (s : string) : string * string :=
  match s with
  | String c s' => if is_digit c then let '(d, r) := spanDigits s' in (String c d, r) else ("", s)
  | EmptyString => ("", "")
  end.

(** Everything up to the end of the line. *)
Fixpoint takeLine (s : string) : string :=
  match s with
  | String c s' => if Ascii.eqb c (ascii_of_nat 10) then "" else String c (takeLine s')
  | EmptyString => ""
  end.

Definition dropPrefix (p s : string) : option string :=
  if String.prefix p s then Some (String.substring (String.length p) (String.length s - String.length p) s) else None.

(** The match of the regular expression [^\[(\d+)\.\.(\d+)\] (.+)]. *)
Definition rangeMatch (s : string) : option (string * string * string) :=
  s ← dropPrefix "[" s;
  let '(from, s) := spanDigits s in
  if String.eqb from "" then None else
  s ← dropPrefix ".." s;
  let '(to, s) := spanDigits s in
  if String.eqb to "" then None else
  s ← dropPrefix "] " s;
  let body := takeLine s in
  if String.eqb body "" then None else Some (from, to, body).

Definition rangeItem (i : Z) (body : string) : string := "[" +:+ Itoa i +:+ "] " +:+ body.

(** The range is below the largest integer, where the source's loop would not
    end. *)
Definition maybeExpand (input : string) : outcome (list string) :=
  match rangeMatch input with
  | None => Ok [input]
  | Some (fromStr, toStr, body) =>
      match Atoi fromStr, Atoi toStr with
      | Ok from, Ok to => Ok (map (fun i => rangeItem i body) (seqZ from (to - from + 1)))
      | _, _ => Panic
      end
  end.

(** ** The writer *)

Record PacketWriter : Type := mkPacketWriter {
  pw_Local : list byte;
  pw_Remote : list byte;
  pw_payload : list byte;
  pw_size : Z
}.

Definition NewPacketWriter : PacketWriter := mkPacketWriter zeroSessionID zeroSessionID [] 0.

Definition testPacket (pw : PacketWriter) (opcode id : Z) (payload : list byte) : Packet :=
  mkPacket opcode 0 zeroPeerID (pw_Local pw) [] (pw_Remote pw) (u32 id) payload.

Definition writeSequenceItem (pw : PacketWriter) (item : string) : outcome (PacketWriter * Packet) :=
  match NewTestPacketFromString item with
  | Ok t =>
      if 0 <? len (pw_payload pw) then
        if len (pw_payload pw) <? pw_size pw then
          Ok (mkPacketWriter (pw_Local pw) (pw_Remote pw) [] (pw_size pw),
              testPacket pw (tp_Opcode t) (tp_ID t) (pw_payload pw))
        else
          payload ← go_upto (pw_payload pw) (pw_size pw);
          rest ← go_from (pw_payload pw) (pw_size pw);
          Ok (mkPacketWriter (pw_Local pw) (pw_Remote pw) rest (pw_size pw),
              testPacket pw (tp_Opcode t) (tp_ID t) payload)
      else Ok (pw, testPacket pw (tp_Opcode t) (tp_ID t) [])
  | _ => Panic
  end.

Fixpoint writeItems (pw : PacketWriter) (items : list string) : outcome (PacketWriter * list Packet) :=
  match items with
  | [] => Ok (pw, [])
  | item :: items' =>
      '(pw, p) ← writeSequenceItem pw item;
      '(pw, ps) ← writeItems pw items';
      Ok (pw, p :: ps)
  end.

Fixpoint WriteSequence (pw : PacketWriter) (seq : list string) : outcome (PacketWriter * list Packet) :=
  match seq with
  | [] => Ok (pw, [])
  | expr :: seq' =>
      items ← maybeExpand expr;
      '(pw, ps) ← writeItems pw items;
      '(pw, ps') ← WriteSequence pw seq';
      Ok (pw, ps ++ ps')
  end.

Definition WriteSequenceWithFixedPayload (pw : PacketWriter) (seq : list string) (payload : list byte) (size : Z)
  : outcome (PacketWriter * list Packet) :=
  WriteSequence (mkPacketWriter (pw_Local pw) (pw_Remote pw) payload size) seq.

Definition WritePacketWithID (pw : PacketWriter) (i : Z) : Packet := testPacket pw P_CONTROL_V1 i [].

(** ** The reader *)

Record LoggedPacket : Type := mkLoggedPacket { lp_ID : Z; lp_Opcode : Z; lp_ACKs : list Z; lp_At : Z }.

(** [now] is the time at which the packet is logged. *)
Definition newLoggedPacket (p : Packet) (origin now : Z) : LoggedPacket :=
  mkLoggedPacket (ID p) (Opcode p) (ACKs p) (time_Sub now origin).

Definition IDSequence (l : list LoggedPacket) : list Z := map lp_ID l.

Definition contains (slice : list Z) (target : Z) : bool := existsb (fun item => item =? target) slice.

Definition addACKs (acks : list Z) (p : LoggedPacket) : list Z :=
  fold_left (fun acks a => if negb (contains acks a) then acks ++ [a] else acks) (lp_ACKs p) acks.
Definition LogACKs (l : list LoggedPacket) : list Z := fold_left addACKs l [].

Record PacketReader : Type := mkPacketReader { pr_log : list LoggedPacket; pr_payload : list byte }.
Definition NewPacketReader : PacketReader := mkPacketReader [] [].

Section Reader.
(** The origin of time of the log, and the clock when the packet with the given
    position in the log arrives. *)
Variable t0 : Z.
Variable clock : nat -> Z.

Definition appendOneIncomingPacket (pr : PacketReader) (pkt : Packet) : PacketReader :=
  mkPacketReader (pr_log pr ++ [newLoggedPacket pkt t0 (clock (length (pr_log pr)))]) (pr_payload pr ++ Payload pkt).

(** The wait loops: read until [enough]; [None] when the channel has no more
    packets. *)
Fixpoint waitUntil (enough : PacketReader -> bool) (pr : PacketReader) (ch : list Packet)
  : option (PacketReader * list Packet) :=
  if enough pr then Some (pr, ch)
  else match ch with
       | [] => None
       | pkt :: ch' => waitUntil enough (appendOneIncomingPacket pr pkt) ch'
       end.

Definition WaitForSequence (seq : list Z) (pr : PacketReader) (ch : list Packet)
  : option (bool * PacketReader * list Packet) :=
  '(pr, ch) ← waitUntil (fun pr => len seq <=? len (pr_log pr)) pr ch;
  Some (bool_decide (seq = IDSequence (pr_log pr)), pr, ch).

Definition WaitForNumberOfACKs (total : Z) (pr : PacketReader) (ch : list Packet) : option (PacketReader * list Packet) :=
  waitUntil (fun pr => total <=? len (LogACKs (pr_log pr))) pr ch.

Definition WaitForOrderedPayloadLen (total : Z) (pr : PacketReader) (ch : list Packet) : option (PacketReader * list Packet) :=
  waitUntil (fun pr => total <=? len (pr_payload pr)) pr ch.

(** A [Witness] is its reader. *)
Record Witness : Type := mkWitness { reader : PacketReader }.

Definition NewWitness (r : PacketReader) : Witness := mkWitness r.
Definition NewWitnessFromChannel : Witness := NewWitness NewPacketReader.
Definition Witness_Log (w : Witness) : list LoggedPacket := pr_log (reader w).
Definition Witness_Payload (w : Witness) : list byte := pr_payload (reader w).

Definition VerifyNumberOfACKs (total : Z) (w : Witness) (ch : list Packet) : option (bool * Witness) :=
  '(pr, _) ← WaitForNumberOfACKs total (reader w) ch;
  Some (len (LogACKs (pr_log pr)) =? total, mkWitness pr).

Definition VerifyOrderedPayload (payload : list byte) (w : Witness) (ch : list Packet) : option (bool * Witness) :=
  '(pr, _) ← WaitForOrderedPayloadLen (len payload) (reader w) ch;
  Some (bytes_equal (pr_payload pr) payload, mkWitness pr).

End Reader.

(** ** The relay and the echo server *)

Definition makeLossMap (l : list Z) : gmap Z Z :=
  fold_left (fun lc i => match lc !! i with None => <[i := 1]> lc | Some n => <[i := n + 1]> lc end) l ∅.

(** One packet; [ctr[id]--] on a missing key stores -1. *)
Definition relayStep (ctr : gmap Z Z) (p : Packet) : gmap Z Z * list Packet :=
  let id := ID p in
  let out := match ctr !! id with
             | Some cnt => if cnt <=? 0 then [p] else []
             | None => [p]
             end in
  (<[id := default 0 (ctr !! id) - 1]> ctr, out).

Fixpoint relayLoop (ctr : gmap Z Z) (ps : list Packet) : list Packet :=
  match ps with
  | [] => []
  | p :: ps' => let '(ctr, out) := relayStep ctr p in out ++ relayLoop ctr ps'
  end.

Definition RelayWithLosses (losses : list Z) (ps : list Packet) : list Packet := relayLoop (makeLossMap losses) ps.

Definition replyToPacketWithPayload (loc rem : list byte) (payload : list byte) (toACK : Z) : Packet :=
  mkPacket P_CONTROL_V1 0 zeroPeerID loc [toACK] rem toACK payload.

(** The fields of the echo server beside its channels; [outPacketID] is not
    used. *)
Record EchoServer : Type := mkEchoServer { outPacketID : Z; es_Local : list byte; es_Remote : list byte }.

(** [random] is what [GenRandomBytes(8)] returned. *)
Definition NewEchoServer (random : outcome (list byte)) : outcome EchoServer :=
  match random with
  | Ok id => Ok (mkEchoServer 1 id zeroSessionID)
  | _ => Panic
  end.

Definition EchoServer_run (loc rem : list byte) (ps : list Packet) : list Packet :=
  map (fun p => replyToPacketWithPayload loc rem (Payload p) (ID p)) ps.

Example notation_1 : NewTestPacketFromString "[5] CONTROL_V1 (ack:0,1) +42ms" = Ok (mkTestPacket 4 5 [0; 1] 42000000).
Proof. vm_compute. reflexivity. Qed.
Example notation_2 : NewTestPacketFromString "[5] CONTROL_V1" = Panic.
Proof. vm_compute. reflexivity. Qed.
Example expand_1 : maybeExpand "[1..3] ACK_V1 +5ms" = Ok ["[1] ACK_V1 +5ms"; "[2] ACK_V1 +5ms"; "[3] ACK_V1 +5ms"].
Proof. vm_compute. reflexivity. Qed.

(** ** The notation is read back *)

(** A test packet in the notation: [ms] is its inter-arrival time. *)
Definition showACKs (acks : list Z) : string :=
  match acks with [] => "" | _ => " (ack:" +:+ Join "," (map Itoa acks) +:+ ")" end.
Definition showTestPacket (id : Z) (opcode : string) (acks : list Z) (ms : Z) : string :=
  "[" +:+ Itoa id +:+ "] " +:+ opcode +:+ showACKs acks +:+ " +" +:+ Itoa ms +:+ "ms".

Lemma opcode_name_chars name op c :
  NewOpcodeFromString name = Ok op -> c = " "%char \/ c = "+"%char -> no_char c name = true.
Proof.
  unfold NewOpcodeFromString. intros H Hc.
  repeat match type of H with
         | context [String.eqb name ?s] =>
             destruct (String.eqb_spec name s) as [->|]; [destruct Hc as [->| ->]; reflexivity|]
         end.
  discriminate.
Qed.

Definition int64 (z : Z) : Prop := - 2 ^ 63 <= z < 2 ^ 63.

Lemma Join_cons sep w ws : ws <> [] -> Join sep (w :: ws) = w +:+ String sep (Join sep ws).
Proof. now destruct ws. Qed.

Lemma Split_Join_Itoa l : l <> [] -> Split "," (Join "," (map Itoa l)) = map Itoa l.
Proof.
  induction l as [|x l IH]; [done|]. intros _. destruct l as [|y l].
  - cbn [map Join]. apply Split_no_char. now apply Itoa_no_char.
  - cbn [map] in *. rewrite Join_cons, Split_app by (done || now apply Itoa_no_char). now rewrite IH.
Qed.

Lemma Join_Itoa_no_char c l : number_char c = false -> Ascii.eqb "," c = false -> no_char c (Join "," (map Itoa l)) = true.
Proof.
  intros Hc Hcomma. induction l as [|x l IH]; [done|]. destruct l as [|y l].
  - cbn. now apply Itoa_no_char.
  - cbn [map] in *. rewrite Join_cons, no_char_app by done. rewrite Itoa_no_char by done. cbn [no_char andb].
    rewrite Hcomma. exact IH.
Qed.

Lemma omap_Atoi l : Forall int64 l ->
  omap (fun v => match Atoi v with Ok n => Some n | _ => None end) (map Itoa l) = l.
Proof.
  induction 1 as [|x l Hx _ IH]; [done|]. cbn. rewrite Atoi_Itoa by done. f_equal. exact IH.
Qed.

Lemma splitOn_ack t : no_char "a" t = true -> splitOn "ack:" 0 ("ack:" +:+ t) = [""; t].
Proof.
  intros Ht. change ("ack:" +:+ t) with (String "a" (String "c" (String "k" (String ":" t)))).
  unfold splitOn; fold (splitOn "ack:"). rewrite !prefix_cons, !Ascii.eqb_refl, prefix_empty. cbn [andb String.length Nat.sub].
  f_equal. now apply splitOn_none.
Qed.

Lemma parseACKs_show acks :
  acks <> [] -> Forall int64 acks -> parseACKs ("ack:" +:+ Join "," (map Itoa acks)) = Ok acks.
Proof.
  intros Hne Hacks. unfold parseACKs, SplitString. rewrite splitOn_ack by now apply Join_Itoa_no_char.
  now rewrite Split_Join_Itoa, omap_Atoi.
Qed.

Lemma head_of_notation id name acks :
  Forall int64 acks -> no_char " " name = true ->
  Split " " ("[" +:+ Itoa id +:+ "] " +:+ name +:+ showACKs acks) =
    String "[" (Itoa id +:+ "]") :: name ::
    match acks with [] => [] | _ => ["(ack:" +:+ Join "," (map Itoa acks) +:+ ")"] end.
Proof.
  intros _ Hname.
  assert ("[" +:+ Itoa id +:+ "] " +:+ name +:+ showACKs acks =
          String "[" (Itoa id +:+ "]") +:+ String " " (name +:+ showACKs acks)) as ->.
  { change ("[" +:+ Itoa id +:+ "] " +:+ name +:+ showACKs acks)
      with (String "[" (Itoa id +:+ ("]" +:+ String " " (name +:+ showACKs acks)))).
    change (String "[" (Itoa id +:+ "]") +:+ String " " (name +:+ showACKs acks))
      with (String "[" ((Itoa id +:+ "]") +:+ String " " (name +:+ showACKs acks))).
    now rewrite <- str_assoc. }
  rewrite Split_app; cycle 1.
  { cbn [no_char]. rewrite no_char_app, Itoa_no_char by done. done. }
  f_equal. destruct acks as [|x acks].
  - cbn [showACKs]. rewrite app_empty. now apply Split_no_char.
  - cbn [showACKs]. change (" (ack:" +:+ Join "," (map Itoa (x :: acks)) +:+ ")")
      with (String " " ("(ack:" +:+ Join "," (map Itoa (x :: acks)) +:+ ")")).
    rewrite Split_app by done. f_equal. apply Split_no_char.
    rewrite !no_char_app, Join_Itoa_no_char by done. done.
Qed.

Lemma notation_split id name acks ms op :
  NewOpcodeFromString name = Ok op -> 0 <= ms ->
  SplitString (showTestPacket id name acks ms) " +" =
    ["[" +:+ Itoa id +:+ "] " +:+ name +:+ showACKs acks; Itoa ms +:+ "ms"].
Proof.
  intros Hop Hms. unfold SplitString, showTestPacket.
  assert ("[" +:+ Itoa id +:+ "] " +:+ name +:+ showACKs acks +:+ " +" +:+ Itoa ms +:+ "ms" =
          ("[" +:+ Itoa id +:+ "] " +:+ name +:+ showACKs acks) +:+ String " " (String "+" (Itoa ms +:+ "ms"))) as ->.
  { rewrite <- !str_assoc. done. }
  rewrite splitOn_two; [|done|].
  - rewrite splitOn_two_none; [done|]. rewrite no_char_app, Itoa_no_char by done. done.
  - rewrite !no_char_app, Itoa_no_char, (opcode_name_chars name op) by eauto. cbn [andb no_char].
    destruct acks as [|x acks]; [done|]. cbn [showACKs]. rewrite !no_char_app, Join_Itoa_no_char by done. done.
Qed.

Lemma Trim_id id : Trim (String "[" (Itoa id +:+ "]")) "[]" = Itoa id.
Proof.
  apply Trim_brackets; [done|done|destruct (Itoa_cons id) as (c & t & ->); done|].
  eapply all_chars_impl; [|apply Itoa_chars]. intros c Hc. cbn [inCutset].
  rewrite !(number_char_not c) by done. done.
Qed.

Lemma Trim_acks s : all_chars (fun c => number_char c || Ascii.eqb c ",") s = true ->
  Trim ("(ack:" +:+ s +:+ ")") "()" = "ack:" +:+ s.
Proof.
  intros Hs. change ("(ack:" +:+ s +:+ ")") with (String "(" (("ack:" +:+ s) +:+ ")")).
  apply Trim_brackets; [done|done|done|]. rewrite all_chars_app. apply andb_true_iff. split; [done|].
  eapply all_chars_impl; [|exact Hs]. intros c Hc. cbn [inCutset].
  destruct (Ascii.eqb_spec c "(") as [->|]; [done|]. now destruct (Ascii.eqb_spec c ")") as [->|].
Qed.

Lemma Join_Itoa_chars l : all_chars (fun c => number_char c || Ascii.eqb c ",") (Join "," (map Itoa l)) = true.
Proof.
  assert (forall n, all_chars (fun c => number_char c || Ascii.eqb c ",") (Itoa n) = true) as Hn.
  { intros n. eapply all_chars_impl; [|apply Itoa_chars]. cbn. intros c Hc. now rewrite Hc. }
  induction l as [|x l IH]; [done|]. destruct l as [|y l]; [apply Hn|].
  cbn [map] in *. rewrite Join_cons, all_chars_app, Hn by done. exact IH.
Qed.

Lemma go_index_0 {A} (x : A) l : go_index (x :: l) 0 = Ok x.
Proof. done. Qed.
Lemma go_index_1 {A} (x y : A) l : go_index (x :: y :: l) 1 = Ok y.
Proof. done. Qed.
Lemma go_index_2 {A} (x y z : A) l : go_index (x :: y :: z :: l) 2 = Ok z.
Proof. done. Qed.
Lemma Ok_bind {A B} (x : A) (f : A -> outcome B) : mbind f (Ok x) = f x.
Proof. done. Qed.

Ltac notation_steps :=
  cbn [Z.ltb Z.eqb Z.compare orb Pos.compare Pos.compare_cont Pos.eqb];
  repeat first [rewrite Ok_bind | rewrite go_index_0 | rewrite go_index_1 | rewrite go_index_2 | rewrite Trim_id
               | rewrite Atoi_Itoa by done | match goal with H : NewOpcodeFromString _ = Ok _ |- _ => rewrite H end].

Lemma parse_show id name op acks ms :
  NewOpcodeFromString name = Ok op -> int64 id -> Forall int64 acks -> 0 <= ms < 2 ^ 40 ->
  NewTestPacketFromString (showTestPacket id name acks ms) = Ok (mkTestPacket op id acks (ms * 1000000)).
Proof.
  intros Hop Hid Hacks Hms. unfold NewTestPacketFromString. rewrite (notation_split _ _ _ _ op) by (done || lia).
  rewrite go_index_0, Ok_bind. cbv zeta. rewrite head_of_notation by eauto using opcode_name_chars.
  destruct acks as [|x acks].
  - change (len [_; _]) with 2. notation_steps. now rewrite ParseDuration_ms.
  - change (len [_; _; _]) with 3. notation_steps. rewrite Trim_acks, parseACKs_show by (done || apply Join_Itoa_chars).
    notation_steps. now rewrite ParseDuration_ms.
Qed.

(** What the notation of test packets says is what
    [NewTestPacketFromString] reads: the number, the opcode, the
    acknowledgements and the inter-arrival time in nanoseconds. *)
Theorem notation_roundtrip id name op acks ms :
  NewOpcodeFromString name = Ok op -> int64 id -> Forall int64 acks -> 0 <= ms < 2 ^ 40 ->
  NewTestPacketFromString (showTestPacket id name acks ms) = Ok (mkTestPacket op id acks (ms * 1000000)).
Proof. apply parse_show. Qed.

Lemma notation_roundtrip_witness :
  NewTestPacketFromString (showTestPacket 5 "CONTROL_V1" [0; 1] 42) = Ok (mkTestPacket 4 5 [0; 1] 42000000).
Proof.
  apply (notation_roundtrip 5 "CONTROL_V1" 4 [0; 1] 42); [reflexivity|unfold int64; lia| |lia].
  repeat constructor; unfold int64; lia.
Defined.

(** ** The relay *)

Definition occurrences (id : Z) (l : list Z) : nat := length (filter (fun i => i = id) l).
Definition packetsOf (id : Z) (ps : list Packet) : list Packet := filter (fun p => ID p = id) ps.

Lemma lossMap_step l ctr id :
  default 0 (fold_left (fun (lc : gmap Z Z) i => match lc !! i with None => <[i := 1]> lc | Some n => <[i := n + 1]> lc end)
               l ctr !! id) =
  default 0 (ctr !! id) + Z.of_nat (occurrences id l).
Proof.
  revert ctr. induction l as [|i l IH]; intros ctr; [cbn; lia|]. cbn [fold_left]. rewrite IH. unfold occurrences.
  rewrite filter_cons. destruct (decide (i = id)) as [->|Hne].
  - destruct (ctr !! id) as [n|] eqn:E; rewrite lookup_insert_eq; cbn [default length]; cbn; lia.
  - destruct (ctr !! i) as [n|]; rewrite lookup_insert_ne by done; reflexivity.
Qed.

Lemma makeLossMap_counts l id : default 0 (makeLossMap l !! id) = Z.of_nat (occurrences id l).
Proof. unfold makeLossMap. rewrite lossMap_step, lookup_empty. cbn. lia. Qed.

Lemma relayStep_out ctr p :
  (relayStep ctr p).2 = if default 0 (ctr !! ID p) <=? 0 then [p] else [].
Proof. unfold relayStep. now destruct (ctr !! ID p). Qed.

Lemma relayLoop_cons ctr p ps :
  relayLoop ctr (p :: ps) =
    (if default 0 (ctr !! ID p) <=? 0 then [p] else []) ++ relayLoop (<[ID p := default 0 (ctr !! ID p) - 1]> ctr) ps.
Proof. rewrite <- relayStep_out. reflexivity. Qed.

Lemma relayLoop_of_id ctr ps id :
  packetsOf id (relayLoop ctr ps) = drop (Z.to_nat (default 0 (ctr !! id))) (packetsOf id ps).
Proof.
  revert ctr. induction ps as [|p ps IH]; intros ctr; [cbn; now rewrite drop_nil|].
  rewrite relayLoop_cons. unfold packetsOf in *. rewrite filter_app, IH, (filter_cons _ p ps).
  destruct (decide (ID p = id)) as [<-|Hne].
  - rewrite lookup_insert_eq. cbn [default]. destruct (Z.leb_spec (default 0 (ctr !! ID p)) 0).
    + rewrite filter_cons_True by done. rewrite !Z2Nat.nonpos by (cbn; lia). done.
    + cbn [default from_option id]. replace (Z.to_nat (default 0 (ctr !! ID p))) with (S (Z.to_nat (default 0 (ctr !! ID p) - 1))) by lia.
      done.
  - rewrite lookup_insert_ne by done. case_match; [rewrite filter_cons_False by done|]; done.
Qed.

Lemma relayLoop_sublist ctr ps : sublist (relayLoop ctr ps) ps.
Proof.
  revert ctr. induction ps as [|p ps IH]; intros ctr; [constructor|]. rewrite relayLoop_cons.
  case_match; cbn; constructor; apply IH.
Qed.

(** The lossy relay loses exactly what its vector of losses says: of the
    packets with a number it drops as many as the vector names that number,
    the first ones, and relays all the others, unmodified and in the order they came. *)
Theorem relay_loses_exactly losses ps :
  sublist (RelayWithLosses losses ps) ps /\
  forall id, packetsOf id (RelayWithLosses losses ps) = drop (occurrences id losses) (packetsOf id ps).
Proof.
  split; [apply relayLoop_sublist|]. intros id. unfold RelayWithLosses.
  now rewrite relayLoop_of_id, makeLossMap_counts, Nat2Z.id.
Qed.

(** ** Ranges *)

Definition showRange (a b : Z) (body : string) : string := "[" +:+ Itoa a +:+ ".." +:+ Itoa b +:+ "] " +:+ body.
Definition showBody (name : string) (ms : Z) : string := name +:+ " +" +:+ Itoa ms +:+ "ms".

Lemma rangeItem_show i name ms : rangeItem i (showBody name ms) = showTestPacket i name [] ms.
Proof. reflexivity. Qed.

Lemma spanDigits_app s c t :
  all_digits s = true -> is_digit c = false -> spanDigits (s +:+ String c t) = (s, String c t).
Proof.
  intros Hs Hc. induction s as [|d s IH].
  - change ("" +:+ String c t) with (String c t). cbn [spanDigits]. now rewrite Hc.
  - change (String d s +:+ String c t) with (String d (s +:+ String c t)). cbn in Hs. apply andb_true_iff in Hs as [Hd Hs].
    cbn [spanDigits]. now rewrite Hd, IH.
Qed.

Lemma takeLine_id s : no_char (ascii_of_nat 10) s = true -> takeLine s = s.
Proof.
  induction s as [|c s IH]; [done|]. cbn [no_char takeLine]. intros [Hc Hs]%andb_true_iff.
  apply negb_true_iff in Hc. now rewrite Hc, IH.
Qed.

Lemma substring_tail p s : String.substring (String.length p) (String.length (p +:+ s) - String.length p) (p +:+ s) = s.
Proof.
  rewrite length_app_string. replace (_ + _ - _)%nat with (String.length s) by lia.
  induction p as [|c p IH].
  - change ("" +:+ s) with s. cbn [String.length]. induction s as [|c s IH]; [done|]. cbn. now f_equal.
  - change (String c p +:+ s) with (String c (p +:+ s)). cbn [String.length String.substring]. exact IH.
Qed.

Lemma prefix_app p s : String.prefix p (p +:+ s) = true.
Proof.
  induction p as [|c p IH]; [apply prefix_empty|]. change (String c p +:+ s) with (String c (p +:+ s)).
  now rewrite prefix_cons, Ascii.eqb_refl.
Qed.

Lemma dropPrefix_app p s : dropPrefix p (p +:+ s) = Some s.
Proof. unfold dropPrefix. now rewrite prefix_app, substring_tail. Qed.

Lemma rangeMatch_show a b body :
  0 <= a -> 0 <= b -> body <> "" -> no_char (ascii_of_nat 10) body = true ->
  rangeMatch (showRange a b body) = Some (Itoa a, Itoa b, body).
Proof.
  intros Ha Hb Hne Hnl. unfold rangeMatch, showRange.
  destruct (Itoa_digits a Ha) as (c & t & Ea & Hda & _), (Itoa_digits b Hb) as (d & u & Eb & Hdb & _).
  rewrite dropPrefix_app. cbn [mbind option_bind].
  change (".." +:+ Itoa b +:+ "] " +:+ body) with (String "." ("." +:+ Itoa b +:+ "] " +:+ body)).
  rewrite spanDigits_app by done. rewrite Ea at 1. cbn [String.eqb].
  change (String "." ("." +:+ Itoa b +:+ "] " +:+ body)) with (".." +:+ (Itoa b +:+ "] " +:+ body)).
  rewrite dropPrefix_app. cbn [mbind option_bind].
  change ("] " +:+ body) with (String "]" (" " +:+ body)). rewrite spanDigits_app by done. rewrite Eb at 1. cbn [String.eqb].
  change (String "]" (" " +:+ body)) with ("] " +:+ body). rewrite dropPrefix_app. cbn [mbind option_bind].
  rewrite takeLine_id by done. destruct (String.eqb_spec body ""); [done|]. done.
Qed.

Lemma maybeExpand_show a b body :
  0 <= a < 2 ^ 63 -> 0 <= b < 2 ^ 63 -> body <> "" -> no_char (ascii_of_nat 10) body = true ->
  maybeExpand (showRange a b body) = Ok (map (fun i => rangeItem i body) (seqZ a (b - a + 1))).
Proof.
  intros Ha Hb Hne Hnl. unfold maybeExpand. rewrite rangeMatch_show by (done || lia).
  now rewrite !Atoi_Itoa by lia.
Qed.

(** The payload cut in pieces of [size] bytes. *)
Fixpoint pieces (size n : nat) (payload : list byte) : list (list byte) :=
  match n with
  | O => []
  | S n' => take size payload :: pieces size n' (drop size payload)
  end.

Lemma concat_pieces size n payload : concat (pieces size n payload) = take (n * size) payload.
Proof.
  revert payload. induction n as [|n IH]; intros payload; [done|]. cbn [pieces concat]. rewrite IH.
  cbn [Nat.mul]. now rewrite take_take_drop.
Qed.

Lemma length_pieces size n payload : length (pieces size n payload) = n.
Proof. revert payload. induction n as [|n IH]; intros payload; cbn; [done | now rewrite IH]. Qed.

Lemma writeSequenceItem_show loc rem payload size i name op ms :
  NewOpcodeFromString name = Ok op -> int64 i -> 0 <= ms < 2 ^ 40 -> 0 <= size ->
  writeSequenceItem (mkPacketWriter loc rem payload size) (rangeItem i (showBody name ms)) =
    Ok (mkPacketWriter loc rem (drop (Z.to_nat size) payload) size,
        mkPacket op 0 zeroPeerID loc [] rem (u32 i) (take (Z.to_nat size) payload)).
Proof.
  intros Hop Hi Hms Hsize. unfold writeSequenceItem. rewrite rangeItem_show.
  assert (NewTestPacketFromString (showTestPacket i name [] ms) = Ok (mkTestPacket op i [] (ms * 1000000))) as ->.
  { now apply parse_show. }
  cbn [tp_Opcode tp_ID pw_payload pw_size]. destruct payload as [|x payload]; [cbn; now rewrite drop_nil, take_nil|].
  assert (0 <? len (x :: payload) = true) as -> by (rewrite len_cons; apply Z.ltb_lt; pose proof (len_nonneg payload); lia).
  destruct (Z.ltb_spec (len (x :: payload)) size) as [Hlt|Hge].
  - unfold len in Hlt. rewrite drop_ge, take_ge by lia. done.
  - now rewrite go_upto_Ok, go_from_Ok by lia.
Qed.

Lemma writeItems_show loc rem size name op ms n payload a :
  NewOpcodeFromString name = Ok op -> 0 <= ms < 2 ^ 40 -> 0 <= size -> 0 <= a -> a + Z.of_nat n <= 2 ^ 32 ->
  writeItems (mkPacketWriter loc rem payload size) (map (fun i => rangeItem i (showBody name ms)) (seqZ a (Z.of_nat n))) =
    Ok (mkPacketWriter loc rem (drop (n * Z.to_nat size) payload) size,
        zip_with (fun i pl => mkPacket op 0 zeroPeerID loc [] rem i pl) (seqZ a (Z.of_nat n)) (pieces (Z.to_nat size) n payload)).
Proof.
  intros Hop Hms Hsize. revert payload a. induction n as [|n IH]; intros payload a Ha Hn; [done|].
  rewrite seqZ_cons by lia. replace (Z.pred (Z.of_nat (S n))) with (Z.of_nat n) by lia. cbn [map writeItems pieces zip_with].
  rewrite (writeSequenceItem_show _ _ _ _ _ _ op) by (done || (unfold int64; lia)). rewrite Ok_bind, IH by lia.
  rewrite Ok_bind, drop_drop. unfold u32. rewrite Z.mod_small by lia. done.
Qed.

Section ReaderLemmas.
Variable t0 : Z.
Variable clock : nat -> Z.

(** The log of the packets [ps] read after the first [k]. *)
Definition logged (k : nat) (ps : list Packet) : list LoggedPacket :=
  imap (fun i p => newLoggedPacket p t0 (clock (k + i)%nat)) ps.

Lemma logged_cons k p ps : logged k (p :: ps) = newLoggedPacket p t0 (clock k) :: logged (S k) ps.
Proof.
  unfold logged. rewrite imap_cons. f_equal; [by rewrite Nat.add_0_r|]. apply imap_ext. intros i q _. cbn.
  by rewrite Nat.add_succ_r.
Qed.

Lemma log_append pr p ps log :
  log = pr_log (appendOneIncomingPacket t0 clock pr p) ++ logged (length (pr_log (appendOneIncomingPacket t0 clock pr p))) ps ->
  log = pr_log pr ++ logged (length (pr_log pr)) (p :: ps).
Proof. intros ->. cbn [appendOneIncomingPacket pr_log]. by rewrite length_app, Nat.add_1_r, logged_cons, <- app_assoc. Qed.

(** The reader sees the payload that is spread over the packets. *)
Lemma waitUntil_payload total pr ch pr' ch' :
  waitUntil t0 clock (fun pr => total <=? len (pr_payload pr)) pr ch = Some (pr', ch') ->
  exists read, ch = read ++ ch' /\ pr_payload pr' = pr_payload pr ++ concat (map Payload read) /\
    total <= len (pr_payload pr') /\ pr_log pr' = pr_log pr ++ logged (length (pr_log pr)) read.
Proof.
  revert pr. induction ch as [|p ch IH]; intros pr; cbn [waitUntil]; destruct (Z.leb_spec total (len (pr_payload pr))) as [Hle|Hgt].
  - intros [= <- <-]. exists []. cbn. rewrite !app_nil_r. auto.
  - done.
  - intros [= <- <-]. exists []. cbn. rewrite !app_nil_r. auto.
  - intros (read & -> & Hp & Hl & Hlog)%IH. exists (p :: read). cbn in Hp. rewrite <- !app_assoc in Hp. apply log_append in Hlog. auto.
Qed.

Lemma waitUntil_payload_enough total pr ch :
  total <= len (pr_payload pr) + len (concat (map Payload ch)) ->
  is_Some (waitUntil t0 clock (fun pr => total <=? len (pr_payload pr)) pr ch).
Proof.
  revert pr. induction ch as [|p ch IH]; intros pr H; cbn [waitUntil]; destruct (Z.leb_spec total (len (pr_payload pr))) as [Hle|Hgt]; eauto.
  - cbn [map concat] in H. rewrite len_nil in H. lia.
  - apply IH. cbn [appendOneIncomingPacket pr_payload]. cbn [map concat] in H. rewrite len_app in *. lia.
Qed.

Lemma take_prefix_len (total : Z) (l p : list byte) : p = take (length p) l -> total = len l -> total <= len p -> p = l.
Proof. intros Hp -> Hl. rewrite Hp. apply take_ge. unfold len in Hl. lia. Qed.

Lemma VerifyOrderedPayload_spread payload ps :
  concat (map Payload ps) = payload ->
  exists w, VerifyOrderedPayload t0 clock payload NewWitnessFromChannel ps = Some (true, w) /\
    exists read rest, ps = read ++ rest /\ Witness_Log w = logged 0 read.
Proof.
  intros Hpl. unfold VerifyOrderedPayload, WaitForOrderedPayloadLen. cbn [reader NewWitnessFromChannel NewWitness].
  destruct (waitUntil_payload_enough (len payload) NewPacketReader ps) as [[pr ch] E]; [cbn [NewPacketReader pr_payload]; rewrite Hpl, len_nil; lia|].
  rewrite E. apply waitUntil_payload in E as (read & -> & Hp & Hl & Hlog). cbn in Hp, Hlog.
  assert (pr_payload pr = payload) as Heq.
  { apply (take_prefix_len (len payload)); [|done|done]. rewrite Hp, <- Hpl, map_app, concat_app. now rewrite take_app_length. }
  exists (mkWitness pr). cbn [mbind option_bind]. rewrite Heq. split; [|eauto].
  unfold bytes_equal. now rewrite bool_decide_true.
Qed.
End ReaderLemmas.

Lemma zip_with_proj2 {A B C} (f : A -> B -> C) (g : C -> B) l k :
  (forall a b, g (f a b) = b) -> length l = length k -> map g (zip_with f l k) = k.
Proof. intros Hg. revert k. induction l as [|a l IH]; intros [|b k]; cbn; [done..|]. intros [= H]. now rewrite Hg, IH. Qed.
Lemma zip_with_proj1 {A B C} (f : A -> B -> C) (g : C -> A) l k :
  (forall a b, g (f a b) = a) -> length l = length k -> map g (zip_with f l k) = l.
Proof. intros Hg. revert k. induction l as [|a l IH]; intros [|b k]; cbn; [done..|]. intros [= H]. now rewrite Hg, IH. Qed.

Lemma showBody_line name op ms : NewOpcodeFromString name = Ok op -> showBody name ms <> "" /\ no_char (ascii_of_nat 10) (showBody name ms) = true.
Proof.
  intros H. unfold NewOpcodeFromString in H.
  repeat match type of H with
         | context [String.eqb name ?s] => destruct (String.eqb_spec name s) as [->|]
         end;
  (discriminate || (split; [discriminate|unfold showBody; rewrite !no_char_app, Itoa_no_char by done; done])).
Qed.

(** A range of test packets with a payload: the writer sends one packet
    for every number of the range, in order and with the opcode of the notation, the
    payload is spread over them in pieces of [size] bytes, and a witness that
    reads the packets in that order finds the payload it expects as soon as
    the range is long enough to carry it. *)
Theorem range_carries_payload pw name op ms a b payload size :
  NewOpcodeFromString name = Ok op -> 0 <= ms < 2 ^ 40 -> 0 <= a <= b -> b < 2 ^ 32 -> 0 <= size ->
  exists pw' ps,
    WriteSequenceWithFixedPayload pw [showRange a b (showBody name ms)] payload size = Ok (pw', ps) /\
    map ID ps = seqZ a (b - a + 1) /\
    Forall (fun p => Opcode p = op) ps /\
    concat (map Payload ps) = take (Z.to_nat ((b - a + 1) * size)) payload /\
    (len payload <= (b - a + 1) * size ->
     forall t0 clock, exists w, VerifyOrderedPayload t0 clock payload NewWitnessFromChannel ps = Some (true, w)).
Proof.
  intros Hop Hms Ha Hb Hsize. destruct (showBody_line name op ms Hop) as [Hne Hnl].
  unfold WriteSequenceWithFixedPayload. cbn [WriteSequence]. rewrite maybeExpand_show by (done || lia). rewrite Ok_bind.
  set (n := Z.to_nat (b - a + 1)). replace (b - a + 1) with (Z.of_nat n) by lia.
  rewrite (writeItems_show _ _ _ _ op) by (done || lia). rewrite !Ok_bind, app_nil_r.
  eexists _, _. split; [reflexivity|].
  assert (length (seqZ a (Z.of_nat n)) = length (pieces (Z.to_nat size) n payload)) as Hlen
    by (rewrite length_seqZ, length_pieces; lia).
  assert (concat (map Payload (zip_with (fun i pl => mkPacket op 0 zeroPeerID (pw_Local pw) [] (pw_Remote pw) i pl)
            (seqZ a (Z.of_nat n)) (pieces (Z.to_nat size) n payload))) = take (Z.to_nat (Z.of_nat n * size)) payload) as Hpl.
  { rewrite zip_with_proj2 by done. rewrite concat_pieces. f_equal. lia. }
  split; [now apply zip_with_proj1|]. split; [|split; [exact Hpl|]].
  - apply Forall_forall. intros p (i & pl & -> & _)%elem_of_zip_with. done.
  - intros Hle t0 clock. rewrite take_ge in Hpl by (unfold len in Hle; lia).
    destruct (VerifyOrderedPayload_spread t0 clock payload _ Hpl) as (w & E & _). eauto.
Qed.

Lemma range_carries_payload_witness :
  exists pw' ps,
    WriteSequenceWithFixedPayload NewPacketWriter ["[1..4] CONTROL_V1 +5ms"] (bytes_of_string "aaabbbcccd") 3 = Ok (pw', ps) /\
    map ID ps = [1; 2; 3; 4] /\ Forall (fun p => Opcode p = P_CONTROL_V1) ps /\
    concat (map Payload ps) = bytes_of_string "aaabbbcccd" /\
    (10 <= 12 -> forall t0 clock, exists w,
      VerifyOrderedPayload t0 clock (bytes_of_string "aaabbbcccd") NewWitnessFromChannel ps = Some (true, w)).
Proof.
  apply (range_carries_payload NewPacketWriter "CONTROL_V1" P_CONTROL_V1 5 1 4 (bytes_of_string "aaabbbcccd") 3);
    [reflexivity|lia..].
Defined.

(** ** The log of acknowledgements *)

Lemma contains_elem l a : contains l a = true <-> a ∈ l.
Proof.
  unfold contains. rewrite existsb_exists. split.
  - intros (x & Hx & ->%Z.eqb_eq). now apply list_elem_of_In.
  - intros Ha%list_elem_of_In. exists a. split; [done | apply Z.eqb_refl].
Qed.

Lemma addACK_props acks new :
  NoDup acks ->
  let r := fold_left (fun acks a => if negb (contains acks a) then acks ++ [a] else acks) new acks in
  NoDup r /\ forall a, a ∈ r <-> a ∈ acks \/ a ∈ new.
Proof.
  revert acks. induction new as [|x new IH]; intros acks Hnd; cbn [fold_left].
  - split; [done|]. intros a. rewrite elem_of_nil. tauto.
  - destruct (contains acks x) eqn:E; cbn [negb].
    + apply contains_elem in E. destruct (IH acks Hnd) as [H1 H2]. split; [done|]. intros a. rewrite H2, elem_of_cons.
      naive_solver.
    + assert (x ∉ acks) as Hx by (rewrite <- contains_elem; congruence).
      destruct (IH (acks ++ [x])) as [H1 H2].
      { apply NoDup_app. split; [done|]. split; [|apply NoDup_singleton]. intros y Hy ->%list_elem_of_singleton. done. }
      split; [done|]. intros a. rewrite H2, elem_of_app, list_elem_of_singleton, elem_of_cons. tauto.
Qed.

Lemma LogACKs_props l : NoDup (LogACKs l) /\ forall a, a ∈ LogACKs l <-> exists p, p ∈ l /\ a ∈ lp_ACKs p.
Proof.
  unfold LogACKs.
  enough (forall acc, NoDup acc -> NoDup (fold_left addACKs l acc) /\
            forall a, a ∈ fold_left addACKs l acc <-> a ∈ acc \/ exists p, p ∈ l /\ a ∈ lp_ACKs p) as H.
  { destruct (H [] (NoDup_nil_2)) as [H1 H2]. split; [done|]. intros a. rewrite H2, elem_of_nil. tauto. }
  induction l as [|p l IH]; intros acc Hacc; cbn [fold_left].
  - split; [done|]. intros a. split; [auto|]. intros [H|(p & H%elem_of_nil & _)]; done.
  - destruct (addACK_props acc (lp_ACKs p) Hacc) as [H1 H2]. destruct (IH _ H1) as [H3 H4]. split; [done|].
    intros a. rewrite H4. rewrite H2. setoid_rewrite elem_of_cons. naive_solver.
Qed.

Section Acknowledged.
Variable t0 : Z.
Variable clock : nat -> Z.

Lemma elem_of_logged lp k ps a :
  lp ∈ logged t0 clock k ps /\ a ∈ lp_ACKs lp -> exists p, p ∈ ps /\ a ∈ ACKs p.
Proof.
  intros [Hin Ha]. revert k Hin. induction ps as [|p ps IH]; intros k; rewrite ?logged_cons, ?elem_of_cons.
  - by intros ?%elem_of_nil.
  - intros [->|Hin]; [exists p; split; [left|exact Ha]|]. destruct (IH _ Hin) as (q & Hq & Hqa).
    exists q. split; [by right|done].
Qed.

Lemma logged_elem_of p k ps : p ∈ ps -> exists lp, lp ∈ logged t0 clock k ps /\ lp_ACKs lp = ACKs p.
Proof.
  revert k. induction ps as [|q ps IH]; intros k; [by intros ?%elem_of_nil|]. rewrite elem_of_cons.
  intros [->|Hin]; rewrite logged_cons; [eexists; split; [left|done]|].
  destruct (IH (S k) Hin) as (lp & Hlp & Ha). exists lp. split; [by right|done].
Qed.

Lemma LogACKs_total k ps :
  NoDup (map ID ps) -> Forall (fun p => ACKs p = [ID p]) ps ->
  len (LogACKs (logged t0 clock k ps)) = len ps.
Proof.
  intros Hnd Hacks. destruct (LogACKs_props (logged t0 clock k ps)) as [H1 H2].
  enough (LogACKs (logged t0 clock k ps) ≡ₚ map ID ps) as Hp.
  { unfold len. now rewrite Hp, length_map. }
  apply NoDup_Permutation; [done|done|]. intros a. rewrite H2. setoid_rewrite list_elem_of_fmap.
  rewrite Forall_forall in Hacks. split.
  - intros (lp & Hlp). apply elem_of_logged in Hlp as (p & Hp & Ha). rewrite (Hacks p Hp) in Ha.
    apply list_elem_of_singleton in Ha. eauto.
  - intros (p & -> & Hp). destruct (logged_elem_of p k ps Hp) as (lp & Hlp & Ha). exists lp. split; [done|].
    rewrite Ha, (Hacks p Hp). now apply list_elem_of_singleton.
Qed.

(** The log never shrinks, so a wait for as many acknowledgements as the whole
    channel carries ends. *)
Lemma waitUntil_enough enough pr ch :
  enough (fold_left (appendOneIncomingPacket t0 clock) ch pr) = true -> is_Some (waitUntil t0 clock enough pr ch).
Proof.
  revert pr. induction ch as [|p ch IH]; intros pr H; cbn [waitUntil]; cbn in H.
  - rewrite H. eauto.
  - destruct (enough pr); eauto.
Qed.

Lemma waitUntil_reads enough pr ch pr' ch' :
  waitUntil t0 clock enough pr ch = Some (pr', ch') ->
  enough pr' = true /\ exists read, ch = read ++ ch' /\ pr_log pr' = pr_log pr ++ logged t0 clock (length (pr_log pr)) read.
Proof.
  revert pr. induction ch as [|p ch IH]; intros pr; cbn [waitUntil]; destruct (enough pr) eqn:E; try done.
  1, 2: intros [= <- <-]; split; [done|]; exists []; cbn; rewrite app_nil_r; auto.
  intros (H & read & -> & Hlog)%IH. split; [done|]. exists (p :: read). split; [done|]. by apply log_append.
Qed.

Lemma fold_log ch pr :
  pr_log (fold_left (appendOneIncomingPacket t0 clock) ch pr) = pr_log pr ++ logged t0 clock (length (pr_log pr)) ch.
Proof.
  revert pr. induction ch as [|p ch IH]; intros pr; cbn [fold_left]; [now rewrite app_nil_r|]. apply log_append, IH.
Qed.

(** The echo server acknowledges every packet once: a witness that waits for
    the acknowledgements of [n] different packets gets [n]. *)
Lemma echo_acknowledges loc rem ps :
  NoDup (map ID ps) ->
  exists w, VerifyNumberOfACKs t0 clock (len ps) NewWitnessFromChannel (EchoServer_run loc rem ps) = Some (true, w).
Proof.
  intros Hnd. unfold VerifyNumberOfACKs, WaitForNumberOfACKs. cbn [reader NewWitnessFromChannel NewWitness].
  assert (map ID (EchoServer_run loc rem ps) = map ID ps) as Hids by (unfold EchoServer_run; rewrite map_map; done).
  assert (Forall (fun p => ACKs p = [ID p]) (EchoServer_run loc rem ps)) as Hacks.
  { apply Forall_forall. unfold EchoServer_run. intros p (q & -> & _)%list_elem_of_fmap. done. }
  assert (len (EchoServer_run loc rem ps) = len ps) as Hlen by (unfold EchoServer_run, len; now rewrite length_map).
  destruct (waitUntil_enough (fun pr => len ps <=? len (LogACKs (pr_log pr))) NewPacketReader (EchoServer_run loc rem ps))
    as [[pr ch] E].
  { rewrite fold_log. cbn [NewPacketReader pr_log app]. rewrite LogACKs_total, Hlen by congruence. apply Z.leb_refl. }
  rewrite E. exists (mkWitness pr). cbn [mbind option_bind]. apply waitUntil_reads in E as (Hle & read & Hch & Hlog).
  cbn in Hlog. apply Z.leb_le in Hle. do 2 f_equal. rewrite Hlog in *.
  rewrite Hch in Hids, Hacks, Hlen. rewrite map_app in Hids. rewrite <- Hids in Hnd.
  apply Forall_app in Hacks as [Hacks _]. apply NoDup_app in Hnd as [Hnd _].
  rewrite LogACKs_total in * by done. rewrite len_app in Hlen. pose proof (len_nonneg ch). apply Z.eqb_eq. lia.
Qed.
End Acknowledged.

(** ** The loops of the relay and of the echo server

    Both wait for the channel [cancel] or for a packet, and write what the
    packet gives to the other channel before they wait again; the write does
    not look at [cancel].  [Stop] closes [cancel] once. *)
Section Serve.
Context {St : Type}.
Variable handle : St -> Packet -> St * list Packet.

Record serving : Type := mkServing {
  sv_state : St;
  sv_pending : list Packet;     (* being written *)
  sv_written : list Packet;
  sv_cancel : bool;             (* [cancel] is closed *)
  sv_returned : bool
}.

Inductive serveEvent : Type := ServeCancelled | ServePacket (p : Packet) | ServeWrite | ServeStop.

Definition serveStart (st : St) : serving := mkServing st [] [] false false.

Definition serveStep (s : serving) (ev : serveEvent) : option serving :=
  match ev with
  | ServeStop => Some (mkServing (sv_state s) (sv_pending s) (sv_written s) true (sv_returned s))
  | _ =>
      if sv_returned s then None
      else
        match ev, sv_pending s with
        | ServeCancelled, [] => if sv_cancel s then Some (mkServing (sv_state s) [] (sv_written s) true true) else None
        | ServePacket p, [] =>
            let '(st, out) := handle (sv_state s) p in Some (mkServing st out (sv_written s) (sv_cancel s) false)
        | ServeWrite, q :: rest => Some (mkServing (sv_state s) rest (sv_written s ++ [q]) (sv_cancel s) false)
        | _, _ => None
        end
  end.

Definition serveRun (s : serving) (evs : list serveEvent) : option serving :=
  fold_left (fun s ev => s ← s; serveStep s ev) evs (Some s).

Fixpoint serveAll (st : St) (ps : list Packet) : list Packet :=
  match ps with [] => [] | p :: ps' => let '(st, out) := handle st p in out ++ serveAll st ps' end.
Definition stateAfter (st : St) (ps : list Packet) : St := fold_left (fun st p => fst (handle st p)) ps st.

Definition packetsIn (evs : list serveEvent) : list Packet :=
  omap (fun ev => match ev with ServePacket p => Some p | _ => None end) evs.

Lemma serveAll_app st ps qs : serveAll st (ps ++ qs) = serveAll st ps ++ serveAll (stateAfter st ps) qs.
Proof.
  revert st. induction ps as [|p ps IH]; intros st; [done|]. cbn. destruct (handle st p) as [st' out]. cbn.
  by rewrite IH, app_assoc.
Qed.

Lemma serveRun_snoc s evs ev : serveRun s (evs ++ [ev]) = (s' ← serveRun s evs; serveStep s' ev).
Proof. unfold serveRun. by rewrite fold_left_app. Qed.

(** What has been written and what is being written is what the packets taken
    from the input give, in order. *)
Lemma serve_output st evs s :
  serveRun (serveStart st) evs = Some s ->
  sv_written s ++ sv_pending s = serveAll st (packetsIn evs) /\ sv_state s = stateAfter st (packetsIn evs).
Proof.
  revert s. induction evs as [|ev evs IH] using rev_ind; intros s; [by intros [= <-]|].
  rewrite serveRun_snoc. destruct (serveRun (serveStart st) evs) as [s1|]; [|done]. cbn [mbind option_bind].
  destruct (IH s1 eq_refl) as [Ho Hs]. clear IH. unfold packetsIn. rewrite omap_app.
  change (omap _ evs) with (packetsIn evs). unfold serveStep. destruct ev; cbn [omap list_omap]; rewrite ?app_nil_r.
  - destruct (sv_returned s1); [done|]. destruct (sv_pending s1); [|done]. destruct (sv_cancel s1); by intros [= <-].
  - destruct (sv_returned s1); [done|]. destruct (sv_pending s1); [|done].
    rewrite app_nil_r in Ho. rewrite serveAll_app, <- Ho, <- Hs. unfold stateAfter. rewrite fold_left_app.
    fold (stateAfter st (packetsIn evs)). rewrite <- Hs. cbn.
    destruct (handle (sv_state s1) p) as [st' out]. intros [= <-]. cbn. by rewrite app_nil_r.
  - destruct (sv_returned s1); [done|]. destruct (sv_pending s1) as [|q rest]; [done|]. intros [= <-]. cbn.
    by rewrite <- app_assoc.
  - by intros [= <-].
Qed.

(** [Stop] can be called any number of times, at any moment; a loop that is not
    writing then returns in one step. *)
Lemma serve_stops s n :
  sv_pending s = [] -> sv_returned s = false ->
  exists s', serveRun s (replicate (S n) ServeStop ++ [ServeCancelled]) = Some s' /\ sv_returned s' = true /\
    sv_written s' = sv_written s.
Proof.
  intros Hp Hr. rewrite serveRun_snoc.
  assert (serveRun s (replicate (S n) ServeStop) = Some (mkServing (sv_state s) [] (sv_written s) true false)) as ->.
  { induction n as [|n IH]; [cbn; by rewrite Hp, Hr|]. rewrite replicate_S_end, serveRun_snoc, IH. done. }
  eexists. split; [reflexivity|]. done.
Qed.

(** A loop that waits in its write is not released by [Stop]. *)
Lemma serve_write_unguarded s q rest : sv_pending s = q :: rest -> serveStep s ServeCancelled = None.
Proof. intros Hp. cbn. rewrite Hp. by destruct (sv_returned s). Qed.
End Serve.

Definition PacketRelay_run (losses : list Z) : list serveEvent -> option serving :=
  serveRun relayStep (serveStart (makeLossMap losses)).

Definition echoStep (e : EchoServer) (p : Packet) : EchoServer * list Packet :=
  (e, [replyToPacketWithPayload (es_Local e) (es_Remote e) (Payload p) (ID p)]).

Definition EchoServer_Start (e : EchoServer) : list serveEvent -> option serving := serveRun echoStep (serveStart e).

Lemma serveAll_relay ctr ps : serveAll relayStep ctr ps = relayLoop ctr ps.
Proof. revert ctr. induction ps as [|p ps IH]; intros ctr; [done|]. cbn. by rewrite IH. Qed.

Lemma serveAll_echo e ps : serveAll echoStep e ps = EchoServer_run (es_Local e) (es_Remote e) ps.
Proof. induction ps as [|p ps IH]; [done|]. cbn. f_equal. exact IH. Qed.

(** At any moment the relay has passed on the packets it has taken less the
    losses, and the echo server has answered every packet it has taken, but for
    the one packet that is being written. *)
Theorem relay_and_echo_output losses e evs :
  (forall s, PacketRelay_run losses evs = Some s -> sv_written s ++ sv_pending s = RelayWithLosses losses (packetsIn evs)) /\
  (forall s, EchoServer_Start e evs = Some s ->
     sv_written s ++ sv_pending s = EchoServer_run (es_Local e) (es_Remote e) (packetsIn evs)).
Proof.
  split; intros s [Ho _]%serve_output; rewrite Ho; [apply serveAll_relay|apply serveAll_echo].
Qed.
