(* ===== verification/Mocks.v ===== *)
(** * internal/mocks, internal/vpntest: the mockable dialer, connection and address

    A Go interface value is a record of its methods, each a call that reads
    and changes a world [W] the closures share ([net_Conn], [net_Addr],
    [model_Dialer]).  A mock is a record of optional closures: a method calls
    its closure, and a nil closure panics.  On these interfaces stand
    [io.ReadFull] as it loops over single reads and the dialer of
    internal/networkio with its close-once wrapper.  The theorems say that a
    mock in front of a socket is transparent: [io.ReadFull] over it is
    [NetworkIO.conn_ReadFull], dialling through it picks the framing
    [NetworkIO.DialContext] picks, and its [MockClose] runs at most once. *)

From S2P Require Import Prelude Bytesx NetworkIO.

(** A method call on a shared world; what the Go function returns besides
    an error, or a panic, is the outcome. *)
Definition call (W A : Type) : Type := W -> outcome A * W.

Definition call_bind {W A B} (m : call W A) (f : A -> call W B) : call W B := fun w =>
  match m w with
  | (Ok a, w) => f a w
  | (Err e, w) => (Err e, w)
  | (Panic, w) => (Panic, w)
  end.

Definition call_ret {W A} (a : A) : call W A := fun w => (Ok a, w).

(** Calling a function value that may be nil. *)
Definition invoke {W A} (f : option (call W A)) : call W A :=
  match f with Some f => f | None => fun w => (Panic, w) end.

Definition invoke1 {W X A} (f : option (X -> call W A)) (x : X) : call W A :=
  match f with Some f => f x | None => fun w => (Panic, w) end.

(** ** The interfaces *)

Record net_Addr (W : Type) : Type := mkNetAddr {
  addr_String : call W string;
  addr_Network : call W string
}.
Arguments addr_String {W}. Arguments addr_Network {W}.

(** [Read(b)] returns the buffer as it left it, the count and the error,
    because a reader may return both; [Write(b)] the count and the error. *)
Record net_Conn (W : Type) : Type := mkNetConn {
  net_Read : list byte -> call W (list byte * Z * option error);
  net_Write : list byte -> call W (Z * option error);
  net_Close : call W unit;
  net_LocalAddr : call W (net_Addr W);
  net_RemoteAddr : call W (net_Addr W);
  net_SetDeadline : Z -> call W unit;
  net_SetReadDeadline : Z -> call W unit;
  net_SetWriteDeadline : Z -> call W unit
}.
Arguments net_Read {W}. Arguments net_Write {W}. Arguments net_Close {W}.
Arguments net_LocalAddr {W}. Arguments net_RemoteAddr {W}. Arguments net_SetDeadline {W}.
Arguments net_SetReadDeadline {W}. Arguments net_SetWriteDeadline {W}.

Record model_Dialer (W : Type) : Type := mkModelDialer {
  dial_Context : string -> string -> call W (net_Conn W)
}.
Arguments dial_Context {W}.

(** ** The mocks

    The address is the same in both packages.  The connection of
    internal/mocks has a counter besides the functions of the one of
    internal/vpntest, and its dialer a second method. *)

Section Mocks.
Context {W : Type}.

Record mockAddr : Type := mkMockAddr {
  MockString : option (call W string);
  MockNetwork : option (call W string)
}.

Record vpntestConn : Type := mkVpntestConn {
  MockRead : option (list byte -> call W (list byte * Z * option error));
  MockWrite : option (list byte -> call W (Z * option error));
  MockClose : option (call W unit);
  MockLocalAddr : option (call W (net_Addr W));
  MockRemoteAddr : option (call W (net_Addr W));
  MockSetDeadline : option (Z -> call W unit);
  MockSetReadDeadline : option (Z -> call W unit);
  MockSetWriteDeadline : option (Z -> call W unit)
}.

Record vpntestDialer : Type := mkVpntestDialer {
  MockDialContext : option (string * string -> call W (net_Conn W))
}.

Record mocksConn : Type := mkMocksConn { mock_Count : Z; mock_functions : vpntestConn }.

Record mocksDialer : Type := mkMocksDialer {
  mock_dialer : vpntestDialer;
  MockCloseIdleConnections : option (call W unit)
}.

(** [&Conn{}] and [&Dialer{}] *)
Definition nilConn : vpntestConn := mkVpntestConn None None None None None None None None.
Definition nilDialer : vpntestDialer := mkVpntestDialer None.

(** The method sets: [String] and [Network]; the eight methods of
    [net.Conn]; [DialContext] and [CloseIdleConnections]. *)
Definition asAddr (a : mockAddr) : net_Addr W := {|
  addr_String := invoke (MockString a);
  addr_Network := invoke (MockNetwork a)
|}.

Definition asConn (c : vpntestConn) : net_Conn W := {|
  net_Read := invoke1 (MockRead c);
  net_Write := invoke1 (MockWrite c);
  net_Close := invoke (MockClose c);
  net_LocalAddr := invoke (MockLocalAddr c);
  net_RemoteAddr := invoke (MockRemoteAddr c);
  net_SetDeadline := invoke1 (MockSetDeadline c);
  net_SetReadDeadline := invoke1 (MockSetReadDeadline c);
  net_SetWriteDeadline := invoke1 (MockSetWriteDeadline c)
|}.

Definition asDialer (d : vpntestDialer) : model_Dialer W := {|
  dial_Context := fun network address => invoke1 (MockDialContext d) (network, address)
|}.

Definition mocksConn_asConn (c : mocksConn) : net_Conn W := asConn (mock_functions c).
Definition mocksDialer_asDialer (d : mocksDialer) : model_Dialer W := asDialer (mock_dialer d).
Definition CloseIdleConnections (d : mocksDialer) : call W unit := invoke (MockCloseIdleConnections d).
End Mocks.
Arguments mockAddr : clear implicits.
Arguments vpntestConn : clear implicits.
Arguments vpntestDialer : clear implicits.
Arguments mocksConn : clear implicits.
Arguments mocksDialer : clear implicits.

(** [AssertPanic(t, f)]: the boolean is whether [t] has failed; the deferred
    function recovers whatever [f] raised. *)
Definition AssertPanic {W} (f : call W unit) (failed : bool) (w : W) : bool * W :=
  let '(r, w) := f w in
  (if panics r then failed else true, w).

(** ** io.ReadFull over the interface *)

(** What [io.ReadAtLeast] returns once its loop ends. *)
Definition readFull_result (buf : list byte) (n : Z) (err : option error) : list byte * Z * option error :=
  if len buf <=? n then (buf, n, None)
  else if (0 <? n) && bool_decide (err = Some ErrEOF) then (buf, n, Some ErrUnexpectedEOF)
  else (buf, n, err).

(** [for n < min && err == nil { nn, err = r.Read(buf[n:]); n += nn }];
    [None] when the fuel runs out first. *)
Fixpoint io_ReadFull {W} (fuel : nat) (c : net_Conn W) (buf : list byte) (n : Z) (w : W) :
    option (outcome (list byte * Z * option error) * W) :=
  match fuel with
  | O => None
  | S fuel' =>
      if len buf <=? n then Some (Ok (readFull_result buf n None), w)
      else match go_from buf n with
           | Ok sub =>
               match net_Read c sub w with
               | (Ok (sub, nn, None), w) => io_ReadFull fuel' c (take (Z.to_nat n) buf ++ sub) (n + nn) w
               | (Ok (sub, nn, Some e), w) =>
                   Some (Ok (readFull_result (take (Z.to_nat n) buf ++ sub) (n + nn) (Some e)), w)
               | (Err e, w) => Some (Err e, w)
               | (Panic, w) => Some (Panic, w)
               end
           | _ => Some (Panic, w)
           end
  end.

(** ** The dialer and the close-once wrapper of internal/networkio *)

Inductive framing : Type := Stream | Datagram.

(** A [closeOnceConn] under a [streamConn] or a [datagramConn]. *)
Record framedConn (W : Type) : Type := mkFramed { framed_as : framing; framed_once : bool; framed_conn : net_Conn W }.
Arguments mkFramed {W}. Arguments framed_as {W}. Arguments framed_once {W}. Arguments framed_conn {W}.

Definition framingOf (network : string) : framing :=
  if String.eqb network "udp" || String.eqb network "udp4" || String.eqb network "udp6" then Datagram else Stream.

Definition dialThrough {W} (d : model_Dialer W) (network address : string) : call W (framedConn W) :=
  call_bind (dial_Context d network address) (fun conn =>
  call_bind (net_LocalAddr conn) (fun addr =>
  call_bind (addr_Network addr) (fun n =>
  call_ret (mkFramed (framingOf n) false conn)))).

(** [once.Do] marks itself done when the function returns and also when it
    panics. *)
Definition framed_Close {W} (c : framedConn W) (w : W) : outcome unit * framedConn W * W :=
  if framed_once c then (Ok tt, c, w)
  else let '(r, w) := net_Close (framed_conn c) w in (r, mkFramed (framed_as c) true (framed_conn c), w).

Fixpoint closeTimes {W} (k : nat) (c : framedConn W) (w : W) : list (outcome unit) * W :=
  match k with
  | O => ([], w)
  | S k' =>
      let '(r, c, w) := framed_Close c w in
      let '(rs, w) := closeTimes k' c w in (r :: rs, w)
  end.

(** ** A socket behind a mock

    The world is the socket; the closures hand every call to it. *)

Definition stream_Read (b : list byte) : call conn (list byte * Z * option error) := fun c =>
  if negb (conn_open c) then (Ok (b, 0, Some ErrClosed), c)
  else match conn_in c with
       | [] => (Ok (b, 0, Some ErrEOF), c)
       | ch :: t =>
           if (length ch <=? length b)%nat then (Ok (ch ++ drop (length ch) b, len ch, None), set_in t c)
           else (Ok (take (length b) ch, len b, None), set_in (drop (length b) ch :: t) c)
       end.

Definition socket_Write (b : list byte) : call conn (Z * option error) := fun c =>
  match conn_Write b c with
  | (Ok _, c) => (Ok (len b, None), c)
  | (Err e, c) => (Ok (0, Some e), c)
  | (Panic, c) => (Panic, c)
  end.

Definition socketAddr (network : string) : net_Addr conn :=
  asAddr (mkMockAddr (Some (call_ret "1.2.3.4")) (Some (call_ret network))).

Definition socketMock (network : string) : vpntestConn conn :=
  mkVpntestConn (Some stream_Read) (Some socket_Write) (Some conn_Close)
    (Some (call_ret (socketAddr network))) None None None None.

(** The dialer replaces the world by the socket it dialled. *)
Definition socketDialer (dialed : outcome conn) : vpntestDialer conn :=
  mkVpntestDialer (Some (fun '(network, _) _ =>
    match dialed with
    | Ok c => (Ok (asConn (socketMock network)), c)
    | Err e => (Err e, mkConn [] [] false 0)
    | Panic => (Panic, mkConn [] [] false 0)
    end)).

(** The socket the dialled connection of [NetworkIO] wraps, and its framing. *)
Definition framing_of (c : streamConn + datagramConn) : framing :=
  match c with inl _ => Stream | inr _ => Datagram end.

Definition socket_of (c : streamConn + datagramConn) : closeOnceConn :=
  match c with inl c => s_conn c | inr c => d_conn c end.

(** ** Theorems *)

Definition err_outcome {A} (a : A) (e : option error) : outcome A :=
  match e with None => Ok a | Some e => Err e end.

Lemma io_ReadFull_done {W} fuel (c : net_Conn W) buf w :
  io_ReadFull (S fuel) c buf (len buf) w = Some (Ok (buf, len buf, None), w).
Proof. cbn [io_ReadFull]. unfold readFull_result. now rewrite Z.leb_refl. Qed.

(** One turn of the loop, the buffer split where the next read starts. *)
Lemma io_ReadFull_turn {W} fuel (c : net_Conn W) pre rest w :
  rest <> [] ->
  io_ReadFull (S fuel) c (pre ++ rest) (len pre) w =
  match net_Read c rest w with
  | (Ok (sub, nn, None), w) => io_ReadFull fuel c (pre ++ sub) (len pre + nn) w
  | (Ok (sub, nn, Some e), w) => Some (Ok (readFull_result (pre ++ sub) (len pre + nn) (Some e)), w)
  | (Err e, w) => Some (Err e, w)
  | (Panic, w) => Some (Panic, w)
  end.
Proof.
  intros Hr. assert (0 < len rest) by (destruct rest; [done|]; rewrite len_cons; pose proof (len_nonneg rest); lia).
  pose proof (len_nonneg pre). cbn [io_ReadFull]. rewrite go_from_Ok by (rewrite len_app; lia).
  destruct (Z.leb_spec (len (pre ++ rest)) (len pre)) as [Hle|_]; [rewrite len_app in Hle; lia|].
  assert (Hn : Z.to_nat (len pre) = length pre) by apply Nat2Z.id.
  rewrite Hn, drop_app_length, take_app_length.
  now destruct (net_Read c rest w) as [[[[sub nn] [e|]]|e|] w'].
Qed.

Lemma readFullChunks_started n chunks ch t :
  chunks = ch :: t -> (0 < n)%nat -> (length ch <= n)%nat -> forall pre : list byte,
  readFullChunks n (negb (length pre =? 0)%nat) chunks =
  (let '(r, rest) := readFullChunks (n - length ch) (negb (length (pre ++ ch) =? 0)%nat) t in (l ← r; Ok (ch ++ l), rest)).
Proof.
  intros -> Hn Hle pre. cbn [readFullChunks]. destruct (Nat.eqb_spec n 0); [lia|].
  rewrite (proj2 (Nat.leb_le _ _) Hle).
  replace (negb (length (pre ++ ch) =? 0)%nat) with (negb (length pre =? 0)%nat || negb (length ch =? 0)%nat); [done|].
  rewrite length_app. now destruct (length pre), (length ch).
Qed.

(** The loop over a socket's stream, from any point of it. *)
Lemma io_ReadFull_stream network fuel pre rest c :
  conn_open c = true -> (length (conn_in c) < fuel)%nat ->
  exists buf n err,
    io_ReadFull fuel (asConn (socketMock network)) (pre ++ rest) (len pre) c =
      Some (Ok (buf, n, err), set_in (readFullChunks (length rest) (negb (length pre =? 0)%nat) (conn_in c)).2 c) /\
    err_outcome buf err = (l ← (readFullChunks (length rest) (negb (length pre =? 0)%nat) (conn_in c)).1; Ok (pre ++ l)).
Proof.
  intros Ho Hf. destruct c as [chunks out op cl]. cbn [conn_in conn_open] in *. subst op.
  revert fuel pre rest Hf. induction chunks as [|ch t IH]; intros fuel pre rest Hf;
    (destruct fuel as [|fuel]; [cbn in Hf; lia|]);
    (destruct rest as [|r0 rest']; [rewrite app_nil_r, io_ReadFull_done; cbn; rewrite ?app_nil_r; do 3 eexists; split; [reflexivity|]; cbn; rewrite ?app_nil_r; done|]);
    set (rest := r0 :: rest'); rewrite io_ReadFull_turn by done; assert (Hpos : (0 < length rest)%nat) by (cbn; lia);
    clearbody rest; cbn [net_Read asConn MockRead socketMock invoke1 stream_Read conn_open conn_in negb].
  - unfold readFull_result. pose proof (len_nonneg pre) as H0.
    destruct (Z.leb_spec (len (pre ++ rest)) (len pre + 0)) as [Hle|_]; [rewrite len_app in Hle; unfold len in Hle; lia|].
    cbn [readFullChunks]. destruct (Nat.eqb_spec (length rest) 0); [lia|]. rewrite bool_decide_eq_true_2 by done.
    destruct (Z.ltb_spec 0 (len pre + 0)), (Nat.eqb_spec (length pre) 0); try (unfold len in *; lia); cbn; eauto 10.
  - destruct (Nat.leb_spec (length ch) (length rest)) as [Hle|Hlt].
    + rewrite (readFullChunks_started _ _ ch t eq_refl Hpos Hle pre).
      rewrite app_assoc, <- len_app. replace (length rest - length ch)%nat with (length (drop (length ch) rest)) by apply length_drop.
      destruct (IH fuel (pre ++ ch) (drop (length ch) rest) ltac:(cbn in Hf; lia)) as (buf & n & err & E & Ee).
      exists buf, n, err. unfold set_in in *. cbn [conn_out conn_open conn_closes] in *. rewrite E.
      destruct (readFullChunks _ _ t) as [[l|e|] chunks'] eqn:ER; cbn [fst snd] in *; cbn [mbind outcome_bind] in *;
        rewrite ?app_assoc; done.
    + cbn [readFullChunks]. destruct (Nat.eqb_spec (length rest) 0); [lia|].
      destruct (Nat.leb_spec (length ch) (length rest)); [lia|]. cbn in Hf. destruct fuel as [|fuel]; [lia|].
      replace (len pre + len rest) with (len (pre ++ take (length rest) ch)).
      * rewrite io_ReadFull_done. cbn. eauto 10.
      * rewrite len_app. f_equal. unfold len. rewrite length_take. lia.
Qed.

(** [io.ReadFull], looping over single reads of a mocked connection with a
    socket behind it, fills the buffer, fails and leaves the socket as
    [conn_ReadFull] says, within one turn more than there are chunks. *)
Theorem io_ReadFull_refines network fuel buf c :
  (length (conn_in c) < fuel)%nat ->
  exists buf' n err,
    io_ReadFull fuel (asConn (socketMock network)) buf 0 c = Some (Ok (buf', n, err), (conn_ReadFull (length buf) c).2) /\
    err_outcome buf' err = (conn_ReadFull (length buf) c).1.
Proof.
  intros Hf. unfold conn_ReadFull. destruct (Nat.eqb_spec (length buf) 0) as [E|E].
  { apply nil_length_inv in E as ->. destruct fuel; [lia|]. cbn. eauto. }
  destruct (conn_open c) eqn:Ho.
  - destruct (io_ReadFull_stream network fuel [] buf c Ho Hf) as (b & n & err & H1 & H2).
    exists b, n, err. cbn [negb]. change (len []) with 0 in H1. cbn [app length Nat.eqb negb] in H1, H2.
    rewrite H1, H2. destruct (readFullChunks _ _ _) as [[l|e|] rest]; done.
  - destruct fuel as [|fuel]; [lia|].
    rewrite (io_ReadFull_turn fuel _ [] buf c) by (intros ->; done).
    cbn [net_Read asConn MockRead socketMock invoke1]. unfold stream_Read. rewrite Ho. cbn [negb]. unfold readFull_result. change (len [] + 0) with 0.
    change ([] ++ buf) with buf. destruct (Z.leb_spec (len buf) 0); [unfold len in *; lia|]. cbn. eauto.
Qed.

(** Dialling through a mocked dialer and a mocked connection: the framing,
    the error and the socket are those of [NetworkIO.DialContext]. *)
Theorem dialThrough_DialContext dialed network address w :
  (dialThrough (asDialer (socketDialer dialed)) network address w).1 =
  (c ← DialContext dialed network;
   Ok (mkFramed (framing_of c) (once (socket_of c)) (asConn (socketMock network)))) /\
  (forall c, DialContext dialed network = Ok c ->
     (dialThrough (asDialer (socketDialer dialed)) network address w).2 = Conn (socket_of c)).
Proof.
  unfold dialThrough, call_bind, DialContext, framingOf. destruct dialed as [c|e|]; cbn; [|done..].
  unfold framingOf. destruct (String.eqb network "udp" || _ || _); split; try done; by intros ? [= <-].
Qed.

(** However often a dialled connection is closed, the [Close] under the
    wrapper runs once: the first call returns what it returned, the others
    nil, and the world is that of one call. *)
Theorem closeTimes_once {W} k (c : framedConn W) w :
  framed_once c = false ->
  closeTimes (S k) c w = ((net_Close (framed_conn c) w).1 :: replicate k (Ok tt), (net_Close (framed_conn c) w).2).
Proof.
  assert (Hdone : forall k kind (conn : net_Conn W) w, closeTimes k (mkFramed kind true conn) w = (replicate k (Ok tt), w)).
  { intros k' kind conn0. induction k' as [|k' IH]; intros w0; [done|]. cbn. now rewrite IH. }
  intros Ho. cbn [closeTimes]. unfold framed_Close. rewrite Ho.
  destruct (net_Close (framed_conn c) w) as [r w']. now rewrite Hdone.
Qed.

(** [AssertPanic] leaves the test as it was exactly when [f] panics. *)
Lemma AssertPanic_iff {W} (f : call W unit) w :
  (AssertPanic f false w).1 = false <-> (f w).1 = Panic.
Proof. unfold AssertPanic. destruct (f w) as [[|e|] w']; done. Qed.

(** A mock left nil where the dialer needs it: the dial panics, and one
    whose connection has no [MockClose] panics at the first [Close] only. *)
Theorem nil_mocks_panic {W} network address (addr : net_Addr W) n w :
  addr_Network addr w = (Ok n, w) ->
  (dialThrough (asDialer nilDialer) network address w).1 = Panic /\
  (dialThrough (asDialer (mkVpntestDialer (Some (fun _ => call_ret (asConn nilConn))))) network address w).1 = Panic /\
  forall c, c = asConn (mkVpntestConn None None None (Some (call_ret addr)) None None None None) ->
    dialThrough (asDialer (mkVpntestDialer (Some (fun _ => call_ret c)))) network address w =
      (Ok (mkFramed (framingOf n) false c), w) /\
    closeTimes 2 (mkFramed (framingOf n) false c) w = ([Panic; Ok tt], w).
Proof.
  intros Hn. split_and!; [done|done|]. intros c ->. split; [|done].
  unfold dialThrough, call_bind, call_ret. cbn. rewrite Hn. done.
Qed.

(** The framing test of internal/networkio: a frame in two chunks is read
    through the mock, length prefix first. *)
Example mock_reads_frame :
  let frame := [Byte.x00; Byte.x08] ++ bytes_of_string "deadbeef" in
  let c := mkConn [take 5 frame; drop 5 frame] [] true 0 in
  exists w, io_ReadFull 3 (asConn (socketMock "tcp")) (replicate 2 Byte.x00) 0 c = Some (Ok ([Byte.x00; Byte.x08], 2, None), w) /\
    io_ReadFull 3 (asConn (socketMock "tcp")) (replicate 8 Byte.x00) 0 w =
      Some (Ok (bytes_of_string "deadbeef", 8, None), mkConn [] [] true 0).
Proof. eexists. split; vm_compute; reflexivity. Qed.
