(* ===== verification/Extras.v ===== *)
(** * Small packages around the tunnel

    [Memoryless]: extras/memoryless.  [Obfs4]: the obfs4 package, with the
    obfs4 library and the URL parser as the class [ObfsLib].  [Public]:
    pkg/tunnel and the body of [StartTUN], composed of the dialer, the set-up
    of the workers and the wait for the session. *)

From S2P Require Import Prelude GoStrings GoFloat Session Sender Config NetworkIO Tun Setup.

Module Memoryless.

(** Durations are nanoseconds in 64 bits. *)
Record Config : Type := mkConfig { Expected : Z; Min : Z; Max : Z; Once : bool }.

(** [r] is what [rand.ExpFloat64()] returns. *)
Definition waittime (c : Config) (r : float64) : Z :=
  let wt := int64_of_float (f_mul r (float64_of_int (Expected c))) in
  let wt := if wt <? Min c then Min c else wt in
  if negb (Max c =? 0) && (Max c <? wt) then Max c else wt.

Definition Check (c : Config) : outcome unit :=
  if negb ((0 <=? Min c) && (Min c <=? Expected c) && ((Max c =? 0) || (Expected c <=? Max c)))
  then Err ErrBadRate else Ok tt.

(** The duration the timer is started with. *)
Definition newTimer (c : Config) (r : float64) : Z := waittime c r.

Definition NewTimer (c : Config) (r : float64) : outcome Z :=
  _ ← Check c; Ok (newTimer c r).

(** [NewTimer] rejects exactly the configurations that are not
    [0 <= Min <= Expected <= Max], a zero [Max] meaning that there is no
    maximum; every timer it makes waits at least [Min] and at most [Max],
    whatever the random number was, infinite, not a number or too large for a
    duration included. *)
Theorem timer_within_bounds c r :
  match NewTimer c r with
  | Ok wt => 0 <= Min c <= Expected c /\ (Max c <> 0 -> Expected c <= Max c) /\
             Min c <= wt /\ (Max c <> 0 -> wt <= Max c)
  | Err e => e = ErrBadRate /\ ~ (0 <= Min c <= Expected c /\ (Max c <> 0 -> Expected c <= Max c))
  | Panic => False
  end.
Proof.
  unfold NewTimer, Check, newTimer, waittime.
  destruct (Z.leb_spec 0 (Min c)), (Z.leb_spec (Min c) (Expected c)), (Z.eqb_spec (Max c) 0), (Z.leb_spec (Expected c) (Max c));
    cbn [andb orb negb mbind outcome_bind]; try (split; [done | lia]).
  all: destruct (Z.ltb_spec (int64_of_float (f_mul r (float64_of_int (Expected c)))) (Min c)).
  all: repeat match goal with |- context [?m <? ?x] => destruct (Z.ltb_spec m x) end.
  all: repeat split; intros; lia.
Qed.

(** A product that does not fit a duration waits for the minimum only. *)
Example overflow_waits_min :
  NewTimer (mkConfig MaxInt64 Second 0 false) (float64_of_int 2) = Ok Second.
Proof. vm_compute. reflexivity. Qed.

End Memoryless.

Module Obfs4.

(** What the package uses of the obfs4 library and of [net/url]: a client
    factory, its parsed arguments, and the parts of a URL. *)
Class ObfsLib : Type := {
  Factory : Type;
  Args : Type;
  Connection : Type;
  ClientFactory : string -> outcome Factory;
  ParseArgs : Factory -> list (string * list string) -> outcome Args;
  Dial : Factory -> string -> string -> Args -> outcome Connection;
  url_Parse : string -> outcome (string * string * string * list (string * list string))
}.

Section WithLib.
Context `{ObfsLib}.

Record Node : Type := mkNode { Addr : string; Host : string; Protocol : string; Values : list (string * list string) }.

Definition NewNodeFromURI (uri : string) : outcome Node :=
  '(scheme, hostname, port, query) ← url_Parse uri;
  if negb (String.eqb scheme "obfs4") then Err ErrURL
  else Ok (mkNode (JoinHostPort hostname port) hostname scheme query).

Record obfs4Context : Type := mkContext { cf : Factory; cargs : Args }.

(** The package variable [obfs4Map]. *)
Local Notation obfs4Map := (gmap string obfs4Context).

(** [url.Values.Get]: the first value, or the empty string. *)
Definition Values_Get (v : list (string * list string)) (key : string) : string :=
  match List.find (fun e => String.eqb (fst e) key) v with
  | Some (_, x :: _) => x
  | _ => ""
  end.

Definition Obfs4ClientInit (node : Node) (m : obfs4Map) : outcome unit * obfs4Map :=
  match m !! Addr node with
  | Some _ => (Err ErrObfs4, m)
  | None =>
      let stateDir := Values_Get (Values node) "state-dir" in
      let stateDir := if String.eqb stateDir "" then "." else stateDir in
      match ClientFactory stateDir with
      | Ok f =>
          match ParseArgs f (Values node) with
          | Ok args => (Ok tt, <[Addr node := mkContext f args]> m)
          | Err e => (Err e, m)
          | Panic => (Panic, m)
          end
      | Err e => (Err e, m)
      | Panic => (Panic, m)
      end
  end.

Record Dialer : Type := mkDialer { node : Node }.
Definition NewDialer (n : Node) : Dialer := mkDialer n.

(** The zero context, for an address that is not in the map, has a nil
    factory. *)
Definition dialer (nodeAddr : string) (m : obfs4Map) (network address : string) : outcome Connection :=
  match m !! nodeAddr with
  | Some oc => Dial (cf oc) network nodeAddr (cargs oc)
  | None => Panic
  end.

Definition DialContext (d : Dialer) (m : obfs4Map) (network address : string) : outcome Connection :=
  dialer (Addr (node d)) m network address.

(** A sequence of initialisations. *)
Fixpoint initAll (nodes : list Node) (m : obfs4Map) : obfs4Map :=
  match nodes with [] => m | n :: ns => initAll ns (snd (Obfs4ClientInit n m)) end.

Lemma init_keeps nodes m a oc : m !! a = Some oc -> initAll nodes m !! a = Some oc.
Proof.
  revert m. induction nodes as [|n nodes IH]; intros m Ha; [done|]. cbn [initAll]. apply IH.
  unfold Obfs4ClientInit. destruct (m !! Addr n) eqn:E; [done|].
  destruct (ClientFactory _) as [f| |]; [|done..]. destruct (ParseArgs f (Values n)); [|done..]. cbn [snd].
  rewrite lookup_insert_ne by congruence. done.
Qed.

(** Once a node was initialised, every connection of its dialer goes to
    that node with the factory and the arguments of that initialisation,
    whatever address the caller names and whatever else is initialised
    afterwards; a second initialisation of the same address is an error that
    changes nothing; and a dialer whose node was never initialised crashes. *)
Theorem dialer_uses_initialised_node n m m' others network address :
  Obfs4ClientInit n m = (Ok tt, m') ->
  (exists dir f args, dir <> "" /\ ClientFactory dir = Ok f /\ ParseArgs f (Values n) = Ok args /\
     DialContext (NewDialer n) (initAll others m') network address = Dial f network (Addr n) args) /\
  Obfs4ClientInit n (initAll others m') = (Err ErrObfs4, initAll others m') /\
  DialContext (NewDialer n) m network address = Panic.
Proof.
  unfold Obfs4ClientInit at 1. destruct (m !! Addr n) eqn:E; [done|].
  set (dir := if String.eqb _ "" then "." else _).
  assert (dir <> "") as Hdir by (unfold dir; destruct (String.eqb_spec (Values_Get (Values n) "state-dir") ""); done).
  destruct (ClientFactory dir) as [f| |] eqn:Ef; [|done..].
  destruct (ParseArgs f (Values n)) as [args| |] eqn:Ea; [|done..]. intros [= <-].
  pose proof (init_keeps others _ _ _ (lookup_insert_eq m (Addr n) (mkContext f args))) as Hk.
  unfold DialContext, dialer, Obfs4ClientInit. cbn [node NewDialer]. rewrite Hk, E. cbn [cf cargs]. split; [exists dir, f, args; auto | auto].
Qed.

End WithLib.

(** A library that dials nothing, for evaluation. *)
#[export] Instance toyObfs : ObfsLib := {|
  Factory := string;
  Args := list (string * list string);
  Connection := string * string * string;
  ClientFactory := fun dir => Ok dir;
  ParseArgs := fun _ v => Ok v;
  Dial := fun dir network address _ => Ok (dir, network, address);
  url_Parse := fun uri => Ok ("obfs4", uri, "443", [("cert", ["x"])])
|}.

Lemma dialer_uses_initialised_node_witness :
  exists n m', NewNodeFromURI "10.0.0.1" = Ok n /\ Obfs4ClientInit n ∅ = (Ok tt, m') /\
    (exists dir f args, dir <> "" /\ ClientFactory dir = Ok f /\ ParseArgs f (Values n) = Ok args /\
       DialContext (NewDialer n) (initAll [n] m') "tcp" "10.0.0.9:1194" = Dial f "tcp" "10.0.0.1:443" args) /\
    Obfs4ClientInit n (initAll [n] m') = (Err ErrObfs4, initAll [n] m') /\
    DialContext (NewDialer n) ∅ "tcp" "10.0.0.9:1194" = Panic.
Proof.
  eexists _, _. split; [reflexivity|]. split; [reflexivity|].
  apply (dialer_uses_initialised_node (mkNode "10.0.0.1:443" "10.0.0.1" "obfs4" [("cert", ["x"])]) ∅ _ [_]). reflexivity.
Defined.

End Obfs4.

Module Public.

(** What is left of the connection: both framings wrap it the same way. *)
Definition framed : Type := streamConn + datagramConn.
Definition inner (c : framed) : conn :=
  match c with inl s => underlying s | inr d => underlying d end.
Definition close (c : framed) : framed :=
  match c with inl s => inl (snd (Close s)) | inr d => inr (snd (Close d)) end.

(** [StartTUN]: [ev] is the case its select takes once the workers run; on a
    failure the tunnel, and with it the connection, is closed. *)
Definition StartTUN {D} (randomFn : RandomFn) (dc : outcome D) (network : string) (ev : startEvent) (c : framed)
  : outcome TUN * framed :=
  match launchTUN randomFn dc with
  | Ok (m, _, _, _) =>
      match StartTUN_result (StartTUN_device network m) ev with
      | (Some t, _) => (Ok t, c)
      | (None, t) => (Err ErrCannotHandshake, Nat.iter (conn_closed t) close c)
      end
  | Err e => (Err e, c)
  | Panic => (Panic, c)
  end.

(** [Start].  [dial network endpoint] is the caller's dialer: a connection and
    the network its local address reports. *)
Definition Start {L T D} (dial : string -> string -> outcome (conn * string)) (cfg : Config L T)
    (randomFn : RandomFn) (dc : outcome D) (ev : startEvent) : outcome TUN * option framed :=
  match dial (Protocol (Config_Remote cfg)) (Endpoint (Config_Remote cfg)) with
  | Ok (c, network) =>
      match NetworkIO.DialContext (Ok c) network with
      | Ok fc => let '(r, fc) := StartTUN randomFn dc network ev fc in (r, Some fc)
      | Err e => (Err e, None)
      | Panic => (Panic, None)
      end
  | Err e => (Err e, None)
  | Panic => (Panic, None)
  end.

(** Exactly the networks with datagram framing. *)
Definition isDatagram (c : framed) : bool := match c with inl _ => false | inr _ => true end.

Lemma inner_close c : conn_open (inner c) = true -> once match c with inl s => s_conn s | inr d => d_conn d end = false ->
  conn_open (inner (close c)) = false /\ conn_closes (inner (close c)) = S (conn_closes (inner c)).
Proof. destruct c as [[[o i]]|[[o i]]]; cbn; intros Ho ->; done. Qed.

(** C40: [Start] dials the remote of the configuration; it frames packets
    with a length prefix unless the connection is a datagram one; it returns a
    tunnel exactly when the session becomes ready, with the connection open; a
    handshake that fails or times out closes the connection exactly once.  An
    error while the session is created leaves the connection open, though
    nobody holds it any more. *)
Theorem start_closes_connection {L T D} dial (cfg : Config L T) randomFn (dc : D) ev c network :
  let r := Config_Remote cfg in
  dial (Protocol r) (Endpoint r) = Ok (c, network) -> conn_open c = true -> conn_closes c = 0%nat ->
  exists fc, snd (Start dial cfg randomFn (Ok dc) ev) = Some fc /\
    isDatagram fc = bool_decide (network ∈ ["udp"; "udp4"; "udp6"]) /\
    match NewManager randomFn with
    | Ok m =>
        match ev with
        | SessionReady => fst (Start dial cfg randomFn (Ok dc) ev) = Ok (StartTUN_device network m) /\ inner fc = c
        | _ => fst (Start dial cfg randomFn (Ok dc) ev) = Err ErrCannotHandshake /\
               conn_open (inner fc) = false /\ conn_closes (inner fc) = 1%nat
        end
    | Err e => fst (Start dial cfg randomFn (Ok dc) ev) = Err e /\ inner fc = c
    | Panic => fst (Start dial cfg randomFn (Ok dc) ev) = Panic
    end.
Proof.
  cbn zeta. intros Hd Ho Hc. unfold Start. rewrite Hd. unfold NetworkIO.DialContext. cbn [mbind outcome_bind].
  set (fc := if _ || _ || _ then _ else _).
  assert (isDatagram fc = bool_decide (network ∈ ["udp"; "udp4"; "udp6"])) as Hdg.
  { unfold fc. destruct (String.eqb_spec network "udp") as [->|]; [done|].
    destruct (String.eqb_spec network "udp4") as [->|]; [done|].
    destruct (String.eqb_spec network "udp6") as [->|]; [done|]. cbn [orb isDatagram].
    rewrite bool_decide_false; [done|]. rewrite !elem_of_cons, elem_of_nil. tauto. }
  assert (inner fc = c) as Hin by (unfold fc; now destruct (_ || _ || _)).
  assert (once match fc with inl s => s_conn s | inr d => d_conn d end = false) as Hon
    by (unfold fc; now destruct (_ || _ || _)).
  clearbody fc. rewrite <- Hin in Ho, Hc. destruct (inner_close fc Ho Hon) as [H1 H2]. rewrite Hc in H2.
  assert (isDatagram (close fc) = isDatagram fc) as Hcl by now destruct fc.
  unfold StartTUN. destruct (NewManager randomFn) as [m| |] eqn:Em.
  - destruct (launchTUN_manager randomFn dc m Em) as (tc & st & h & ->).
    destruct ev; cbn; [exists fc | exists (close fc)..]; cbn; rewrite ?Hcl; repeat split; done.
  - unfold launchTUN. rewrite Em. cbn. eauto.
  - unfold launchTUN. rewrite Em. cbn. eauto.
Qed.

(** A TCP connection and a server that never answers. *)
Lemma start_closes_connection_witness :
  let c := mkConn [] [] true 0 in
  let cfg := mkConfig defaultOptions tt tt in
  exists fc, snd (Start (fun _ _ => Ok (c, "tcp")) cfg sampleRandom (Ok 7) HandshakeTimeout) = Some fc /\
    isDatagram fc = false /\
    fst (Start (fun _ _ => Ok (c, "tcp")) cfg sampleRandom (Ok 7) HandshakeTimeout) = Err ErrCannotHandshake /\
    conn_open (inner fc) = false /\ conn_closes (inner fc) = 1%nat.
Proof.
  apply (start_closes_connection (fun _ _ => Ok (mkConn [] [] true 0, "tcp")) (mkConfig defaultOptions tt tt) sampleRandom 7
           HandshakeTimeout (mkConn [] [] true 0) "tcp"); reflexivity.
Defined.

End Public.
