(* ===== verification/Parrot.v ===== *)
(** * internal/tlssession: the parroted handshake

    [tlsHandshake], [defaultTLSFactory] and [parrotTLSFactory] of
    tlshandshake.go, with the ClientHello that is imitated.  The TLS library
    (uTLS) is the class [TLSLib]. *)

From S2P Require Import Prelude GoStrings.

(** [hex.DecodeString] *)
Definition fromHexChar (c : ascii) : option Z :=
  let n := Z.of_nat (nat_of_ascii c) in
  if (48 <=? n) && (n <=? 57) then Some (n - 48)
  else if (97 <=? n) && (n <=? 102) then Some (n - 97 + 10)
  else if (65 <=? n) && (n <=? 70) then Some (n - 65 + 10)
  else None.

Fixpoint DecodeString (s : string) : outcome (list byte) :=
  match s with
  | EmptyString => Ok []
  | String _ EmptyString => Err ErrStrconv
  | String a (String b s') =>
      match fromHexChar a, fromHexChar b with
      | Some x, Some y => l ← DecodeString s'; Ok (z2b (Z.lor (Z.shiftl x 4) y) :: l)
      | _, _ => Err ErrStrconv
      end
  end.

Definition vpnClientHelloHex : string :=
  "1603010114010001100303534e0a0f2687b240f7c7dfbb51c4aac33639f28173aa5d7bcebb159695ab0855208b835bf240a83df66885d6747b5bbf1b631e8c34ae469c629d7eb76e247128eb0032130213031301c02cc030009fcca9cca8ccaac02bc02f009ec024c028006bc023c0270067c00ac0140039c009c013003300ff01000095000b000403000102000a00160014001d0017001e00190018010001010102010301040016000000170000000d002a0028040305030603080708080809080a080b080408050806040105010601030303010302040205020602002b0009080304030303020301002d00020101003300260024001d0020a10bc24becb583293c317220e6725205d3a177a4a974090f6ffcf13a43da7035".

Class TLSLib : Type := {
  NetConn : Type;
  TLSConfig : Type;
  Spec : Type;
  TLSConn : Type;
  FingerprintClientHello : list byte -> outcome Spec;
  UClient : NetConn -> TLSConfig -> TLSConn;
  ApplyPreset : Spec -> TLSConn -> outcome TLSConn;
  TLSClient : NetConn -> TLSConfig -> TLSConn;
  HandshakeConn : TLSConn -> outcome TLSConn
}.

Section Factory.
Context `{TLSLib}.

Definition defaultTLSFactory (c : NetConn) (config : TLSConfig) : outcome TLSConn := Ok (TLSClient c config).

Definition parrotTLSFactory (c : NetConn) (config : TLSConfig) : outcome TLSConn :=
  raw ← rewrap ErrBadParrot (DecodeString vpnClientHelloHex);
  generatedSpec ← rewrap ErrBadParrot (FingerprintClientHello raw);
  rewrap ErrBadParrot (ApplyPreset generatedSpec (UClient c config)).

(** [tlsFactoryFn] is [parrotTLSFactory]. *)
Definition tlsHandshake (c : NetConn) (config : TLSConfig) : outcome TLSConn :=
  client ← parrotTLSFactory c config;
  rewrap ErrBadTLSHandshake (HandshakeConn client).

End Factory.

(** ** The imitated ClientHello *)

Definition clientHello : list byte := match DecodeString vpnClientHelloHex with Ok l => l | _ => [] end.

(** Read [n] bytes as a number, or a vector with a length of [n] bytes. *)
Definition takeNum (n : nat) (b : list byte) : option (Z * list byte) :=
  if (n <=? length b)%nat then Some (be_val (take n b), drop n b) else None.
Definition takeVec (n : nat) (b : list byte) : option (list byte * list byte) :=
  '(l, b) ← takeNum n b;
  if l <=? len b then Some (take (Z.to_nat l) b, drop (Z.to_nat l) b) else None.

Fixpoint pairsOf (b : list byte) : list Z :=
  match b with x :: y :: b' => be_val [x; y] :: pairsOf b' | _ => [] end.

(** The extensions, by type; each consumes four bytes at least. *)
Fixpoint extensions (fuel : nat) (b : list byte) : option (list (Z * list byte)) :=
  match b, fuel with
  | [], _ => Some []
  | _, O => None
  | _, S f => '(t, b) ← takeNum 2 b; '(body, b) ← takeVec 2 b; rest ← extensions f b; Some ((t, body) :: rest)
  end.

Record hello : Type := mkHello {
  h_version : Z; h_suites : list Z; h_compression : list byte; h_extensions : list (Z * list byte)
}.

(** A TLS record that holds one ClientHello and nothing else (RFC 8446, 4.1.2
    and 5.1). *)
Definition parseClientHello (b : list byte) : option hello :=
  '(ty, b) ← takeNum 1 b; '(_, b) ← takeNum 2 b; '(record, after) ← takeVec 2 b;
  if negb ((ty =? 22) && (length after =? 0)%nat) then None else
  '(msg, b) ← takeNum 1 record; '(body, after) ← takeVec 3 b;
  if negb ((msg =? 1) && (length after =? 0)%nat) then None else
  '(version, b) ← takeNum 2 body;
  b ← (if (32 <=? length b)%nat then Some (drop 32 b) else None);
  '(_, b) ← takeVec 1 b; '(suites, b) ← takeVec 2 b; '(compression, b) ← takeVec 1 b; '(exts, after) ← takeVec 2 b;
  if negb (length after =? 0)%nat then None else
  exts ← extensions (length exts) exts; Some (mkHello version (pairsOf suites) compression exts).

(** The captured bytes that [parrotTLSFactory] imitates are valid
    hexadecimal and exactly one TLS record with one ClientHello, whose lengths
    add up; it offers TLS 1.3 and 1.2 as [initTLS] does, no compression and no
    server name, and no extension twice.  So the factory can only fail where the
    TLS library does. *)
Theorem parrot_hello_wellformed :
  exists h, DecodeString vpnClientHelloHex = Ok clientHello /\ len clientHello = 281 /\
    parseClientHello clientHello = Some h /\ h_version h = 771 /\ h_compression h = [Byte.x00] /\
    NoDup (map fst (h_extensions h)) /\ 0 ∉ map fst (h_extensions h) /\
    (exists b, (43, b) ∈ h_extensions h /\ [772; 771] = take 2 (pairsOf (drop 1 b))) /\
    length (h_suites h) = 25%nat /\
    forall `{TLSLib} c config,
      parrotTLSFactory c config =
        (spec ← rewrap ErrBadParrot (FingerprintClientHello clientHello);
         rewrap ErrBadParrot (ApplyPreset spec (UClient c config))).
Proof.
  eexists. split; [vm_compute; reflexivity|]. split; [vm_compute; reflexivity|]. split; [vm_compute; reflexivity|].
  cbn [h_version h_suites h_compression h_extensions]. split; [reflexivity|]. split; [reflexivity|].
  split; [apply (bool_decide_unpack _); vm_compute; exact I|].
  split; [apply (bool_decide_unpack _); vm_compute; exact I|].
  split; [|split; [reflexivity|]].
  - eexists. split; [apply list_elem_of_In; cbn; tauto|vm_compute; reflexivity].
  - intros. unfold parrotTLSFactory.
    assert (DecodeString vpnClientHelloHex = Ok clientHello) as -> by (vm_compute; reflexivity). done.
Qed.
