(* ===== verification/Command.v ===== *)
(** * cmd/minivpn

    [main] of main.go with the helpers of iface.go, and [NetMask] of tun.go:
    what the command does depending on its flags, and the addresses it hands to
    ip(8) and route(8).  A run is the list of its actions; what the operating
    system and the libraries answer is an argument.

    [net.IP] and [net.IPMask] are byte slices, nil is the empty one.  The
    parser and the printer of the IPv6 notation are the class [IPv6Text]. *)

From S2P Require Import Prelude Packet GoStrings GoFmt Session ReadBuffer Tun.

(** ** What the command uses of package net *)

Class IPv6Text : Type := {
  parseIPv6 : string -> option (list byte);
  printIPv6 : list byte -> string;
  printHex : list byte -> string
}.

(** One field of the dotted notation: one to three digits without a leading
    zero, at most 255. *)
Definition parseField (s : string) : option Z :=
  match s with
  | EmptyString => None
  | String c t =>
      if Ascii.eqb c "0" && negb (String.eqb t "") then None
      else v ← digits_val 0 s; if v <=? 255 then Some v else None
  end.

Definition v4InV6Prefix : list byte := replicate 10 Byte.x00 ++ [Byte.xff; Byte.xff].

(** The first of [.], [:] and [%] decides how the text is read. *)
Fixpoint addrKind (s : string) : option ascii :=
  match s with
  | EmptyString => None
  | String c s' => if Ascii.eqb c "." || Ascii.eqb c ":" || Ascii.eqb c "%" then Some c else addrKind s'
  end.

Section Net.
Context `{IPv6Text}.

(** [net.ParseIP]: sixteen bytes, or nil. *)
Definition ParseIP (s : string) : list byte :=
  match addrKind s with
  | Some c =>
      if Ascii.eqb c "." then
        match mapM parseField (Split "." s) with
        | Some [a; b; c; d] => v4InV6Prefix ++ map z2b [a; b; c; d]
        | _ => []
        end
      else if Ascii.eqb c ":" then default [] (parseIPv6 s) else []
  | None => []
  end.

Definition To4 (ip : list byte) : list byte :=
  if (length ip =? 4)%nat then ip
  else if (length ip =? 16)%nat && bytes_equal (take 12 ip) v4InV6Prefix then drop 12 ip
  else [].

Definition dotted (l : list byte) : string := Join "." (map (fun b => Itoa (b2z b)) l).

(** [IP.String] *)
Definition IP_String (ip : list byte) : string :=
  if (length ip =? 0)%nat then "<nil>"
  else if negb (length (To4 ip) =? 0)%nat then dotted (To4 ip)
  else if (length ip =? 16)%nat then printIPv6 ip
  else "?" +:+ printHex ip.

Definition byte_and (x y : byte) : byte := z2b (Z.land (b2z x) (b2z y)).

(** [IP.Mask] *)
Definition IP_Mask (ip mask : list byte) : list byte :=
  let mask := if (length mask =? 16)%nat && (length ip =? 4)%nat && forallb (fun b => b2z b =? 255) (take 12 mask)
              then drop 12 mask else mask in
  let ip := if (length mask =? 4)%nat && (length ip =? 16)%nat && bytes_equal (take 12 ip) v4InV6Prefix
            then drop 12 ip else ip in
  if negb (length ip =? length mask)%nat then [] else zip_with byte_and ip mask.

(** The number of leading ones, when no one follows a zero. *)
Fixpoint onesThenZeros (bits : list bool) : option Z :=
  match bits with
  | [] => Some 0
  | true :: bits' => n ← onesThenZeros bits'; Some (n + 1)
  | false :: bits' => if forallb negb bits' then Some 0 else None
  end.

Definition bitsOf (b : byte) : list bool := map (fun i => Z.testbit (b2z b) i) [7; 6; 5; 4; 3; 2; 1; 0].
Definition simpleMaskLength (m : list byte) : option Z := onesThenZeros (concat (map bitsOf m)).

(** [IPNet.String] *)
Definition IPNet_String (ip mask : list byte) : string :=
  let nn := if (length (To4 ip) =? 0)%nat then ip else To4 ip in
  let m := if (length mask =? 16)%nat && (length nn =? 4)%nat then drop 12 mask else mask in
  if negb ((length nn =? 4)%nat || (length nn =? 16)%nat) then "<nil>"
  else if negb ((length m =? 4)%nat && (length nn =? 4)%nat || (length m =? 16)%nat) then "<nil>"
  else match simpleMaskLength m with
       | Some l => IP_String nn +:+ "/" +:+ Itoa l
       | None => IP_String nn +:+ "/" +:+ printHex m
       end.

(** [TUN.NetMask] *)
Definition TUN_NetMask (t : TUN) : list byte := ParseIP (NetMask (GetTunnelInfo (tun_session t))).

(** The network of the routes. *)
Definition routeNetwork (localAddr : string) (netMask : list byte) : string :=
  IPNet_String (IP_Mask (ParseIP localAddr) netMask) netMask.

End Net.

(** ** Addresses in dotted notation *)

Lemma parseField_byte b : parseField (Itoa (b2z b)) = Some (b2z b).
Proof. destruct b; vm_compute; reflexivity. Qed.

Lemma addrKind_dot s t :
  no_char "." s = true -> no_char ":" s = true -> no_char "%" s = true -> addrKind (s +:+ String "." t) = Some "."%char.
Proof.
  induction s as [|c s IH]; [done|]. change (String c s +:+ String "." t) with (String c (s +:+ String "." t)).
  cbn [no_char addrKind]. intros [H1 H1']%andb_true_iff [H2 H2']%andb_true_iff [H3 H3']%andb_true_iff.
  apply negb_true_iff in H1, H2, H3. rewrite H1, H2, H3. now apply IH.
Qed.

Lemma ParseIP_dotted `{IPv6Text} a b c d : ParseIP (dotted [a; b; c; d]) = v4InV6Prefix ++ [a; b; c; d].
Proof.
  assert (dotted [a; b; c; d] = Itoa (b2z a) +:+ String "." (Itoa (b2z b) +:+ String "." (Itoa (b2z c) +:+ String "." (Itoa (b2z d))))) as ->
    by reflexivity.
  unfold ParseIP. rewrite addrKind_dot by now apply Itoa_no_char.
  change (Ascii.eqb "." ".") with true. cbn iota.
  rewrite !Split_app by now apply Itoa_no_char. rewrite Split_no_char by now apply Itoa_no_char.
  cbn [mapM]. rewrite !parseField_byte. cbn -[v4InV6Prefix]. now rewrite !z2b_b2z.
Qed.

Lemma To4_mapped l : length l = 4%nat -> To4 (v4InV6Prefix ++ l) = l.
Proof. intros Hl. destruct l as [|a [|b [|c [|d [|]]]]]; try done. Qed.

(** The mask with [n] ones. *)
Definition prefixMask (n : Z) : list byte := be_bytes 4 (2 ^ 32 - 2 ^ (32 - n)).

Lemma length_prefixMask n : length (prefixMask n) = 4%nat.
Proof. apply length_be_bytes. Qed.

Lemma prefixMask_length n : 0 <= n <= 32 -> simpleMaskLength (prefixMask n) = Some n.
Proof.
  intros Hn. assert (Forall (fun n => simpleMaskLength (prefixMask n) = Some n) (seqZ 0 33)) as H.
  { apply (bool_decide_unpack _). vm_compute. exact I. }
  rewrite Forall_forall in H. apply H, elem_of_seqZ. lia.
Qed.

(** The routed network is the address with the bits below the mask cleared,
    and the length of the mask. *)
Lemma routeNetwork_dotted `{IPv6Text} ip n :
  length ip = 4%nat -> 0 <= n <= 32 ->
  routeNetwork (dotted ip) (ParseIP (dotted (prefixMask n))) =
    dotted (zip_with byte_and ip (prefixMask n)) +:+ "/" +:+ Itoa n.
Proof.
  intros Hip Hn. pose proof (length_prefixMask n) as Hm. pose proof (prefixMask_length n Hn) as Hs. revert Hm Hs.
  generalize (prefixMask n) as m. intros m Hm Hs.
  destruct ip as [|a [|b [|c [|d [|]]]]]; try done. destruct m as [|p [|q [|r [|t [|]]]]]; try done.
  unfold routeNetwork. rewrite !ParseIP_dotted.
  assert (IP_Mask (v4InV6Prefix ++ [a; b; c; d]) (v4InV6Prefix ++ [p; q; r; t]) =
          v4InV6Prefix ++ zip_with byte_and [a; b; c; d] [p; q; r; t]) as -> by reflexivity.
  unfold IPNet_String. rewrite To4_mapped by done. cbn [zip_with length Nat.eqb negb].
  change (length (v4InV6Prefix ++ [p; q; r; t]) =? 16)%nat with true. cbn [andb orb negb].
  change (drop 12 (v4InV6Prefix ++ [p; q; r; t])) with [p; q; r; t]. cbn [length Nat.eqb andb orb negb].
  rewrite Hs. reflexivity.
Qed.

(** ** The command *)

(** What the system says of one network interface. *)
Record interface : Type := mkInterface { if_name : string; if_addrs : outcome (list (string * bool)) }.

(** [getInterfaceByIP]: an address is its text and whether it is a loopback
    address. *)
Fixpoint findInterface (ipAddr : string) (l : list interface) : outcome interface :=
  match l with
  | [] => Err ErrExternal
  | i :: l' =>
      addrs ← if_addrs i;
      if existsb (fun a => negb (snd a) && String.eqb (fst a) ipAddr) addrs then Ok i else findInterface ipAddr l'
  end.

Definition getInterfaceByIP (interfaces : outcome (list interface)) (ipAddr : string) : outcome interface :=
  l ← interfaces; findInterface ipAddr l.

Record cmdConfig : Type := mkCmdConfig {
  configPath : string; doPing : bool; doTrace : bool; skipRoute : bool; timeout : Z
}.

(** What happens around the command: [env_start] is the result of
    [tunnel.Start] and [env_ping] that of the pinger; [env_iface] is the name of
    the interface [water.New] opened. *)
Record environment : Type := mkEnvironment {
  env_start : outcome TUN;
  env_ping : outcome unit;
  env_iface : outcome string;
  env_gateway : outcome (list byte);
  env_interfaceIP : outcome (list byte);
  env_interfaces : outcome (list interface);
  env_remote : string
}.

(** [Relay] is the pair of goroutines that move packets between the tunnel and
    the interface. *)
Inductive action : Type :=
  | RunIP (args : list string)
  | RunRoute (args : list string)
  | WriteTrace
  | Relay (iface : string)
  | ExitWith (code : Z)
  | Crash
  | Return.

Section Main.
Context `{IPv6Text}.

Definition orNil (r : outcome (list byte)) : list byte := match r with Ok ip => ip | _ => [] end.

(** The commands that set up the interface and the routes. *)
Definition routeCommands (env : environment) (t : TUN) (iface : string) : list action :=
  let localAddr := fst (LocalAddr t) in
  let remoteAddr := fst (RemoteAddr t) in
  let netMask := TUN_NetMask t in
  let gw := orNil (env_gateway env) in
  (if negb (length gw =? 0)%nat then
     match getInterfaceByIP (env_interfaces env) (IP_String (orNil (env_interfaceIP env))) with
     | Ok i => [RunRoute ["add"; env_remote env; "gw"; IP_String gw; if_name i]]
     | _ => []
     end
   else []) ++
  [RunIP ["addr"; "add"; localAddr; "dev"; iface];
   RunIP ["link"; "set"; "dev"; iface; "up"];
   RunRoute ["add"; remoteAddr; "gw"; localAddr];
   RunRoute ["add"; "-net"; routeNetwork localAddr netMask; "dev"; iface];
   RunIP ["route"; "add"; "default"; "via"; remoteAddr; "dev"; iface]].

(** [log.Fatal] exits with 1.  The trace is written by a deferred call: when
    [main] returns or panics, not when it exits. *)
Definition main (cfg : cmdConfig) (env : environment) : list action :=
  let traced := if doTrace cfg then [WriteTrace] else [] in
  if String.eqb (configPath cfg) "" then [ExitWith 1]
  else match env_start env with
       | Ok t =>
           if doTrace cfg then traced ++ [Return]
           else if doPing cfg then [ExitWith (match env_ping env with Ok _ => 0 | _ => 1 end)]
           else if skipRoute cfg then [ExitWith 0]
           else match env_iface env with
                | Ok iface => routeCommands env t iface ++ [Relay iface]
                | _ => [Crash]
                end
       | Err _ => traced ++ [Return]
       | Panic => traced ++ [Crash]
       end.

Definition touchesSystem (a : action) : bool :=
  match a with RunIP _ | RunRoute _ | Relay _ => true | _ => false end.

Lemma routeCommands_net env t iface :
  In (RunRoute ["add"; "-net"; routeNetwork (fst (LocalAddr t)) (TUN_NetMask t); "dev"; iface]) (routeCommands env t iface).
Proof. unfold routeCommands. apply in_or_app. right. cbn. tauto. Qed.

(** The command changes the system's interfaces and routes only when it
    has a configuration, the tunnel started, the interface could be opened and
    none of the testing flags is given; it then routes through the tunnel the network
    that the pushed address and mask describe, in the notation of route(8).  If
    the server pushed no mask, the network it names is the text of a nil
    address. *)
Theorem routes_pushed_network cfg env :
  (existsb touchesSystem (main cfg env) = true <->
     configPath cfg <> "" /\ doTrace cfg = false /\ doPing cfg = false /\ skipRoute cfg = false /\
     (exists t, env_start env = Ok t) /\ exists iface, env_iface env = Ok iface) /\
  forall t iface ip,
    existsb touchesSystem (main cfg env) = true -> env_start env = Ok t -> env_iface env = Ok iface ->
    fst (LocalAddr t) = dotted ip -> length ip = 4%nat ->
    (forall n, 0 <= n <= 32 -> NetMask (GetTunnelInfo (tun_session t)) = dotted (prefixMask n) ->
       In (RunRoute ["add"; "-net"; dotted (zip_with byte_and ip (prefixMask n)) +:+ "/" +:+ Itoa n; "dev"; iface])
         (main cfg env)) /\
    (NetMask (GetTunnelInfo (tun_session t)) = "" ->
       In (RunRoute ["add"; "-net"; "<nil>"; "dev"; iface]) (main cfg env)).
Proof.
  assert (existsb touchesSystem (main cfg env) = true ->
     configPath cfg <> "" /\ doTrace cfg = false /\ doPing cfg = false /\ skipRoute cfg = false /\
     (exists t, env_start env = Ok t) /\ exists iface, env_iface env = Ok iface) as Hto.
  { unfold main. destruct (String.eqb_spec (configPath cfg) ""); [done|].
    destruct (env_start env) as [t| |]; [|destruct (doTrace cfg); done..].
    destruct (doTrace cfg); [done|]. destruct (doPing cfg); [done|]. destruct (skipRoute cfg); [done|].
    destruct (env_iface env) as [i| |]; [eauto 10 | done..]. }
  assert (forall t iface, existsb touchesSystem (main cfg env) = true -> env_start env = Ok t -> env_iface env = Ok iface ->
            main cfg env = routeCommands env t iface ++ [Relay iface]) as Hmain.
  { intros t iface (H1 & H2 & H3 & H4 & _)%Hto Ht Hi. unfold main. rewrite Ht, Hi, H2, H3, H4.
    now destruct (String.eqb_spec (configPath cfg) ""). }
  split; [split; [done|]|].
  - intros (H1 & H2 & H3 & H4 & [t Ht] & [i Hi]). unfold main. rewrite Ht, Hi, H2, H3, H4.
    destruct (String.eqb_spec (configPath cfg) ""); [done|]. apply existsb_exists. exists (Relay i). split; [|done].
    apply in_or_app. right. now left.
  - intros t iface ip Hs Ht Hi Hip Hlen. rewrite (Hmain t iface) by done.
    pose proof (routeCommands_net env t iface) as Hin. unfold TUN_NetMask in Hin. split.
    + intros n Hn Hm. rewrite Hm, Hip, routeNetwork_dotted in Hin by done. apply in_or_app. now left.
    + intros Hm. rewrite Hm in Hin. assert (routeNetwork (fst (LocalAddr t)) (ParseIP "") = "<nil>") as Hnil.
      { rewrite Hip. destruct ip as [|a [|b [|c [|d [|]]]]]; try done. unfold routeNetwork. now rewrite ParseIP_dotted. }
      rewrite Hnil in Hin. apply in_or_app. now left.
Qed.

End Main.

(** Evaluation without IPv6. *)
#[export] Instance noIPv6 : IPv6Text := {|
  parseIPv6 := fun _ => None; printIPv6 := fun _ => ""; printHex := fun _ => ""
|}.

Definition sampleTUN (mask : string) : TUN :=
  newTUN "udp" (set_tunnelInfo (mkTunnelInfo "10.8.3.1" "10.8.3.77" 1500 mask 0) sampleManager).
Definition sampleEnv (mask : string) : environment :=
  mkEnvironment (Ok (sampleTUN mask)) (Ok tt) (Ok "tun0") (Err ErrOS) (Err ErrOS) (Ok []) "192.0.2.1".

Lemma routes_pushed_network_witness :
  existsb touchesSystem (main (mkCmdConfig "vpn.conf" false false false 60) (sampleEnv "255.255.254.0")) = true /\
  In (RunRoute ["add"; "-net"; "10.8.2.0/23"; "dev"; "tun0"])
    (main (mkCmdConfig "vpn.conf" false false false 60) (sampleEnv "255.255.254.0")).
Proof.
  destruct (routes_pushed_network (mkCmdConfig "vpn.conf" false false false 60) (sampleEnv "255.255.254.0")) as [[_ H1] H2].
  assert (existsb touchesSystem (main (mkCmdConfig "vpn.conf" false false false 60) (sampleEnv "255.255.254.0")) = true) as Hs.
  { apply H1. repeat split; [discriminate|eexists; reflexivity..]. }
  split; [exact Hs|].
  apply (proj1 (H2 (sampleTUN "255.255.254.0") "tun0" [z2b 10; z2b 8; z2b 3; z2b 77] Hs eq_refl eq_refl eq_refl eq_refl) 23);
    [lia | reflexivity].
Defined.

(** No mask was pushed. *)
Example nil_route :
  main (mkCmdConfig "vpn.conf" false false false 60) (sampleEnv "") =
    [RunIP ["addr"; "add"; "10.8.3.77"; "dev"; "tun0"]; RunIP ["link"; "set"; "dev"; "tun0"; "up"];
     RunRoute ["add"; "10.8.3.1"; "gw"; "10.8.3.77"]; RunRoute ["add"; "-net"; "<nil>"; "dev"; "tun0"];
     RunIP ["route"; "add"; "default"; "via"; "10.8.3.1"; "dev"; "tun0"]; Relay "tun0"].
Proof. vm_compute. reflexivity. Qed.

(** ** The packets between the interface and the tunnel

    Both goroutines use a buffer of 2000 bytes.  The one that reads from the
    interface does not look at the result of [tun.Write]; the other exits on an
    error of [tun.Read].  [Exited] stands for [log.Fatal]. *)

Definition packetBuffer : nat := 2000.

Inductive relayEnd : Type := Waiting | Exited.

(** [k] iterations of the goroutine that writes to the interface: the packets
    it wrote. *)
Fixpoint copyToIface (k : nat) (now : Z) (t : TUN) (tunUp : list (list byte))
  : list (list byte) * relayEnd * TUN * list (list byte) :=
  match k with
  | O => ([], Waiting, t, tunUp)
  | S k' =>
      match TUN_Read packetBuffer now Never t tunUp with
      | (Data b, t, tunUp) =>
          let '(out, e, t, tunUp) := copyToIface k' now t tunUp in (b :: out, e, t, tunUp)
      | (Failed _, t, tunUp) => ([], Exited, t, tunUp)
      | (Blocked, t, tunUp) => ([], Waiting, t, tunUp)
      end
  end.

(** One iteration of the other, which has read [packet] from the interface;
    [None] when the chosen case of [tun.Write] is not enabled. *)
Definition copyToTun (now : Z) (case : writeCase) (packet : list byte) (t : TUN) : option TUN :=
  '(_, t) ← TUN_Write (take packetBuffer packet) now case t; Some t.

Lemma readLoop_slice n p pending :
  (0 < length p <= n)%nat -> readLoop n Never [] (p :: pending) = (Data p, [], pending).
Proof.
  intros Hp. cbn [readLoop length]. rewrite andb_false_r. cbn [tick].
  assert (forall q, readLoop n Never p q = (Data p, [], q)) as ->; [|done].
  intros q. destruct q; cbn [readLoop]; rewrite !(proj2 (Nat.ltb_lt _ _)) by lia; cbn [andb]; by rewrite take_ge, drop_ge by lia.
Qed.

Lemma with_buffer_self b t : readBuffer t = b -> with_buffer b t = t.
Proof. intros <-. by destruct t. Qed.

(** Payloads that fit the buffer reach the interface one by one, as they came
    up the tunnel: although the tunnel is read as a stream, none is cut and no
    two are joined. *)
Theorem copy_keeps_packets now t tunUp :
  readBuffer t = [] -> expired now (readDeadline t) = false ->
  Forall (fun p => (0 < length p <= packetBuffer)%nat) tunUp ->
  copyToIface (length tunUp) now t tunUp = (tunUp, Waiting, t, []).
Proof.
  intros Hb He Hall. induction Hall as [|p tunUp Hp Hall IH]; [done|]. cbn [length copyToIface].
  unfold TUN_Read. rewrite He, Hb, readLoop_slice by done. by rewrite with_buffer_self, IH.
Qed.

(** A longer payload is written to the interface in two pieces. *)
Lemma copy_cuts_long_packet now t p :
  readBuffer t = [] -> expired now (readDeadline t) = false -> (packetBuffer < length p <= 2 * packetBuffer)%nat ->
  copyToIface 2 now t [p] = ([take packetBuffer p; drop packetBuffer p], Waiting, t, []).
Proof.
  intros Hb He Hp. cbn [copyToIface]. unfold TUN_Read at 1. rewrite He, Hb.
  assert (readLoop packetBuffer Never [] [p] = (Data (take packetBuffer p), drop packetBuffer p, [])) as ->.
  { cbn [readLoop length]. rewrite andb_false_r. cbn [tick app].
    rewrite !(proj2 (Nat.ltb_lt _ _)) by (unfold packetBuffer in *; lia). done. }
  unfold TUN_Read. cbn [with_buffer readDeadline readBuffer]. rewrite He.
  assert (readLoop packetBuffer Never (drop packetBuffer p) [] = (Data (drop packetBuffer p), [], [])) as ->.
  { cbn [readLoop]. rewrite !(proj2 (Nat.ltb_lt _ _)) by (rewrite ?length_drop; unfold packetBuffer in *; lia).
    cbn [andb]. rewrite take_ge, (drop_ge (drop packetBuffer p)) by (rewrite length_drop; lia). done. }
  destruct t. cbn in *. by subst.
Qed.

(** ** The name of the trace file *)

Record date : Type := mkDate { year : Z; month : Z; day : Z; hour : Z; minute : Z; second : Z }.

Definition padZero (w : nat) (n : Z) : string :=
  let s := Itoa n in Nat.iter (w - String.length s) (String "0") s.

(** The elements of a layout of [time.Time.Format] without names, zones and
    fractions; what is not an element is copied. *)
Inductive stdChunk : Type := StdYear | StdMonth | StdDay | StdHour | StdMinute | StdSecond | Literal (c : ascii).

Definition stdChunks : list (string * stdChunk) :=
  [("2006", StdYear); ("01", StdMonth); ("02", StdDay); ("15", StdHour); ("04", StdMinute); ("05", StdSecond)].

(** [skip] characters of an element that was recognised are left. *)
Fixpoint layoutChunks (skip : nat) (layout : string) : list stdChunk :=
  match layout, skip with
  | "", _ => []
  | String _ rest, S skip' => layoutChunks skip' rest
  | String c rest, O =>
      match List.find (fun e => String.prefix (fst e) layout) stdChunks with
      | Some (std, chunk) => chunk :: layoutChunks (String.length std - 1) rest
      | None => Literal c :: layoutChunks 0 rest
      end
  end.

Definition showChunk (d : date) (c : stdChunk) : string :=
  match c with
  | StdYear => padZero 4 (year d)
  | StdMonth => padZero 2 (month d)
  | StdDay => padZero 2 (day d)
  | StdHour => padZero 2 (hour d)
  | StdMinute => padZero 2 (minute d)
  | StdSecond => padZero 2 (second d)
  | Literal c => String c ""
  end.

Definition Format (d : date) (layout : string) : string :=
  foldr (fun c s => showChunk d c +:+ s) "" (layoutChunks 0 layout).

Definition traceLayout : string := "2006-01-02-15:05:00".

Definition traceFileName (d : date) : string := "handshake-trace-" +:+ Format d traceLayout +:+ ".json".

Example traceFileName_example : traceFileName (mkDate 2024 3 9 17 42 5) = "handshake-trace-2024-03-09-17:05:00.json".
Proof. reflexivity. Qed.

(** The layout has no minutes: traces taken in one hour, at the same second of
    their minutes, have one name, and the later overwrites the earlier. *)
Lemma traceFileName_no_minutes y mo d h mi mi' s :
  traceFileName (mkDate y mo d h mi s) = traceFileName (mkDate y mo d h mi' s).
Proof. reflexivity. Qed.
