(* ===== verification/Flags.v ===== *)
(** * The command line of cmd/minivpn

    [flag.Parse] of the standard library on the five flags that [main] defines,
    with [strconv.ParseBool] and [strconv.ParseInt] in base 0, and the exit
    codes of the command.  A flag set is the list of its flags; [Set] of a flag
    is a function on the configuration that may refuse the text. *)

From S2P Require Import Prelude Packet GoStrings GoFmt Session Tun Command.

(** ** strconv *)

Definition ParseBool (s : string) : option bool :=
  if existsb (String.eqb s) ["1"; "t"; "T"; "true"; "TRUE"; "True"] then Some true
  else if existsb (String.eqb s) ["0"; "f"; "F"; "false"; "FALSE"; "False"] then Some false
  else None.

Definition lower (c : ascii) : Z := Z.lor (Z.of_nat (nat_of_ascii c)) 32.

(** The value of a digit or a letter. *)
Definition alnum_val (c : ascii) : option Z :=
  if is_digit c then Some (digit_val c)
  else if (97 <=? lower c) && (lower c <=? 122) then Some (lower c - 97 + 10)
  else None.

(** The loop of [ParseUint]: the value, or nothing for a character that is not
    a digit of the base; underscores are skipped. *)
Fixpoint uintLoop (base acc : Z) (s : string) : option Z :=
  match s with
  | EmptyString => Some acc
  | String c s' =>
      if Ascii.eqb c "_" then uintLoop base acc s'
      else d ← alnum_val c; if base <=? d then None else uintLoop base (acc * base + d) s'
  end.

(** [underscoreOK] after the sign: underscores stand between digits, the base
    prefix counting as one.  [saw] is the kind of the character before. *)
Inductive sawKind : Type := SawBegin | SawDigit | SawUnderscore | SawOther.

Fixpoint underscoreLoop (hex : bool) (saw : sawKind) (s : string) : bool :=
  match s with
  | EmptyString => match saw with SawUnderscore => false | _ => true end
  | String c s' =>
      if is_digit c || hex && (97 <=? lower c) && (lower c <=? 102) then underscoreLoop hex SawDigit s'
      else if Ascii.eqb c "_" then
        match saw with SawDigit => underscoreLoop hex SawUnderscore s' | _ => false end
      else match saw with SawUnderscore => false | _ => underscoreLoop hex SawOther s' end
  end.

Definition underscoreOK (s : string) : bool :=
  match s with
  | String z (String p s') =>
      if Ascii.eqb z "0" && ((lower p =? 98) || (lower p =? 111) || (lower p =? 120))
      then underscoreLoop (lower p =? 120) SawDigit s'
      else underscoreLoop false SawBegin s
  | _ => underscoreLoop false SawBegin s
  end.

(** [ParseUint(s, 0, 64)] without the range check: the base prefix decides. *)
Definition ParseUint0 (s : string) : option Z :=
  let r :=
    match s with
    | EmptyString => None
    | String z rest =>
        if Ascii.eqb z "0" then
          match rest with
          | String p (String _ _ as digits) =>
              if lower p =? 98 then uintLoop 2 0 digits
              else if lower p =? 111 then uintLoop 8 0 digits
              else if lower p =? 120 then uintLoop 16 0 digits
              else uintLoop 8 0 rest
          | _ => uintLoop 8 0 rest
          end
        else uintLoop 10 0 s
    end in
  if existsb (fun c => Ascii.eqb c "_") (String.list_ascii_of_string s) && negb (underscoreOK s) then None else r.

(** [ParseInt(s, 0, 64)]; an error whatever its kind is [None]. *)
Definition ParseInt0 (s : string) : option Z :=
  let '(neg, body) :=
    match s with
    | String c s' => if Ascii.eqb c "+" then (false, s') else if Ascii.eqb c "-" then (true, s') else (false, s)
    | EmptyString => (false, s)
    end in
  un ← ParseUint0 body;
  if neg : bool then if 2 ^ 63 <? un then None else Some (- un)
  else if 2 ^ 63 <=? un then None else Some un.

(** ** The flag package *)

(** A flag of a flag set over the variables [V]. *)
Record Flag (V : Type) : Type := mkFlag { flag_name : string; isBoolFlag : bool; flag_Set : string -> V -> option V }.
Arguments mkFlag {V} _ _ _.
Arguments flag_name {V} _.
Arguments isBoolFlag {V} _.
Arguments flag_Set {V} _ _ _.

(** The result of [Parse] with [flag.ExitOnError]: the remaining arguments, or
    the code it exits with. *)
Inductive parsed (V : Type) : Type :=
  | Parsed (v : V) (args : list string)
  | Exit (code : Z).
Arguments Parsed {V} _ _.
Arguments Exit {V} _.

(** The part of [name] before the first [=] that is not its first character,
    and the value behind it. *)
Fixpoint cutEquals (name : string) : string * option string :=
  match name with
  | EmptyString => ("", None)
  | String c name' => if Ascii.eqb c "=" then ("", Some name') else let '(n, v) := cutEquals name' in (String c n, v)
  end.

(** The name without its minus signs: [None] when the argument is no flag,
    and an error for a name that is empty or starts with [-] or [=]. *)
Inductive flagText : Type := NotAFlag | Terminator | BadSyntax | FlagText (name : string) (value : option string).

Definition readFlag (s : string) : flagText :=
  match s with
  | String m (String _ _ as rest) =>
      if negb (Ascii.eqb m "-") then NotAFlag
      else if String.eqb rest "-" then Terminator
      else
        let name := match rest with String c name => if Ascii.eqb c "-" then name else rest | "" => "" end in
        match name with
        | EmptyString => BadSyntax
        | String c t =>
            if Ascii.eqb c "-" || Ascii.eqb c "=" then BadSyntax
            else let '(n, v) := cutEquals t in FlagText (String c n) v
        end
  | _ => NotAFlag
  end.

Section FlagSet.
Context {V : Type}.
Variable formal : list (Flag V).

(** [Parse] with the loop over [parseOne].  Each call takes one or two
    arguments. *)
Fixpoint Parse (args : list string) (v : V) : parsed V :=
  match args with
  | [] => Parsed v []
  | s :: rest =>
      match readFlag s with
      | NotAFlag => Parsed v args
      | Terminator => Parsed v rest
      | BadSyntax => Exit 2
      | FlagText name value =>
          match List.find (fun f => String.eqb (flag_name f) name) formal with
          | None => Exit (if String.eqb name "help" || String.eqb name "h" then 0 else 2)
          | Some f =>
              if isBoolFlag f then
                match flag_Set f (default "true" value) v with Some v => Parse rest v | None => Exit 2 end
              else
                match value, rest with
                | Some value, _ => match flag_Set f value v with Some v => Parse rest v | None => Exit 2 end
                | None, value :: rest => match flag_Set f value v with Some v => Parse rest v | None => Exit 2 end
                | None, [] => Exit 2
                end
          end
      end
  end.
End FlagSet.

(** ** The flags of the command *)

Definition set_configPath (s : string) (c : cmdConfig) : cmdConfig :=
  mkCmdConfig s (doPing c) (doTrace c) (skipRoute c) (timeout c).
Definition set_doPing (b : bool) (c : cmdConfig) : cmdConfig :=
  mkCmdConfig (configPath c) b (doTrace c) (skipRoute c) (timeout c).
Definition set_doTrace (b : bool) (c : cmdConfig) : cmdConfig :=
  mkCmdConfig (configPath c) (doPing c) b (skipRoute c) (timeout c).
Definition set_skipRoute (b : bool) (c : cmdConfig) : cmdConfig :=
  mkCmdConfig (configPath c) (doPing c) (doTrace c) b (timeout c).
Definition set_timeout (n : Z) (c : cmdConfig) : cmdConfig :=
  mkCmdConfig (configPath c) (doPing c) (doTrace c) (skipRoute c) n.

Definition boolVar (name : string) (set : bool -> cmdConfig -> cmdConfig) : Flag cmdConfig :=
  mkFlag name true (fun s c => b ← ParseBool s; Some (set b c)).

Definition commandFlags : list (Flag cmdConfig) :=
  [mkFlag "config" false (fun s c => Some (set_configPath s c));
   boolVar "ping" set_doPing;
   boolVar "trace" set_doTrace;
   boolVar "skip-route" set_skipRoute;
   mkFlag "timeout" false (fun s c => n ← ParseInt0 s; Some (set_timeout n c))].

Definition defaultConfig : cmdConfig := mkCmdConfig "" false false false 60.

(** [time.Duration(cfg.timeout)*time.Second], which wraps around. *)
Definition contextTimeout (c : cmdConfig) : Z := s64 (timeout c * 1000000000).

(** The program: [flag.Parse] and the rest of [main]; what follows the flags is
    not looked at. *)
Definition runCommand `{IPv6Text} (args : list string) (env : environment) : list action :=
  match Parse commandFlags args defaultConfig with
  | Parsed cfg _ => main cfg env
  | Exit code => [ExitWith code]
  end.

(** ** Printed numbers are read back *)

Lemma uintLoop_digits s acc : all_digits s = true -> uintLoop 10 acc s = digits_val acc s.
Proof.
  revert acc. induction s as [|c s IH]; intros acc; [done|]. cbn [all_digits uintLoop digits_val].
  intros [Hc Hs]%andb_true_iff. destruct (Ascii.eqb_spec c "_") as [->|]; [done|]. unfold alnum_val. rewrite Hc. cbn.
  assert (0 <= digit_val c < 10) as Hd.
  { unfold is_digit in Hc. apply andb_true_iff in Hc as [H1%Z.leb_le H2%Z.leb_le]. unfold digit_val. lia. }
  destruct (Z.leb_spec 10 (digit_val c)); [lia|]. by apply IH.
Qed.

Lemma all_digits_no_underscore s :
  all_digits s = true -> existsb (fun c => Ascii.eqb c "_") (String.list_ascii_of_string s) = false.
Proof.
  induction s as [|c s IH]; [done|]. cbn. intros [Hc Hs]%andb_true_iff. rewrite IH by done.
  destruct (Ascii.eqb_spec c "_") as [->|]; [done | done].
Qed.

(** A positive number has no leading zero. *)
Lemma itoa_digits_lead fuel n acc :
  0 < n < 10 ^ Z.of_nat fuel -> exists c t, itoa_digits fuel n acc = String c t /\ Ascii.eqb c "0" = false.
Proof.
  revert n acc. induction fuel as [|f IH]; intros n acc Hn; [cbn in Hn; lia|]. cbn [itoa_digits].
  destruct (Z.ltb_spec n 10) as [Hlt|Hge].
  - eexists _, _. split; [reflexivity|]. rewrite Z.mod_small by lia.
    destruct (digit_char_digit n ltac:(lia)) as [_ Hv]. destruct (Ascii.eqb_spec (digit_char n) "0") as [E|]; [|done].
    rewrite E in Hv. change (digit_val "0") with 0 in Hv. lia.
  - apply IH. rewrite Nat2Z.inj_succ, Z.pow_succ_r in Hn by lia. split; [|apply Z.div_lt_upper_bound; lia].
    apply Z.div_str_pos. lia.
Qed.

Lemma ParseUint0_Itoa n : 0 <= n -> ParseUint0 (Itoa n) = Some n.
Proof.
  intros Hn. destruct (Z.eq_dec n 0) as [->|]; [reflexivity|].
  destruct (Itoa_digits n Hn) as (c & t & E & Hd & Hv). unfold ParseUint0.
  rewrite (all_digits_no_underscore _ Hd). cbn [andb].
  destruct (itoa_digits_lead (S (Z.to_nat (Z.log2 n))) n "") as (c' & t' & E' & Hc); [split; [lia | by apply log2_fuel]|].
  assert (Itoa n = String c' t') as E2 by (unfold Itoa; destruct (Z.ltb_spec n 0); [lia | done]).
  rewrite E2, Hc, <- E2, uintLoop_digits by done. done.
Qed.

Lemma ParseInt0_Itoa n : - 2 ^ 63 <= n < 2 ^ 63 -> ParseInt0 (Itoa n) = Some n.
Proof.
  intros Hn. unfold ParseInt0. destruct (Z.lt_ge_cases n 0) as [Hneg|Hpos].
  - assert (Itoa n = String "-" (Itoa (- n))) as ->.
    { unfold Itoa at 1. destruct (Z.ltb_spec n 0); [|lia]. unfold Itoa. destruct (Z.ltb_spec (- n) 0); [lia | done]. }
    change (Ascii.eqb "-" "+") with false. change (Ascii.eqb "-" "-") with true. cbn iota.
    rewrite ParseUint0_Itoa by lia. cbn [mbind option_bind]. destruct (Z.ltb_spec (2 ^ 63) (- n)); [lia|]. f_equal. lia.
  - destruct (Itoa_digits n Hpos) as (c & t & E & Hd & _). pose proof (ParseUint0_Itoa n Hpos) as Hu. rewrite E in *.
    cbn in Hd. apply andb_true_iff in Hd as [Hc _]. destruct (digit_not_sign c Hc) as [H1 H2]. rewrite H1, H2, Hu.
    cbn [mbind option_bind]. destruct (Z.leb_spec (2 ^ 63) n); [lia | done].
Qed.

(** ** What the command line means *)

Definition fmtBool (b : bool) : string := if b then "true" else "false".

(** A command line for every configuration. *)
Definition printFlags (c : cmdConfig) : list string :=
  ["-config"; configPath c; "--ping=" +:+ fmtBool (doPing c); "-trace=" +:+ fmtBool (doTrace c);
   "-skip-route=" +:+ fmtBool (skipRoute c); "-timeout"; Itoa (timeout c)].

(** Every configuration with a timeout of 64 bits can be given on the command
    line, whatever its path, and a second command line overrides the first. *)
Theorem flags_roundtrip c c0 :
  - 2 ^ 63 <= timeout c < 2 ^ 63 -> Parse commandFlags (printFlags c) c0 = Parsed c [].
Proof.
  intros Ht. destruct c as [path [] [] [] t]; lazy -[ParseInt0 Itoa]; rewrite ParseInt0_Itoa by exact Ht; reflexivity.
Qed.

(** Flags behind the first argument that is not a flag are not read: a
    configuration file given without [-config] makes the command exit. *)
Theorem positional_config_exits `{IPv6Text} path rest env :
  readFlag path = NotAFlag -> runCommand (path :: rest) env = [ExitWith 1].
Proof. intros Hp. unfold runCommand. cbn [Parse]. by rewrite Hp. Qed.

(** The command reaches [tunnel.Start] only with a command line that gives a
    configuration file; a bad one exits with 2 and a request for help with 0. *)
Theorem command_touches_system `{IPv6Text} args env :
  existsb touchesSystem (runCommand args env) = true ->
  exists cfg rest, Parse commandFlags args defaultConfig = Parsed cfg rest /\ configPath cfg <> "" /\
    doTrace cfg = false /\ doPing cfg = false /\ skipRoute cfg = false.
Proof.
  unfold runCommand. destruct (Parse commandFlags args defaultConfig) as [cfg rest|code]; [|done].
  intros (H1 & H2 & H3 & H4 & _)%routes_pushed_network. by exists cfg, rest.
Qed.

Example timeout_hex : ParseInt0 "0x1_0" = Some 16. Proof. reflexivity. Qed.
Example timeout_octal : ParseInt0 "010" = Some 8. Proof. reflexivity. Qed.
Example timeout_float : ParseInt0 "1.5" = None. Proof. reflexivity. Qed.
Example timeout_underscore : ParseInt0 "1__0" = None. Proof. reflexivity. Qed.

(** The first timeout beyond 9223372036 seconds is one in the past: the
    context is done before the tunnel is dialled. *)
Lemma timeout_wraps : contextTimeout (set_timeout 9223372037 defaultConfig) < 0.
Proof. reflexivity. Qed.

Lemma timeout_kept c : 0 <= timeout c <= 9223372036 -> contextTimeout c = timeout c * 1000000000.
Proof. intros Ht. unfold contextTimeout. apply s64_small. lia. Qed.
