(* ===== verification/Optional.v ===== *)
(** * internal/optional: construction and JSON

    [Some], [UnmarshalJSON] and [MarshalJSON] of optional.go, over the class
    [JSON] of what encoding/json and reflect say of the element type.  A
    [Value[T]] is an [option]; the accessors are in [Tracex]. *)

From S2P Require Import Prelude Bytesx Tracex.

Class JSON (T : Type) : Type := {
  isNilPointer : T -> bool;
  Marshal : T -> outcome (list byte);
  Unmarshal : list byte -> outcome T
}.

Definition jsonNull : list byte := bytes_of_string "null".

Section Value.
Context {T : Type} `{JSON T}.

Definition maybeSetFromValue (value : T) : option T := if isNilPointer value then None else Some value.

(** [None] and [Some] of the package. *)
Definition NoneValue : option T := None.
Definition SomeValue (value : T) : option T := maybeSetFromValue value.

Definition UnmarshalJSON (data : list byte) : outcome (option T) :=
  if bytes_equal data jsonNull then Ok None
  else value ← Unmarshal data; Ok (maybeSetFromValue value).

Definition MarshalJSON (v : option T) : outcome (list byte) :=
  match v with None => Ok jsonNull | Some x => Marshal x end.

(** A value built by the package survives JSON exactly when its element type
    does and its element is not written as [null]; an element that is, a nil
    map or slice, comes back as an empty value. *)
Lemma optional_json_roundtrip v x data :
  v = SomeValue x -> MarshalJSON v = Ok data -> Unmarshal data = Ok x ->
  UnmarshalJSON data = Ok (if bytes_equal data jsonNull then None else v).
Proof.
  intros -> Hm Hu. unfold UnmarshalJSON. destruct (bytes_equal data jsonNull); [done|]. now rewrite Hu.
Qed.

Lemma none_json_roundtrip : exists data, MarshalJSON NoneValue = Ok data /\ UnmarshalJSON data = Ok None.
Proof. exists jsonNull. split; [done|]. unfold UnmarshalJSON, bytes_equal. now rewrite bool_decide_true. Qed.

(** [Unwrap] after [Some] returns the element, unless it is a nil pointer. *)
Lemma some_unwrap x : Unwrap (SomeValue x) = if isNilPointer x then Panic else Ok x.
Proof. unfold SomeValue, maybeSetFromValue. now destruct (isNilPointer x). Qed.

End Value.
